(* ===== verification/_CoqProject ===== *)
-Q . S2P
Prelude.v
CLib.v
Protocol.v
Sodium.v
Json.v
JsonText.v
Identity.v
FileSys.v
Log.v
IdentityStore.v
Contacts.v
Ipc.v
Crypto.v
Ice.v
Base64.v
Users.v
Server.v
ServerSpec.v
ServerSafety.v
ServerTheorems.v
ServerDefects.v
StateMonad.v
DaemonState.v
DaemonSession.v
Daemon.v
DaemonInv.v
DaemonKeep.v
DaemonKeepSession.v
DaemonKeepMain.v
DaemonDemo.v
DaemonTheorems.v
DaemonStart.v
DaemonDelivery.v
DaemonLive.v
DaemonPair.v
Client.v
ClientTheorems.v
System.v
