(* ===== verification/Prelude.v ===== *)
(** * ProntoChat: a verification of the terminal messenger

    ProntoChat is three C programs and the code they share, under src/:

    - chat-server (src/server): users register a name with an Ed25519 key,
      log in by signing a challenge, and exchange signalling messages over
      WebSockets;
    - chatd (src/daemon): the daemon of one user; it logs in, opens or accepts
      a chat, connects to the peer with ICE (libnice), runs an authenticated
      key exchange with the key pinned for the peer, and carries messages over
      an encrypted stream (libsodium);
    - chat (src/client): the command line, which talks to chatd over a local
      socket;
    - src/common: packet framing, identity and configuration files, pinned
      contacts, cryptography, the local socket's path, logging.

    ** Files and what they model

    Shared ground:
    - [Prelude]: bytes, C strings, integers at their width, tactics and hints;
    - [CLib]: the functions of the C library the sources call (strings,
      [snprintf], [strstr], ...);
    - [FileSys]: files, directories, modes, and a schedule of faults for
      system calls; [StateMonad]: the state monad, field updates, triples;
    - [Sodium], [Base64], and the part of [Ice] on libnice: the libraries as
      type classes, the calls as operations and their documented behaviour as
      laws ([SodiumSign] and [SodiumSignOk], ...).  A reference instance of
      each shows that the laws can hold, and the witnesses run on it.

    src/common: [Protocol] (protocole.c), [Identity] and [IdentityStore]
    (identity.c: text, then files), [Contacts] (contacts.c), [Crypto]
    (crypto.c), [Ipc] (ipc.c), [Log] (log.c).  [Json] is [json_get_string] and
    [hex_to_bin], which server and daemon both have; [JsonText] is the grammar
    of JSON objects [json_get_string] is compared with.

    src/server: [Users] (users.c: the array, and a finite map it refines);
    [Server] (main.c: the handlers and the callback on the registry, the memory
    of sessions, the open connections and the random generator; undefined
    behaviour is the result [None]); [ServerSpec] (what a message may do, as an
    inductive specification the handlers are shown to implement);
    [ServerSafety] and [ServerTheorems]; [ServerDefects] (two faults).

    src/daemon: [Ice] (ice.c, with the receive ring and the queue it refines);
    [DaemonState], [DaemonSession] and [Daemon] (main.c: [chatd_state_t] as a
    record, one definition per function, the main loop); [DaemonStart]
    (configuration and the start of [main]); [DaemonInv], [DaemonKeep],
    [DaemonKeepSession] and [DaemonKeepMain] (the invariant, and that every
    operation keeps it); [DaemonTheorems]; [DaemonDelivery] and [DaemonLive]
    (two daemons); [DaemonDemo] and [DaemonPair] (concrete runs).

    src/client: [Client] (main.c) and [ClientTheorems].

    [System] puts a daemon and the server together.

    ** How the parts meet

    The daemon's messages are delivered to the server's callback and the
    server's to the daemon's ([System]); the packets one daemon hands to
    libnice are what the other receives ([DaemonDelivery], [DaemonLive]); the
    bytes the client writes are what the daemon reads ([ClientTheorems]); the
    daemon reads the files [IdentityStore] and [Contacts] keep.

    ** What the theorems show

    - Authentication: the server takes a session for a user only on a
      signature of its own challenge under the registered key, and forwards
      only messages in the sender's own name; the handshake completes only
      with the expected peer; a daemon reports a session as encrypted only
      with keys from a handshake signed under the key pinned for the peer,
      whatever server, network, peers and local clients do; a pin is never
      replaced.
    - It works: the login succeeds, two connected daemons establish a session
      in step, messages and the lines of a user arrive unchanged and in order.
    - State: the registry refines a bounded map, the receive ring a queue, the
      contacts file a growing map; the server's and the daemon's invariants
      hold in every reachable state; lengths stay within the arrays.
    - Resources and secrets: every socket and ICE agent is released and
      every secret wiped, on all paths of the daemon; the client closes its
      sockets; files change atomically or not at all.
    - Formats: packet headers, fields of JSON texts, identity and configuration files
      and transcripts are read back as written, and unambiguous.
    - Faults of the code, as theorems on all states and messages of the kind:
      a repeated hello leads the server to use freed memory; replies overwrite forwarded messages; some
      lengths of message put the stream out of step; a full registry locks
      registered users out; an unsent message blocks every reconnection; a
      command split over two reads ends the chat.

    ** Time, inputs, bounds

    What the environment decides is an input of the model: results of [accept],
    [poll], [read], library callbacks of a turn, the random generator (a
    state), the clock (a function of the number of readings), and for writes a
    schedule of faults (complete, short, interrupted, failed; an empty schedule
    is no fault).  A schedule is finite, so a program that retries for ever
    under endless interrupts has no counterpart.  Service loops run on a
    finite list of inputs, of any length.  Loops over data recurse on the data
    or on a bound that is shown to be enough: the length of the input for the
    daemon's command loop ([command_loop_terminates]), the client's [write_all]
    ([write_all_fuel]) and the readers of files by lines
    ([find_loop_fuel] and the lemmas of [IdentityStore]); the table size for
    the registry; the capacity for the receive ring.

    ** Not modelled

    - The internals of libwebsockets, libnice, libsodium and GLib; [atoi] and
      [lws_parse_uri] are parameters.
    - Threads: the daemon's wake-up thread only makes [lws_service] return; the
      ICE callbacks run where the daemon iterates the main context, which is
      how the code uses libnice, so they are events of a turn, and the mutexes
      have no counterpart.
    - The log lines of the other components, the contents of [errno] messages,
      the socket node [bind] makes, and the signal handlers (which set the
      flag that ends a loop).
    - The branches for macOS.
    - Computational secrecy: that a signature verifies only if the key's owner
      made it is not derived; theorems state which signature was verified.

    ** Left for later

    A chat opened from the client through the server to the peer's daemon as
    one run of the composed system; the interplay of the retry of a session
    with the control connection; restarts of the daemon on the files another
    run has left. *)

From Stdlib Require Export Ascii ZArith Lia.
From Stdlib Require String.
From stdpp Require Export prelude gmap strings.

#[global] Set Default Goal Selector "!".
#[export] Set Warnings "-clear-no-such-hyp".
#[global] Open Scope Z_scope.

(** ** Bytes

    The code casts freely between [char], [unsigned char] and [uint8_t]; all
    three are one 8-bit byte here.  [byte_val] is the value of the byte as an
    unsigned integer, [byte_of] the conversion [(uint8_t)z] with its
    wrap-around. *)

Abbreviation byte := ascii.
Abbreviation bytes := (list ascii).

Definition byte_val (b : byte) : Z := Z.of_N (N_of_ascii b).
Definition byte_of (z : Z) : byte := ascii_of_N (Z.to_N (z mod 256)).

Definition NUL : byte := byte_of 0.

(** A pointer to a C string: [None] is the NULL pointer, [Some s] points to
    the NUL-terminated string whose characters are [s]. *)
Abbreviation cptr := (option bytes).

(** String literals of the source.  The source's literals hold double quotes
    (they are JSON); [qlit] writes a template with an apostrophe for each
    double quote. *)
Definition dquote : byte := byte_of 34.
Definition lit (s : string) : bytes := String.list_ascii_of_string s.
Definition qlit (s : string) : bytes :=
  (λ c, if bool_decide (c = "'"%char) then dquote else c) <$> lit s.

(** Sizes and offsets are [size_t]/[int] values, kept in [Z]. *)
Definition len {A} (l : list A) : Z := Z.of_nat (length l).

(** [zeros n]: a memory block of [n] zero bytes (calloc, memset 0 and
    sodium_memzero all leave one). *)
Definition zeros (n : Z) : bytes := replicate (Z.to_nat n) NUL.

(** [ztake n l]/[zdrop n l]: the first [n] bytes and the rest. *)
Definition ztake {A} (n : Z) (l : list A) : list A := take (Z.to_nat n) l.
Definition zdrop {A} (n : Z) (l : list A) : list A := drop (Z.to_nat n) l.

(** [blit dst src]: the array [dst] after [memcpy(dst, src, len src)]. *)
Definition blit (dst src : bytes) : bytes := src ++ drop (length src) dst.

(** [UINT32_MAX] and [INT_MAX] bounds. *)
Definition is_u32 (z : Z) : Prop := 0 ≤ z < 2 ^ 32.
Definition INT_MAX : Z := 2 ^ 31 - 1.

(** ** Automation *)

Create HintDb pronto discriminated.
Create Rewrite HintDb len.

(** [bdec] turns boolean tests of the code into propositions, one at a time. *)
Ltac bdec_hyp :=
  match goal with
  | H : bool_decide _ = true |- _ => apply bool_decide_eq_true in H
  | H : bool_decide _ = false |- _ => apply bool_decide_eq_false in H
  | H : negb _ = true |- _ => apply negb_true_iff in H
  | H : negb _ = false |- _ => apply negb_false_iff in H
  | H : _ && _ = true |- _ => apply andb_true_iff in H; destruct H
  | H : _ || _ = false |- _ => apply orb_false_iff in H; destruct H
  | H : (_ <? _) = true |- _ => apply Z.ltb_lt in H
  | H : (_ <? _) = false |- _ => apply Z.ltb_ge in H
  | H : (_ <=? _) = true |- _ => apply Z.leb_le in H
  | H : (_ <=? _) = false |- _ => apply Z.leb_gt in H
  | H : (_ =? _) = true |- _ => apply Z.eqb_eq in H
  | H : (_ =? _) = false |- _ => apply Z.eqb_neq in H
  | H : (_ <=? _)%nat = true |- _ => apply Nat.leb_le in H
  | H : (_ <=? _)%nat = false |- _ => apply Nat.leb_gt in H
  | H : (_ >=? _) = _ |- _ => rewrite Z.geb_leb in H
  | H : (_ >? _) = _ |- _ => rewrite Z.gtb_ltb in H
  end.
Ltac bdec := repeat bdec_hyp.

(** [byte_consts] evaluates the value of every literal byte. *)
Ltac byte_consts :=
  repeat match goal with
  | H : context [byte_val ?c] |- _ =>
      let v := eval vm_compute in (byte_val c) in
      lazymatch v with Z0 => idtac | Zpos _ => idtac end;
      change (byte_val c) with v in H
  | |- context [byte_val ?c] =>
      let v := eval vm_compute in (byte_val c) in
      lazymatch v with Z0 => idtac | Zpos _ => idtac end;
      change (byte_val c) with v
  end.

(** [case_if] splits on the first test of an [if] in the goal and normalises
    the new hypothesis; [case_ifs] does it until no [if] is left. *)
Ltac case_if :=
  match goal with
  | |- context [if ?b then _ else _] =>
      lazymatch type of b with
      | bool => let E := fresh "E" in destruct b eqn:E; bdec
      end
  end.
Ltac case_ifs := repeat case_if.

(** The same on a hypothesis. *)
Ltac case_if_in H :=
  match type of H with
  | context [if ?b then _ else _] =>
      lazymatch type of b with
      | bool => let E := fresh "E" in destruct b eqn:E; bdec
      end
  end.
Ltac case_match_in H :=
  match type of H with
  | context [match ?x with _ => _ end] =>
      let E := fresh "E" in destruct x eqn:E; bdec
  end.

(** ** Lemmas on bytes *)

Lemma byte_val_range b : 0 ≤ byte_val b < 256.
Proof.
  unfold byte_val. pose proof (N_ascii_bounded b). lia.
Qed.

Lemma byte_of_val b : byte_of (byte_val b) = b.
Proof.
  unfold byte_of. rewrite Z.mod_small by apply byte_val_range.
  unfold byte_val. rewrite N2Z.id. apply ascii_N_embedding.
Qed.

Lemma byte_val_of z : byte_val (byte_of z) = z mod 256.
Proof.
  unfold byte_val, byte_of.
  pose proof (Z.mod_pos_bound z 256 ltac:(lia)).
  rewrite N_ascii_embedding by lia. lia.
Qed.

Lemma byte_val_of_small z : 0 ≤ z < 256 → byte_val (byte_of z) = z.
Proof. intros. rewrite byte_val_of. by apply Z.mod_small. Qed.

Lemma byte_val_inj a b : byte_val a = byte_val b → a = b.
Proof. intros H. by rewrite <- (byte_of_val a), H, byte_of_val. Qed.

#[export] Instance byte_val_Inj : Inj (=) (=) byte_val.
Proof. intros a b. apply byte_val_inj. Qed.

(** ** Lemmas on lengths and slices *)

Lemma len_nonneg {A} (l : list A) : 0 ≤ len l.
Proof. unfold len; lia. Qed.
Lemma len_nil {A} : len (@nil A) = 0.
Proof. done. Qed.
Lemma len_cons {A} (x : A) l : len (x :: l) = 1 + len l.
Proof. unfold len; simpl; lia. Qed.
Lemma len_app {A} (l k : list A) : len (l ++ k) = len l + len k.
Proof. unfold len. rewrite length_app. lia. Qed.
Lemma len_zeros n : 0 ≤ n → len (zeros n) = n.
Proof. intros. unfold len, zeros. rewrite length_replicate. lia. Qed.
Lemma len_ztake {A} n (l : list A) : 0 ≤ n → len (ztake n l) = Z.min n (len l).
Proof. intros. unfold len, ztake. rewrite length_take. lia. Qed.
Lemma len_zdrop {A} n (l : list A) : 0 ≤ n → len (zdrop n l) = Z.max 0 (len l - n).
Proof. intros. unfold len, zdrop. rewrite length_drop. lia. Qed.
Lemma len_fmap {A B} (f : A → B) l : len (f <$> l) = len l.
Proof. unfold len. by rewrite length_fmap. Qed.
Lemma len_zero_nil {A} (l : list A) : len l = 0 → l = [].
Proof. destruct l; [done|]. rewrite len_cons. pose proof (len_nonneg l). lia. Qed.

#[export] Hint Rewrite @len_nil @len_cons @len_app @len_fmap : len.

Lemma ztake_all {A} n (l : list A) : len l ≤ n → ztake n l = l.
Proof. intros. unfold ztake. apply take_ge. unfold len in *. lia. Qed.
Lemma ztake_app_len {A} n (l k : list A) : len l = n → ztake n (l ++ k) = l.
Proof. intros <-. unfold ztake, len. rewrite Nat2Z.id. by apply take_app_length. Qed.
Lemma zdrop_app_len {A} n (l k : list A) : len l = n → zdrop n (l ++ k) = k.
Proof. intros <-. unfold zdrop, len. rewrite Nat2Z.id. by apply drop_app_length. Qed.
Lemma ztake_zdrop {A} n (l : list A) : ztake n l ++ zdrop n l = l.
Proof. apply take_drop. Qed.
Lemma ztake_blit n dst src : len src = n → ztake n (blit dst src) = src.
Proof. intros. by apply ztake_app_len. Qed.
Lemma len_blit dst src : len src ≤ len dst → len (blit dst src) = len dst.
Proof.
  intros. unfold blit. rewrite len_app.
  unfold len in *. rewrite length_drop. lia.
Qed.

Lemma app_inj_len {A} (a b c d : list A) :
  len a = len c → a ++ b = c ++ d → a = c ∧ b = d.
Proof. unfold len. intros. apply app_inj_1; [lia | done]. Qed.

(** The part before the first separator is determined. *)
Lemma split_at_sep {A} (q : A) (a b s t : list A) :
  q ∉ a → q ∉ b → a ++ q :: s = b ++ q :: t → a = b ∧ s = t.
Proof.
  revert b; induction a as [|x a IH]; intros [|y b] Ha Hb E; simplify_eq/=; [done|..].
  - by destruct Hb; left.
  - by destruct Ha; left.
  - apply not_elem_of_cons in Ha as [_ Ha], Hb as [_ Hb].
    destruct (IH b) as [-> ->]; done.
Qed.

#[export] Hint Resolve byte_val_range len_nonneg : pronto.

(** [lens] normalises lengths and calls [lia]. *)
Ltac lens := autorewrite with len in *; try lia.
