(* ===== verification/CLib.v ===== *)
(** * The C library functions the sources call

    Executable models of [strlen], [strcmp], [strncmp], [strstr], [strchr],
    [snprintf] with [%s] conversions, [isalnum] (the programs never call
    [setlocale], so the "C" locale), and of reading a NUL-terminated string
    out of a byte buffer, with the lemmas the components share. *)

From S2P Require Import Prelude.

(** ** NUL-terminated strings *)

(** A list of bytes is a C string when none of them is NUL. *)
Definition is_cstr (s : bytes) : Prop := Forall (λ c, c ≠ NUL) s.

(** The C string at the start of a buffer: the bytes before the first NUL. *)
Fixpoint c_string (buf : bytes) : bytes :=
  match buf with
  | [] => []
  | c :: buf' => if bool_decide (c = NUL) then [] else c :: c_string buf'
  end.

(** [strlen(s)]; [strcmp(a, b) == 0]; [strncmp(s, p, strlen(p)) == 0]. *)
Definition strlen (s : bytes) : Z := len s.
Definition streq (a b : bytes) : bool := bool_decide (a = b).
Fixpoint has_prefix (p s : bytes) : bool :=
  match p, s with
  | [], _ => true
  | _ :: _, [] => false
  | a :: p', b :: s' => bool_decide (a = b) && has_prefix p' s'
  end.

(** [strstr(h, n)]: the suffix of [h] that starts at the first occurrence of
    [n] ([None] for the NULL result). *)
Fixpoint strstr (h n : bytes) : option bytes :=
  if has_prefix n h then Some h
  else match h with [] => None | _ :: h' => strstr h' n end.

(** [strchr(s, c)] for [c] other than NUL: the suffix that starts at the first
    [c]; [strcspn(s, set)]: the length of the initial segment free of [set]. *)
Fixpoint strchr (s : bytes) (c : byte) : option bytes :=
  match s with
  | [] => None
  | a :: s' => if bool_decide (a = c) then Some s else strchr s' c
  end.
Fixpoint strcspn (s set : bytes) : Z :=
  match s with
  | [] => 0
  | a :: s' => if bool_decide (a ∈ set) then 0 else 1 + strcspn s' set
  end.

(** [isalnum] in the "C" locale. *)
Definition isalnum (c : byte) : bool :=
  let v := byte_val c in
  (48 <=? v) && (v <=? 57) || (65 <=? v) && (v <=? 90) || (97 <=? v) && (v <=? 122).

(** ** snprintf

    [s] is the complete formatted text.  The call returns its length (a
    negative value when the length is not an [int]) and leaves the first
    [size - 1] characters in the buffer. *)
Definition snprintf_ret (s : bytes) : Z := if len s <=? INT_MAX then len s else -1.
Definition snprintf_buf (size : Z) (s : bytes) : bytes := ztake (size - 1) s.

(** The test [written < 0 || (size_t)written >= size], which every checked
    call of the sources makes. *)
Definition snprintf_fails (size : Z) (s : bytes) : bool :=
  (snprintf_ret s <? 0) || (snprintf_ret s >=? size).

(** A checked call: [None] when the test holds, else the buffer's string. *)
Definition snprintf (size : Z) (s : bytes) : option bytes :=
  if snprintf_fails size s then None else Some (snprintf_buf size s).

(** ** Lemmas *)

Lemma c_string_cstr buf : is_cstr (c_string buf).
Proof.
  induction buf as [|c buf IH]; simpl; [constructor|].
  case_bool_decide; constructor; [done|apply IH].
Qed.

Lemma c_string_id s : is_cstr s → c_string s = s.
Proof.
  induction 1 as [|c s Hc Hs IH]; simpl; [done|].
  rewrite bool_decide_false by done. by rewrite IH.
Qed.

Lemma c_string_app_NUL s t : is_cstr s → c_string (s ++ NUL :: t) = s.
Proof.
  induction 1 as [|c s Hc Hs IH]; simpl.
  - done.
  - rewrite bool_decide_false by done. by rewrite IH.
Qed.

Lemma len_c_string buf : len (c_string buf) ≤ len buf.
Proof.
  induction buf as [|c buf IH]; simpl; [done|].
  case_bool_decide; lens. pose proof (len_nonneg buf). lia.
Qed.

Lemma is_cstr_app s t : is_cstr (s ++ t) ↔ is_cstr s ∧ is_cstr t.
Proof. apply Forall_app. Qed.

Lemma is_cstr_take n s : is_cstr s → is_cstr (take n s).
Proof. apply Forall_take. Qed.
Lemma is_cstr_drop n s : is_cstr s → is_cstr (drop n s).
Proof. apply Forall_drop. Qed.

#[export] Hint Resolve c_string_cstr is_cstr_take is_cstr_drop : pronto.

Lemma streq_true a b : streq a b = true ↔ a = b.
Proof. apply bool_decide_eq_true. Qed.
Lemma streq_false a b : streq a b = false ↔ a ≠ b.
Proof. apply bool_decide_eq_false. Qed.
Lemma streq_refl a : streq a a = true.
Proof. by apply streq_true. Qed.

Lemma has_prefix_spec p s : has_prefix p s = true ↔ ∃ t, s = p ++ t.
Proof.
  revert s; induction p as [|a p IH]; intros s; simpl.
  - split; [by exists s | done].
  - destruct s as [|b s]; [naive_solver|].
    rewrite andb_true_iff, bool_decide_eq_true, IH. naive_solver.
Qed.

Lemma has_prefix_app p t : has_prefix p (p ++ t) = true.
Proof. apply has_prefix_spec. by exists t. Qed.

Lemma has_prefix_len p s : has_prefix p s = true → len p ≤ len s.
Proof. intros [t ->]%has_prefix_spec. lens. pose proof (len_nonneg t). lia. Qed.

(** [strstr] returns the suffix at the first occurrence. *)
Lemma strstr_Some h n s :
  strstr h n = Some s ↔
  ∃ pre t, h = pre ++ s ∧ s = n ++ t
           ∧ ∀ k, (k < length pre)%nat → has_prefix n (drop k h) = false.
Proof.
  revert s; induction h as [|c h IH]; intros s; cbn [strstr].
  - destruct (has_prefix n []) eqn:E.
    + apply has_prefix_spec in E as [t E]. split.
      * intros [= <-]. exists [], t. split_and!; [done..|]. simpl; lia.
      * intros (pre & t' & Hh & _ & _). symmetry in Hh. by apply app_nil in Hh as [_ ->].
    + split; [done|]. intros (pre & t & Hh & Hs & _).
      symmetry in Hh. apply app_nil in Hh as [_ ->].
      enough (has_prefix n [] = true) by congruence. apply has_prefix_spec; eauto.
  - destruct (has_prefix n (c :: h)) eqn:E.
    + apply has_prefix_spec in E as [t E]. split.
      * intros [= <-]. exists [], t. split_and!; [done..|]. simpl; lia.
      * intros (pre & t' & Hh & Hs & Hk). destruct pre as [|d pre]; [by rewrite Hh|].
        specialize (Hk 0%nat ltac:(simpl; lia)). simpl in Hk.
        rewrite E, has_prefix_app in Hk. done.
    + rewrite IH. split.
      * intros (pre & t & -> & -> & Hk). exists (c :: pre), t. split_and!; [done..|].
        intros [|k] Hlt; [done|]. simpl. apply Hk. simpl in Hlt. lia.
      * intros (pre & t & Hh & -> & Hk). destruct pre as [|d pre].
        { simpl in Hh. rewrite Hh, has_prefix_app in E. done. }
        simplify_eq/=.
        exists pre, t. split_and!; [done..|].
        intros k Hlt. apply (Hk (S k)). lia.
Qed.

Lemma strstr_found h n s : strstr h n = Some s → has_prefix n s = true.
Proof. intros (pre & t & _ & -> & _)%strstr_Some. apply has_prefix_app. Qed.

(** Skipping a prefix in which the needle does not start. *)
Lemma strstr_skip pre n t :
  (∀ k, (k < length pre)%nat → has_prefix n (drop k (pre ++ n ++ t)) = false) →
  strstr (pre ++ n ++ t) n = Some (n ++ t).
Proof. intros H. apply strstr_Some. exists pre, t. done. Qed.

Lemma snprintf_Some size s r :
  0 < size ≤ INT_MAX → snprintf size s = Some r ↔ r = s ∧ len s < size.
Proof.
  intros Hsz. unfold snprintf, snprintf_fails, snprintf_ret.
  pose proof (len_nonneg s).
  destruct (len s <=? INT_MAX) eqn:E; bdec.
  - destruct (_ || _) eqn:E'; bdec.
    + apply orb_true_iff in E' as [E'|E']; bdec; split; [done|lia|done|lia].
    + split; [intros [= <-]|intros [-> _]].
      * split; [|lia]. unfold snprintf_buf. apply ztake_all. lia.
      * f_equal. unfold snprintf_buf. apply ztake_all. lia.
  - simpl. split; [done|]. lia.
Qed.

Lemma snprintf_fits size s : len s < size → size ≤ INT_MAX → snprintf size s = Some s.
Proof.
  intros. pose proof (len_nonneg s). apply snprintf_Some; [lia|]. done.
Qed.

Lemma snprintf_None size s :
  0 < size ≤ INT_MAX → size ≤ len s → snprintf size s = None.
Proof.
  intros. destruct (snprintf size s) eqn:E; [|done].
  apply snprintf_Some in E; lia.
Qed.

(** Without a bound on the buffer's size. *)
Lemma snprintf_eq size s r : snprintf size s = Some r → r = s ∧ len s < size.
Proof.
  unfold snprintf, snprintf_fails, snprintf_ret. pose proof (len_nonneg s).
  destruct (len s <=? INT_MAX) eqn:E; [|done]. case_if; [done|]. intros [= <-].
  split; [|lia]. unfold snprintf_buf. apply ztake_all. lia.
Qed.
Lemma snprintf_ok size s : len s < size → len s ≤ INT_MAX → snprintf size s = Some s.
Proof.
  intros. unfold snprintf, snprintf_fails, snprintf_ret. pose proof (len_nonneg s).
  rewrite (proj2 (Z.leb_le _ _)) by done.
  replace ((len s <? 0) || (len s >=? size)) with false.
  - f_equal. unfold snprintf_buf. apply ztake_all. lia.
  - symmetry. apply orb_false_iff. rewrite Z.geb_leb, Z.ltb_ge, Z.leb_gt. lia.
Qed.
