(* ===== verification/Protocol.v ===== *)
(** * Application protocol (src/common/protocole.h, src/common/protocole.c)

    User names, and the six-byte header that frames every packet exchanged
    over the peer-to-peer channel: version, type, big-endian length. *)

From S2P Require Import Prelude CLib.

(** ** Constants *)

Definition CHAT_PROTOCOL_VERSION : Z := 1.
Definition CHAT_PACKET_HEADER_SIZE : Z := 6.
Definition CHAT_MAX_MESSAGE_SIZE : Z := 64 * 1024.
Definition CHAT_USERNAME_MIN_LEN : Z := 3.
Definition CHAT_USERNAME_MAX_LEN : Z := 32.

(** [chat_packet_type_t]: an [int] in C, cast from and to [uint8_t]. *)
Definition CHAT_PKT_HANDSHAKE : Z := 1.
Definition CHAT_PKT_STREAM_HEADER : Z := 2.
Definition CHAT_PKT_MESSAGE : Z := 3.
Definition CHAT_PKT_CLOSE : Z := 4.
Definition CHAT_PKT_PING : Z := 5.
Definition CHAT_PKT_PONG : Z := 6.

Inductive chat_protocol_result_t :=
  | CHAT_PROTOCOL_OK
  | CHAT_PROTOCOL_ERR_NULL
  | CHAT_PROTOCOL_ERR_SHORT_BUFFER
  | CHAT_PROTOCOL_ERR_BAD_VERSION
  | CHAT_PROTOCOL_ERR_BAD_TYPE
  | CHAT_PROTOCOL_ERR_TOO_LARGE
  | CHAT_PROTOCOL_ERR_TRUNCATED.

#[export] Instance chat_protocol_result_eq_dec : EqDecision chat_protocol_result_t.
Proof. solve_decision. Defined.

Record chat_packet_header_t := {
  hdr_version : Z;
  hdr_type : Z;
  hdr_length : Z;
}.

(** ** Operations *)

Definition chat_packet_type_is_valid (type : Z) : bool :=
  (type >=? CHAT_PKT_HANDSHAKE) && (type <=? CHAT_PKT_PONG).

Definition chat_write_u32_be (value : Z) : bytes :=
  [ byte_of (Z.land (Z.shiftr value 24) 255);
    byte_of (Z.land (Z.shiftr value 16) 255);
    byte_of (Z.land (Z.shiftr value 8) 255);
    byte_of (Z.land value 255) ].

Definition chat_read_u32_be (b0 b1 b2 b3 : byte) : Z :=
  Z.lor (Z.lor (Z.lor (Z.shiftl (byte_val b0) 24)
                      (Z.shiftl (byte_val b1) 16))
               (Z.shiftl (byte_val b2) 8))
        (byte_val b3).

(** The loop over the characters of a user name. *)
Definition username_char_ok (ch : byte) : bool :=
  isalnum ch || bool_decide (ch = "_"%char) || bool_decide (ch = "-"%char).

Fixpoint username_chars_ok (s : bytes) : bool :=
  match s with
  | [] => true
  | ch :: s' => if negb (username_char_ok ch) then false else username_chars_ok s'
  end.

Definition chat_username_is_valid (username : cptr) : bool :=
  match username with
  | None => false
  | Some username =>
      let n := strlen username in
      if (n <? CHAT_USERNAME_MIN_LEN) || (n >? CHAT_USERNAME_MAX_LEN) then false
      else username_chars_ok username
  end.

Definition chat_protocol_result_name (result : chat_protocol_result_t) : string :=
  match result with
  | CHAT_PROTOCOL_OK => "ok"
  | CHAT_PROTOCOL_ERR_NULL => "null pointer"
  | CHAT_PROTOCOL_ERR_SHORT_BUFFER => "short buffer"
  | CHAT_PROTOCOL_ERR_BAD_VERSION => "bad version"
  | CHAT_PROTOCOL_ERR_BAD_TYPE => "bad packet type"
  | CHAT_PROTOCOL_ERR_TOO_LARGE => "payload too large"
  | CHAT_PROTOCOL_ERR_TRUNCATED => "truncated packet"
  end.

(** [out] is the caller's buffer ([None] for NULL), which holds at least
    [CHAT_PACKET_HEADER_SIZE] bytes; the result carries the buffer after the
    call. *)
Definition chat_packet_encode_header (type payload_len : Z) (out : option bytes)
    : chat_protocol_result_t * option bytes :=
  match out with
  | None => (CHAT_PROTOCOL_ERR_NULL, out)
  | Some buf =>
      if negb (chat_packet_type_is_valid (type mod 256)) then
        (CHAT_PROTOCOL_ERR_BAD_TYPE, out)
      else if payload_len >? CHAT_MAX_MESSAGE_SIZE then
        (CHAT_PROTOCOL_ERR_TOO_LARGE, out)
      else
        (CHAT_PROTOCOL_OK,
          Some (blit buf (byte_of CHAT_PROTOCOL_VERSION :: byte_of type
                            :: chat_write_u32_be payload_len)))
  end.

(** [buffer] points to [buffer_len] readable bytes.  The result carries
    [*out]: untouched on every error. *)
Definition chat_packet_decode_header (buffer : option bytes)
    (out : option chat_packet_header_t)
    : chat_protocol_result_t * option chat_packet_header_t :=
  match buffer, out with
  | Some buf, Some _ =>
      if len buf <? CHAT_PACKET_HEADER_SIZE then (CHAT_PROTOCOL_ERR_SHORT_BUFFER, out)
      else
        match buf with
        | v :: t :: b0 :: b1 :: b2 :: b3 :: _ =>
            if negb (byte_val v =? CHAT_PROTOCOL_VERSION) then
              (CHAT_PROTOCOL_ERR_BAD_VERSION, out)
            else if negb (chat_packet_type_is_valid (byte_val t)) then
              (CHAT_PROTOCOL_ERR_BAD_TYPE, out)
            else
              let length := chat_read_u32_be b0 b1 b2 b3 in
              if length >? CHAT_MAX_MESSAGE_SIZE then (CHAT_PROTOCOL_ERR_TOO_LARGE, out)
              else if (len buf >? CHAT_PACKET_HEADER_SIZE)
                      && (len buf <? CHAT_PACKET_HEADER_SIZE + length) then
                (CHAT_PROTOCOL_ERR_TRUNCATED, out)
              else
                (CHAT_PROTOCOL_OK,
                  Some {| hdr_version := byte_val v;
                          hdr_type := byte_val t;
                          hdr_length := length |})
        | _ => (CHAT_PROTOCOL_ERR_SHORT_BUFFER, out)
        end
  | _, _ => (CHAT_PROTOCOL_ERR_NULL, out)
  end.

(** ** Lemmas: big-endian words *)

Lemma lor_add x y k :
  0 ≤ k → x mod 2 ^ k = 0 → 0 ≤ y < 2 ^ k → Z.lor x y = x + y.
Proof.
  intros Hk Hx Hy.
  rewrite <- Z.lxor_lor; [symmetry; apply Z.add_nocarry_lxor|]; apply Z.bits_inj'; intros n Hn;
    rewrite Z.land_spec, Z.bits_0; apply andb_false_iff;
    (destruct (decide (n < k)); [left|right]).
  1, 3: rewrite <- (Z.mod_pow2_bits_low x k n) by lia; rewrite Hx; apply Z.bits_0.
  all: rewrite <- (Z.mod_small y (2 ^ k)) by lia; apply Z.mod_pow2_bits_high; lia.
Qed.

Lemma chat_read_u32_be_value b0 b1 b2 b3 :
  chat_read_u32_be b0 b1 b2 b3 =
  byte_val b0 * 2 ^ 24 + byte_val b1 * 2 ^ 16 + byte_val b2 * 2 ^ 8 + byte_val b3.
Proof.
  unfold chat_read_u32_be. rewrite !Z.shiftl_mul_pow2 by lia.
  pose proof (byte_val_range b0). pose proof (byte_val_range b1).
  pose proof (byte_val_range b2). pose proof (byte_val_range b3).
  rewrite (lor_add (byte_val b0 * _) _ 24), (lor_add (_ + _) (byte_val b2 * _) 16),
    (lor_add _ (byte_val b3) 8); Z.div_mod_to_equations; lia.
Qed.

Lemma chat_read_u32_be_range b0 b1 b2 b3 : is_u32 (chat_read_u32_be b0 b1 b2 b3).
Proof.
  rewrite chat_read_u32_be_value. unfold is_u32.
  pose proof (byte_val_range b0). pose proof (byte_val_range b1).
  pose proof (byte_val_range b2). pose proof (byte_val_range b3). lia.
Qed.

(** The value of the byte [(uint8_t)((value >> 8k) & 0xff)]. *)
Lemma byte_val_shift value k :
  0 ≤ k → byte_val (byte_of (Z.land (Z.shiftr value k) 255)) = (value / 2 ^ k) mod 256.
Proof.
  intros. rewrite byte_val_of, Z.shiftr_div_pow2 by done.
  change 255 with (Z.ones 8). rewrite Z.land_ones by lia.
  by rewrite Z.mod_mod by lia.
Qed.

Lemma read_write_u32_be value :
  is_u32 value →
  match chat_write_u32_be value with
  | [b0; b1; b2; b3] => chat_read_u32_be b0 b1 b2 b3 = value
  | _ => False
  end.
Proof.
  unfold is_u32, chat_write_u32_be. intros Hv.
  rewrite chat_read_u32_be_value, !byte_val_shift by lia.
  rewrite <- (Z.shiftr_0_r value) at 4. rewrite byte_val_shift by lia.
  Z.div_mod_to_equations; lia.
Qed.

Lemma write_read_u32_be b0 b1 b2 b3 :
  chat_write_u32_be (chat_read_u32_be b0 b1 b2 b3) = [b0; b1; b2; b3].
Proof.
  set (v := chat_read_u32_be b0 b1 b2 b3). unfold chat_write_u32_be.
  rewrite <- (Z.shiftr_0_r v) at 4.
  assert (Hv : v = byte_val b0 * 2 ^ 24 + byte_val b1 * 2 ^ 16 + byte_val b2 * 2 ^ 8 + byte_val b3)
    by apply chat_read_u32_be_value.
  pose proof (byte_val_range b0). pose proof (byte_val_range b1).
  pose proof (byte_val_range b2). pose proof (byte_val_range b3).
  clearbody v. repeat apply (f_equal2 (@cons byte)); try done;
    apply byte_val_inj; rewrite byte_val_shift by lia; Z.div_mod_to_equations; lia.
Qed.

Lemma len_write_u32_be v : len (chat_write_u32_be v) = 4.
Proof. done. Qed.

(** ** Lemmas: user names *)

Lemma username_chars_ok_Forall s :
  username_chars_ok s = true ↔ Forall (λ c, username_char_ok c = true) s.
Proof.
  induction s as [|c s IH]; simpl; [by split; [constructor|]|].
  rewrite Forall_cons, <- IH. destruct (username_char_ok c); naive_solver.
Qed.

Lemma chat_username_is_valid_spec u :
  chat_username_is_valid (Some u) = true ↔
  3 ≤ len u ≤ 32 ∧ Forall (λ c, username_char_ok c = true) u.
Proof.
  unfold chat_username_is_valid, strlen, CHAT_USERNAME_MIN_LEN, CHAT_USERNAME_MAX_LEN.
  rewrite <- username_chars_ok_Forall.
  destruct (_ || _) eqn:E; bdec.
  - apply orb_true_iff in E as [E|E]; bdec; naive_solver lia.
  - naive_solver lia.
Qed.

Lemma username_valid_len u : chat_username_is_valid (Some u) = true → 3 ≤ len u ≤ 32.
Proof. intros H. apply chat_username_is_valid_spec in H. tauto. Qed.

(** No character of a user name is NUL, a quote, a backslash, white space or
    another control character. *)
Lemma username_char_ok_value c :
  username_char_ok c = true →
  byte_val c = 45 ∨ 48 ≤ byte_val c ≤ 57 ∨ 65 ≤ byte_val c ≤ 90 ∨ byte_val c = 95
  ∨ 97 ≤ byte_val c ≤ 122.
Proof.
  unfold username_char_ok, isalnum. intros H.
  repeat (apply orb_true_iff in H as [H|H]); bdec; subst; try lia.
  - right; right; right; left. done.
  - left. done.
Qed.

Lemma username_valid_cstr u : chat_username_is_valid (Some u) = true → is_cstr u.
Proof.
  intros [_ H]%chat_username_is_valid_spec. eapply Forall_impl; [exact H|].
  intros c Hc%username_char_ok_value ->. change (byte_val NUL) with 0 in Hc. lia.
Qed.

#[export] Hint Resolve username_valid_cstr : pronto.

(** ** Headers *)

(** The six bytes of a header. *)
Definition header_bytes (type payload_len : Z) : bytes :=
  byte_of CHAT_PROTOCOL_VERSION :: byte_of type :: chat_write_u32_be payload_len.

Lemma len_header_bytes type n : len (header_bytes type n) = CHAT_PACKET_HEADER_SIZE.
Proof. done. Qed.

Lemma packet_type_valid_spec t : chat_packet_type_is_valid t = true ↔ 1 ≤ t ≤ 6.
Proof.
  unfold chat_packet_type_is_valid, CHAT_PKT_HANDSHAKE, CHAT_PKT_PONG.
  rewrite andb_true_iff, Z.geb_leb, !Z.leb_le. lia.
Qed.

(** What [chat_packet_encode_header] leaves in a buffer it accepts. *)
Lemma encode_header_ok type payload_len buf :
  1 ≤ type ≤ 6 → payload_len ≤ CHAT_MAX_MESSAGE_SIZE →
  chat_packet_encode_header type payload_len (Some buf) =
    (CHAT_PROTOCOL_OK, Some (blit buf (header_bytes type payload_len))).
Proof.
  intros Ht Hl. unfold chat_packet_encode_header.
  rewrite (proj2 (packet_type_valid_spec (type mod 256))) by (rewrite Z.mod_small; lia).
  simpl. rewrite Z.gtb_ltb. by destruct (Z.ltb_spec CHAT_MAX_MESSAGE_SIZE payload_len); [lia|].
Qed.

Lemma decode_header_ok type n payload out :
  1 ≤ type ≤ 6 → 0 ≤ n ≤ CHAT_MAX_MESSAGE_SIZE → payload = [] ∨ n ≤ len payload →
  chat_packet_decode_header (Some (header_bytes type n ++ payload)) (Some out) =
    (CHAT_PROTOCOL_OK,
      Some {| hdr_version := CHAT_PROTOCOL_VERSION; hdr_type := type; hdr_length := n |}).
Proof.
  intros Ht Hn Hp. unfold CHAT_MAX_MESSAGE_SIZE in Hn.
  pose proof (read_write_u32_be n ltac:(unfold is_u32; lia)) as Hrw.
  unfold chat_packet_decode_header.
  rewrite len_app, len_header_bytes. pose proof (len_nonneg payload).
  rewrite (proj2 (Z.ltb_ge _ _)) by (unfold CHAT_PACKET_HEADER_SIZE; lia).
  unfold header_bytes, chat_write_u32_be in *. cbn [app] in *. rewrite Hrw.
  rewrite (byte_val_of_small type) by lia.
  rewrite (proj2 (packet_type_valid_spec type)) by done.
  change (negb (byte_val (byte_of CHAT_PROTOCOL_VERSION) =? CHAT_PROTOCOL_VERSION)) with false.
  cbn [negb]. unfold CHAT_MAX_MESSAGE_SIZE. case_if; [lia|].
  destruct ((_ >? _) && _) eqn:E'; bdec; [|done].
  destruct Hp as [->|Hp]; lens; unfold CHAT_PACKET_HEADER_SIZE in *; lia.
Qed.

(** Inversion of a successful decode. *)
Lemma decode_header_inv buf out h :
  chat_packet_decode_header (Some buf) (Some out) = (CHAT_PROTOCOL_OK, Some h) →
  ∃ payload, buf = header_bytes (hdr_type h) (hdr_length h) ++ payload
    ∧ hdr_version h = CHAT_PROTOCOL_VERSION
    ∧ 1 ≤ hdr_type h ≤ 6 ∧ 0 ≤ hdr_length h ≤ CHAT_MAX_MESSAGE_SIZE
    ∧ (payload = [] ∨ hdr_length h ≤ len payload).
Proof.
  unfold chat_packet_decode_header. intros H. case_if_in H; [done|].
  destruct buf as [|v [|t [|b0 [|b1 [|b2 [|b3 payload]]]]]]; try done.
  pose proof (chat_read_u32_be_range b0 b1 b2 b3) as Hr. unfold is_u32 in Hr.
  repeat (case_if_in H; [done|]). injection H as <-. exists payload.
  cbn [hdr_version hdr_type hdr_length]. split_and!; try done.
  - unfold header_bytes. rewrite write_read_u32_be, byte_of_val. cbn [app].
    f_equal. apply byte_val_inj. done.
  - by apply packet_type_valid_spec.
  - by apply packet_type_valid_spec.
  - lia.
  - destruct payload as [|c payload]; [by left|right]. pose proof (len_nonneg payload).
    apply andb_false_iff in E3 as [E3|E3]; bdec; autorewrite with len in *;
      unfold CHAT_PACKET_HEADER_SIZE in *; lia.
Qed.

(** ** Properties *)

(** C27: a header written by the encoder for any packet type and any payload
    of at most 64 KiB is decoded, in front of that payload, to the same type
    and length. *)
Theorem packet_header_roundtrip type payload buf out :
  1 ≤ type ≤ 6 → len payload ≤ CHAT_MAX_MESSAGE_SIZE →
  ∃ buf',
    chat_packet_encode_header type (len payload) (Some buf) = (CHAT_PROTOCOL_OK, Some buf')
    ∧ chat_packet_decode_header (Some (ztake CHAT_PACKET_HEADER_SIZE buf' ++ payload)) (Some out)
      = (CHAT_PROTOCOL_OK,
          Some {| hdr_version := CHAT_PROTOCOL_VERSION;
                  hdr_type := type;
                  hdr_length := len payload |}).
Proof.
  intros Ht Hp. pose proof (len_nonneg payload). eexists. split.
  - by apply encode_header_ok.
  - rewrite ztake_blit by apply len_header_bytes.
    apply decode_header_ok; [done|lia|by right].
Qed.

Lemma packet_header_roundtrip_witness :
  1 ≤ CHAT_PKT_MESSAGE ≤ 6 ∧ len (lit "hello") ≤ CHAT_MAX_MESSAGE_SIZE
  ∧ ∃ buf',
    chat_packet_encode_header CHAT_PKT_MESSAGE (len (lit "hello")) (Some (zeros 6))
      = (CHAT_PROTOCOL_OK, Some buf')
    ∧ chat_packet_decode_header
        (Some (ztake CHAT_PACKET_HEADER_SIZE buf' ++ lit "hello"))
        (Some {| hdr_version := 0; hdr_type := 0; hdr_length := 0 |})
      = (CHAT_PROTOCOL_OK,
          Some {| hdr_version := CHAT_PROTOCOL_VERSION;
                  hdr_type := CHAT_PKT_MESSAGE;
                  hdr_length := len (lit "hello") |}).
Proof.
  assert (H1 : 1 ≤ CHAT_PKT_MESSAGE ≤ 6) by (unfold CHAT_PKT_MESSAGE; lia).
  assert (H2 : len (lit "hello") ≤ CHAT_MAX_MESSAGE_SIZE) by (vm_compute; discriminate).
  split; [exact H1|]. split; [exact H2|].
  apply (packet_header_roundtrip _ (lit "hello") (zeros 6)); assumption.
Defined.

(** C28: the buffers the decoder accepts are exactly the canonical ones: the
    six bytes the encoder writes for a packet type in 1..6 and a length of at
    most 64 KiB, followed either by nothing or by at least [length] payload
    bytes.  In particular no truncated packet, no other version and no
    non-canonical header is accepted, and the decoded fields are the ones the
    bytes encode. *)
Theorem packet_header_accepted_iff buf out h :
  chat_packet_decode_header (Some buf) (Some out) = (CHAT_PROTOCOL_OK, Some h) ↔
  ∃ payload,
    buf = header_bytes (hdr_type h) (hdr_length h) ++ payload
    ∧ hdr_version h = CHAT_PROTOCOL_VERSION
    ∧ 1 ≤ hdr_type h ≤ 6
    ∧ 0 ≤ hdr_length h ≤ CHAT_MAX_MESSAGE_SIZE
    ∧ (payload = [] ∨ hdr_length h ≤ len payload).
Proof.
  split; [apply decode_header_inv|].
  intros (payload & -> & Hv & Ht & Hl & Hp).
  rewrite (decode_header_ok _ _ _ _ Ht Hl Hp). destruct h; simpl in *. by subst.
Qed.

(** A user name is accepted exactly when it has 3 to 32 characters, each
    a letter, a digit, an underscore or a hyphen; NULL is refused. *)
Theorem username_accepted_iff (username : cptr) :
  chat_username_is_valid username = true ↔
  ∃ u, username = Some u ∧ 3 ≤ len u ≤ 32
       ∧ ∀ c, c ∈ u →
           48 ≤ byte_val c ≤ 57 ∨ 65 ≤ byte_val c ≤ 90 ∨ 97 ≤ byte_val c ≤ 122
           ∨ byte_val c = 45 ∨ byte_val c = 95.
Proof.
  destruct username as [u|]; [|naive_solver].
  rewrite chat_username_is_valid_spec, Forall_forall. split.
  - intros [Hl Hc]. exists u. split_and!; [done|lia|lia|].
    intros c Hin. pose proof (username_char_ok_value c (Hc c Hin)). lia.
  - intros (u' & [= <-] & Hl & Hc). split; [done|]. intros c Hin.
    specialize (Hc c Hin). unfold username_char_ok, isalnum.
    assert (byte_val c = 45 → c = "-"%char) by (intros; by apply byte_val_inj).
    assert (byte_val c = 95 → c = "_"%char) by (intros; by apply byte_val_inj).
    rewrite !orb_true_iff, !andb_true_iff, !Z.leb_le, !bool_decide_eq_true. naive_solver.
Qed.
