(* ===== verification/Sodium.v ===== *)
(** * libsodium, as the sources use it

    libsodium is not part of the repository: its functions are fields of the
    classes below, one class per family, and the documented behaviour the
    code relies on is a separate class of laws ([...Ok]).  Components take
    the functions as an argument, theorems name the laws they need.  The
    module [Reference] at the end gives executable instances that satisfy the
    laws: a real hexadecimal codec, and a transparent stand-in for the
    cryptography that only serves to run the model. *)

From S2P Require Import Prelude CLib.

(** ** Documented sizes *)

Definition crypto_sign_PUBLICKEYBYTES : Z := 32.
Definition crypto_sign_SECRETKEYBYTES : Z := 64.
Definition crypto_sign_BYTES : Z := 64.
Definition crypto_generichash_BYTES : Z := 32.
Definition crypto_kx_PUBLICKEYBYTES : Z := 32.
Definition crypto_kx_SECRETKEYBYTES : Z := 32.
Definition crypto_kx_SESSIONKEYBYTES : Z := 32.
Definition crypto_secretstream_HEADERBYTES : Z := 24.
Definition crypto_secretstream_ABYTES : Z := 17.
Definition TAG_MESSAGE : Z := 0.
Definition TAG_FINAL : Z := 3.

(** ** Start-up *)

(** [sodium_init()]: negative when the library cannot be used. *)
Class SodiumInit := { sodium_init : Z }.
Class SodiumInitOk `{SodiumInit} := { sodium_init_ok : 0 ≤ sodium_init }.

(** ** Encodings and comparison *)

(** [sodium_hex2bin maxlen hex]: [None] for the result -1 (with [ignore] and
    [hex_end] NULL, as every call of the sources passes them). *)
Class SodiumCodec := {
  sodium_bin2hex : bytes → bytes;
  sodium_hex2bin : Z → bytes → option bytes;
  sodium_memcmp : bytes → bytes → Z;
}.

Definition is_hex_digit (c : byte) : bool :=
  let v := byte_val c in
  (48 <=? v) && (v <=? 57) || (65 <=? v) && (v <=? 70) || (97 <=? v) && (v <=? 102).

Class SodiumCodecOk `{SodiumCodec} := {
  bin2hex_len b : len (sodium_bin2hex b) = 2 * len b;
  bin2hex_digits b : Forall (λ c, is_hex_digit c = true) (sodium_bin2hex b);
  hex2bin_bin2hex n b : len b ≤ n → sodium_hex2bin n (sodium_bin2hex b) = Some b;
  hex2bin_len n h b : sodium_hex2bin n h = Some b → len b ≤ n ∧ len h = 2 * len b;
  memcmp_spec a b : len a = len b → sodium_memcmp a b = 0 ↔ a = b;
}.

(** ** Random bytes *)

(** The generator's state is threaded explicitly. *)
Class SodiumRandom := {
  rng : Type;
  randombytes_buf : Z → rng → bytes * rng;
}.

Class SodiumRandomOk `{SodiumRandom} := {
  randombytes_len n g : 0 ≤ n → len (fst (randombytes_buf n g)) = n;
}.

(** ** Signatures *)

(** [crypto_sign_detached msg sk] is [None] for a nonzero result. *)
Class SodiumSign `{SodiumRandom} := {
  crypto_sign_keypair : rng → (bytes * bytes) * rng;
  crypto_sign_detached : bytes → bytes → option bytes;
  crypto_sign_verify_detached : bytes → bytes → bytes → Z;
  (** [sign_key_pair pk sk]: [sk] is the secret key of [pk]. *)
  sign_key_pair : bytes → bytes → Prop;
}.

Class SodiumSignOk `{SodiumSign} := {
  sign_keypair_pair g : sign_key_pair (fst (fst (crypto_sign_keypair g)))
                                      (snd (fst (crypto_sign_keypair g)));
  sign_key_pair_len pk sk : sign_key_pair pk sk →
    len pk = crypto_sign_PUBLICKEYBYTES ∧ len sk = crypto_sign_SECRETKEYBYTES;
  sign_verify pk sk m : sign_key_pair pk sk →
    ∃ s, crypto_sign_detached m sk = Some s ∧ len s = crypto_sign_BYTES
         ∧ crypto_sign_verify_detached s m pk = 0;
}.

(** ** Generic hash, multi-part interface *)

Class SodiumHash := {
  generichash_state : Type;
  crypto_generichash_init : option generichash_state;
  crypto_generichash_update : generichash_state → bytes → option generichash_state;
  crypto_generichash_final : generichash_state → option bytes;
  (** The one-shot function with the same parameters. *)
  crypto_generichash : bytes → option bytes;
}.

(** Feeding [chunks] one after the other. *)
Fixpoint generichash_absorb `{SodiumHash} (st : generichash_state) (chunks : list bytes)
    : option generichash_state :=
  match chunks with
  | [] => Some st
  | c :: chunks' =>
      match crypto_generichash_update st c with
      | None => None
      | Some st' => generichash_absorb st' chunks'
      end
  end.

Class SodiumHashOk `{SodiumHash} := {
  (** The multi-part interface hashes the concatenation of the parts. *)
  generichash_multipart chunks st st' :
    crypto_generichash_init = Some st → generichash_absorb st chunks = Some st' →
    crypto_generichash_final st' = crypto_generichash (mjoin chunks);
  generichash_succeeds : is_Some crypto_generichash_init;
  generichash_absorbs st chunks : is_Some (generichash_absorb st chunks);
  generichash_one_shot m :
    ∃ h, crypto_generichash m = Some h ∧ len h = crypto_generichash_BYTES;
}.

(** ** Key exchange *)

(** The session-key functions return [(rx, tx)], or [None] for a nonzero
    result. *)
Class SodiumKx `{SodiumRandom} := {
  crypto_kx_keypair : rng → option (bytes * bytes) * rng;
  crypto_kx_client_session_keys : bytes → bytes → bytes → option (bytes * bytes);
  crypto_kx_server_session_keys : bytes → bytes → bytes → option (bytes * bytes);
}.

Class SodiumKxOk `{SodiumKx} := {
  kx_keypair_len g pk sk g' : crypto_kx_keypair g = (Some (pk, sk), g') →
    len pk = crypto_kx_PUBLICKEYBYTES ∧ len sk = crypto_kx_SECRETKEYBYTES;
  (** What the client sends with is what the server receives with, and the
      other way round. *)
  kx_agree gc cpk csk gc' gs spk ssk gs' :
    crypto_kx_keypair gc = (Some (cpk, csk), gc') →
    crypto_kx_keypair gs = (Some (spk, ssk), gs') →
    ∃ k1 k2, crypto_kx_client_session_keys cpk csk spk = Some (k1, k2)
           ∧ crypto_kx_server_session_keys spk ssk cpk = Some (k2, k1)
           ∧ len k1 = crypto_kx_SESSIONKEYBYTES ∧ len k2 = crypto_kx_SESSIONKEYBYTES;
}.

(** ** Secret streams *)

Class SodiumStream `{SodiumRandom} := {
  secretstream_state : Type;
  secretstream_zero : secretstream_state;   (** the all-zero state *)
  secretstream_init_push : bytes → rng → option (secretstream_state * bytes) * rng;
  secretstream_init_pull : bytes → bytes → option secretstream_state;
  secretstream_push : secretstream_state → bytes → Z → option (bytes * secretstream_state);
  secretstream_pull : secretstream_state → bytes → option (bytes * Z * secretstream_state);
}.

Class SodiumStreamOk `{SodiumStream} := {
  (** [stream_sync s r]: [s] is a sending state and [r] the matching
      receiving state. *)
  stream_sync : secretstream_state → secretstream_state → Prop;
  stream_init key g s hdr g' :
    secretstream_init_push key g = (Some (s, hdr), g') →
    len hdr = crypto_secretstream_HEADERBYTES
    ∧ ∃ r, secretstream_init_pull hdr key = Some r ∧ stream_sync s r;
  stream_push_pull s r m tag c s' :
    stream_sync s r → secretstream_push s m tag = Some (c, s') →
    len c = len m + crypto_secretstream_ABYTES
    ∧ ∃ r', secretstream_pull r c = Some (m, tag, r') ∧ stream_sync s' r';
  stream_push_succeeds s m tag :
    0 ≤ tag < 256 → len m < 2 ^ 32 → is_Some (secretstream_push s m tag);
  stream_pull_len r c m tag r' :
    secretstream_pull r c = Some (m, tag, r') →
    len m + crypto_secretstream_ABYTES = len c;
}.

(** ** Lemmas on the encodings *)

Section codec.
Context `{SodiumCodecOk}.

Lemma hex_digit_value c :
  is_hex_digit c = true →
  48 ≤ byte_val c ≤ 57 ∨ 65 ≤ byte_val c ≤ 70 ∨ 97 ≤ byte_val c ≤ 102.
Proof.
  unfold is_hex_digit. intros Hc.
  repeat (apply orb_true_iff in Hc as [Hc|Hc]); bdec; lia.
Qed.

Lemma bin2hex_cstr b : is_cstr (sodium_bin2hex b).
Proof.
  eapply Forall_impl; [apply bin2hex_digits|].
  intros c Hc%hex_digit_value ->. change (byte_val NUL) with 0 in Hc. lia.
Qed.

Lemma bin2hex_inj a b : sodium_bin2hex a = sodium_bin2hex b → a = b.
Proof.
  intros E.
  assert (len a = len b) as Hl.
  { apply (f_equal len) in E. rewrite !bin2hex_len in E. lia. }
  pose proof (hex2bin_bin2hex (len a) a ltac:(lia)) as Ha.
  pose proof (hex2bin_bin2hex (len a) b ltac:(lia)) as Hb. congruence.
Qed.
End codec.

(** ** Executable instances *)

Module Reference.
(** A hexadecimal codec. *)
Definition hex_digit (v : Z) : byte := byte_of (if v <? 10 then 48 + v else 87 + v).
Definition bin2hex (b : bytes) : bytes :=
  mjoin ((λ c, [hex_digit (byte_val c / 16); hex_digit (byte_val c mod 16)]) <$> b).
Definition digit_val (c : byte) : option Z :=
  let v := byte_val c in
  if (48 <=? v) && (v <=? 57) then Some (v - 48)
  else if (65 <=? v) && (v <=? 70) then Some (v - 55)
  else if (97 <=? v) && (v <=? 102) then Some (v - 87)
  else None.
Fixpoint hex_decode (h : bytes) : option bytes :=
  match h with
  | [] => Some []
  | a :: b :: h' =>
      match digit_val a, digit_val b, hex_decode h' with
      | Some x, Some y, Some r => Some (byte_of (16 * x + y) :: r)
      | _, _, _ => None
      end
  | _ => None
  end.
Definition hex2bin (n : Z) (h : bytes) : option bytes :=
  match hex_decode h with
  | Some b => if len b <=? n then Some b else None
  | None => None
  end.

#[export] Instance codec : SodiumCodec := {
  sodium_bin2hex := bin2hex;
  sodium_hex2bin := hex2bin;
  sodium_memcmp a b := if bool_decide (a = b) then 0 else -1;
}.

Lemma hex_digit_facts v :
  0 ≤ v < 16 → is_hex_digit (hex_digit v) = true ∧ digit_val (hex_digit v) = Some v.
Proof.
  intros Hv. assert (v ∈ seqZ 0 16) as Hin by (apply elem_of_seqZ; lia).
  clear Hv. revert v Hin.
  apply (Forall_forall
    (λ v, is_hex_digit (hex_digit v) = true ∧ digit_val (hex_digit v) = Some v)).
  apply (bool_decide_eq_true (Forall _ (seqZ 0 16))). vm_compute. reflexivity.
Qed.

Lemma hex_decode_bin2hex b : hex_decode (bin2hex b) = Some b.
Proof.
  induction b as [|c b IH]; [done|]. pose proof (byte_val_range c).
  cbn [bin2hex fmap list_fmap mjoin list_join app hex_decode].
  change (mjoin _) with (bin2hex b).
  destruct (hex_digit_facts (byte_val c / 16)) as [_ ->]; [Z.div_mod_to_equations; lia|].
  destruct (hex_digit_facts (byte_val c mod 16)) as [_ ->]; [Z.div_mod_to_equations; lia|].
  rewrite IH. do 2 f_equal. rewrite <- (byte_of_val c) at 3. f_equal.
  Z.div_mod_to_equations; lia.
Qed.

Lemma hex_decode_len h b : hex_decode h = Some b → len h = 2 * len b.
Proof.
  revert h. induction b as [|c b IH]; intros [|x [|y h]] Hb; simpl in Hb;
    repeat case_match; simplify_eq; [done|]. rewrite !len_cons.
  rewrite (IH h) by done. lia.
Qed.

#[export] Instance codec_ok : SodiumCodecOk.
Proof.
  split.
  - intros b. change (len (bin2hex b) = 2 * len b). apply hex_decode_len, hex_decode_bin2hex.
  - intros b. change (Forall (λ c, is_hex_digit c = true) (bin2hex b)).
    induction b as [|c b IH]; [constructor|]. pose proof (byte_val_range c).
    cbn [bin2hex fmap list_fmap mjoin list_join app].
    constructor; [|constructor; [|exact IH]];
      apply hex_digit_facts; Z.div_mod_to_equations; lia.
  - intros n b Hn. cbn. unfold hex2bin. rewrite hex_decode_bin2hex.
    by rewrite (proj2 (Z.leb_le _ _) Hn).
  - cbn. unfold hex2bin. intros n h b Hb. case_match; [|done]. case_if_in Hb; simplify_eq.
    split; [done|]. by apply hex_decode_len.
  - cbn. intros a b _. case_bool_decide; naive_solver.
Qed.

(** A counter for the random generator, and transparent "signatures": the
    public key followed by the message.  Good enough to run the model, and
    a proof that the laws can hold together. *)
#[export] Instance random : SodiumRandom := {
  rng := Z;
  randombytes_buf n g := (replicate (Z.to_nat n) (byte_of g), g + 1);
}.
#[export] Instance random_ok : SodiumRandomOk.
Proof.
  split. intros n g Hn. unfold len. cbn. rewrite length_replicate. lia.
Qed.

Definition fit (n : nat) (b : bytes) : bytes := take n (b ++ replicate n NUL).
Definition toy_signature (m pk : bytes) : bytes := fit 32 pk ++ fit 32 m.

#[export] Instance sign : SodiumSign := {
  crypto_sign_keypair g :=
    let pk := replicate 32 (byte_of g) in ((pk, pk ++ pk), g + 1);
  crypto_sign_detached m sk := Some (toy_signature m (take 32 sk));
  crypto_sign_verify_detached s m pk :=
    if bool_decide (s = toy_signature m pk) then 0 else -1;
  sign_key_pair pk sk := len pk = 32 ∧ sk = pk ++ pk;
}.

Lemma len_fit n b : length (fit n b) = n.
Proof. unfold fit. rewrite length_take, length_app, length_replicate. lia. Qed.

#[export] Instance sign_ok : SodiumSignOk.
Proof.
  split.
  - intros g. split; done.
  - intros pk sk [Hp ->]. unfold crypto_sign_PUBLICKEYBYTES, crypto_sign_SECRETKEYBYTES.
    split; lens.
  - intros pk sk m [Hp ->]. exists (toy_signature m pk). cbn. split_and!.
    + do 2 f_equal. replace 32%nat with (length pk) by (unfold len in Hp; lia).
      apply take_app_length.
    + unfold toy_signature, len. rewrite length_app, !len_fit. done.
    + by rewrite bool_decide_true.
Qed.

(** The library starts. *)
#[export] Instance init : SodiumInit := { sodium_init := 0 }.
#[export] Instance init_ok : SodiumInitOk.
Proof. split. cbn. lia. Qed.

(** A "hash" that keeps the last 32 bytes of its input, so that transcripts
    that differ there have different hashes. *)
Definition toy_hash (m : bytes) : bytes := fit 32 (rev m).
#[export] Instance hash : SodiumHash := {
  generichash_state := bytes;
  crypto_generichash_init := Some [];
  crypto_generichash_update st c := Some (st ++ c);
  crypto_generichash_final st := Some (toy_hash st);
  crypto_generichash m := Some (toy_hash m);
}.

Lemma toy_absorb st chunks : generichash_absorb (H := hash) st chunks = Some (st ++ mjoin chunks).
Proof.
  revert st; induction chunks as [|c chunks IH]; intros st; cbn; [by rewrite app_nil_r|].
  change (generichash_absorb (H := hash) (st ++ c) chunks = Some (st ++ c ++ mjoin chunks)).
  rewrite IH. by rewrite app_assoc.
Qed.

#[export] Instance hash_ok : SodiumHashOk.
Proof.
  split.
  - intros chunks st st' [= <-]. rewrite toy_absorb. by intros [= <-].
  - by eexists.
  - intros st chunks. rewrite toy_absorb. by eexists.
  - intros m. exists (toy_hash m). split; [done|]. unfold toy_hash, len. by rewrite len_fit.
Qed.

(** A key exchange in which both sides derive the keys from the two public
    keys. *)
#[export] Instance kx : SodiumKx := {
  crypto_kx_keypair g :=
    (Some (replicate 32 (byte_of g), replicate 32 (byte_of (g + 128))), g + 1);
  crypto_kx_client_session_keys pk sk peer := Some (fit 32 peer, fit 32 pk);
  crypto_kx_server_session_keys pk sk peer := Some (fit 32 peer, fit 32 pk);
}.
#[export] Instance kx_ok : SodiumKxOk.
Proof.
  split.
  - intros g pk sk g' [= <- <- _]. split; done.
  - intros gc cpk csk gc' gs spk ssk gs' _ _. exists (fit 32 spk), (fit 32 cpk).
    unfold len. rewrite !len_fit. split_and!; done.
Qed.

(** Streams whose state is the key and the number of messages; a frame is the
    state, the tag and the text. *)
Definition toy_frame (key : bytes) (n : Z) (m : bytes) (tag : Z) : bytes :=
  byte_of tag :: fit 8 key ++ replicate 8 (byte_of n) ++ m.
#[export] Instance stream : SodiumStream := {
  secretstream_state := bytes * Z;
  secretstream_zero := ([], 0);
  secretstream_init_push key g := (Some ((key, 0), replicate 24 (byte_of g)), g + 1);
  secretstream_init_pull hdr key := Some (key, 0);
  secretstream_push st m tag :=
    if (0 <=? tag) && (tag <? 256) then Some (toy_frame st.1 st.2 m tag, (st.1, st.2 + 1))
    else None;
  secretstream_pull st c :=
    match c with
    | t :: c' =>
        let m := drop 16 c' in
        if bool_decide (c = toy_frame st.1 st.2 m (byte_val t))
        then Some (m, byte_val t, (st.1, st.2 + 1)) else None
    | [] => None
    end;
}.

Lemma len_toy_frame key n m tag : len (toy_frame key n m tag) = len m + 17.
Proof.
  unfold toy_frame. rewrite len_cons, !len_app. unfold len at 1 2.
  rewrite len_fit, length_replicate. lia.
Qed.

#[export] Instance stream_ok : SodiumStreamOk.
Proof.
  refine {| stream_sync s r := s = r |}.
  - intros key g s hdr g' [= <- <- _]. split; [done|]. by exists (key, 0).
  - intros s r m tag c s' <- Hp. cbn in Hp. case_if_in Hp; [|done]. bdec. simplify_eq.
    split; [apply len_toy_frame|]. exists (s.1, s.2 + 1). split; [|done].
    unfold secretstream_pull, stream, toy_frame.
    assert (Hd : drop 16 (fit 8 s.1 ++ replicate 8 (byte_of s.2) ++ m) = m).
    { rewrite app_assoc. apply drop_app_length'. rewrite length_app, len_fit. done. }
    rewrite Hd, byte_val_of_small by lia. by rewrite bool_decide_true.
  - intros s m tag Ht _. cbn. rewrite (proj2 (Z.leb_le _ _)), (proj2 (Z.ltb_lt _ _)) by lia.
    cbn. by eexists.
  - intros r c m tag r' Hp. cbn in Hp. destruct c as [|t c]; [done|]. case_if_in Hp; [|done].
    simplify_eq. rewrite E. by rewrite len_toy_frame.
Defined.
End Reference.
