(* ===== verification/Json.v ===== *)
(** * The JSON field extractor (src/server/main.c, src/daemon/main.c)

    Both programs carry the same [json_get_string] and [hex_to_bin]: a search
    for the first occurrence of the quoted key, then for a colon and a quoted
    value.  [JsonText] relates it to the JSON grammar. *)

From S2P Require Import Prelude CLib Protocol Sodium.

(** ** Operations *)

(** The test of the two white-space loops. *)
Definition is_json_ws (c : byte) : bool :=
  bool_decide (c = " "%char) || bool_decide (c = "009"%char)
  || bool_decide (c = "013"%char) || bool_decide (c = "010"%char).

Fixpoint skip_ws (cursor : bytes) : bytes :=
  match cursor with
  | c :: cursor' => if is_json_ws c then skip_ws cursor' else cursor
  | [] => []
  end.

Definition backslash : byte := byte_of 92.

(** The copy loop and the check of the closing quote; an empty [cursor] is
    the terminating NUL. *)
Fixpoint json_copy (cursor : bytes) (offset out_size : Z) : option bytes :=
  match cursor with
  | [] => None
  | ch :: cursor' =>
      if bool_decide (ch = dquote) then Some []
      else if (byte_val ch <? 32) || bool_decide (ch = backslash)
              || (offset + 1 >=? out_size) then None
      else match json_copy cursor' (offset + 1) out_size with
           | Some out => Some (ch :: out)
           | None => None
           end
  end.

(** [char pattern[64]] with the quoted key. *)
Definition json_pattern (key : bytes) : option bytes :=
  snprintf 64 (dquote :: key ++ [dquote]).

(** The cursor after the key, the colon and the white space around it. *)
Definition json_value_start (json pattern : bytes) : option bytes :=
  match strstr json pattern with
  | None => None
  | Some cursor =>
      match skip_ws (drop (length pattern) cursor) with
      | c :: cursor' => if bool_decide (c = ":"%char) then Some (skip_ws cursor') else None
      | [] => None
      end
  end.

(** [None] is the result 0; [Some out] the result 1 with the string left in
    the buffer, an array of [out_size] bytes of the caller. *)
Definition json_get_string (json key : cptr) (out_size : Z) : option bytes :=
  match json, key with
  | Some json, Some key =>
      if out_size =? 0 then None
      else match json_pattern key with
           | None => None
           | Some pattern =>
               match json_value_start json pattern with
               | Some (c :: cursor) =>
                   if bool_decide (c = dquote) then json_copy cursor 0 out_size else None
               | _ => None
               end
           end
  | _, _ => None
  end.

Definition json_bool_is_true (json key : bytes) : bool :=
  match json_pattern key with
  | None => false
  | Some pattern =>
      match json_value_start json pattern with
      | Some cursor => has_prefix (lit "true") cursor
      | None => false
      end
  end.

(** [hex_to_bin]: the decoded bytes when there are exactly [out_size]. *)
Definition hex_to_bin `{SodiumCodec} (hex : bytes) (out_size : Z) : option bytes :=
  match sodium_hex2bin out_size hex with
  | None => None
  | Some bin => if len bin =? out_size then Some bin else None
  end.

(** ** The extractor's output *)

(** A character a JSON string value may hold for the extractor. *)
Definition json_char (c : byte) : Prop := 32 ≤ byte_val c ∧ c ≠ dquote ∧ c ≠ backslash.

Lemma json_char_no_quote s : Forall json_char s → dquote ∉ s.
Proof. rewrite Forall_forall. intros H Hin. by destruct (H _ Hin) as (_ & ? & _). Qed.

Lemma json_copy_spec cursor offset n out :
  json_copy cursor offset n = Some out ↔
  (∃ t, cursor = out ++ dquote :: t) ∧ Forall json_char out
  ∧ (out = [] ∨ offset + len out < n).
Proof.
  revert offset out; induction cursor as [|c cursor IH]; intros offset out; cbn [json_copy].
  { split; [done|]. intros ([t Ht] & _). by destruct out. }
  case_bool_decide as Hq; [subst c|].
  { split.
    - intros [= <-]. split_and!; [by exists cursor|constructor|by left].
    - intros ([t Ht] & Hc & _). destruct out as [|d out]; [done|].
      apply Forall_cons in Hc as [(_ & Hd & _) _]. naive_solver. }
  destruct (_ || _ || _) eqn:E.
  { split; [done|]. intros ([t Ht] & Hc & Hl). exfalso.
    destruct out as [|d out]; [naive_solver|]. simplify_eq/=.
    apply Forall_cons in Hc as [(Hd1 & Hd2 & Hd3) _]. destruct Hl as [|Hl]; [done|].
    rewrite len_cons in Hl. pose proof (len_nonneg out).
    repeat (apply orb_true_iff in E as [E|E]); bdec; try lia. done. }
  bdec. destruct (json_copy cursor (offset + 1) n) as [out'|] eqn:Ec.
  - apply IH in Ec as ([t ->] & Hc & Hl). split.
    + intros [= <-]. split_and!; [by exists t|by constructor|right].
      rewrite len_cons. destruct Hl as [->|]; [rewrite len_nil|]; lia.
    + intros ([t' Ht] & Hc' & Hl'). destruct out as [|d out]; [naive_solver|].
      injection Ht as -> Ht. apply Forall_cons in Hc' as [_ Hc'].
      destruct (split_at_sep dquote out' out t t') as [-> _]; auto using json_char_no_quote.
  - split; [done|]. intros ([t Ht] & Hc & Hl). destruct out as [|d out]; [naive_solver|].
    simplify_eq/=. apply Forall_cons in Hc as [_ Hc]. destruct Hl as [|Hl]; [done|].
    enough (json_copy (out ++ dquote :: t) (offset + 1) n = Some out) by congruence.
    apply IH. split_and!; [by exists t|done|]. rewrite len_cons in Hl.
    destruct out; [by left|right; lia].
Qed.

(** A string the extractor returns fits its buffer with the NUL, and holds
    no quote, backslash or control character. *)
Lemma json_get_string_out json key n out :
  0 < n → json_get_string json key n = Some out → len out < n ∧ Forall json_char out.
Proof.
  unfold json_get_string. intros Hn H.
  destruct json, key; try done. case_if_in H; [done|].
  repeat (case_match; try done).
  apply json_copy_spec in H as (_ & Hc & Hl). split; [|done].
  destruct Hl as [->|]; [rewrite len_nil|]; lia.
Qed.

Lemma json_char_cstr s : Forall json_char s → is_cstr s.
Proof.
  intros Hs. eapply Forall_impl; [exact Hs|]. intros c (H & _) ->. change (byte_val NUL) with 0 in H. lia.
Qed.

Lemma hex_to_bin_len `{SodiumCodec} hex n bin : hex_to_bin hex n = Some bin → len bin = n.
Proof. unfold hex_to_bin. intros H'. repeat case_match; simplify_eq. by bdec. Qed.

Lemma hex_to_bin_bin2hex `{SodiumCodecOk} b n :
  len b = n → hex_to_bin (sodium_bin2hex b) n = Some b.
Proof.
  intros <-. unfold hex_to_bin. rewrite hex2bin_bin2hex by lia. by rewrite Z.eqb_refl.
Qed.
