(* ===== verification/JsonText.v ===== *)
(** * JSON texts and the field extractor

    The extractor of [Json] searches a text for a quoted key; this file says
    what that means for a JSON object.  A JSON value is a list of tokens
    ([jtokens]), a text is a layout of its tokens, with white space anywhere
    between them ([layout]), and strings may hold escape sequences.  The
    lemmas follow the search through the tokens; the theorem compares its
    result with the member a JSON reader finds. *)

From S2P Require Import Prelude CLib Protocol Sodium Json.

(** ** Strings *)

(** A character of a string: itself, or an escape sequence (a backslash and
    the character; the four digits of a Unicode escape are characters of
    their own). *)
Inductive jchar := JChar (c : byte) | JEsc (c : byte).
#[export] Instance jchar_eq_dec : EqDecision jchar.
Proof. solve_decision. Defined.
Abbreviation jstring := (list jchar).

Definition jchar_wf (c : jchar) : Prop :=
  match c with
  | JChar c => json_char c
  | JEsc c => c = dquote ∨ c = backslash ∨ c ∈ lit "/bfnrtu"
  end.

Fixpoint jstring_text (s : jstring) : bytes :=
  match s with
  | [] => []
  | JChar c :: s => c :: jstring_text s
  | JEsc c :: s => backslash :: c :: jstring_text s
  end.

(** The string without escape sequences. *)
Definition plain (s : bytes) : jstring := JChar <$> s.
(** The characters of a string without escape sequences. *)
Fixpoint unescaped (s : jstring) : option bytes :=
  match s with
  | [] => Some []
  | JChar c :: s => cons c <$> unescaped s
  | JEsc _ :: _ => None
  end.

(** The string ends with an escaped quote and [key]. *)
Fixpoint tail_quoted (key : bytes) (s : jstring) : bool :=
  match s with
  | [] => false
  | JChar _ :: s => tail_quoted key s
  | JEsc c :: s => bool_decide (c = dquote ∧ s = plain key) || tail_quoted key s
  end.

Lemma plain_text s : jstring_text (plain s) = s.
Proof. induction s as [|c s IH]; [done|]. cbn. by f_equal. Qed.
Lemma unescaped_plain s : unescaped (plain s) = Some s.
Proof. induction s as [|c s IH]; [done|]. cbn. unfold plain in IH. by rewrite IH. Qed.
Lemma unescaped_Some s b : unescaped s = Some b → s = plain b.
Proof.
  revert b. induction s as [|[c|c] s IH]; intros b E; cbn in E; [by injection E as <-| |done].
  destruct (unescaped s) as [b'|]; [|done]. injection E as <-. cbn. by rewrite (IH b').
Qed.
Lemma plain_inj a b : plain a = plain b → a = b.
Proof. intros E. apply (f_equal jstring_text) in E. by rewrite !plain_text in E. Qed.
Lemma tail_quoted_plain key s : tail_quoted key (plain s) = false.
Proof. by induction s. Qed.
Lemma plain_wf s : Forall json_char s → Forall jchar_wf (plain s).
Proof. intros Hs. by apply Forall_fmap. Qed.

(** ** Keys and the search pattern *)

(** The names the programs look for. *)
Definition ident (s : bytes) : Prop := Forall (λ c, username_char_ok c = true) s ∧ s ≠ [].
#[export] Instance ident_dec s : Decision (ident s).
Proof. unfold ident. apply _. Defined.

(** The quoted search pattern. *)
Definition quoted (key : bytes) : bytes := dquote :: key ++ [dquote].

Lemma ident_char_json c : username_char_ok c = true → json_char c.
Proof.
  intros H%username_char_ok_value. split_and!.
  - lia.
  - intros ->. change (byte_val dquote) with 34 in H. lia.
  - intros ->. change (byte_val backslash) with 92 in H. lia.
Qed.
Lemma ident_json s : ident s → Forall json_char s.
Proof. intros [H _]. eapply Forall_impl; [exact H|]. apply ident_char_json. Qed.
Lemma username_ident u : chat_username_is_valid (Some u) = true → ident u.
Proof.
  intros [Hl H]%chat_username_is_valid_spec. split; [done|]. intros ->. lens.
Qed.
Lemma json_pattern_quoted key : len key < 62 → json_pattern key = Some (quoted key).
Proof.
  intros. apply snprintf_fits; unfold quoted, INT_MAX; [rewrite len_cons, len_app|]; lens.
Qed.

(** The pattern matches at a quote exactly when the string it opens is the
    key. *)
Lemma prefix_string key s t :
  Forall json_char key → Forall jchar_wf s →
  has_prefix (quoted key) (dquote :: jstring_text s ++ dquote :: t) = bool_decide (s = plain key).
Proof.
  intros Hk Hs. unfold quoted. cbn [has_prefix]. rewrite bool_decide_true by done. cbn [andb].
  revert s Hs. induction Hk as [|k key (_ & Hkq & Hkb) Hk IH]; intros s Hs.
  - destruct Hs as [|[c|c] s Hc Hs]; cbn [jstring_text app has_prefix]; [done| |].
    + destruct Hc as (_ & Hq & _). by rewrite bool_decide_false by done.
    + by rewrite bool_decide_false by done.
  - cbn [app]. destruct Hs as [|[c|c] s Hc Hs]; cbn [jstring_text app has_prefix].
    + by rewrite bool_decide_false by done.
    + rewrite IH by done. change (plain (k :: key)) with (JChar k :: plain key).
      repeat case_bool_decide; naive_solver.
    + by rewrite bool_decide_false by done.
Qed.

(** Nothing before the first quote matches a quoted pattern. *)
Lemma strstr_skip_unquoted s t key :
  dquote ∉ s → strstr (s ++ t) (quoted key) = strstr t (quoted key).
Proof.
  induction s as [|c s IH]; intros Hs; [done|].
  apply not_elem_of_cons in Hs as [Hc Hs]. cbn [app strstr].
  rewrite <- IH by done. unfold quoted. cbn [has_prefix].
  by rewrite bool_decide_false by done.
Qed.

(** Inside a string nothing matches, unless it ends with an escaped quote and
    the key. *)
Lemma strstr_string key s t :
  Forall json_char key → Forall jchar_wf s → tail_quoted key s = false →
  strstr (jstring_text s ++ dquote :: t) (quoted key) = strstr (dquote :: t) (quoted key).
Proof.
  intros Hk. induction 1 as [|[c|c] s Hc Hs IH]; intros Ht; [done|..];
    cbn [tail_quoted jstring_text app] in *.
  - destruct Hc as (_ & Hq & _). rewrite <- IH by done.
    apply (strstr_skip_unquoted [c]). set_solver.
  - apply orb_false_iff in Ht as [Hn Ht]. rewrite <- IH by done.
    trans (strstr (c :: jstring_text s ++ dquote :: t) (quoted key)).
    { apply (strstr_skip_unquoted [backslash]). apply not_elem_of_cons. split; [done|set_solver]. }
    destruct (decide (c = dquote)) as [->|Hc'].
    + cbn [strstr]. rewrite prefix_string by done.
      rewrite bool_decide_false; [done|]. intros ->. bdec. naive_solver.
    + apply (strstr_skip_unquoted [c]). set_solver.
Qed.

(** A string token either is the key, or is skipped up to its closing quote. *)
Lemma strstr_token key s t :
  Forall json_char key → Forall jchar_wf s → s = plain key ∨ tail_quoted key s = false →
  strstr (dquote :: jstring_text s ++ dquote :: t) (quoted key) =
    if decide (s = plain key) then Some (quoted key ++ t) else strstr (dquote :: t) (quoted key).
Proof.
  intros Hk Hs Ht. cbn [strstr]. rewrite prefix_string by done. case_decide as E.
  - rewrite bool_decide_true by done. subst s. rewrite plain_text. unfold quoted. cbn [app].
    by rewrite <- app_assoc.
  - rewrite bool_decide_false by done. apply strstr_string; [done..|]. by destruct Ht.
Qed.

(** ** Tokens and layouts *)

Inductive token := TStr (s : jstring) | TLit (s : bytes) | TPunct (c : byte).

(** Numbers, [true], [false] and [null] are made of these. *)
Definition literal_char (c : byte) : bool :=
  username_char_ok c || bool_decide (c = "."%char) || bool_decide (c = "+"%char).

Definition token_wf (t : token) : Prop :=
  match t with
  | TStr s => Forall jchar_wf s
  | TLit s => Forall (λ c, literal_char c = true) s ∧ s ≠ []
  | TPunct c => c ∈ lit "{}[]:,"
  end.

Definition token_text (t : token) : bytes :=
  match t with
  | TStr s => dquote :: jstring_text s ++ [dquote]
  | TLit s => s
  | TPunct c => [c]
  end.

(** White space of JSON: space, tab, line feed, carriage return. *)
Definition json_space (c : byte) : Prop :=
  c ∈ [" "%char; byte_of 9; byte_of 10; byte_of 13].
#[export] Instance json_space_dec c : Decision (json_space c).
Proof. unfold json_space. apply _. Defined.

(** A text of the tokens: white space before each of them and at the end. *)
Inductive layout : list token → bytes → Prop :=
  | layout_end ws : Forall json_space ws → layout [] ws
  | layout_token ws t ts text :
      Forall json_space ws → layout ts text →
      layout (t :: ts) (ws ++ token_text t ++ text).

(** A string is followed by punctuation or by the end. *)
Definition punct_first (ts : list token) : Prop :=
  match ts with [] | TPunct _ :: _ => True | _ => False end.
Fixpoint punctuated (ts : list token) : Prop :=
  match ts with
  | [] => True
  | TStr _ :: ts => punct_first ts ∧ punctuated ts
  | _ :: ts => punctuated ts
  end.

Lemma json_space_facts c :
  json_space c → is_json_ws c = true ∧ c ≠ dquote ∧ c ≠ NUL ∧ username_char_ok c = false.
Proof.
  unfold json_space. rewrite !elem_of_cons, elem_of_nil.
  by intros [-> |[-> |[-> |[-> |[]]]]].
Qed.
Lemma ws_not_quote ws : Forall json_space ws → dquote ∉ ws.
Proof.
  intros Hw Hin. rewrite Forall_forall in Hw. by apply Hw, json_space_facts in Hin as (_ & ? & _).
Qed.

Lemma literal_char_facts c :
  literal_char c = true → c ≠ dquote ∧ is_json_ws c = false.
Proof.
  unfold literal_char. intros H. apply orb_true_iff in H as [H|H]; [|by bdec; subst].
  apply orb_true_iff in H as [H|H]; [|by bdec; subst]. split.
  - intros ->. by vm_compute in H.
  - unfold is_json_ws. apply username_char_ok_value in H.
    repeat rewrite bool_decide_false; try done; intros ->; byte_consts; lia.
Qed.

Lemma punct_facts c :
  c ∈ lit "{}[]:," → c ≠ dquote ∧ is_json_ws c = false ∧ username_char_ok c = false.
Proof.
  intros Hc. cbn in Hc. rewrite !elem_of_cons, elem_of_nil in Hc.
  by destruct Hc as [-> |[-> |[-> |[-> |[-> |[-> |[]]]]]]].
Qed.

(** Tokens other than strings hold no quote. *)
Lemma token_not_quote t : token_wf t → (∀ s, t ≠ TStr s) → dquote ∉ token_text t.
Proof.
  intros Hw Hs. destruct t as [s|s|c]; [by destruct (Hs s)| |]; cbn in *.
  - intros Hin. destruct Hw as [Hw _]. rewrite Forall_forall in Hw.
    by apply Hw, literal_char_facts in Hin as [? _].
  - destruct (punct_facts _ Hw) as [? _]. set_solver.
Qed.

(** The first character of a token is not white space. *)
Lemma skip_ws_layout t ts text :
  layout (t :: ts) text → token_wf t →
  ∃ text', layout ts text' ∧ skip_ws text = token_text t ++ text'.
Proof.
  inversion_clear 1 as [|ws ? ? text' Hw Hl]. intros Ht. exists text'. split; [done|].
  assert (∃ c s, token_text t = c :: s ∧ is_json_ws c = false) as (c & s & -> & Hc).
  { destruct t as [s|s|c]; cbn in *; [by eexists _, _| |].
    - destruct Ht as [Ht Hne]. destruct s as [|c s]; [done|]. apply Forall_cons in Ht as [Hc _].
      eexists c, s. split; [done|]. by apply literal_char_facts.
    - eexists c, []. split; [done|]. by apply punct_facts. }
  induction Hw as [|w ws [Hw _]%json_space_facts _ IH]; cbn [app skip_ws];
    [by rewrite Hc|by rewrite Hw].
Qed.
Lemma skip_ws_end text : layout [] text → skip_ws text = [].
Proof.
  inversion_clear 1 as [ws Hw|]. 
  induction Hw as [|w ws [Hw _]%json_space_facts _ IH]; cbn [skip_ws]; [done|by rewrite Hw].
Qed.

(** From a closing quote the pattern does not match across the punctuation. *)
Lemma strstr_closing key ts text :
  ident key → layout ts text → Forall token_wf ts → punct_first ts →
  strstr (dquote :: text) (quoted key) = strstr text (quoted key).
Proof.
  intros [Hk Hne] Hl Hw Hp. cbn [strstr]. destruct key as [|k key]; [done|].
  apply Forall_cons in Hk as [Hk _].
  assert (text = [] ∨ ∃ c t, text = c :: t ∧ username_char_ok c = false) as Hc.
  { destruct Hl as [ws Hws|ws t ts text Hws Hl].
    - destruct Hws as [|c ws Hc _]; [by left|right]. exists c, ws. split; [done|]. by apply json_space_facts.
    - destruct t as [| |c]; [done..|]. apply Forall_cons in Hw as [Hc%punct_facts _]. right.
      destruct Hws as [|d ws Hd _]; [by exists c, text; split; [done|apply Hc]|].
      eexists d, _. split; [done|]. by apply json_space_facts. }
  replace (has_prefix (quoted (k :: key)) (dquote :: text)) with false; [done|].
  symmetry. unfold quoted. cbn [app has_prefix]. rewrite bool_decide_true by done. cbn [andb].
  destruct Hc as [-> |(c & t & -> & Hc)]; [done|]. cbn [has_prefix].
  rewrite bool_decide_false; [done|]. congruence.
Qed.

(** ** The extractor on tokens *)

(** The tokens after the first string equal to the key. *)
Fixpoint tokens_after (key : bytes) (ts : list token) : option (list token) :=
  match ts with
  | [] => None
  | TStr s :: ts => if decide (s = plain key) then Some ts else tokens_after key ts
  | _ :: ts => tokens_after key ts
  end.

(** No string before that one ends with an escaped quote and the key. *)
Fixpoint unhidden (key : bytes) (ts : list token) : Prop :=
  match ts with
  | [] => True
  | TStr s :: ts => s = plain key ∨ tail_quoted key s = false ∧ unhidden key ts
  | _ :: ts => unhidden key ts
  end.

(** The token after the key and its colon. *)
Definition token_value (key : bytes) (ts : list token) : option token :=
  match tokens_after key ts with
  | Some (TPunct c :: v :: _) => if decide (c = ":"%char) then Some v else None
  | _ => None
  end.

Lemma strstr_layout key ts text :
  ident key → layout ts text → Forall token_wf ts → punctuated ts → unhidden key ts →
  match tokens_after key ts with
  | Some ts' => ∃ text', layout ts' text' ∧ Forall token_wf ts' ∧ punct_first ts'
      ∧ strstr text (quoted key) = Some (quoted key ++ text')
  | None => strstr text (quoted key) = None
  end.
Proof.
  intros Hk Hl. induction Hl as [ws Hws|ws t ts text Hws Hl IH]; intros Hw Hp Hu.
  { cbn [tokens_after]. rewrite <- (app_nil_r ws), strstr_skip_unquoted by by apply ws_not_quote.
    done. }
  rewrite strstr_skip_unquoted by by apply ws_not_quote.
  apply Forall_cons in Hw as [Ht Hw].
  assert (Hskip : (∀ s, t ≠ TStr s) →
    strstr (token_text t ++ text) (quoted key) = strstr text (quoted key)).
  { intros Hs. apply strstr_skip_unquoted. by apply token_not_quote. }
  destruct t as [s|s|c]; cbn [tokens_after punctuated unhidden] in *;
    [|rewrite Hskip by done; by apply IH..].
  destruct Hp as [Hpf Hp]. cbn [token_text app]. rewrite <- app_assoc. cbn [app].
  rewrite strstr_token by first [done | by apply ident_json | naive_solver].
  case_decide; [by exists text|]. destruct Hu as [?|[_ Hu]]; [done|].
  rewrite (strstr_closing _ ts) by done. by apply IH.
Qed.

(** Where the extractor starts to read the value. *)
Lemma json_value_start_layout key ts text :
  ident key → layout ts text → Forall token_wf ts → punctuated ts → unhidden key ts →
  match token_value key ts with
  | Some v => ∃ rest, token_wf v ∧ json_value_start text (quoted key) = Some (token_text v ++ rest)
  | None => json_value_start text (quoted key) = None
            ∨ json_value_start text (quoted key) = Some []
  end.
Proof.
  intros Hk Hl Hw Hp Hu. pose proof (strstr_layout key ts text Hk Hl Hw Hp Hu) as Hs.
  unfold token_value, json_value_start.
  destruct (tokens_after key ts) as [ts'|]; [|by rewrite Hs; left].
  destruct Hs as (text' & Hl' & Hw' & Hp' & ->). rewrite drop_app_length.
  destruct ts' as [|[s|s|c] ts']; [by rewrite skip_ws_end; auto|done..|].
  apply Forall_cons in Hw' as [Hc Hw'].
  destruct (skip_ws_layout _ _ _ Hl' Hc) as (text1 & Hl1 & ->). cbn [token_text app].
  destruct (decide (c = ":"%char)) as [->|Hn];
    [|rewrite bool_decide_false by done; by destruct ts'; left].
  rewrite bool_decide_true by done. destruct ts' as [|v ts'].
  - right. by rewrite skip_ws_end.
  - apply Forall_cons in Hw' as [Hv _].
    destruct (skip_ws_layout _ _ _ Hl1 Hv) as (text2 & _ & ->). by exists text2.
Qed.

(** What is copied of a string. *)
Lemma json_copy_string s n rest :
  Forall jchar_wf s → 0 < n →
  json_copy (jstring_text s ++ dquote :: rest) 0 n =
    match unescaped s with
    | Some b => if len b <? n then Some b else None
    | None => None
    end.
Proof.
  intros Hs Hn. destruct (unescaped s) as [b|] eqn:E.
  - apply unescaped_Some in E as ->. rewrite plain_text.
    assert (Hb : Forall json_char b) by (unfold plain in Hs; rewrite Forall_fmap in Hs; exact Hs).
    case_if.
    + apply json_copy_spec. split_and!; [by eexists|done|right; lia].
    + destruct (json_copy _ 0 n) as [out|] eqn:Ec; [|done].
      apply json_copy_spec in Ec as ([t Ht] & Hc & Hl).
      apply split_at_sep in Ht as [-> _]; auto using json_char_no_quote.
      destruct Hl as [Hl|Hl]; [rewrite Hl, len_nil in *|]; lia.
  - clear Hn. generalize 0 as off. induction Hs as [|[c|c] s Hc Hs IH]; intros off; [done|..];
      cbn [unescaped jstring_text app json_copy] in *.
    + destruct (unescaped s); [done|]. destruct Hc as (_ & Hq & _).
      rewrite bool_decide_false by done. rewrite IH by done. by case_if.
    + rewrite bool_decide_false by done. by rewrite orb_true_r.
Qed.

(** The extractor returns the string after the key and its colon. *)
Lemma json_get_string_layout key n ts text :
  ident key → len key < 62 → 0 < n →
  layout ts text → Forall token_wf ts → punctuated ts → unhidden key ts →
  json_get_string (Some text) (Some key) n =
    match token_value key ts with
    | Some (TStr s) =>
        match unescaped s with
        | Some b => if len b <? n then Some b else None
        | None => None
        end
    | _ => None
    end.
Proof.
  intros Hk Hlen Hn Hl Hw Hp Hu. unfold json_get_string.
  rewrite (proj2 (Z.eqb_neq n 0)) by lia. rewrite json_pattern_quoted by done.
  pose proof (json_value_start_layout key ts text Hk Hl Hw Hp Hu) as Hv.
  destruct (token_value key ts) as [v|]; [|by destruct Hv as [-> | ->]].
  destruct Hv as (rest & Hv & ->). destruct v as [s|s|c]; cbn [token_text app] in *.
  - rewrite bool_decide_true by done. rewrite <- app_assoc. by apply json_copy_string.
  - destruct Hv as [Hv Hne]. destruct s as [|c s]; [done|]. cbn [app].
    apply Forall_cons in Hv as [[Hq _]%literal_char_facts _]. by rewrite bool_decide_false by done.
  - destruct (punct_facts _ Hv) as [Hq _]. by rewrite bool_decide_false by done.
Qed.

(** ** Values *)

Unset Elimination Schemes.
Inductive json :=
  | JStr (s : jstring)
  | JLit (s : bytes)
  | JArr (vs : list json)
  | JObj (kvs : list (jstring * json)).
Set Elimination Schemes.

(** Induction with the hypothesis for every part. *)
Lemma json_nested_ind (P : json → Prop) :
  (∀ s, P (JStr s)) → (∀ s, P (JLit s)) → (∀ vs, Forall P vs → P (JArr vs)) →
  (∀ kvs, Forall (λ kv, P kv.2) kvs → P (JObj kvs)) → ∀ v, P v.
Proof.
  intros Hs Hl Ha Ho. fix IH 1. intros [s|s|vs|kvs]; [apply Hs|apply Hl|apply Ha|apply Ho].
  - induction vs as [|v vs IHvs]; constructor; [apply IH|exact IHvs].
  - induction kvs as [|[k v] kvs IHkvs]; constructor; [apply IH|exact IHkvs].
Qed.

(** The parts with commas between them. *)
Fixpoint commas (parts : list (list token)) : list token :=
  match parts with
  | [] => []
  | [part] => part
  | part :: parts => part ++ TPunct ","%char :: commas parts
  end.

Fixpoint jtokens (v : json) : list token :=
  match v with
  | JStr s => [TStr s]
  | JLit s => [TLit s]
  | JArr vs => TPunct "["%char :: commas (jtokens <$> vs) ++ [TPunct "]"%char]
  | JObj kvs =>
      TPunct "{"%char
      :: commas ((λ kv, TStr kv.1 :: TPunct ":"%char :: jtokens kv.2) <$> kvs)
      ++ [TPunct "}"%char]
  end.

(** In the tokens of a value every string is followed by punctuation. *)
Lemma punctuated_commas parts c rest :
  Forall (λ part, ∀ c rest, punctuated rest → punctuated (part ++ TPunct c :: rest)) parts →
  punctuated rest → punctuated (commas parts ++ TPunct c :: rest).
Proof.
  intros Hparts Hr. induction Hparts as [|part parts Hp Hparts IH]; [done|].
  destruct parts as [|part' parts]; [by apply Hp|]. cbn [commas].
  rewrite <- app_assoc. cbn [app]. by apply Hp.
Qed.
Lemma jtokens_punctuated v c rest :
  punctuated rest → punctuated (jtokens v ++ TPunct c :: rest).
Proof.
  revert c rest. induction v as [s|s|vs Hvs|kvs Hkvs] using json_nested_ind; intros c rest Hr;
    cbn [jtokens app punctuated]; [done..| |]; rewrite <- app_assoc; cbn [app];
    apply punctuated_commas; try done; apply Forall_fmap.
  - eapply Forall_impl; [exact Hvs|]. intros v Hv c' rest' Hr'. by apply Hv.
  - eapply Forall_impl; [exact Hkvs|]. intros [k v] Hv c' rest' Hr'. cbn in *. by auto.
Qed.

(** ** Objects *)

(** The members of an object whose keys hold no escape sequence; the values
    are any JSON. *)
Abbreviation jobject := (list (bytes * json)).

Definition object_value (o : jobject) : json := JObj ((λ kv, (plain kv.1, kv.2)) <$> o).
Definition object_tokens (o : jobject) : list token := jtokens (object_value o).
Definition jobject_wf (o : jobject) : Prop := Forall token_wf (object_tokens o).

(** What a JSON reader returns for a key: the value of the first member. *)
Fixpoint jfield (key : bytes) (o : jobject) : option json :=
  match o with
  | [] => None
  | (k, v) :: o' => if decide (k = key) then Some v else jfield key o'
  end.

(** A value in which no string, at any depth, is the key or ends with an
    escaped quote and the key. *)
Definition token_quiet (key : bytes) (t : token) : bool :=
  match t with
  | TStr s => negb (bool_decide (s = plain key)) && negb (tail_quoted key s)
  | _ => true
  end.
Definition quiet (key : bytes) (v : json) : Prop :=
  Forall (λ t, token_quiet key t = true) (jtokens v).

(** The values before the first member with the key are quiet. *)
Fixpoint visible (key : bytes) (o : jobject) : Prop :=
  match o with
  | [] => True
  | (k, v) :: o' => k = key ∨ quiet key v ∧ visible key o'
  end.

(** ** The extractor against JSON *)

Definition member_tokens (kv : bytes * json) : list token :=
  TStr (plain kv.1) :: TPunct ":"%char :: jtokens kv.2.

Lemma object_tokens_eq o :
  object_tokens o = TPunct "{"%char :: commas (member_tokens <$> o) ++ [TPunct "}"%char].
Proof. unfold object_tokens, object_value. cbn [jtokens]. by rewrite <- list_fmap_compose. Qed.

Lemma object_punctuated o : punctuated (object_tokens o).
Proof.
  rewrite object_tokens_eq. cbn [punctuated]. apply punctuated_commas; [|done].
  apply Forall_fmap, Forall_true. intros [k v] c rest Hr.
  unfold compose, member_tokens. cbn [app punctuated punct_first fst snd].
  split; [done|]. by apply jtokens_punctuated.
Qed.

Lemma quiet_skip key ts rest :
  Forall (λ t, token_quiet key t = true) ts →
  tokens_after key (ts ++ rest) = tokens_after key rest
  ∧ (unhidden key rest → unhidden key (ts ++ rest)).
Proof.
  induction 1 as [|[s|s|c] ts Hq _ [IH1 IH2]]; cbn [app tokens_after unhidden token_quiet] in *;
    [done|..|done|done].
  bdec. rewrite decide_False by done. split; [done|]. right. auto.
Qed.

(** The members of an object, up to the end of its tokens. *)
Lemma members_after key o :
  visible key o →
  let ts := commas (member_tokens <$> o) ++ [TPunct "}"%char] in
  unhidden key ts
  ∧ match jfield key o with
    | Some v => ∃ rest, tokens_after key ts = Some (TPunct ":"%char :: jtokens v ++ rest)
    | None => tokens_after key ts = None
    end.
Proof.
  induction o as [|[k v] o IH]; intros Hv ts; [done|]. unfold ts. clear ts.
  assert (∃ sep rest, commas (member_tokens <$> (k, v) :: o) ++ [TPunct "}"%char]
      = member_tokens (k, v) ++ TPunct sep :: rest
    ∧ (unhidden key (commas (member_tokens <$> o) ++ [TPunct "}"%char]) → unhidden key rest)
    ∧ tokens_after key rest
      = tokens_after key (commas (member_tokens <$> o) ++ [TPunct "}"%char]))
    as (sep & rest & -> & Hu & Ha).
  { destruct o as [|kv o]; [by exists "}"%char, []|].
    exists ","%char. eexists. split; [|done]. cbn [fmap list_fmap commas].
    rewrite <- app_assoc. done. }
  unfold member_tokens. cbn [fst snd app unhidden tokens_after jfield visible] in *.
  destruct (decide (k = key)) as [->|Hne].
  { rewrite decide_True by done. split; [by left|]. by eexists. }
  rewrite decide_False by (by intros ?%plain_inj). destruct Hv as [?|[Hq Hv]]; [done|].
  destruct (quiet_skip key (jtokens v) (TPunct sep :: rest) Hq) as [Hs Hs'].
  cbn [tokens_after unhidden] in Hs, Hs'. destruct (IH Hv) as [IHu IHa]. split.
  - right. rewrite tail_quoted_plain. auto.
  - by rewrite Hs, Ha.
Qed.

(** The extractor on any text of an object. *)
Lemma json_get_string_json o key n text :
  jobject_wf o → layout (object_tokens o) text → visible key o →
  ident key → len key < 62 → 0 < n →
  json_get_string (Some text) (Some key) n =
    match jfield key o with
    | Some (JStr s) =>
        match unescaped s with
        | Some b => if len b <? n then Some b else None
        | None => None
        end
    | _ => None
    end.
Proof.
  intros Hwf Hl Hv Hk Hlen Hn. destruct (members_after key o Hv) as [Hu Ha].
  pose proof (object_punctuated o) as Hp.
  rewrite (json_get_string_layout key n _ text Hk Hlen Hn Hl Hwf Hp)
    by (rewrite object_tokens_eq; exact Hu).
  unfold token_value. rewrite object_tokens_eq. cbn [tokens_after].
  destruct (jfield key o) as [v|]; [|by rewrite Ha].
  destruct Ha as [rest ->]. by destruct v.
Qed.

(** C26: on any text of a JSON object (white space anywhere, values of any kind
    and depth, strings with escape sequences; keys of the object itself
    without them) the extractor returns what a JSON reader would for a field:
    the string value of the first member with the key, when it holds no escape
    sequence and fits the buffer with its NUL; and it fails when there is no
    such member, the value is not a string, has an escape sequence or is too
    long.  The condition: no string in a value before that member is the key
    itself or ends with an escaped quote and the key. *)
Theorem json_extractor_correct o key n text :
  jobject_wf o → layout (object_tokens o) text → visible key o →
  ident key → len key < 62 → 0 < n →
  json_get_string (Some text) (Some key) n =
    match jfield key o with
    | Some (JStr s) =>
        match unescaped s with
        | Some b => if len b <? n then Some b else None
        | None => None
        end
    | _ => None
    end.
Proof. apply json_get_string_json. Qed.

(** ** Texts with the same white space everywhere *)

Fixpoint spaced (ws : bytes) (ts : list token) : bytes :=
  match ts with
  | [] => ws
  | t :: ts => ws ++ token_text t ++ spaced ws ts
  end.

Lemma spaced_layout ws ts : Forall json_space ws → layout ts (spaced ws ts).
Proof. intros Hw. induction ts as [|t ts IH]; by constructor. Qed.

(** The compact text, as the programs write it. *)
Definition jobject_text (o : jobject) : bytes := spaced [] (object_tokens o).

(** An object of string members. *)
Definition strings_object (o : list (bytes * bytes)) : jobject :=
  (λ kv, (kv.1, JStr (plain kv.2))) <$> o.
Definition strings_wf (o : list (bytes * bytes)) : Prop :=
  Forall (λ kv, Forall json_char kv.1 ∧ Forall json_char kv.2) o.

Lemma commas_forall (P : token → Prop) parts :
  P (TPunct ","%char) → Forall (Forall P) parts → Forall P (commas parts).
Proof.
  intros Hc. induction 1 as [|part parts Hp Hparts IH]; [constructor|].
  destruct parts as [|part' parts]; [done|]. cbn [commas]. apply Forall_app. by auto.
Qed.

Lemma object_tokens_forall (P : token → Prop) o :
  P (TPunct "{"%char) → P (TPunct "}"%char) → P (TPunct ","%char) →
  Forall (λ kv, Forall P (member_tokens kv)) o → Forall P (object_tokens o).
Proof.
  intros H1 H2 H3 Ho. rewrite object_tokens_eq. constructor; [done|]. apply Forall_app.
  split; [|by constructor]. apply commas_forall; [done|]. by apply Forall_fmap.
Qed.

Ltac punct_in := cbn; set_solver.

Lemma string_member_wf k v :
  Forall json_char k → Forall json_char v → Forall token_wf (member_tokens (k, JStr (plain v))).
Proof. intros Hk Hv. repeat constructor; first [by apply plain_wf | punct_in]. Qed.

Lemma strings_object_wf o : strings_wf o → jobject_wf (strings_object o).
Proof.
  intros Ho. apply object_tokens_forall; [punct_in..|]. apply Forall_fmap.
  eapply Forall_impl; [exact Ho|]. intros [k v] [Hk Hv]. by apply string_member_wf.
Qed.

(** What the extractor finds among string members: the first one with the
    key, unless a value equal to the key comes first. *)
Fixpoint strings_lookup (key : bytes) (o : list (bytes * bytes)) : option bytes :=
  match o with
  | [] => None
  | (k, v) :: o' =>
      if decide (k = key) then Some v
      else if decide (v = key) then None
      else strings_lookup key o'
  end.

Lemma strings_after key o :
  let ts := commas (member_tokens <$> strings_object o) ++ [TPunct "}"%char] in
  unhidden key ts
  ∧ match strings_lookup key o with
    | Some v => ∃ rest, tokens_after key ts = Some (TPunct ":"%char :: TStr (plain v) :: rest)
    | None => tokens_after key ts = None
        ∨ ∃ c rest, c ≠ ":"%char ∧ tokens_after key ts = Some (TPunct c :: rest)
    end.
Proof.
  induction o as [|[k v] o [IHu IHa]]; [by split; [|left]|].
  assert (∃ sep rest, sep ≠ ":"%char
    ∧ commas (member_tokens <$> strings_object ((k, v) :: o)) ++ [TPunct "}"%char]
      = TStr (plain k) :: TPunct ":"%char :: TStr (plain v) :: TPunct sep :: rest
    ∧ unhidden key rest
    ∧ tokens_after key rest = tokens_after key
        (commas (member_tokens <$> strings_object o) ++ [TPunct "}"%char]))
    as (sep & rest & Hsep & -> & Hu & Ha).
  { destruct o as [|kv o]; [by exists "}"%char, []|]. exists ","%char. by eexists. }
  cbn [unhidden tokens_after strings_lookup]. rewrite !tail_quoted_plain. split; [by auto|].
  destruct (decide (k = key)) as [->|Hk]; [rewrite decide_True by done; by eexists|].
  rewrite (decide_False (P := plain k = plain key)) by (by intros ?%plain_inj).
  destruct (decide (v = key)) as [->|Hv]; [rewrite decide_True by done; right; by eexists _, _|].
  rewrite (decide_False (P := plain v = plain key)) by (by intros ?%plain_inj). by rewrite Ha.
Qed.

Lemma json_get_string_object o key n :
  strings_wf o → ident key → len key < 62 → 0 < n →
  json_get_string (Some (jobject_text (strings_object o))) (Some key) n =
    match strings_lookup key o with
    | Some v => if len v <? n then Some v else None
    | None => None
    end.
Proof.
  intros Ho Hk Hlen Hn. destruct (strings_after key o) as [Hu Ha].
  rewrite (json_get_string_layout key n (object_tokens (strings_object o))); [|done..| | | |].
  - unfold token_value. rewrite object_tokens_eq. cbn [tokens_after].
    destruct (strings_lookup key o) as [v|].
    + destruct Ha as [rest ->]. rewrite decide_True by done. by rewrite unescaped_plain.
    + destruct Ha as [-> |(c & rest & Hc & ->)]; [done|]. destruct rest; [done|].
      by rewrite decide_False by done.
  - by apply spaced_layout.
  - by apply strings_object_wf.
  - apply object_punctuated.
  - rewrite object_tokens_eq. exact Hu.
Qed.

(** The texts are C strings. *)
Lemma jstring_cstr s : Forall jchar_wf s → is_cstr (jstring_text s).
Proof.
  induction 1 as [|[c|c] s Hc Hs IH]; cbn [jstring_text]; [constructor|..].
  - constructor; [|done]. destruct Hc as (Hc & _). intros ->. change (byte_val NUL) with 0 in Hc. lia.
  - constructor; [done|]. constructor; [|done]. destruct Hc as [-> |[-> |Hc]]; [done..|].
    intros ->. cbn in Hc. set_solver.
Qed.
Lemma token_cstr t : token_wf t → is_cstr (token_text t).
Proof.
  destruct t as [s|s|c]; cbn [token_wf token_text]; intros Hw.
  - constructor; [done|]. apply is_cstr_app. split; [by apply jstring_cstr|by repeat constructor].
  - destruct Hw as [Hw _]. eapply Forall_impl; [exact Hw|]. by intros c Hc ->.
  - constructor; [|constructor]. intros ->. cbn in Hw. set_solver.
Qed.
Lemma layout_cstr ts text : layout ts text → Forall token_wf ts → is_cstr text.
Proof.
  assert (Hws : ∀ ws, Forall json_space ws → is_cstr ws).
  { intros ws Hw. eapply Forall_impl; [exact Hw|]. by intros c (_ & _ & ? & _)%json_space_facts. }
  induction 1 as [ws Hw|ws t ts text Hw Hl IH]; intros Ht; [by apply Hws|].
  apply Forall_cons in Ht as [Ht Hts]. apply is_cstr_app. split; [by apply Hws|].
  apply is_cstr_app. by auto using token_cstr.
Qed.
Lemma object_cstr o : jobject_wf o → is_cstr (jobject_text o).
Proof. intros Hwf. by eapply layout_cstr; [apply spaced_layout|]. Qed.

(** Hexadecimal text needs no escape. *)
Lemma hex_json `{SodiumCodecOk} b : Forall json_char (sodium_bin2hex b).
Proof.
  eapply Forall_impl; [apply bin2hex_digits|]. intros c Hc. unfold is_hex_digit in Hc.
  assert (48 ≤ byte_val c ≤ 102 ∧ byte_val c ≠ 92).
  { repeat (apply orb_true_iff in Hc as [Hc|Hc] || apply andb_true_iff in Hc as [Hc ?]); lia. }
  split_and!; [lia|intros ->; change (byte_val dquote) with 34 in *; lia
    |intros ->; change (byte_val backslash) with 92 in *; lia].
Qed.

(** A formatted text is the compact text of an object. *)
Ltac text_eq :=
  unfold jobject_text; rewrite object_tokens_eq;
  cbn [strings_object fmap list_fmap commas member_tokens jtokens fst snd app spaced token_text];
  rewrite ?plain_text; repeat (rewrite <- ?app_assoc; cbn [app]); reflexivity.

(** ** Witness *)

#[export] Instance jchar_wf_dec c : Decision (jchar_wf c).
Proof. destruct c; cbn; unfold json_char; apply _. Defined.
#[export] Instance token_wf_dec t : Decision (token_wf t).
Proof. destruct t; cbn; apply _. Defined.
#[export] Instance jobject_wf_dec o : Decision (jobject_wf o).
Proof. unfold jobject_wf. apply _. Defined.

Lemma json_extractor_correct_witness :
  let o := [(lit "type", JStr (plain (lit "hello")));
            (lit "extra", JObj [(plain (lit "a") ++ [JEsc dquote], JArr [JLit (lit "-1.5"); JLit (lit "true")])]);
            (lit "username", JStr (plain (lit "alice")))] in
  let text := spaced (lit " ") (object_tokens o) in
  jobject_wf o
  ∧ json_get_string (Some text) (Some (lit "username")) 33 = Some (lit "alice")
  ∧ json_get_string (Some text) (Some (lit "username")) 5 = None
  ∧ json_get_string (Some text) (Some (lit "extra")) 33 = None.
Proof.
  intros o text.
  assert (Hwf : jobject_wf o) by (apply (bool_decide_eq_true_1 _); vm_compute; reflexivity).
  assert (Hl : layout (object_tokens o) text)
    by (apply spaced_layout, (bool_decide_eq_true_1 _); vm_compute; reflexivity).
  assert (Hv : visible (lit "username") o ∧ visible (lit "extra") o).
  { split; cbn; repeat first [by left | right; split; [repeat constructor|]]. }
  split_and!; [exact Hwf|..];
    rewrite (json_extractor_correct o _ _ text Hwf Hl)
      by first [apply Hv | apply (bool_decide_eq_true_1 (ident _)); by vm_compute | by vm_compute];
    vm_compute; reflexivity.
Defined.
