(* ===== verification/Identity.v ===== *)
(** * Identity: data, paths and text (src/common/identity.c, identity.h)

    The parts of identity.c that do not touch the file system: the result
    codes, the configuration directory, the fingerprint of a public key, the
    test of server URLs and of configuration lines.  A function that fills a
    buffer of the caller takes the buffer's size and returns the string left
    there, or the error code ([inl]). *)

From S2P Require Import Prelude CLib Protocol Sodium.

Inductive chat_identity_result_t :=
  | CHAT_IDENTITY_OK
  | CHAT_IDENTITY_ERR_INVALID_USERNAME
  | CHAT_IDENTITY_ERR_ALREADY_EXISTS
  | CHAT_IDENTITY_ERR_SODIUM
  | CHAT_IDENTITY_ERR_IO
  | CHAT_IDENTITY_ERR_BUFFER
  | CHAT_IDENTITY_ERR_NOT_FOUND
  | CHAT_IDENTITY_ERR_BAD_FILE
  | CHAT_IDENTITY_ERR_INVALID_SERVER_URL.
#[export] Instance chat_identity_result_eq_dec : EqDecision chat_identity_result_t.
Proof. solve_decision. Defined.

Record chat_identity_t := {
  id_username : bytes;
  id_public_key : bytes;
  id_secret_key : bytes;
}.

Definition CHAT_IDENTITY_FINGERPRINT_LEN : Z := crypto_generichash_BYTES * 3.
Definition CHAT_IDENTITY_SERVER_URL_MAX : Z := 256.
Definition CHAT_DEFAULT_SERVER_URL : bytes := lit "wss://pronto-chat.duckdns.org".
Definition PATH_MAX : Z := 4096.

(** A failed call, or its value. *)
Abbreviation identity_res A := (chat_identity_result_t + A)%type.

Definition chat_identity_result_name (result : chat_identity_result_t) : string :=
  match result with
  | CHAT_IDENTITY_OK => "ok"
  | CHAT_IDENTITY_ERR_INVALID_USERNAME => "invalid username"
  | CHAT_IDENTITY_ERR_ALREADY_EXISTS => "identity already exists"
  | CHAT_IDENTITY_ERR_SODIUM => "libsodium failure"
  | CHAT_IDENTITY_ERR_IO => "I/O error"
  | CHAT_IDENTITY_ERR_BUFFER => "buffer too small"
  | CHAT_IDENTITY_ERR_NOT_FOUND => "identity not found"
  | CHAT_IDENTITY_ERR_BAD_FILE => "invalid identity file"
  | CHAT_IDENTITY_ERR_INVALID_SERVER_URL => "invalid server URL"
  end.

(** ** Strings and paths *)

Definition chat_copy_string (out_size : Z) (value : cptr) : identity_res bytes :=
  match value with
  | None => inl CHAT_IDENTITY_ERR_BUFFER
  | Some value =>
      if out_size =? 0 then inl CHAT_IDENTITY_ERR_BUFFER
      else match snprintf out_size value with
           | None => inl CHAT_IDENTITY_ERR_BUFFER
           | Some s => inr s
           end
  end.

Definition chat_join_path (out_size : Z) (dir file : cptr) : identity_res bytes :=
  match dir, file with
  | Some dir, Some file =>
      if out_size =? 0 then inl CHAT_IDENTITY_ERR_BUFFER
      else match snprintf out_size (dir ++ lit "/" ++ file) with
           | None => inl CHAT_IDENTITY_ERR_BUFFER
           | Some s => inr s
           end
  | _, _ => inl CHAT_IDENTITY_ERR_BUFFER
  end.

(** [getenv] as a function of the environment; a variable that is unset or
    empty does not count. *)
Definition getenv_nonempty (getenv : bytes → cptr) (name : string) : cptr :=
  match getenv (lit name) with
  | Some [] | None => None
  | Some v => Some v
  end.

(** The branch compiled on systems other than macOS. *)
Definition chat_identity_config_dir (getenv : bytes → cptr) (out_size : Z)
    : identity_res bytes :=
  match getenv_nonempty getenv "CHAT_CONFIG_DIR" with
  | Some override => chat_copy_string out_size (Some override)
  | None =>
      match getenv_nonempty getenv "XDG_CONFIG_HOME" with
      | Some xdg_config_home =>
          match snprintf out_size (xdg_config_home ++ lit "/chat") with
          | None => inl CHAT_IDENTITY_ERR_BUFFER
          | Some s => inr s
          end
      | None =>
          match getenv_nonempty getenv "HOME" with
          | None => inl CHAT_IDENTITY_ERR_IO
          | Some home =>
              match snprintf out_size (home ++ lit "/.config/chat") with
              | None => inl CHAT_IDENTITY_ERR_BUFFER
              | Some s => inr s
              end
          end
      end
  end.

(** ** Fingerprint *)

(** The conversion [%02X] of a byte. *)
Definition hex_upper (v : Z) : byte := byte_of (if v <? 10 then 48 + v else 55 + v).
Definition fmt_02X (c : byte) : bytes :=
  [hex_upper (byte_val c / 16); hex_upper (byte_val c mod 16)].

(** The loop over the digest from index [i]; [offset] is what is written so
    far, the result what the rest writes. *)
Fixpoint fingerprint_loop (digest : bytes) (i offset out_size : Z) : option bytes :=
  match digest with
  | [] => Some []
  | c :: digest' =>
      match snprintf (out_size - offset) (if i =? 0 then fmt_02X c else ":"%char :: fmt_02X c) with
      | None => None
      | Some written =>
          match fingerprint_loop digest' (i + 1) (offset + len written) out_size with
          | None => None
          | Some rest => Some (written ++ rest)
          end
      end
  end.

Definition chat_identity_fingerprint `{SodiumHash} (public_key : cptr) (out_size : Z)
    : identity_res bytes :=
  match public_key with
  | None => inl CHAT_IDENTITY_ERR_BUFFER
  | Some public_key =>
      match crypto_generichash public_key with
      | None => inl CHAT_IDENTITY_ERR_SODIUM
      | Some digest =>
          if out_size <? crypto_generichash_BYTES * 3 then inl CHAT_IDENTITY_ERR_BUFFER
          else match fingerprint_loop digest 0 0 out_size with
               | None => inl CHAT_IDENTITY_ERR_BUFFER
               | Some s => inr s
               end
      end
  end.

(** ** Configuration lines and URLs *)

Definition is_blank (c : byte) : bool := bool_decide (c = " "%char) || bool_decide (c = "009"%char).
Fixpoint skip_blanks (line : bytes) : bytes :=
  match line with
  | c :: line' => if is_blank c then skip_blanks line' else line
  | [] => []
  end.

Definition chat_config_line_has_key (line key : bytes) : bool :=
  let line := skip_blanks line in
  if negb (has_prefix key line) then false
  else match skip_blanks (zdrop (strlen key) line) with
       | c :: _ => bool_decide (c = "="%char)
       | [] => false
       end.

Definition url_char_ok (c : byte) : bool :=
  negb ((byte_val c <=? 32) || (byte_val c =? 127) || bool_decide (c = dquote)
        || bool_decide (c = byte_of 92)).

Definition url_authority (server_url : bytes) : option bytes :=
  if has_prefix (lit "ws://") server_url then Some (zdrop 5 server_url)
  else if has_prefix (lit "wss://") server_url then Some (zdrop 6 server_url)
  else None.

Definition chat_server_url_is_valid (server_url : cptr) : bool :=
  match server_url with
  | None => false
  | Some server_url =>
      let length := strlen server_url in
      if (length =? 0) || (length >=? CHAT_IDENTITY_SERVER_URL_MAX) then false
      else match url_authority server_url with
           | None | Some [] => false
           | Some (c :: _) =>
               if bool_decide (c ∈ lit "/?#") then false
               else forallb url_char_ok server_url
           end
  end.

Definition chat_identity_wipe (identity : option chat_identity_t) : option chat_identity_t :=
  match identity with
  | None => None
  | Some identity =>
      Some {| id_username := id_username identity;
              id_public_key := id_public_key identity;
              id_secret_key := zeros crypto_sign_SECRETKEYBYTES |}
  end.

(** ** Lemmas *)

Lemma hex_upper_inj a b : 0 ≤ a < 16 → 0 ≤ b < 16 → hex_upper a = hex_upper b → a = b.
Proof.
  unfold hex_upper. intros Ha Hb E%(f_equal byte_val).
  destruct (a <? 10) eqn:Ea, (b <? 10) eqn:Eb; bdec; rewrite !byte_val_of_small in E by lia; lia.
Qed.

Lemma fmt_02X_inj c d : fmt_02X c = fmt_02X d → c = d.
Proof.
  unfold fmt_02X. intros [= E1 E2]. apply byte_val_inj.
  pose proof (byte_val_range c). pose proof (byte_val_range d).
  apply hex_upper_inj in E1; [|Z.div_mod_to_equations; lia..].
  apply hex_upper_inj in E2; [|Z.div_mod_to_equations; lia..].
  Z.div_mod_to_equations; lia.
Qed.

(** The text of a digest: upper-case pairs with colons between. *)
Fixpoint colon_hex (first : bool) (digest : bytes) : bytes :=
  match digest with
  | [] => []
  | c :: digest' => (if first then fmt_02X c else ":"%char :: fmt_02X c) ++ colon_hex false digest'
  end.

Lemma len_colon_hex first digest :
  len (colon_hex first digest) =
  3 * len digest - (if first && negb (bool_decide (digest = [])) then 1 else 0).
Proof.
  revert first; induction digest as [|c digest IH]; intros first; [by destruct first|].
  cbn [colon_hex]. rewrite len_app, IH, len_cons. cbn [andb]. rewrite bool_decide_false by done.
  destruct first; cbn [andb negb]; unfold fmt_02X; lens.
Qed.

Lemma colon_hex_inj first a b : colon_hex first a = colon_hex first b → a = b.
Proof.
  revert first b; induction a as [|c a IH]; intros first [|d b]; cbn [colon_hex].
  - done.
  - by destruct first.
  - by destruct first.
  - intros E. apply app_inj_1 in E as [E1 E2]; [|by destruct first].
    f_equal; [|by apply (IH false)]. apply fmt_02X_inj. destruct first; [done|]. exact (f_equal tail E1).
Qed.

Lemma len_fmt_digit (first : bool) c :
  len (if first then fmt_02X c else ":"%char :: fmt_02X c) = if first then 2 else 3.
Proof. by destruct first. Qed.

Lemma fingerprint_loop_ok digest i offset out_size :
  0 ≤ i → offset + len (colon_hex (i =? 0) digest) < out_size →
  fingerprint_loop digest i offset out_size = Some (colon_hex (i =? 0) digest).
Proof.
  revert i offset; induction digest as [|c digest IH]; intros i offset Hi Hs; [done|].
  cbn [fingerprint_loop colon_hex] in *. rewrite len_app, len_fmt_digit in Hs.
  pose proof (len_nonneg (colon_hex false digest)).
  assert (Hi' : (i + 1 =? 0) = false) by (apply Z.eqb_neq; lia).
  rewrite snprintf_ok; rewrite ?len_fmt_digit; [|destruct (i =? 0); lia|destruct (i =? 0); unfold INT_MAX; lia].
  rewrite IH; rewrite ?Hi'; [done|lia|lia].
Qed.

Lemma fingerprint_loop_text digest i offset out_size s :
  0 ≤ i → fingerprint_loop digest i offset out_size = Some s → s = colon_hex (i =? 0) digest.
Proof.
  revert i offset s; induction digest as [|c digest IH]; intros i offset s Hi Hs; cbn in Hs;
    [by simplify_eq|].
  destruct (snprintf _ _) as [w|] eqn:Ew; [|done]. apply snprintf_eq in Ew as [-> _].
  destruct (fingerprint_loop digest _ _ _) as [rest|] eqn:Er; [|done]. simplify_eq.
  apply IH in Er; [|lia]. cbn [colon_hex]. f_equal. rewrite Er.
  by replace (i + 1 =? 0) with false by (symmetry; apply Z.eqb_neq; lia).
Qed.

(** C34: the fingerprint of a key is produced exactly when the buffer holds 96
    bytes; it is then the 95 characters of the digest in upper-case
    hexadecimal with colons, and two keys with the same fingerprint have the
    same digest. *)
Theorem fingerprint_faithful `{SodiumHashOk} pk out_size :
  ∃ digest, crypto_generichash pk = Some digest
    ∧ chat_identity_fingerprint (Some pk) out_size =
        (if CHAT_IDENTITY_FINGERPRINT_LEN <=? out_size
         then inr (colon_hex true digest) else inl CHAT_IDENTITY_ERR_BUFFER)
    ∧ len (colon_hex true digest) = CHAT_IDENTITY_FINGERPRINT_LEN - 1
    ∧ ∀ pk' out_size',
        chat_identity_fingerprint (Some pk') out_size' = inr (colon_hex true digest) →
        crypto_generichash pk' = crypto_generichash pk.
Proof.
  destruct (generichash_one_shot pk) as (digest & Hd & Hl). exists digest.
  assert (Hlen : len (colon_hex true digest) = 95).
  { rewrite len_colon_hex, Hl. destruct digest; [done|]. by rewrite bool_decide_false. }
  split_and!; [done|..|done|].
  - unfold chat_identity_fingerprint, CHAT_IDENTITY_FINGERPRINT_LEN. rewrite Hd.
    rewrite Z.ltb_antisym. destruct (_ <=? out_size) eqn:E; [|done]. cbn [negb]. bdec.
    change (crypto_generichash_BYTES * 3) with 96 in E.
    rewrite fingerprint_loop_ok; [done|done|]. change (0 =? 0) with true. lia.
  - intros pk' n E. unfold chat_identity_fingerprint in E.
    destruct (crypto_generichash pk') as [d'|]; [|done]. case_if_in E; [done|].
    destruct (fingerprint_loop d' 0 0 n) as [s|] eqn:Es; [|done].
    apply fingerprint_loop_text in Es; [|done]. injection E as ->.
    apply colon_hex_inj in Es as ->. done.
Qed.

Import Reference.

Lemma fingerprint_faithful_witness :
  let pk := replicate 32 (byte_of 171) in
  (∃ text, chat_identity_fingerprint (Some pk) 96 = inr text
           ∧ len text = 95 ∧ take 6 text = lit "AB:AB:")
  ∧ chat_identity_fingerprint (Some pk) 95 = inl CHAT_IDENTITY_ERR_BUFFER.
Proof.
  intros pk.
  destruct (fingerprint_faithful pk 96) as (d & Hd & E & Hl & _).
  destruct (fingerprint_faithful pk 95) as (d' & _ & E' & _).
  split; [|exact E']. exists (colon_hex true d). split_and!; [exact E|exact Hl|].
  vm_compute in Hd. injection Hd as <-. vm_compute. reflexivity.
Defined.
