(* ===== verification/FileSys.v ===== *)
(** * The file system, as identity.c and contacts.c use it

    POSIX calls on a tree of directories and files, and the stdio streams on
    top of them.  [os_faults] is the schedule of what the system does to the
    calls still to come, one entry per call: nothing special, a short
    transfer, an interruption by a signal, or an error (of the disk, of
    permissions, and so on).  When the list is exhausted every call
    succeeds; so a loop that retries ends.  Paths are resolved by their
    components; symbolic links and [..] are not resolved, and no other
    process changes the tree during a call. *)

From S2P Require Import Prelude CLib.

(** ** Paths and nodes *)

(** The components of a path: split at slashes, empty ones and [.] dropped. *)
Fixpoint path_split (p : bytes) (cur : bytes) : list bytes :=
  match p with
  | [] => [cur]
  | c :: p' => if bool_decide (c = "/"%char) then cur :: path_split p' [] else path_split p' (cur ++ [c])
  end.
Definition component_ok (c : bytes) : bool :=
  negb (bool_decide (c = [])) && negb (bool_decide (c = lit ".")).
Definition components (p : bytes) : list bytes := filter (λ c, component_ok c = true) (path_split p []).
Definition is_absolute (p : bytes) : bool :=
  match p with c :: _ => bool_decide (c = "/"%char) | [] => false end.

Definition path : Type := bool * list bytes.
#[export] Instance path_eq_dec : EqDecision path.
Proof. unfold path. apply _. Defined.
#[export] Instance path_countable : Countable path.
Proof. unfold path. apply _. Defined.
Definition path_of (p : bytes) : path := (is_absolute p, components p).

(** A file has the mode it was created with. *)
Inductive node := Dir | File (data : bytes) (mode : Z).

Inductive errno := ENOENT | EEXIST | EINTR | EIO.
#[export] Instance errno_eq_dec : EqDecision errno.
Proof. solve_decision. Defined.

Inductive fault := FNone | FShort (n : nat) | FEintr | FError.

(** [os_suffix] is what [mkstemp] puts in place of the six letters. *)
Record os := {
  os_fs : gmap path node;
  os_faults : list fault;
  os_suffix : bytes;
}.

Definition with_fs (o : os) (fs : gmap path node) : os :=
  {| os_fs := fs; os_faults := os_faults o; os_suffix := os_suffix o |}.
Definition with_faults (o : os) (faults : list fault) : os :=
  {| os_fs := os_fs o; os_faults := faults; os_suffix := os_suffix o |}.

(** The next entry of the schedule. *)
Definition next_fault (o : os) : fault * os :=
  match os_faults o with
  | [] => (FNone, o)
  | f :: faults => (f, with_faults o faults)
  end.
(** Whether the next call, one that does not transfer data, is let through. *)
Definition call_ok (o : os) : bool * os :=
  match next_fault o with
  | (FError, o) | (FEintr, o) => (false, o)
  | (_, o) => (true, o)
  end.

(** The root and the working directory are directories. *)
Definition is_dir (fs : gmap path node) (p : path) : bool :=
  match p.2 with
  | [] => true
  | _ => match fs !! p with Some Dir => true | _ => false end
  end.
Definition parent (p : path) : path := (p.1, take (length p.2 - 1) p.2).
Definition exists_node (fs : gmap path node) (p : path) : bool :=
  match p.2 with
  | [] => true
  | _ => bool_decide (is_Some (fs !! p))
  end.

(** ** System calls *)

Definition sys_mkdir (p : bytes) (o : os) : (errno + unit) * os :=
  let '(ok, o) := call_ok o in
  let k := path_of p in
  if negb ok then (inl EIO, o)
  else if exists_node (os_fs o) k then (inl EEXIST, o)
  else if negb (is_dir (os_fs o) (parent k)) then (inl ENOENT, o)
  else (inr tt, with_fs o (<[k := Dir]> (os_fs o))).

(** [stat(p) == 0 && S_ISDIR]. *)
Definition sys_stat_is_dir (p : bytes) (o : os) : bool * os :=
  let '(ok, o) := call_ok o in
  (ok && exists_node (os_fs o) (path_of p) && is_dir (os_fs o) (path_of p), o).

(** [access(p, F_OK) == 0]. *)
Definition sys_access (p : bytes) (o : os) : bool * os :=
  let '(ok, o) := call_ok o in (ok && exists_node (os_fs o) (path_of p), o).

(** [open] with O_CREAT and O_EXCL: a new empty file. *)
Definition sys_open_new (p : bytes) (mode : Z) (o : os) : (errno + unit) * os :=
  let '(ok, o) := call_ok o in
  let k := path_of p in
  if negb ok then (inl EIO, o)
  else if exists_node (os_fs o) k then (inl EEXIST, o)
  else if negb (is_dir (os_fs o) (parent k)) then (inl ENOENT, o)
  else (inr tt, with_fs o (<[k := File [] mode]> (os_fs o))).

(** [open] with O_CREAT and O_APPEND. *)
Definition sys_open_append (p : bytes) (mode : Z) (o : os) : (errno + unit) * os :=
  let '(ok, o) := call_ok o in
  let k := path_of p in
  if negb ok || bool_decide (k.2 = []) then (inl EIO, o)
  else match os_fs o !! k with
       | Some (File _ _) => (inr tt, o)
       | Some Dir => (inl EIO, o)
       | None =>
           if negb (is_dir (os_fs o) (parent k)) then (inl ENOENT, o)
           else (inr tt, with_fs o (<[k := File [] mode]> (os_fs o)))
       end.

(** [open] for reading: the content the descriptor will read. *)
Definition sys_open_read (p : bytes) (o : os) : (errno + bytes) * os :=
  let '(ok, o) := call_ok o in
  if negb ok then (inl EIO, o)
  else match os_fs o !! path_of p with
       | Some (File data _) => (inr data, o)
       | Some Dir => (inl EIO, o)
       | None => (inl ENOENT, o)
       end.

(** Bytes appended to an open file. *)
Definition append_to (p : bytes) (data : bytes) (o : os) : os :=
  match os_fs o !! path_of p with
  | Some (File old mode) => with_fs o (<[path_of p := File (old ++ data) mode]> (os_fs o))
  | _ => o
  end.

(** [fsync], [close], [fchmod] and the like: success or not. *)
Definition sys_simple (o : os) : bool * os := call_ok o.

Definition sys_unlink (p : bytes) (o : os) : bool * os :=
  let '(ok, o) := call_ok o in
  if ok then (true, with_fs o (delete (path_of p) (os_fs o))) else (false, o).

Definition sys_rename (a b : bytes) (o : os) : bool * os :=
  let '(ok, o) := call_ok o in
  if negb ok then (false, o)
  else match os_fs o !! path_of a with
       | Some n => (true, with_fs o (<[path_of b := n]> (delete (path_of a) (os_fs o))))
       | None => (false, o)
       end.

(** [mkstemp] on [prefix ++ XXXXXX]: a new empty file, readable by the owner;
    the result is its path. *)
Definition sys_mkstemp (prefix : bytes) (o : os) : option bytes * os :=
  let p := prefix ++ os_suffix o in
  match sys_open_new p 384 o with
  | (inr _, o) => (Some p, o)
  | (inl _, o) => (None, o)
  end.

(** ** Streams *)

(** An input stream: the bytes that can still be read, and whether an error
    rather than the end of the file comes after them. *)
Record istream := { is_data : bytes; is_error : bool }.

Definition fopen_read (p : bytes) (o : os) : (errno + istream) * os :=
  match sys_open_read p o with
  | (inl e, o) => (inl e, o)
  | (inr data, o) =>
      match next_fault o with
      | (FError, o) => (inr {| is_data := []; is_error := true |}, o)
      | (FShort n, o) =>
          (inr {| is_data := take n data; is_error := (n <? length data)%nat |}, o)
      | (_, o) => (inr {| is_data := data; is_error := false |}, o)
      end
  end.

(** The text up to and with the first newline, at most [n] bytes. *)
Definition newline : byte := byte_of 10.
Fixpoint line_of (n : nat) (data : bytes) : bytes :=
  match n, data with
  | S n', c :: data' =>
      if bool_decide (c = newline) then [c] else c :: line_of n' data'
  | _, _ => []
  end.

(** [fgets(line, size, file)]: the bytes stored before the NUL, or NULL.  An
    error while the line is read gives NULL. *)
Definition fgets (size : Z) (st : istream) : option (bytes * istream) :=
  match is_data st with
  | [] => None
  | _ =>
      let line := line_of (Z.to_nat (size - 1)) (is_data st) in
      if is_error st && bool_decide (length line = length (is_data st))
         && negb (bool_decide (last line = Some newline))
         && (length line <? Z.to_nat (size - 1))%nat
      then None
      else Some (line, {| is_data := drop (length line) (is_data st); is_error := is_error st |})
  end.

(** [getline]: a line of any length. *)
Definition getline (st : istream) : option (bytes * istream) :=
  fgets (len (is_data st) + 2) st.

(** [ferror] once the reads have returned NULL. *)
Definition ferror (st : istream) : bool := is_error st.

(** ** Lemmas *)

Lemma line_of_prefix n data : line_of n data ++ drop (length (line_of n data)) data = data.
Proof.
  revert data; induction n as [|n IH]; intros [|c data]; cbn; try done.
  case_bool_decide; cbn; [done|]. by rewrite IH.
Qed.

Lemma line_of_nonempty n data : (0 < n)%nat → data ≠ [] → line_of n data ≠ [].
Proof. destruct n, data as [|c data]; cbn; try done; [lia|]. by case_bool_decide. Qed.

Lemma line_of_length n data : (length (line_of n data) ≤ n)%nat.
Proof.
  revert data; induction n as [|n IH]; intros [|c data]; cbn; try lia.
  case_bool_decide; cbn; [lia|]. pose proof (IH data). lia.
Qed.

(** ** Paths *)

Lemma path_split_app a b cur :
  path_split (a ++ "/"%char :: b) cur = path_split a cur ++ path_split b [].
Proof.
  revert cur; induction a as [|c a IH]; intros cur; cbn; [done|].
  case_bool_decide; cbn; by rewrite IH.
Qed.

Lemma components_join a b : components (a ++ "/"%char :: b) = components a ++ components b.
Proof. unfold components. by rewrite path_split_app, filter_app. Qed.

Lemma path_of_join d f :
  d ≠ [] → path_of (d ++ "/"%char :: f) = (is_absolute d, components d ++ components f).
Proof. intros Hd. unfold path_of. rewrite components_join. by destruct d. Qed.

Lemma path_join_inj d f f' :
  d ≠ [] → path_of (d ++ "/"%char :: f) = path_of (d ++ "/"%char :: f') →
  components f = components f'.
Proof. intros Hd. rewrite !path_of_join by done. intros [= E]. by apply app_inv_head in E. Qed.

(** ** Calls *)

Lemma next_fault_fs o f o' : next_fault o = (f, o') → os_fs o' = os_fs o.
Proof. unfold next_fault. destruct (os_faults o); intros; by simplify_eq/=. Qed.
Lemma next_fault_snd o : os_fs (next_fault o).2 = os_fs o.
Proof. destruct (next_fault o) eqn:E. by apply next_fault_fs in E. Qed.
Lemma call_ok_fs o : os_fs (call_ok o).2 = os_fs o.
Proof.
  unfold call_ok. destruct (next_fault o) as [f o'] eqn:E. apply next_fault_fs in E.
  by destruct f.
Qed.
Lemma call_ok_faultless o : os_faults o = [] → call_ok o = (true, o).
Proof. unfold call_ok, next_fault. by intros ->. Qed.

Lemma exists_node_false fs k : exists_node fs k = false → k.2 ≠ [] ∧ fs !! k = None.
Proof.
  unfold exists_node. destruct (k.2); [done|]. intros Hb. bdec. split; [done|].
  by apply eq_None_not_Some.
Qed.

(** A new directory or file is added to the tree, whose nodes stay. *)
Lemma open_new_inv p mode o r o' :
  sys_open_new p mode o = (r, o') →
  (r = inr tt ∧ os_fs o !! path_of p = None
   ∧ os_fs o' = <[path_of p := File [] mode]> (os_fs o))
  ∨ ((∃ e, r = inl e) ∧ os_fs o' = os_fs o).
Proof.
  unfold sys_open_new. pose proof (call_ok_fs o) as Hc. destruct (call_ok o) as [ok o1].
  cbn [snd] in Hc. intros E. case_if_in E; [right; simplify_eq; eauto|].
  case_if_in E; [right; simplify_eq; eauto|]. apply exists_node_false in E1 as [_ Hn].
  case_if_in E; [right; simplify_eq; eauto|]. left. simplify_eq. cbn. by rewrite <- Hc.
Qed.
Lemma mkdir_inv p o r o' :
  sys_mkdir p o = (r, o') →
  (r = inr tt ∧ os_fs o !! path_of p = None ∧ os_fs o' = <[path_of p := Dir]> (os_fs o))
  ∨ ((∃ e, r = inl e) ∧ os_fs o' = os_fs o).
Proof.
  unfold sys_mkdir. pose proof (call_ok_fs o) as Hc. destruct (call_ok o) as [ok o1].
  cbn [snd] in Hc. intros E. case_if_in E; [right; simplify_eq; eauto|].
  case_if_in E; [right; simplify_eq; eauto|]. apply exists_node_false in E1 as [_ Hn].
  case_if_in E; [right; simplify_eq; eauto|]. left. simplify_eq. cbn. by rewrite <- Hc.
Qed.

Lemma append_to_fs p data o old mode :
  os_fs o !! path_of p = Some (File old mode) →
  os_fs (append_to p data o) = <[path_of p := File (old ++ data) mode]> (os_fs o).
Proof. intros Hp. unfold append_to. by rewrite Hp. Qed.

Lemma open_read_faultless p o data mode :
  os_faults o = [] → os_fs o !! path_of p = Some (File data mode) →
  sys_open_read p o = (inr data, o).
Proof. intros Hf Hp. unfold sys_open_read. rewrite call_ok_faultless by done. cbn. by rewrite Hp. Qed.
Lemma fopen_read_faultless p o data mode :
  os_faults o = [] → os_fs o !! path_of p = Some (File data mode) →
  fopen_read p o = (inr {| is_data := data; is_error := false |}, o).
Proof.
  intros Hf Hp. unfold fopen_read. erewrite open_read_faultless by done.
  unfold next_fault. by rewrite Hf.
Qed.

(** ** Lines *)

Lemma line_of_line n text rest :
  newline ∉ text → (length text < n)%nat →
  line_of n (text ++ newline :: rest) = text ++ [newline].
Proof.
  revert n; induction text as [|c text IH]; intros [|n] Hn Hl; cbn in Hl; try lia.
  - cbn [app line_of]. by rewrite bool_decide_true.
  - apply not_elem_of_cons in Hn as [Hc Hn]. cbn [app line_of].
    rewrite bool_decide_false by done. rewrite IH by (done || lia). done.
Qed.

Lemma fgets_line size text rest :
  newline ∉ text → len text + 1 < size →
  fgets size {| is_data := text ++ newline :: rest; is_error := false |}
  = Some (text ++ [newline], {| is_data := rest; is_error := false |}).
Proof.
  intros Hn Hl. unfold fgets. cbn [is_data is_error andb]. unfold len in Hl.
  rewrite line_of_line by (done || lia).
  destruct (text ++ newline :: rest) eqn:E; [by destruct text|]. rewrite <- E.
  do 3 f_equal. change (newline :: rest) with ([newline] ++ rest). rewrite app_assoc.
  by apply drop_app_length.
Qed.
