(* ===== verification/Log.v ===== *)
(** * Logging (src/common/log.c)

    The level is the module's one variable; a message is one line on one of
    the two standard streams.  [text] is the message after the conversions of
    its format.  The other components call [chat_log] without looking at its
    effect, and their models leave those calls out. *)

From S2P Require Import Prelude CLib FileSys.

Inductive chat_log_level_t :=
  | CHAT_LOG_ERROR | CHAT_LOG_WARN | CHAT_LOG_INFO | CHAT_LOG_DEBUG | CHAT_LOG_TRACE.

(** The numbers of the enumeration. *)
Definition log_level_value (level : chat_log_level_t) : Z :=
  match level with
  | CHAT_LOG_ERROR => 0
  | CHAT_LOG_WARN => 1
  | CHAT_LOG_INFO => 2
  | CHAT_LOG_DEBUG => 3
  | CHAT_LOG_TRACE => 4
  end.

Record log_state := {
  g_chat_log_level : chat_log_level_t;
  log_stdout : bytes;
  log_stderr : bytes;
}.

(** The program's start. *)
Definition log_initial : log_state :=
  {| g_chat_log_level := CHAT_LOG_INFO; log_stdout := []; log_stderr := [] |}.

Definition chat_log_level_name (level : chat_log_level_t) : string :=
  match level with
  | CHAT_LOG_ERROR => "ERROR"
  | CHAT_LOG_WARN => "WARN"
  | CHAT_LOG_INFO => "INFO"
  | CHAT_LOG_DEBUG => "DEBUG"
  | CHAT_LOG_TRACE => "TRACE"
  end.

Definition chat_log_set_level (level : chat_log_level_t) (s : log_state) : log_state :=
  {| g_chat_log_level := level; log_stdout := log_stdout s; log_stderr := log_stderr s |}.

Definition chat_log_get_level (s : log_state) : chat_log_level_t := g_chat_log_level s.

Definition log_line (level : chat_log_level_t) (text : bytes) : bytes :=
  lit (chat_log_level_name level) ++ lit ": " ++ text ++ [newline].

Definition chat_log (level : chat_log_level_t) (text : bytes) (s : log_state) : log_state :=
  if log_level_value level >? log_level_value (g_chat_log_level s) then s
  else if log_level_value level <=? log_level_value CHAT_LOG_WARN then
    {| g_chat_log_level := g_chat_log_level s; log_stdout := log_stdout s;
       log_stderr := log_stderr s ++ log_line level text |}
  else
    {| g_chat_log_level := g_chat_log_level s; log_stdout := log_stdout s ++ log_line level text;
       log_stderr := log_stderr s |}.

(** What a sequence of messages leaves: on each stream the lines of the
    messages that belong to it and pass the level, in order. *)
Definition shown (s : log_state) (err : bool) (msgs : list (chat_log_level_t * bytes)) : bytes :=
  concat ((λ m, log_line m.1 m.2) <$>
    filter (λ m, log_level_value m.1 ≤ log_level_value (g_chat_log_level s)
                 ∧ (log_level_value m.1 <=? 1) = err) msgs).

Lemma chat_log_streams msgs s :
  let s' := fold_left (λ s m, chat_log m.1 m.2 s) msgs s in
  g_chat_log_level s' = g_chat_log_level s
  ∧ log_stderr s' = log_stderr s ++ shown s true msgs
  ∧ log_stdout s' = log_stdout s ++ shown s false msgs.
Proof.
  revert s. induction msgs as [|[level text] msgs IH]; intros s; cbn [fold_left fst snd].
  - by rewrite !app_nil_r.
  - destruct (IH (chat_log level text s)) as (-> & -> & ->). unfold shown, chat_log.
    rewrite !filter_cons. cbn [fst snd log_level_value].
    repeat case_match; bdec; destruct_and?; try congruence; try lia;
      cbn [fmap list_fmap concat g_chat_log_level log_stdout log_stderr fst snd];
      split_and!; rewrite <- ?app_assoc; try done; exfalso; naive_solver lia.
Qed.
