(* ===== verification/IdentityStore.v ===== *)
(** * Identity on disk (src/common/identity.c)

    The functions of identity.c that use the file system, in a monad that
    threads the operating system ([FileSys]) and stops at the first error
    code, as the code does.  Theorems: a created identity is what a later
    load returns; creating an identity never changes anything that was there;
    changing the server URL is atomic and is what a later load returns. *)

From S2P Require Import Prelude CLib Protocol Sodium Identity FileSys.

(** ** Monad *)

Definition idM (A : Type) : Type := os → identity_res A * os.
#[export] Instance idM_ret : MRet idM := λ A a o, (inr a, o).
#[export] Instance idM_bind : MBind idM := λ A B k m o,
  match m o with
  | (inl e, o) => (inl e, o)
  | (inr a, o) => k a o
  end.
Definition throw {A} (e : chat_identity_result_t) : idM A := λ o, (inl e, o).
(** A call whose result the code inspects itself. *)
Definition call {A} (f : os → A * os) : idM A := λ o, let '(a, o) := f o in (inr a, o).
Definition of_res {A} (r : identity_res A) : idM A := λ o, (r, o).

(** ** Directories *)

Definition chat_mkdir_one (p : bytes) : idM unit :=
  made ← call (sys_mkdir p);
  match made with
  | inr _ => mret tt
  | inl EEXIST =>
      is_directory ← call (sys_stat_is_dir p);
      if (is_directory : bool) then mret tt else throw CHAT_IDENTITY_ERR_IO
  | inl _ => throw CHAT_IDENTITY_ERR_IO
  end.

(** The loop: [before] is the text left of the cursor. *)
Fixpoint mkdir_loop (before rest : bytes) : idM unit :=
  match rest with
  | [] => mret tt
  | c :: rest' =>
      if bool_decide (c = "/"%char) then chat_mkdir_one before;; mkdir_loop (before ++ [c]) rest'
      else mkdir_loop (before ++ [c]) rest'
  end.

Definition chat_mkdir_p (p : cptr) : idM unit :=
  match p with
  | None | Some [] => throw CHAT_IDENTITY_ERR_IO
  | Some p =>
      tmp ← of_res (chat_copy_string PATH_MAX (Some p));
      let tmp := if (strlen tmp >? 1) && bool_decide (last tmp = Some "/"%char)
                 then ztake (strlen tmp - 1) tmp else tmp in
      mkdir_loop (take 1 tmp) (drop 1 tmp);;
      chat_mkdir_one tmp
  end.

(** ** Whole files *)

(** The loop of [chat_write_all] on the schedule: the result, the bytes
    written and what is left of the schedule. *)
Fixpoint write_loop (faults : list fault) (data : bytes)
    : chat_identity_result_t * bytes * list fault :=
  match data with
  | [] => (CHAT_IDENTITY_OK, [], faults)
  | _ =>
      match faults with
      | [] => (CHAT_IDENTITY_OK, data, [])
      | FNone :: faults => (CHAT_IDENTITY_OK, data, faults)
      | FEintr :: faults => write_loop faults data
      | FError :: faults => (CHAT_IDENTITY_ERR_IO, [], faults)
      | FShort 0 :: faults => (CHAT_IDENTITY_ERR_IO, [], faults)
      | FShort n :: faults =>
          match write_loop faults (drop n data) with
          | (res, written, faults) => (res, take n data ++ written, faults)
          end
      end
  end.

(** [fd] is the file at path [p]. *)
Definition chat_write_all (p buffer : bytes) (o : os) : chat_identity_result_t * os :=
  match write_loop (os_faults o) buffer with
  | (res, written, faults) => (res, append_to p written (with_faults o faults))
  end.

Definition chat_write_new_file (p buffer : bytes) (mode : Z) : idM unit :=
  opened ← call (sys_open_new p mode);
  match opened with
  | inl EEXIST => throw CHAT_IDENTITY_ERR_ALREADY_EXISTS
  | inl _ => throw CHAT_IDENTITY_ERR_IO
  | inr _ =>
      result ← call (chat_write_all p buffer);
      synced ← call sys_simple;
      let result := if negb synced && bool_decide (result = CHAT_IDENTITY_OK)
                    then CHAT_IDENTITY_ERR_IO else result in
      closed ← call sys_simple;
      let result := if negb closed && bool_decide (result = CHAT_IDENTITY_OK)
                    then CHAT_IDENTITY_ERR_IO else result in
      if bool_decide (result = CHAT_IDENTITY_OK) then mret tt else throw result
  end.

(** The reading loop on the content still unread: [remaining] bytes wanted.
    When the schedule is empty a read gives all it can, and at the end of the
    file nothing. *)
Fixpoint read_loop (faults : list fault) (content : bytes) (remaining : Z)
    : identity_res (bytes * bytes) * list fault :=
  if remaining =? 0 then (inr ([], content), faults)
  else
    match faults with
    | FEintr :: faults => read_loop faults content remaining
    | FError :: faults => (inl CHAT_IDENTITY_ERR_IO, faults)
    | FShort n :: faults =>
        let got := ztake remaining (take n content) in
        match got with
        | [] => (inl CHAT_IDENTITY_ERR_BAD_FILE, faults)
        | _ =>
            match read_loop faults (drop (length got) content) (remaining - len got) with
            | (inr (rest, content), faults) => (inr (got ++ rest, content), faults)
            | (inl e, faults) => (inl e, faults)
            end
        end
    | FNone :: faults =>
        let got := ztake remaining content in
        match got with
        | [] => (inl CHAT_IDENTITY_ERR_BAD_FILE, faults)
        | _ =>
            match read_loop faults (drop (length got) content) (remaining - len got) with
            | (inr (rest, content), faults) => (inr (got ++ rest, content), faults)
            | (inl e, faults) => (inl e, faults)
            end
        end
    | [] =>
        if len content <? remaining then (inl CHAT_IDENTITY_ERR_BAD_FILE, [])
        else (inr (ztake remaining content, zdrop remaining content), [])
    end.

Definition chat_read_exact_file (p : bytes) (length : Z) : idM bytes := λ o,
  match sys_open_read p o with
  | (inl ENOENT, o) => (inl CHAT_IDENTITY_ERR_NOT_FOUND, o)
  | (inl _, o) => (inl CHAT_IDENTITY_ERR_IO, o)
  | (inr content, o) =>
      match read_loop (os_faults o) content length with
      | (inl e, faults) => (inl e, snd (sys_simple (with_faults o faults)))
      | (inr (buffer, extra), faults) =>
          match next_fault (with_faults o faults) with
          | (FError, o) | (FEintr, o) => (inl CHAT_IDENTITY_ERR_IO, snd (sys_simple o))
          | (_, o) =>
              let o := snd (sys_simple o) in
              match extra with
              | [] => (inr buffer, o)
              | _ => (inl CHAT_IDENTITY_ERR_BAD_FILE, o)
              end
          end
      end
  end.

(** ** Configuration file *)

Definition config_text (username server_url : bytes) : bytes :=
  qlit "username = '" ++ username ++ [dquote; newline] ++ qlit "server_url = '" ++ server_url
  ++ [dquote; newline].

Definition chat_write_config_file (p username : bytes) : idM unit :=
  match snprintf 512 (config_text username CHAT_DEFAULT_SERVER_URL) with
  | None => throw CHAT_IDENTITY_ERR_BUFFER
  | Some content => chat_write_new_file p content 384
  end.

(** [isspace], for the white space of [sscanf] formats. *)
Definition isspace (c : byte) : bool :=
  (byte_val c =? 32) || (9 <=? byte_val c) && (byte_val c <=? 13).
Fixpoint skip_space (s : bytes) : bytes :=
  match s with
  | c :: s' => if isspace c then skip_space s' else s
  | [] => []
  end.
(** The longest prefix of at most [n] characters that satisfy [ok]. *)
Fixpoint scan_set (ok : byte → bool) (n : nat) (s : bytes) : bytes :=
  match n, s with
  | S n', c :: s' => if ok c then c :: scan_set ok n' s' else []
  | _, _ => []
  end.

(** [sscanf(line, ...) == 1]: the literal characters, any white space where
    the format has a space, and at least one character of a name.  The
    closing quote comes after the conversion and does not count. *)
Definition scan_username (line : bytes) : option bytes :=
  if negb (has_prefix (lit "username") line) then None
  else match skip_space (drop 8 line) with
       | c :: line =>
           if negb (bool_decide (c = "="%char)) then None
           else match skip_space line with
                | q :: line =>
                    if negb (bool_decide (q = dquote)) then None
                    else match scan_set username_char_ok 32 line with
                         | [] => None
                         | parsed => Some parsed
                         end
                | [] => None
                end
       | [] => None
       end.

(** The loop over the lines; [n] bounds their number, the bytes of the file
    plus one suffice since every line has at least one byte. *)
Fixpoint load_username_loop (n : nat) (st : istream) : identity_res bytes :=
  match n with
  | O => inl CHAT_IDENTITY_ERR_IO
  | S n' =>
      match fgets 128 st with
      | None => if ferror st then inl CHAT_IDENTITY_ERR_IO else inl CHAT_IDENTITY_ERR_BAD_FILE
      | Some (line, st') =>
          match scan_username (c_string line) with
          | Some parsed =>
              if negb (chat_username_is_valid (Some parsed)) then inl CHAT_IDENTITY_ERR_BAD_FILE
              else inr (snprintf_buf (CHAT_USERNAME_MAX_LEN + 1) parsed)
          | None => load_username_loop n' st'
          end
      end
  end.

(** [fclose] after the loop; its result is ignored. *)
Definition chat_load_username (p : bytes) : idM bytes := λ o,
  match fopen_read p o with
  | (inl ENOENT, o) => (inl CHAT_IDENTITY_ERR_NOT_FOUND, o)
  | (inl _, o) => (inl CHAT_IDENTITY_ERR_IO, o)
  | (inr st, o) => (load_username_loop (S (length (is_data st))) st, snd (sys_simple o))
  end.

Fixpoint load_value_loop (n : nat) (prefix : bytes) (out_size : Z) (st : istream)
    : identity_res bytes :=
  match n with
  | O => inl CHAT_IDENTITY_ERR_IO
  | S n' =>
      match fgets 512 st with
      | None => if ferror st then inl CHAT_IDENTITY_ERR_IO else inl CHAT_IDENTITY_ERR_NOT_FOUND
      | Some (line, st') =>
          if negb (has_prefix prefix (c_string line)) then load_value_loop n' prefix out_size st'
          else
            let value_start := zdrop (len prefix) (c_string line) in
            match strchr value_start dquote with
            | None => inl CHAT_IDENTITY_ERR_BAD_FILE
            | Some value_end =>
                chat_copy_string out_size
                  (Some (take (length value_start - length value_end) value_start))
            end
      end
  end.

Definition chat_load_quoted_config_value (p key : bytes) (out_size : Z) : idM bytes := λ o,
  match fopen_read p o with
  | (inl ENOENT, o) => (inl CHAT_IDENTITY_ERR_NOT_FOUND, o)
  | (inl _, o) => (inl CHAT_IDENTITY_ERR_IO, o)
  | (inr st, o) =>
      match snprintf 64 (key ++ qlit " = '") with
      | None => (inl CHAT_IDENTITY_ERR_BUFFER, snd (sys_simple o))
      | Some prefix =>
          (load_value_loop (S (length (is_data st))) prefix out_size st, snd (sys_simple o))
      end
  end.

(** ** The public functions *)

Section store.
Context (getenv : bytes → cptr).

Definition chat_identity_load_config_value (key : bytes) (out_size : Z) : idM bytes :=
  config_dir ← of_res (chat_identity_config_dir getenv PATH_MAX);
  config_path ← of_res (chat_join_path PATH_MAX (Some config_dir) (Some (lit "config.toml")));
  chat_load_quoted_config_value config_path key out_size.

Definition chat_identity_load_server_url (out_size : Z) : idM bytes :=
  chat_identity_load_config_value (lit "server_url") out_size.

Section keys.
Context `{SodiumInit} `{SodiumHash} `{SodiumSign}.

(** [fingerprint_size] is [None] when [fingerprint_out] is NULL.  The result
    is the identity, given to the caller when it wants it, with the
    fingerprint; the generator's next state comes last. *)
Definition chat_identity_create (username : cptr) (fingerprint_size : option Z) (g : rng) (o : os)
    : identity_res (chat_identity_t * cptr) * os * rng :=
  if negb (chat_username_is_valid username) then
    (inl CHAT_IDENTITY_ERR_INVALID_USERNAME, o, g)
  else if sodium_init <? 0 then (inl CHAT_IDENTITY_ERR_SODIUM, o, g)
  else
    let username := default [] username in
    let prepare : idM (bytes * bytes * bytes) :=
      config_dir ← of_res (chat_identity_config_dir getenv PATH_MAX);
      chat_mkdir_p (Some config_dir);;
      key_path ← of_res (chat_join_path PATH_MAX (Some config_dir) (Some (lit "identity.key")));
      pub_path ← of_res (chat_join_path PATH_MAX (Some config_dir) (Some (lit "identity.pub")));
      config_path ← of_res (chat_join_path PATH_MAX (Some config_dir) (Some (lit "config.toml")));
      key_exists ← call (sys_access key_path);
      if (key_exists : bool) then throw CHAT_IDENTITY_ERR_ALREADY_EXISTS
      else
        pub_exists ← call (sys_access pub_path);
        if (pub_exists : bool) then throw CHAT_IDENTITY_ERR_ALREADY_EXISTS
        else
          config_exists ← call (sys_access config_path);
          if (config_exists : bool) then throw CHAT_IDENTITY_ERR_ALREADY_EXISTS
          else mret (key_path, pub_path, config_path) in
    match prepare o with
    | (inl e, o) => (inl e, o, g)
    | (inr (key_path, pub_path, config_path), o) =>
        let '((public_key, secret_key), g) := crypto_sign_keypair g in
        let identity :=
          {| id_username := snprintf_buf (CHAT_USERNAME_MAX_LEN + 1) username;
             id_public_key := public_key; id_secret_key := secret_key |} in
        let save : idM (chat_identity_t * cptr) :=
          chat_write_new_file key_path secret_key 384;;
          chat_write_new_file pub_path public_key 420;;
          chat_write_config_file config_path username;;
          match fingerprint_size with
          | None => mret (identity, None)
          | Some size =>
              fingerprint ← of_res (chat_identity_fingerprint (Some public_key) size);
              mret (identity, Some fingerprint)
          end in
        (save o, g)
    end.

Definition chat_identity_load : idM chat_identity_t :=
  if sodium_init <? 0 then throw CHAT_IDENTITY_ERR_SODIUM
  else
    config_dir ← of_res (chat_identity_config_dir getenv PATH_MAX);
    key_path ← of_res (chat_join_path PATH_MAX (Some config_dir) (Some (lit "identity.key")));
    pub_path ← of_res (chat_join_path PATH_MAX (Some config_dir) (Some (lit "identity.pub")));
    config_path ← of_res (chat_join_path PATH_MAX (Some config_dir) (Some (lit "config.toml")));
    username ← chat_load_username config_path;
    secret_key ← chat_read_exact_file key_path crypto_sign_SECRETKEYBYTES;
    public_key ← chat_read_exact_file pub_path crypto_sign_PUBLICKEYBYTES;
    mret {| id_username := username; id_public_key := public_key; id_secret_key := secret_key |}.
End keys.

(** ** Changing the server URL *)

Definition url_line (server_url : bytes) : bytes :=
  qlit "server_url = '" ++ server_url ++ [dquote; newline].

(** The variables of the copying loop; [rw_out] is the text given to the
    output stream. *)
Record rewrite := {
  rw_result : chat_identity_result_t;
  rw_written : bool;
  rw_had_content : bool;
  rw_last_newline : bool;
  rw_out : bytes;
}.

(** [fputs], [fprintf] and [fputc]: the text is buffered, or the call fails. *)
Definition fput (text : bytes) (out : bytes) (o : os) : option bytes * os :=
  let '(ok, o) := call_ok o in (if ok then Some (out ++ text) else None, o).

Fixpoint rewrite_loop (n : nat) (server_url : bytes) (st : istream) (rw : rewrite) (o : os)
    : rewrite * os :=
  match n with
  | O => (rw, o)
  | S n' =>
      match getline st with
      | None => (rw, o)
      | Some (raw, st') =>
          let line := c_string raw in
          let last_newline := bool_decide (last line = Some newline) in
          if chat_config_line_has_key line (lit "server_url") then
            if rw_written rw then
              rewrite_loop n' server_url st'
                {| rw_result := rw_result rw; rw_written := true; rw_had_content := true;
                   rw_last_newline := last_newline; rw_out := rw_out rw |} o
            else
              match fput (url_line server_url) (rw_out rw) o with
              | (None, o) =>
                  ({| rw_result := CHAT_IDENTITY_ERR_IO; rw_written := false;
                      rw_had_content := true; rw_last_newline := last_newline;
                      rw_out := rw_out rw |}, o)
              | (Some out, o) =>
                  rewrite_loop n' server_url st'
                    {| rw_result := rw_result rw; rw_written := true; rw_had_content := true;
                       rw_last_newline := last_newline; rw_out := out |} o
              end
          else
            match fput line (rw_out rw) o with
            | (None, o) =>
                ({| rw_result := CHAT_IDENTITY_ERR_IO; rw_written := rw_written rw;
                    rw_had_content := true; rw_last_newline := last_newline;
                    rw_out := rw_out rw |}, o)
            | (Some out, o) =>
                rewrite_loop n' server_url st'
                  {| rw_result := rw_result rw; rw_written := rw_written rw;
                     rw_had_content := true; rw_last_newline := last_newline;
                     rw_out := out |} o
            end
      end
  end.

(** The two tests after the loop: an input error, and the line still missing. *)
Definition rewrite_end (server_url : bytes) (input_error : bool) (rw : rewrite) (o : os)
    : chat_identity_result_t * bytes * os :=
  let result := if bool_decide (rw_result rw = CHAT_IDENTITY_OK) && input_error
                then CHAT_IDENTITY_ERR_IO else rw_result rw in
  if bool_decide (result = CHAT_IDENTITY_OK) && negb (rw_written rw) then
    let '(padded, o) :=
      if rw_had_content rw && negb (rw_last_newline rw) then fput [newline] (rw_out rw) o
      else (Some (rw_out rw), o) in
    match padded with
    | None => (CHAT_IDENTITY_ERR_IO, rw_out rw, o)
    | Some out =>
        match fput (url_line server_url) out o with
        | (None, o) => (CHAT_IDENTITY_ERR_IO, out, o)
        | (Some out, o) => (result, out, o)
        end
    end
  else (result, rw_out rw, o).

(** A step of the shutdown sequence: it always runs, and turns success into
    an I/O error when it fails. *)
Definition and_then (result : chat_identity_result_t) (step : os → bool * os) (o : os)
    : chat_identity_result_t * os :=
  let '(ok, o) := step o in
  (if negb ok && bool_decide (result = CHAT_IDENTITY_OK) then CHAT_IDENTITY_ERR_IO else result, o).

(** [fflush]: the buffered text goes to the file, or a prefix of it and an
    error. *)
Definition fflush_to (p out : bytes) (o : os) : bool * os :=
  match next_fault o with
  | (FNone, o) => (true, append_to p out o)
  | (FShort n, o) => (false, append_to p (take n out) o)
  | (_, o) => (false, o)
  end.

(** The part after the input is open and the temporary file created. *)
Definition rewrite_config (server_url config_path temp_path : bytes) (st : istream) (o : os)
    : chat_identity_result_t * os :=
  let '(rw, o) := rewrite_loop (S (length (is_data st))) server_url st
    {| rw_result := CHAT_IDENTITY_OK; rw_written := false; rw_had_content := false;
       rw_last_newline := true; rw_out := [] |} o in
  let '(result, out, o) := rewrite_end server_url (ferror st) rw o in
  let '(result, o) := and_then result sys_simple o in               (* fclose(input) *)
  let '(result, o) := and_then result (fflush_to temp_path out) o in
  let '(result, o) := and_then result sys_simple o in               (* fsync *)
  let '(result, o) := and_then result sys_simple o in               (* fclose(output) *)
  let '(result, o) :=
    if bool_decide (result = CHAT_IDENTITY_OK)
    then and_then result (sys_rename temp_path config_path) o else (result, o) in
  if bool_decide (result = CHAT_IDENTITY_OK) then (result, o)
  else (result, snd (sys_unlink temp_path o)).

Definition chat_identity_set_server_url (server_url : cptr) : idM unit :=
  if negb (chat_server_url_is_valid server_url) then throw CHAT_IDENTITY_ERR_INVALID_SERVER_URL
  else
    let server_url := default [] server_url in
    config_dir ← of_res (chat_identity_config_dir getenv PATH_MAX);
    config_path ← of_res (chat_join_path PATH_MAX (Some config_dir) (Some (lit "config.toml")));
    input ← call (fopen_read config_path);
    match input with
    | inl ENOENT => throw CHAT_IDENTITY_ERR_NOT_FOUND
    | inl _ => throw CHAT_IDENTITY_ERR_IO
    | inr st =>
        match snprintf PATH_MAX (config_path ++ lit ".tmp.XXXXXX") with
        | None => call sys_simple;; throw CHAT_IDENTITY_ERR_BUFFER
        | Some _ =>
            temp ← call (sys_mkstemp (config_path ++ lit ".tmp."));
            match temp with
            | None => call sys_simple;; throw CHAT_IDENTITY_ERR_IO
            | Some temp_path =>
                chmod_ok ← call sys_simple;
                if negb (chmod_ok : bool) then
                  call sys_simple;; call (sys_unlink temp_path);; call sys_simple;;
                  throw CHAT_IDENTITY_ERR_IO
                else
                  stream_ok ← call sys_simple;    (* fdopen *)
                  if negb (stream_ok : bool) then
                    call sys_simple;; call (sys_unlink temp_path);; call sys_simple;;
                    throw CHAT_IDENTITY_ERR_IO
                  else
                    result ← call (rewrite_config server_url config_path temp_path st);
                    if bool_decide (result = CHAT_IDENTITY_OK) then mret tt else throw result
            end
        end
    end.
End store.

(** ** What the calls keep *)

(** The call never changes or removes a node that was there. *)
Definition extends {A} (m : idM A) : Prop := ∀ o, os_fs o ⊆ os_fs (m o).2.

Lemma extends_ret {A} (a : A) : extends (mret a).
Proof. intros o. done. Qed.
Lemma extends_throw {A} e : extends (throw e : idM A).
Proof. intros o. done. Qed.
Lemma extends_of_res {A} (r : identity_res A) : extends (of_res r).
Proof. intros o. done. Qed.
Lemma extends_bind {A B} (m : idM A) (k : A → idM B) :
  extends m → (∀ a, extends (k a)) → extends (m ≫= k).
Proof.
  intros Hm Hk o. unfold mbind, idM_bind. specialize (Hm o).
  destruct (m o) as [[e|a] o1]; [done|]. cbn in Hm. etrans; [exact Hm|apply Hk].
Qed.
Lemma extends_call {A} (f : os → A * os) : (∀ o, os_fs (f o).2 = os_fs o) → extends (call f).
Proof.
  intros Hf o. unfold call. specialize (Hf o). destruct (f o) as [a o1]. cbn in *. by rewrite Hf.
Qed.
Create HintDb extends discriminated.
#[export] Hint Resolve extends_ret extends_throw extends_of_res : extends.

Lemma extends_mkdir_one p : extends (chat_mkdir_one p).
Proof.
  apply extends_bind.
  - intros o. unfold call. destruct (sys_mkdir p o) as [r o'] eqn:E. cbn.
    apply mkdir_inv in E as [(_ & Hn & ->)|[_ ->]]; [|done]. by apply insert_subseteq.
  - intros [[]|]; eauto with extends. apply extends_bind.
    + apply extends_call. intros o. unfold sys_stat_is_dir. pose proof (call_ok_fs o).
      by destruct (call_ok o).
    + intros []; eauto with extends.
Qed.
#[export] Hint Resolve extends_mkdir_one : extends.

Lemma extends_mkdir_loop before rest : extends (mkdir_loop before rest).
Proof.
  revert before; induction rest as [|c rest IH]; intros before; cbn; [apply extends_ret|].
  case_bool_decide; [apply extends_bind; eauto with extends|apply IH].
Qed.
#[export] Hint Resolve extends_mkdir_loop : extends.

Lemma extends_mkdir_p p : extends (chat_mkdir_p p).
Proof.
  destruct p as [[|c p]|]; cbn; eauto with extends.
  apply extends_bind; [eauto with extends|intros tmp]. apply extends_bind; eauto with extends.
Qed.

Lemma extends_access p : extends (call (sys_access p)).
Proof.
  apply extends_call. intros o. unfold sys_access. pose proof (call_ok_fs o).
  by destruct (call_ok o).
Qed.
#[export] Hint Resolve extends_mkdir_p extends_access : extends.

(** ** Writing a new file *)

Lemma write_loop_ok faults data written faults' :
  write_loop faults data = (CHAT_IDENTITY_OK, written, faults') → written = data.
Proof.
  revert data written faults'; induction faults as [|f faults IH]; intros data written faults' E;
    cbn in E; destruct data as [|c data]; simplify_eq; try done.
  destruct f as [|[|n]| |]; simplify_eq; try done; [|by eapply IH].
  destruct (write_loop faults (drop (S n) (c :: data))) as [[res w] fl] eqn:Ew.
  simplify_eq. apply IH in Ew. rewrite Ew. apply take_drop.
Qed.

(** What the file system is after the call, in all cases. *)
Lemma write_new_file_inv p buf mode o r o' :
  chat_write_new_file p buf mode o = (r, o') →
  ((∃ e, r = inl e) ∧ os_fs o' = os_fs o)
  ∨ (os_fs o !! path_of p = None
     ∧ ∃ data, os_fs o' = <[path_of p := File data mode]> (os_fs o)
               ∧ (∀ x, r = inr x → data = buf)).
Proof.
  unfold chat_write_new_file, mbind, idM_bind, call. intros E.
  destruct (sys_open_new p mode o) as [r1 o1] eqn:Eo. apply open_new_inv in Eo.
  destruct Eo as [(-> & Hn & H1)|[[e ->] H1]].
  2: { left. by destruct e; unfold throw in E; simplify_eq; eauto. }
  right. split; [done|]. unfold chat_write_all in E.
  destruct (write_loop (os_faults o1) buf) as [[res w] faults] eqn:Ew.
  pose proof (append_to_fs p w (with_faults o1 faults) [] mode) as H2.
  cbn [with_faults os_fs app] in H2. rewrite H1, lookup_insert_eq, insert_insert_eq in H2.
  specialize (H2 eq_refl).
  set (o2 := append_to p w (with_faults o1 faults)) in *. unfold sys_simple in E.
  pose proof (call_ok_fs o2) as H3. destruct (call_ok o2) as [b3 o3]. cbn [snd] in H3.
  pose proof (call_ok_fs o3) as H4. destruct (call_ok o3) as [b4 o4]. cbn [snd] in H4.
  exists w. split.
  - rewrite <- H2, <- H3, <- H4. case_if_in E; unfold mret, idM_ret, throw in E; by simplify_eq.
  - intros x ->. apply (write_loop_ok (os_faults o1) buf w faults). rewrite Ew.
    case_if_in E; [|by unfold throw in E; simplify_eq].
    destruct (negb b4 && _) eqn:E4; [done|].
    destruct (negb b3 && _) eqn:E3; [done|]. by rewrite E0.
Qed.

Lemma extends_write_new_file p buf mode : extends (chat_write_new_file p buf mode).
Proof.
  intros o. destruct (chat_write_new_file p buf mode o) as [r o'] eqn:E. cbn.
  apply write_new_file_inv in E as [[_ ->]|(Hn & data & -> & _)]; [done|]. by apply insert_subseteq.
Qed.
Lemma write_new_file_ok p buf mode o x o' :
  chat_write_new_file p buf mode o = (inr x, o') →
  os_fs o' = <[path_of p := File buf mode]> (os_fs o).
Proof.
  intros E. apply write_new_file_inv in E as [[[e ?] _]|(_ & data & -> & Hd)]; [done|].
  by rewrite (Hd x eq_refl).
Qed.
#[export] Hint Resolve extends_write_new_file : extends.

Lemma extends_write_config_file p username : extends (chat_write_config_file p username).
Proof. unfold chat_write_config_file. destruct (snprintf _ _); eauto with extends. Qed.
#[export] Hint Resolve extends_write_config_file : extends.

(** ** Reading back *)

Lemma read_exact_faultless p o data mode n :
  os_faults o = [] → os_fs o !! path_of p = Some (File data mode) → len data = n → 0 < n →
  chat_read_exact_file p n o = (inr data, o).
Proof.
  intros Hf Hp Hn Hpos. unfold chat_read_exact_file. erewrite open_read_faultless by done.
  rewrite Hf. unfold read_loop. rewrite (proj2 (Z.eqb_neq n 0)) by lia.
  rewrite <- Hn, Z.ltb_irrefl. unfold next_fault. cbn [with_faults os_faults].
  rewrite ztake_all by done. unfold zdrop. rewrite drop_ge by (unfold len; lia).
  unfold sys_simple. rewrite call_ok_faultless by done. cbn. f_equal.
  unfold with_faults. destruct o. cbn in *. by subst.
Qed.

Lemma scan_set_all ok n s rest :
  Forall (λ c, ok c = true) s → (length s ≤ n)%nat →
  match rest with c :: _ => ok c = false | [] => True end →
  scan_set ok n (s ++ rest) = s.
Proof.
  intros Hs. revert n; induction Hs as [|c s Hc _ IH]; intros n Hn Hr; cbn in *.
  - destruct n; [done|]. destruct rest as [|c rest]; [done|]. cbn. by rewrite Hr.
  - destruct n as [|n]; [lia|]. cbn. rewrite Hc. f_equal. apply IH; [lia|done].
Qed.

(** The user-name line of a configuration file. *)
Lemma scan_username_line username rest :
  chat_username_is_valid (Some username) = true →
  scan_username (qlit "username = '" ++ username ++ dquote :: rest) = Some username.
Proof.
  intros Hu. destruct (proj1 (chat_username_is_valid_spec _) Hu) as (Hlen & Hc).
  change (qlit "username = '") with (lit "username" ++ lit " = " ++ [dquote]).
  rewrite <- !app_assoc. unfold scan_username. rewrite has_prefix_app. cbn [negb].
  change (drop 8 (lit "username" ++ ?t)) with t.
  cbn [lit String.list_ascii_of_string app].
  change (skip_space (" "%char :: "="%char :: ?t)) with ("="%char :: t). cbv beta iota.
  rewrite bool_decide_true by done. cbn [negb].
  change (skip_space (" "%char :: dquote :: ?t)) with (dquote :: t). cbv beta iota.
  rewrite bool_decide_true by done. cbn [negb].
  rewrite (scan_set_all username_char_ok 32 username (dquote :: rest));
    [|done|unfold len in Hlen; lia|done].
  destruct username; [|done]. rewrite len_nil in Hlen. lia.
Qed.

(** The first line of a file [chat_write_config_file] wrote. *)
Lemma load_username_ok o p username url mode :
  os_faults o = [] → chat_username_is_valid (Some username) = true →
  os_fs o !! path_of p = Some (File (config_text username url) mode) →
  chat_load_username p o = (inr username, o).
Proof.
  intros Hf Hu Hp. unfold chat_load_username. erewrite fopen_read_faultless by done.
  unfold sys_simple. rewrite call_ok_faultless by done. cbn [snd]. f_equal.
  set (tail := qlit "server_url = '" ++ url ++ [dquote; newline]).
  assert (E : config_text username url
              = (qlit "username = '" ++ username ++ [dquote]) ++ newline :: tail).
  { unfold config_text. fold tail. by rewrite <- !app_assoc. }
  pose proof (username_valid_len _ Hu) as Hl.
  assert (Hcs : is_cstr (qlit "username = '" ++ username ++ [dquote])).
  { apply is_cstr_app. split; [apply (bool_decide_eq_true_1 _); by vm_compute|].
    apply is_cstr_app. split; [by apply username_valid_cstr|].
    apply (bool_decide_eq_true_1 _); by vm_compute. }
  cbn [load_username_loop is_data]. rewrite E, fgets_line.
  - rewrite c_string_id
      by (apply is_cstr_app; split; [done|apply (bool_decide_eq_true_1 _); by vm_compute]).
    rewrite <- !app_assoc. change ([dquote] ++ [newline]) with (dquote :: [newline]).
    rewrite scan_username_line by done. rewrite Hu. cbn [negb]. unfold snprintf_buf. rewrite ztake_all; [done|].
    unfold CHAT_USERNAME_MAX_LEN. lia.
  - rewrite !elem_of_app, list_elem_of_singleton. intros [Hin|[Hin|Hin]].
    + revert Hin. apply (bool_decide_eq_true_1 _). by vm_compute.
    + destruct (proj1 (chat_username_is_valid_spec _) Hu) as (_ & Hc).
      rewrite Forall_forall in Hc. apply Hc, username_char_ok_value in Hin.
      change (byte_val newline) with 10 in Hin. lia.
    + done.
  - rewrite !len_app. change (len (qlit "username = '")) with 12.
    change (len [dquote]) with 1. lia.
Qed.

(** ** Creating and loading *)

Lemma join_path_inr size d f p :
  chat_join_path size (Some d) (Some f) = inr p → p = d ++ "/"%char :: f.
Proof.
  cbn. intros E. case_if_in E; [done|].
  destruct (snprintf _ _) as [q|] eqn:Es; [|done]. apply snprintf_eq in Es as [-> _].
  by injection E as <-.
Qed.

Lemma bind_inr {A B} (m : idM A) (k : A → idM B) o b o' :
  (m ≫= k) o = (inr b, o') → ∃ a o1, m o = (inr a, o1) ∧ k a o1 = (inr b, o').
Proof. unfold mbind, idM_bind. destruct (m o) as [[e|a] o1]; intros E; [done|]. eauto. Qed.

Lemma of_res_inr {A} (r : identity_res A) o a o' :
  of_res r o = (inr a, o') → r = inr a ∧ o' = o.
Proof. unfold of_res. by intros [= -> ->]. Qed.

Lemma mkdir_p_nonempty d o x o' : chat_mkdir_p (Some d) o = (inr x, o') → d ≠ [].
Proof. by destruct d. Qed.

(** The three files of a configuration directory are different files. *)
Lemma files_distinct d :
  d ≠ [] →
  path_of (d ++ "/"%char :: lit "identity.key") ≠ path_of (d ++ "/"%char :: lit "identity.pub")
  ∧ path_of (d ++ "/"%char :: lit "identity.key") ≠ path_of (d ++ "/"%char :: lit "config.toml")
  ∧ path_of (d ++ "/"%char :: lit "identity.pub") ≠ path_of (d ++ "/"%char :: lit "config.toml").
Proof.
  intros Hd. split_and!; intros E%path_join_inj; try done;
    apply (f_equal (λ l, bool_decide (l = [lit "identity.key"]))) in E ||
    apply (f_equal (λ l, bool_decide (l = [lit "identity.pub"]))) in E; vm_compute in E; done.
Qed.

Section create.
Context (getenv : bytes → cptr).
Context `{SodiumInit} `{SodiumHash} `{SodiumSignOk}.

(** C21: creating an identity, whatever fails on the way, never changes or
    removes a file or directory that already exists. *)
Theorem create_preserves_files username fingerprint_size g o r o' g' :
  chat_identity_create getenv username fingerprint_size g o = (r, o', g') →
  os_fs o ⊆ os_fs o'.
Proof.
  unfold chat_identity_create. intros E. case_if_in E; [by simplify_eq|].
  case_if_in E; [by simplify_eq|].
  match type of E with context [match ?m o with _ => _ end] => set (prepare := m) in E end.
  assert (Hp : extends prepare).
  { unfold prepare. apply extends_bind; [eauto with extends|intros d].
    apply extends_bind; [eauto with extends|intros _].
    do 3 (apply extends_bind; [eauto with extends|intros ?]).
    apply extends_bind; [eauto with extends|intros []; [eauto with extends|]].
    apply extends_bind; [eauto with extends|intros []; [eauto with extends|]].
    apply extends_bind; [eauto with extends|intros []; eauto with extends]. }
  specialize (Hp o). destruct (prepare o) as [[e|[[kp pp] cp]] o1]; cbn [snd] in Hp;
    [by simplify_eq|].
  destruct (crypto_sign_keypair g) as [[pk sk] g1].
  match type of E with context [(?m o1, _)] => set (save := m) in E end.
  assert (Hs : extends save).
  { unfold save. do 3 (apply extends_bind; [eauto with extends|intros _]).
    destruct fingerprint_size; [|eauto with extends].
    apply extends_bind; eauto with extends. }
  specialize (Hs o1). injection E as E _ . rewrite E in Hs. cbn in Hs. by etrans.
Qed.

(** The three files of an identity, one written after the other. *)
Lemma three_files (fs0 fs1 fs2 fs3 : gmap path node) d kp pp cp nk np nc :
  d ≠ [] → kp = d ++ "/"%char :: lit "identity.key" → pp = d ++ "/"%char :: lit "identity.pub" →
  cp = d ++ "/"%char :: lit "config.toml" →
  fs1 = <[path_of kp := nk]> fs0 → fs2 = <[path_of pp := np]> fs1 →
  fs3 = <[path_of cp := nc]> fs2 →
  fs3 !! path_of kp = Some nk ∧ fs3 !! path_of pp = Some np ∧ fs3 !! path_of cp = Some nc.
Proof.
  intros Hd Hk Hp Hc -> -> ->. destruct (files_distinct d Hd) as (N1 & N2 & N3).
  rewrite <- Hk, <- Hp in N1. rewrite <- Hk, <- Hc in N2. rewrite <- Hp, <- Hc in N3.
  split_and!.
  - rewrite !lookup_insert_ne by done. by rewrite lookup_insert_eq.
  - rewrite lookup_insert_ne by done. by rewrite lookup_insert_eq.
  - by rewrite lookup_insert_eq.
Qed.

(** C19: when creation reports success, a load from the resulting files
    returns exactly the identity that was created, and the secret key file
    was created with mode 0600. *)
Theorem create_then_load username fingerprint_size g o identity fp o' g' :
  chat_identity_create getenv username fingerprint_size g o = (inr (identity, fp), o', g') →
  ∃ d o'', chat_identity_config_dir getenv PATH_MAX = inr d
    ∧ os_fs o' !! path_of (d ++ lit "/identity.key") = Some (File (id_secret_key identity) 384)
    ∧ chat_identity_load getenv (with_faults o' []) = (inr identity, o'').
Proof.
  unfold chat_identity_create. intros E.
  destruct username as [username|]; [|done].
  destruct (chat_username_is_valid (Some username)) eqn:Hu; cbn [negb] in E; [|done].
  destruct (sodium_init <? 0) eqn:Hi; [done|].
  match type of E with context [match ?m o with _ => _ end] => set (prepare := m) in E end.
  destruct (prepare o) as [[e|[[kp pp] cp]] o1] eqn:Ep; [done|]. unfold prepare in Ep.
  apply bind_inr in Ep as (d & o2 & Ed & Ep). apply of_res_inr in Ed as [Ed ->].
  apply bind_inr in Ep as (u & o3 & Em & Ep). apply mkdir_p_nonempty in Em as Hd.
  apply bind_inr in Ep as (kp' & o4 & Ek & Ep). apply of_res_inr in Ek as [Ek ->].
  apply bind_inr in Ep as (pp' & o5 & Epp & Ep). apply of_res_inr in Epp as [Epp ->].
  apply bind_inr in Ep as (cp' & o6 & Ec & Ep). apply of_res_inr in Ec as [Ec ->].
  assert (kp' = kp ∧ pp' = pp ∧ cp' = cp) as (-> & -> & ->).
  { apply bind_inr in Ep as ([] & o7 & _ & Ep); [done|].
    apply bind_inr in Ep as ([] & o8 & _ & Ep); [done|].
    apply bind_inr in Ep as ([] & o9 & _ & Ep); [done|]. by injection Ep. }
  pose proof (join_path_inr _ _ _ _ Ek) as Hk. pose proof (join_path_inr _ _ _ _ Epp) as Hp.
  pose proof (join_path_inr _ _ _ _ Ec) as Hc.
  pose proof (sign_keypair_pair g) as Hkey.
  destruct (crypto_sign_keypair g) as [[pk sk] g1]. cbn [fst snd] in Hkey.
  apply sign_key_pair_len in Hkey as [Hlpk Hlsk].
  injection E as E <-.
  apply bind_inr in E as (u1 & o11 & W1 & E). apply bind_inr in E as (u2 & o12 & W2 & E).
  apply bind_inr in E as (u3 & o13 & W3 & E).
  apply write_new_file_ok in W1 as F1. apply write_new_file_ok in W2 as F2.
  unfold chat_write_config_file in W3.
  destruct (snprintf 512 _) as [content|] eqn:Es; [|done]. apply snprintf_eq in Es as [-> _].
  apply write_new_file_ok in W3 as F3.
  assert (identity = {| id_username := username; id_public_key := pk; id_secret_key := sk |}
                ∧ o' = o13) as [-> ->].
  { pose proof (username_valid_len _ Hu).
    cbn [default from_option id] in E. unfold snprintf_buf in E.
    rewrite ztake_all in E by (unfold CHAT_USERNAME_MAX_LEN; lia).
    destruct fingerprint_size; [apply bind_inr in E as (f & o14 & Ef & E)|];
      [apply of_res_inr in Ef as [_ ->]|]; by injection E. }
  destruct (three_files _ _ _ _ d kp pp cp _ _ _ Hd Hk Hp Hc F1 F2 F3) as (Lk & Lp & Lc).
  exists d, (with_faults o13 []). split_and!; [done|by rewrite Hk in Lk|].
  unfold chat_identity_load. rewrite Hi. unfold mbind, idM_bind, of_res.
  rewrite Ed, Ek, Epp, Ec. erewrite load_username_ok by done.
  erewrite (read_exact_faultless kp) by done. erewrite (read_exact_faultless pp) by done. done.
Qed.
End create.

(** ** The new configuration text *)

(** The lines of a text, each with its newline. *)
Fixpoint lines_of (n : nat) (text : bytes) : list bytes :=
  match n, text with
  | S n', _ :: _ =>
      let line := line_of (S (length text)) text in
      line :: lines_of n' (drop (length line) text)
  | _, _ => []
  end.
Definition text_lines (text : bytes) : list bytes := lines_of (length text) text.

Definition is_url_line (line : bytes) : bool :=
  chat_config_line_has_key (c_string line) (lit "server_url").

(** The first line with the key is replaced, further ones are dropped, the
    others are kept; whether there was one. *)
Fixpoint replace_lines (url : bytes) (lines : list bytes) (written : bool) : bytes * bool :=
  match lines with
  | [] => ([], written)
  | line :: lines' =>
      let out := if is_url_line line then (if written then [] else url_line url)
                 else c_string line in
      let '(rest, w) := replace_lines url lines' (written || is_url_line line) in
      (out ++ rest, w)
  end.

Definition ends_in_newline (line : bytes) : bool := bool_decide (last (c_string line) = Some newline).

Definition rewritten (url text : bytes) : bytes :=
  let lines := text_lines text in
  let '(out, written) := replace_lines url lines false in
  if written then out
  else out ++ (match last lines with
               | Some line => if ends_in_newline line then [] else [newline]
               | None => []
               end) ++ url_line url.

Lemma fput_fs text out o : os_fs (fput text out o).2 = os_fs o.
Proof. unfold fput. pose proof (call_ok_fs o). by destruct (call_ok o). Qed.
Lemma fput_Some text out o out' o' : fput text out o = (Some out', o') → out' = out ++ text.
Proof. unfold fput. destruct (call_ok o) as [[] o1]; intros E; by simplify_eq. Qed.

Lemma getline_step st :
  is_error st = false → is_data st ≠ [] →
  let line := line_of (S (length (is_data st))) (is_data st) in
  getline st = Some (line, {| is_data := drop (length line) (is_data st); is_error := false |}).
Proof.
  intros He Hd line. unfold getline, fgets. rewrite He. cbn [andb].
  replace (Z.to_nat (len (is_data st) + 2 - 1)) with (S (length (is_data st)))
    by (unfold len; lia).
  by destruct (is_data st).
Qed.

Lemma rewrite_loop_fs n url st rw o : os_fs (rewrite_loop n url st rw o).2 = os_fs o.
Proof.
  revert st rw o; induction n as [|n IH]; intros st rw o; cbn [rewrite_loop]; [done|].
  destruct (getline st) as [[raw st']|]; [|done].
  case_if; [case_if; [apply IH|]|];
    (match goal with |- context [fput ?t ?b o] => pose proof (fput_fs t b o) as Hf;
       destruct (fput t b o) as [[out|] o1] end);
    cbn [snd] in Hf; rewrite ?IH; done.
Qed.

(** The loop computes [replace_lines] when it succeeds. *)
Lemma rewrite_loop_spec n url text rw o rw' o' :
  (length text < n)%nat →
  rewrite_loop n url {| is_data := text; is_error := false |} rw o = (rw', o') →
  rw_result rw = CHAT_IDENTITY_OK → rw_result rw' = CHAT_IDENTITY_OK →
  ∀ m, (length text ≤ m)%nat →
  rw_out rw' = rw_out rw ++ (replace_lines url (lines_of m text) (rw_written rw)).1
  ∧ rw_written rw' = (replace_lines url (lines_of m text) (rw_written rw)).2
  ∧ match last (lines_of m text) with
    | None => rw_had_content rw' = rw_had_content rw ∧ rw_last_newline rw' = rw_last_newline rw
    | Some line => rw_had_content rw' = true ∧ rw_last_newline rw' = ends_in_newline line
    end.
Proof.
  revert text rw o; induction n as [|n IH]; intros text rw o Hn E Hr Hr' m Hm; [lia|].
  cbn [rewrite_loop] in E. destruct text as [|c text].
  { cbn in E. simplify_eq. destruct m; cbn; by rewrite app_nil_r. }
  rewrite getline_step in E by done. cbn [is_data] in E.
  set (line := line_of (S (length (c :: text))) (c :: text)) in *.
  assert (Hlen : (0 < length line ≤ length (c :: text))%nat).
  { pose proof (line_of_nonempty (S (length (c :: text))) (c :: text)) as Hne.
    pose proof (line_of_prefix (S (length (c :: text))) (c :: text)) as Hp. fold line in Hp, Hne.
    destruct line; [destruct Hne; (done || lia)|]. split; [cbn; lia|].
    apply (f_equal length) in Hp. rewrite length_app in Hp. lia. }
  destruct m as [|m]; [cbn in Hm; lia|]. cbn [lines_of]. fold line.
  set (rest := drop (length line) (c :: text)) in *.
  assert (Hrest : (length rest < n ∧ length rest ≤ m)%nat).
  { unfold rest. rewrite length_drop. cbn [length] in *. lia. }
  change (chat_config_line_has_key (c_string line) _) with (is_url_line line) in E.
  cbn [replace_lines].
  assert (Hgo : ∀ rw1 o1,
    rewrite_loop n url {| is_data := rest; is_error := false |} rw1 o1 = (rw', o') →
    rw_result rw1 = CHAT_IDENTITY_OK → rw_had_content rw1 = true →
    rw_last_newline rw1 = ends_in_newline line →
    rw_out rw' = rw_out rw1 ++ (replace_lines url (lines_of m rest) (rw_written rw1)).1
    ∧ rw_written rw' = (replace_lines url (lines_of m rest) (rw_written rw1)).2
    ∧ match last (line :: lines_of m rest) with
      | None => rw_had_content rw' = rw_had_content rw ∧ rw_last_newline rw' = rw_last_newline rw
      | Some line => rw_had_content rw' = true ∧ rw_last_newline rw' = ends_in_newline line
      end).
  { intros rw1 o1 E1 R1 C1 N1. destruct (IH _ _ _ (proj1 Hrest) E1 R1 Hr' m (proj2 Hrest))
      as (A & B & C). split_and!; [done..|]. rewrite last_cons.
    destruct (last (lines_of m rest)); [done|]. destruct C as [-> ->]. done. }
  destruct (is_url_line line) eqn:Eu.
  - destruct (rw_written rw) eqn:Ew.
    + apply Hgo in E as (A & B & C); [|done..]. cbn [rw_out rw_written orb] in *.
      destruct (replace_lines url (lines_of m rest) true). by rewrite A, B.
    + destruct (fput (url_line url) (rw_out rw) o) as [[out|] o1] eqn:Ef; [|by simplify_eq].
      apply fput_Some in Ef as ->. apply Hgo in E as (A & B & C); [|done..].
      cbn [rw_out rw_written orb] in *.
      destruct (replace_lines url (lines_of m rest) true). rewrite A, B, <- app_assoc. done.
  - destruct (fput (c_string line) (rw_out rw) o) as [[out|] o1] eqn:Ef; [|by simplify_eq].
    apply fput_Some in Ef as ->. apply Hgo in E as (A & B & C); [|done..].
    cbn [rw_out rw_written] in *. rewrite orb_false_r.
    destruct (replace_lines url (lines_of m rest) (rw_written rw)).
    rewrite A, B, <- app_assoc. done.
Qed.

Lemma rewrite_end_fs url err rw o : os_fs (rewrite_end url err rw o).2 = os_fs o.
Proof.
  unfold rewrite_end. case_if; [|done].
  assert (Hp : os_fs (if rw_had_content rw && negb (rw_last_newline rw)
                      then fput [newline] (rw_out rw) o else (Some (rw_out rw), o)).2 = os_fs o).
  { case_if; [apply fput_fs|done]. }
  destruct (if rw_had_content rw && negb (rw_last_newline rw)
            then fput [newline] (rw_out rw) o else (Some (rw_out rw), o)) as [[out|] o1];
    cbn [snd] in Hp; [|done].
  pose proof (fput_fs (url_line url) out o1) as Hf.
  destruct (fput (url_line url) out o1) as [[out'|] o2]; cbn [snd] in *; congruence.
Qed.

(** The text the loop and its end produce, when they succeed. *)
Lemma rewrite_text url st o rw o1 res out o2 :
  rewrite_loop (S (length (is_data st))) url st
    {| rw_result := CHAT_IDENTITY_OK; rw_written := false; rw_had_content := false;
       rw_last_newline := true; rw_out := [] |} o = (rw, o1) →
  rewrite_end url (ferror st) rw o1 = (res, out, o2) → res = CHAT_IDENTITY_OK →
  is_error st = false ∧ out = rewritten url (is_data st).
Proof.
  intros El Ee ->. unfold rewrite_end, ferror in Ee.
  assert (Hr : rw_result rw = CHAT_IDENTITY_OK ∧ is_error st = false).
  { destruct (bool_decide (rw_result rw = CHAT_IDENTITY_OK)) eqn:Er; bdec.
    - split; [done|]. destruct (is_error st); [|done]. cbn in Ee. by simplify_eq.
    - cbn [andb] in Ee. rewrite bool_decide_false in Ee by done. cbn in Ee. by simplify_eq. }
  destruct Hr as [Hr Hs]. split; [done|]. destruct st as [text err]. cbn in Hs. subst err.
  destruct (rewrite_loop_spec (S (length text)) url text _ _ _ _ (Nat.lt_succ_diag_r _) El
    eq_refl Hr (length text) (le_n _)) as (Ho & Hw & Hl). cbn [rw_out rw_written app] in Ho, Hw.
  rewrite Hr in Ee. cbn [is_error andb is_data] in Ee. unfold rewritten, text_lines. cbn [is_data].
  destruct (replace_lines url (lines_of (length text) text) false) as [body w].
  cbn [fst snd] in *. subst body w. rewrite bool_decide_true in Ee by done. cbn [andb negb] in Ee.
  destruct (rw_written rw); cbn [negb] in Ee; [by simplify_eq|].
  assert (Hpad : ∀ o3 p, (if rw_had_content rw && negb (rw_last_newline rw)
            then fput [newline] (rw_out rw) o1 else (Some (rw_out rw), o1)) = (Some p, o3) →
            p = rw_out rw ++ match last (lines_of (length text) text) with
                             | Some line => if ends_in_newline line then [] else [newline]
                             | None => []
                             end).
  { intros o3 p. destruct (last (lines_of (length text) text)) as [line|].
    - destruct Hl as [-> ->]. destruct (ends_in_newline line); cbn [andb negb].
      + intros [= <- _]. by rewrite app_nil_r.
      + intros E%fput_Some. done.
    - destruct Hl as [-> _]. cbn. intros [= <- _]. by rewrite app_nil_r. }
  destruct (if rw_had_content rw && negb (rw_last_newline rw)
            then fput [newline] (rw_out rw) o1 else (Some (rw_out rw), o1)) as [[p|] o3];
    [|by simplify_eq].
  specialize (Hpad o3 p eq_refl).
  destruct (fput (url_line url) p o3) as [[q|] o4] eqn:Ef; [|by simplify_eq].
  apply fput_Some in Ef. simplify_eq. by rewrite app_assoc.
Qed.

(** ** Effect on the file system *)

(** The two systems differ at most at [k]. *)
Definition same_but (k : path) (o o' : os) : Prop :=
  ∀ p, p ≠ k → os_fs o' !! p = os_fs o !! p.

Lemma same_but_eq k o o' : os_fs o' = os_fs o → same_but k o o'.
Proof. by intros E p _; rewrite E. Qed.
Lemma same_but_trans k o1 o2 o3 : same_but k o1 o2 → same_but k o2 o3 → same_but k o1 o3.
Proof. intros H1 H2 p Hp. by rewrite H2, H1. Qed.
Lemma append_same_but p data o : same_but (path_of p) o (append_to p data o).
Proof.
  intros q Hq. unfold append_to. destruct (os_fs o !! path_of p) as [[|old m]|]; [done| |done].
  cbn. by rewrite lookup_insert_ne.
Qed.

Lemma and_then_inv res step o res' o' :
  and_then res step o = (res', o') →
  o' = (step o).2 ∧ (res' = CHAT_IDENTITY_OK ↔ res = CHAT_IDENTITY_OK ∧ (step o).1 = true).
Proof.
  unfold and_then. destruct (step o) as [ok o1]. intros [= <- <-]. split; [done|].
  destruct ok; cbn [negb andb fst]; [naive_solver|]. case_bool_decide; naive_solver.
Qed.

Lemma simple_fs o : os_fs (sys_simple o).2 = os_fs o.
Proof. apply call_ok_fs. Qed.

Lemma fflush_effect p out o :
  same_but (path_of p) o (fflush_to p out o).2
  ∧ ((fflush_to p out o).1 = true → ∀ m, os_fs o !! path_of p = Some (File [] m) →
      os_fs (fflush_to p out o).2 = <[path_of p := File out m]> (os_fs o)).
Proof.
  unfold fflush_to. destruct (next_fault o) as [f o1] eqn:En. apply next_fault_fs in En.
  destruct f as [|n| |]; cbn [fst snd]; split; try done.
  - eapply same_but_trans; [by apply same_but_eq|apply append_same_but].
  - intros _ m Hm. rewrite <- En in Hm |- *. by apply (append_to_fs p out o1 []).
  - eapply same_but_trans; [by apply same_but_eq|apply append_same_but].
  - by apply same_but_eq.
  - by apply same_but_eq.
Qed.

Lemma unlink_same_but p o : same_but (path_of p) o (sys_unlink p o).2.
Proof.
  unfold sys_unlink. pose proof (call_ok_fs o) as Hc. destruct (call_ok o) as [[] o1];
    cbn [snd] in *; intros q Hq; cbn; [rewrite lookup_delete_ne by done|]; by rewrite Hc.
Qed.

Lemma rename_inv a b o :
  ((sys_rename a b o).1 = true →
    ∃ n, os_fs o !! path_of a = Some n
         ∧ os_fs (sys_rename a b o).2 = <[path_of b := n]> (delete (path_of a) (os_fs o)))
  ∧ ((sys_rename a b o).1 = false → os_fs (sys_rename a b o).2 = os_fs o).
Proof.
  unfold sys_rename. pose proof (call_ok_fs o) as Hc. destruct (call_ok o) as [[] o1];
    cbn [negb snd] in *; [|done].
  destruct (os_fs o1 !! path_of a) as [n|] eqn:E; cbn [fst snd with_fs os_fs]; [|done].
  split; [|done]. intros _. exists n. by rewrite <- Hc.
Qed.

Lemma rewrite_config_effect url cfg tmp st o m res o' :
  rewrite_config url cfg tmp st o = (res, o') →
  os_fs o !! path_of tmp = Some (File [] m) →
  (res = CHAT_IDENTITY_OK ∧ is_error st = false
   ∧ os_fs o' = <[path_of cfg := File (rewritten url (is_data st)) m]>
                  (delete (path_of tmp) (os_fs o)))
  ∨ (res ≠ CHAT_IDENTITY_OK ∧ same_but (path_of tmp) o o').
Proof.
  unfold rewrite_config. intros E Ht.
  destruct (rewrite_loop _ _ _ _ o) as [rw o1] eqn:El.
  pose proof (rewrite_loop_fs (S (length (is_data st))) url st
    {| rw_result := CHAT_IDENTITY_OK; rw_written := false; rw_had_content := false;
       rw_last_newline := true; rw_out := [] |} o) as F1. rewrite El in F1. cbn [snd] in F1.
  destruct (rewrite_end url (ferror st) rw o1) as [[res1 out] o2] eqn:Ee.
  pose proof (rewrite_end_fs url (ferror st) rw o1) as F2. rewrite Ee in F2. cbn [snd] in F2.
  pose proof (rewrite_text _ _ _ _ _ _ _ _ El Ee) as Htext.
  destruct (and_then res1 sys_simple o2) as [res3 o3] eqn:E3.
  apply and_then_inv in E3 as [H3 R3]. pose proof (simple_fs o2) as F3. rewrite <- H3 in F3.
  destruct (and_then res3 (fflush_to tmp out) o3) as [res4 o4] eqn:E4.
  apply and_then_inv in E4 as [H4 R4]. destruct (fflush_effect tmp out o3) as [S4 W4].
  rewrite <- H4 in S4, W4.
  destruct (and_then res4 sys_simple o4) as [res5 o5] eqn:E5.
  apply and_then_inv in E5 as [H5 R5]. pose proof (simple_fs o4) as F5. rewrite <- H5 in F5.
  destruct (and_then res5 sys_simple o5) as [res6 o6] eqn:E6.
  apply and_then_inv in E6 as [H6 R6]. pose proof (simple_fs o5) as F6. rewrite <- H6 in F6.
  assert (Hsame : same_but (path_of tmp) o o6).
  { intros p Hp. rewrite F6, F5, S4, F3, F2, F1 by done. done. }
  destruct (bool_decide (res6 = CHAT_IDENTITY_OK)) eqn:B6; bdec.
  - destruct (proj1 R6 B6) as [B5 _]. destruct (proj1 R5 B5) as [B4 _]. destruct (proj1 R4 B4) as [B3 Hw].
    destruct (proj1 R3 B3) as [B1 _]. destruct (Htext B1) as [Hst Hout].
    assert (Hfs : os_fs o6 = <[path_of tmp := File out m]> (os_fs o)).
    { rewrite F6, F5, (W4 Hw m), F3, F2, F1; [done|]. by rewrite F3, F2, F1. }
    destruct (and_then res6 (sys_rename tmp cfg) o6) as [res7 o7] eqn:E7.
    apply and_then_inv in E7 as [H7 R7]. destruct (rename_inv tmp cfg o6) as [Rt Rf].
    rewrite <- H7 in Rt, Rf.
    destruct (bool_decide (res7 = CHAT_IDENTITY_OK)) eqn:B7; bdec; injection E as <- <-.
    + left. destruct (proj1 R7 B7) as [_ Hren]. destruct (Rt Hren) as (n & Hn & ->).
      rewrite Hfs, lookup_insert_eq in Hn. injection Hn as <-. rewrite <- Hout.
      split_and!; [done..|].
      rewrite Hfs. by rewrite delete_insert_eq.
    + right. split; [done|]. eapply same_but_trans; [|apply unlink_same_but].
      eapply same_but_trans; [exact Hsame|]. apply same_but_eq, Rf.
      destruct ((sys_rename tmp cfg o6).1); [|done]. by destruct B7; apply R7.
  - rewrite bool_decide_false in E by done. injection E as <- <-. right. split; [done|].
    eapply same_but_trans; [exact Hsame|apply unlink_same_but].
Qed.

Section url.
Context (getenv : bytes → cptr).

Lemma bind_call {A B} (f : os → A * os) (k : A → idM B) o :
  (call f ≫= k) o = k (f o).1 (f o).2.
Proof. unfold mbind, idM_bind, call. by destruct (f o). Qed.
Lemma fopen_read_inv p o :
  os_fs (fopen_read p o).2 = os_fs o
  ∧ ∀ st, (fopen_read p o).1 = inr st →
      ∃ data m, os_fs o !! path_of p = Some (File data m)
                ∧ (is_error st = false → is_data st = data).
Proof.
  unfold fopen_read, sys_open_read. pose proof (call_ok_fs o) as Hc.
  destruct (call_ok o) as [[] o1]; cbn [snd negb] in *; [|by split].
  destruct (os_fs o1 !! path_of p) as [[|data m]|] eqn:El; cbn; [by split| |by split].
  pose proof (next_fault_snd o1) as Hn.
  destruct (next_fault o1) as [[|n| |] o2]; cbn [fst snd] in *; (split; [congruence|]);
    intros st [= <-]; exists data, m; rewrite <- Hc; split; try done.
  cbn. intros Hl. bdec. apply Nat.ltb_ge in Hl. by apply take_ge.
Qed.
Lemma mkstemp_inv prefix o :
  ((sys_mkstemp prefix o).1 = None ∧ os_fs (sys_mkstemp prefix o).2 = os_fs o)
  ∨ ((sys_mkstemp prefix o).1 = Some (prefix ++ os_suffix o)
     ∧ os_fs o !! path_of (prefix ++ os_suffix o) = None
     ∧ os_fs (sys_mkstemp prefix o).2
       = <[path_of (prefix ++ os_suffix o) := File [] 384]> (os_fs o)).
Proof.
  unfold sys_mkstemp. destruct (sys_open_new (prefix ++ os_suffix o) 384 o) as [r o1] eqn:E.
  apply open_new_inv in E as [(-> & Hn & Hf)|[[e ->] Hf]]; [right|left]; done.
Qed.
Lemma call_ok_suffix o : os_suffix (call_ok o).2 = os_suffix o.
Proof.
  unfold call_ok, next_fault. by destruct (os_faults o) as [|[] ?].
Qed.
Lemma fopen_read_suffix p o : os_suffix (fopen_read p o).2 = os_suffix o.
Proof.
  unfold fopen_read, sys_open_read. pose proof (call_ok_suffix o) as Hc.
  destruct (call_ok o) as [[] o1]; cbn [snd negb] in *; [|done].
  destruct (os_fs o1 !! path_of p) as [[|data m]|]; cbn; [done| |done].
  unfold next_fault. by destruct (os_faults o1) as [|[] ?]; cbn.
Qed.

(** The temporary file is gone or is the only difference. *)
Lemma abandon_same_but {A} tmp o e (r : identity_res A) o' :
  (call sys_simple ≫= λ _, call (sys_unlink tmp) ≫= λ _, call sys_simple ≫= λ _, throw e) o
    = (r, o') → r = inl e ∧ same_but (path_of tmp) o o'.
Proof.
  rewrite !bind_call. unfold throw. intros [= <- <-]. split; [done|].
  eapply same_but_trans; [apply same_but_eq, simple_fs|].
  eapply same_but_trans; [apply unlink_same_but|]. apply same_but_eq, simple_fs.
Qed.

Lemma set_server_url_effect url d o r o' :
  chat_identity_config_dir getenv PATH_MAX = inr d →
  chat_identity_set_server_url getenv (Some url) o = (r, o') →
  match r with
  | inr _ => ∃ text m, os_fs o !! path_of (d ++ lit "/config.toml") = Some (File text m)
      ∧ os_fs o' = <[path_of (d ++ lit "/config.toml") := File (rewritten url text) 384]> (os_fs o)
  | inl _ => same_but (path_of (d ++ lit "/config.toml.tmp." ++ os_suffix o)) o o'
  end.
Proof.
  intros Hd. unfold chat_identity_set_server_url. case_if.
  { unfold throw. intros [= <- <-]. by apply same_but_eq. }
  unfold mbind at 1, idM_bind at 1. unfold of_res at 1. rewrite Hd.
  unfold mbind at 1, idM_bind at 1. unfold of_res at 1.
  destruct (chat_join_path _ _ _) as [e|cfg] eqn:Ej.
  { intros [= <- <-]. by apply same_but_eq. }
  apply join_path_inr in Ej. change ("/"%char :: lit "config.toml") with (lit "/config.toml") in Ej.
  rewrite bind_call. destruct (fopen_read_inv cfg o) as [F1 I1].
  pose proof (fopen_read_suffix cfg o) as Sx.
  destruct (fopen_read cfg o) as [[e|st] o1]; cbn [fst snd] in *.
  { destruct e; unfold throw; intros [= <- <-]; by apply same_but_eq. }
  destruct (I1 st eq_refl) as (text & m & Htext & Hdata).
  assert (Etmp : (cfg ++ lit ".tmp.") ++ os_suffix o1
                 = d ++ lit "/config.toml.tmp." ++ os_suffix o).
  { rewrite Ej, Sx. by rewrite <- !app_assoc. }
  rewrite <- Ej, <- Etmp. set (tmp := (cfg ++ lit ".tmp.") ++ os_suffix o1) in *.
  destruct (snprintf PATH_MAX _).
  2: { rewrite bind_call. unfold throw. intros [= <- <-]. apply same_but_eq.
       by rewrite simple_fs. }
  rewrite bind_call.
  destruct (mkstemp_inv (cfg ++ lit ".tmp.") o1) as [(-> & F2)|(-> & Hnew & F2)].
  { rewrite bind_call. unfold throw. intros [= <- <-]. apply same_but_eq.
    rewrite simple_fs. etrans; [exact F2|exact F1]. }
  fold tmp in Hnew, F2 |- *.
  set (o2 := (sys_mkstemp (cfg ++ lit ".tmp.") o1).2) in *.
  rewrite F1 in Hnew, F2.
  assert (Hnew2 : ∀ o3, os_fs o3 = os_fs o2 → same_but (path_of tmp) o o3).
  { intros o3 E3 p Hp. by rewrite E3, F2, lookup_insert_ne. }
  rewrite bind_call. case_if.
  { intros [-> Hs]%abandon_same_but. eapply same_but_trans; [|exact Hs].
    apply Hnew2, simple_fs. }
  rewrite bind_call. case_if.
  { intros [-> Hs]%abandon_same_but. eapply same_but_trans; [|exact Hs].
    apply Hnew2. by rewrite !simple_fs. }
  rewrite bind_call.
  set (o4 := (sys_simple (sys_simple o2).2).2).
  assert (F4 : os_fs o4 = os_fs o2) by (unfold o4; by rewrite !simple_fs).
  cbn [default from_option id].
  destruct (rewrite_config url cfg tmp st o4) as [res o5] eqn:Er.
  apply (rewrite_config_effect _ _ _ _ _ 384) in Er; [|by rewrite F4, F2, lookup_insert_eq].
  cbn [fst snd]. destruct Er as [(-> & Hst & F5)|[Hres Hs]].
  - rewrite bool_decide_true by done. unfold mret, idM_ret. intros [= <- <-].
    exists text, m. split; [exact Htext|]. etrans; [exact F5|].
    rewrite F4, F2, Hdata by exact Hst. by rewrite delete_insert_id.
  - rewrite bool_decide_false by done. unfold throw. intros [= <- <-].
    eapply same_but_trans; [|exact Hs]. by apply Hnew2.
Qed.

(** C20: changing the server URL is atomic, whatever fails on the way: on
    success the configuration file holds the old text with the first
    [server_url] line replaced (the others dropped, one added if there was
    none) and nothing else has changed; on failure everything, the
    configuration file included, is as before, except that a temporary file
    may be left. *)
Theorem set_server_url_atomic url d o r o' :
  chat_identity_config_dir getenv PATH_MAX = inr d →
  chat_identity_set_server_url getenv (Some url) o = (r, o') →
  match r with
  | inr _ => ∃ text m, os_fs o !! path_of (d ++ lit "/config.toml") = Some (File text m)
      ∧ os_fs o' = <[path_of (d ++ lit "/config.toml") := File (rewritten url text) 384]> (os_fs o)
  | inl _ => same_but (path_of (d ++ lit "/config.toml.tmp." ++ os_suffix o)) o o'
  end.
Proof. apply set_server_url_effect. Qed.
End url.

(** ** Loading the URL again *)

(** A line: its newline is its last character. *)
Definition full_line (l : bytes) : Prop := ∃ t, l = t ++ [newline] ∧ newline ∉ t.

Lemma line_of_cases n text :
  (length text < n)%nat → text ≠ [] →
  full_line (line_of n text) ∨ (line_of n text = text ∧ newline ∉ text).
Proof.
  revert n; induction text as [|c text IH]; intros [|n] Hn Hne; cbn in Hn; try done; try lia.
  cbn [line_of]. case_bool_decide as Hc.
  - left. exists []. split; [by rewrite Hc|]. apply not_elem_of_nil.
  - destruct text as [|d text].
    { right. destruct n; cbn; (split; [done|]); apply not_elem_of_cons;
        (split; [congruence|apply not_elem_of_nil]). }
    destruct (IH n) as [(t & -> & Ht)|[-> Ht]]; [lia|done|left|right].
    + exists (c :: t). split; [done|]. apply not_elem_of_cons. split; [congruence|done].
    + split; [done|]. apply not_elem_of_cons. split; [congruence|done].
Qed.

(** All lines but the last are full. *)
Lemma lines_of_shape n text l ls :
  (length text ≤ n)%nat → lines_of n text = l :: ls →
  l ≠ [] ∧ (full_line l ∨ (ls = [] ∧ newline ∉ l))
  ∧ ∃ n' text', (length text' ≤ n')%nat ∧ ls = lines_of n' text'
                ∧ text = l ++ text'.
Proof.
  destruct n as [|n]; [by destruct text|]. destruct text as [|c text]; [done|].
  intros Hn. cbn [lines_of]. intros [<- <-]%cons_eq_inj.
  set (line := line_of (S (length (c :: text))) (c :: text)).
  assert (Hne : line ≠ []) by (apply line_of_nonempty; [lia|done]).
  pose proof (line_of_prefix (S (length (c :: text))) (c :: text)) as Hp. fold line in Hp.
  split_and!; [done| |].
  - destruct (line_of_cases (S (length (c :: text))) (c :: text)) as [Hf|[Hall Hnl]];
      [lia|done|by left|right]. fold line in Hall.
    rewrite Hall. split; [|done]. rewrite drop_all. by destruct n.
  - exists n, (drop (length line) (c :: text)). split_and!; [|done|done].
    rewrite length_drop. destruct line; [done|]. cbn [length] in *. lia.
Qed.

Lemma join_cons (l : bytes) ls : mjoin (l :: ls) = l ++ mjoin ls.
Proof. done. Qed.

Definition url_prefix : bytes := qlit "server_url = '".

Lemma url_prefix_is_url l : is_cstr l → has_prefix url_prefix l = true → is_url_line l = true.
Proof.
  intros Hc [t ->]%has_prefix_spec. unfold is_url_line. by rewrite c_string_id.
Qed.

(** What the loader steps over: short full lines that are not the URL's. *)
Definition skipped_line (l : bytes) : Prop :=
  full_line l ∧ is_cstr l ∧ len l ≤ 510 ∧ has_prefix url_prefix l = false.

Lemma has_prefix_snoc p l c : c ∉ p → has_prefix p (l ++ [c]) = true → has_prefix p l = true.
Proof.
  revert l; induction p as [|a p IH]; intros l Hp Hl; [done|].
  apply not_elem_of_cons in Hp as [Ha Hp]. destruct l as [|b l]; cbn in *.
  - apply andb_true_iff in Hl as [Hl _]. by bdec.
  - apply andb_true_iff in Hl as [-> Hl]. cbn. by apply IH.
Qed.

Lemma rewritten_shape url n text :
  (length text ≤ n)%nat → is_cstr text → Forall (λ l, len l ≤ 509) (lines_of n text) →
  ∃ pre suf, Forall skipped_line pre
    ∧ (let '(out, w) := replace_lines url (lines_of n text) false in
       if w then out
       else out ++ (match last (lines_of n text) with
                    | Some line => if ends_in_newline line then [] else [newline]
                    | None => [] end) ++ url_line url)
      = mjoin pre ++ url_line url ++ suf.
Proof.
  remember (lines_of n text) as ls eqn:Els. revert n text Els.
  induction ls as [|l ls IH]; intros n text Els Hn Hc Hl.
  { exists [], []. split; [constructor|]. cbn. by rewrite app_nil_r. }
  symmetry in Els. destruct (lines_of_shape _ _ _ _ Hn Els)
    as (Hne & Hshape & n' & text' & Hn' & -> & ->).
  apply Forall_cons in Hl as [Hlen Hl]. apply is_cstr_app in Hc as [Hcl Hct].
  cbn [replace_lines]. destruct (is_url_line l) eqn:Eu; cbn [orb].
  { exists []. assert (Hw : ∀ k, (replace_lines url k true).2 = true).
    { intros k; induction k as [|x k IHk]; [done|]. cbn. specialize (IHk).
      destruct (replace_lines url k true). done. }
    specialize (Hw (lines_of n' text')). destruct (replace_lines url _ true) as [rest w].
    cbn in Hw. subst w. exists rest. split; [constructor|done]. }
  assert (Hnp : has_prefix url_prefix l = false).
  { destruct (has_prefix url_prefix l) eqn:Ep; [|done]. apply url_prefix_is_url in Ep; congruence. }
  rewrite (c_string_id l) by done. rewrite last_cons.
  destruct (IH n' text' eq_refl Hn' Hct Hl) as (pre & suf & Hpre & IHe).
  destruct Hshape as [Hfull|[Hnil Hnn]].
  - exists (l :: pre), suf. split; [constructor; [split_and!; (done || lia)|done]|].
    destruct (replace_lines url (lines_of n' text') false) as [rest w].
    rewrite join_cons, <- (app_assoc l (mjoin pre)), <- IHe.
    destruct w; [done|]. rewrite <- app_assoc. do 2 f_equal.
    destruct (last (lines_of n' text')) as [x|] eqn:El; [done|].
    destruct Hfull as (t & -> & _). unfold ends_in_newline.
    rewrite c_string_id, last_snoc, bool_decide_true by done. done.
  - rewrite Hnil. exists [l ++ [newline]], []. split.
    { constructor; [|constructor]. split_and!.
      - by exists l.
      - apply is_cstr_app. split; [done|]. by repeat constructor.
      - rewrite len_app. change (len [newline]) with 1. lia.
      - destruct (has_prefix url_prefix (l ++ [newline])) eqn:Ep; [|done].
        apply has_prefix_snoc in Ep; [congruence|].
        apply (bool_decide_eq_true_1 _). by vm_compute. }
    cbn. unfold ends_in_newline. rewrite c_string_id by done.
    rewrite bool_decide_false.
    + rewrite !app_nil_r. by rewrite <- app_assoc.
    + intros Hlast. apply Hnn. by apply last_Some_elem_of.
Qed.

(** The loader finds the line. *)
Lemma load_finds_url url pre suf n out_size :
  Forall skipped_line pre → is_cstr url → dquote ∉ url → newline ∉ url → len url ≤ 255 →
  len url < out_size → (length pre < n)%nat →
  load_value_loop n url_prefix out_size
    {| is_data := mjoin pre ++ url_line url ++ suf; is_error := false |} = inr url.
Proof.
  intros Hpre Hc Hq Hnl Hlen Hout. revert n.
  induction Hpre as [|l pre ((t & -> & Ht) & Hcl & Hl & Hp) _ IH]; intros n Hn.
  - destruct n as [|n]; [cbn in Hn; lia|]. cbn [load_value_loop mjoin list_join app].
    assert (E : url_line url ++ suf = (url_prefix ++ url ++ [dquote]) ++ newline :: suf).
    { unfold url_line. fold url_prefix. by rewrite <- !app_assoc. }
    rewrite E, fgets_line.
    2: { rewrite !elem_of_app, list_elem_of_singleton. intros [Hin|[Hin|Hin]]; try done.
         revert Hin. apply (bool_decide_eq_true_1 _). by vm_compute. }
    2: { rewrite !len_app. change (len url_prefix) with 14. change (len [dquote]) with 1. lia. }
    rewrite c_string_id.
    2: { rewrite !is_cstr_app. split_and!; try done; apply (bool_decide_eq_true_1 _); by vm_compute. }
    rewrite <- app_assoc, has_prefix_app. cbn [negb]. rewrite zdrop_app_len by done.
    assert (Echr : strchr (((url ++ [dquote]) ++ [newline])) dquote = Some [dquote; newline]).
    { rewrite <- app_assoc. clear -Hq. induction url as [|c url IH]; cbn; [done|].
      apply not_elem_of_cons in Hq as [Hq Hq']. rewrite bool_decide_false by congruence. auto. }
    rewrite Echr. rewrite !length_app. cbn [length].
    replace (length url + 1 + 1 - 2)%nat with (length url) by lia.
    rewrite <- app_assoc, take_app_length. unfold chat_copy_string.
    pose proof (len_nonneg url). rewrite (proj2 (Z.eqb_neq out_size 0)) by lia.
    rewrite snprintf_ok; [done|done|]. unfold INT_MAX. lia.
  - destruct n as [|n]; [cbn in Hn; lia|]. cbn [load_value_loop].
    rewrite join_cons, <- !app_assoc. cbn [app]. rewrite len_app in Hl.
    change (len [newline]) with 1 in Hl. rewrite fgets_line by (done || lia).
    rewrite c_string_id by done. rewrite Hp. cbn [negb]. apply IH. cbn in Hn. lia.
Qed.

Lemma url_valid_facts url :
  chat_server_url_is_valid (Some url) = true →
  len url ≤ 255 ∧ Forall (λ c, url_char_ok c = true) url.
Proof.
  unfold chat_server_url_is_valid, CHAT_IDENTITY_SERVER_URL_MAX, strlen. intros Hv.
  case_if_in Hv; [done|]. destruct (url_authority url) as [[|c a]|]; try done.
  case_if_in Hv; [done|]. split; [lia|]. apply Forall_forall. intros c' Hc'.
  eapply forallb_forall in Hv; [exact Hv|]. by apply list_elem_of_In.
Qed.
Lemma url_char_facts c : url_char_ok c = true → 32 < byte_val c ∧ c ≠ dquote.
Proof. unfold url_char_ok. intros Hc. bdec. done. Qed.
Lemma skipped_count pre : Forall skipped_line pre → (length pre ≤ length (mjoin pre))%nat.
Proof.
  induction 1 as [|l pre ((t & -> & _) & _) _ IH]; [done|].
  rewrite join_cons, !length_app. cbn. lia.
Qed.

Section url_load.
Context (getenv : bytes → cptr).

(** C22: after a successful change, loading the server URL returns it, for a
    configuration text without NUL bytes whose lines are shorter than the
    loader's buffer. *)
Theorem set_then_load_server_url url d o x o' text m out_size :
  chat_identity_config_dir getenv PATH_MAX = inr d →
  chat_identity_set_server_url getenv (Some url) o = (inr x, o') →
  os_fs o !! path_of (d ++ lit "/config.toml") = Some (File text m) →
  is_cstr text → Forall (λ l, len l ≤ 509) (text_lines text) → len url < out_size →
  (chat_identity_load_server_url getenv out_size (with_faults o' [])).1 = inr url.
Proof.
  intros Hd Es Htext Hc Hl Hout.
  assert (Hv : chat_server_url_is_valid (Some url) = true).
  { unfold chat_identity_set_server_url in Es. by destruct (chat_server_url_is_valid (Some url)). }
  assert (Hj : chat_join_path PATH_MAX (Some d) (Some (lit "config.toml"))
               = inr (d ++ lit "/config.toml")).
  { unfold chat_identity_set_server_url in Es. rewrite Hv in Es. cbn [negb] in Es.
    apply bind_inr in Es as (d' & o1 & E1 & Es). apply of_res_inr in E1 as [E1 ->].
    rewrite Hd in E1. injection E1 as <-.
    apply bind_inr in Es as (cfg & o1 & E1 & _). apply of_res_inr in E1 as [E1 ->].
    rewrite E1. by apply join_path_inr in E1 as ->. }
  pose proof (set_server_url_effect getenv url d o (inr x) o' Hd Es) as (text' & m' & Ht & Ho).
  rewrite Htext in Ht. injection Ht as <- <-.
  destruct (url_valid_facts url Hv) as [Hlen Hchars].
  destruct (rewritten_shape url (length text) text (le_n _) Hc Hl) as (pre & suf & Hpre & Hshape).
  unfold chat_identity_load_server_url, chat_identity_load_config_value.
  unfold mbind, idM_bind, of_res. rewrite Hd, Hj. unfold chat_load_quoted_config_value.
  erewrite fopen_read_faultless; [|done|by cbn; rewrite Ho, lookup_insert_eq].
  change (snprintf 64 (lit "server_url" ++ qlit " = '")) with (Some url_prefix).
  cbn [fst is_data]. change (rewritten url text) with
    (let '(out, w) := replace_lines url (lines_of (length text) text) false in
     if w then out
     else out ++ (match last (lines_of (length text) text) with
                  | Some line => if ends_in_newline line then [] else [newline]
                  | None => [] end) ++ url_line url).
  rewrite Hshape. rewrite Forall_forall in Hchars.
  apply load_finds_url; [done| | | |done|done|].
  - apply Forall_forall. intros c Hin%Hchars%url_char_facts ->.
    change (byte_val NUL) with 0 in Hin. lia.
  - intros Hin%Hchars. by apply url_char_facts in Hin as [_ Hin].
  - intros Hin%Hchars%url_char_facts. change (byte_val newline) with 10 in Hin. lia.
  - rewrite length_app. pose proof (skipped_count pre Hpre). lia.
Qed.
End url_load.

(** ** Concrete instances *)

Import Reference.

Definition demo_env (name : bytes) : cptr :=
  if bool_decide (name = lit "CHAT_CONFIG_DIR") then Some (lit "/home/a/.chat") else None.
(** The parent directory exists; a write is cut short and interrupted. *)
Definition demo_os : os :=
  {| os_fs := <[path_of (lit "/home/a") := Dir]> (<[path_of (lit "/home") := Dir]> ∅);
     os_faults := replicate 9 FNone ++ [FShort 10; FEintr]; os_suffix := lit "Ab3dEf" |}.
Definition demo_created : identity_res (chat_identity_t * cptr) * os * Z :=
  chat_identity_create demo_env (Some (lit "alice")) (Some 96) (7 : @rng random) demo_os.
Definition demo_created_os : os := demo_created.1.2.
Definition demo_alice : chat_identity_t :=
  {| id_username := lit "alice"; id_public_key := replicate 32 (byte_of 7);
     id_secret_key := replicate 64 (byte_of 7) |}.

Lemma demo_created_eq :
  chat_identity_create demo_env (Some (lit "alice")) (Some 96) (7 : @rng random) demo_os
  = (demo_created.1.1, demo_created_os, demo_created.2).
Proof.
  unfold demo_created_os. fold demo_created. by destruct demo_created as [[r o] g].
Qed.

Lemma create_preserves_files_witness :
  os_fs demo_created_os !! path_of (lit "/home") = Some Dir
  ∧ is_Some (os_fs demo_created_os !! path_of (lit "/home/a/.chat/identity.key")).
Proof.
  pose proof (create_preserves_files demo_env _ _ _ _ _ _ _ demo_created_eq) as Hs.
  split; [|vm_compute; eauto].
  apply (lookup_weaken (os_fs demo_os)); [|exact Hs]. vm_compute. reflexivity.
Defined.

Definition demo_fingerprint : cptr :=
  match demo_created.1.1 with inr (_, f) => f | inl _ => None end.

Lemma create_then_load_witness :
  (chat_identity_load demo_env (with_faults demo_created_os [])).1 = inr demo_alice.
Proof.
  assert (Er : demo_created.1.1 = inr (demo_alice, demo_fingerprint))
    by (vm_compute; reflexivity).
  pose proof demo_created_eq as E. rewrite Er in E.
  destruct (create_then_load demo_env _ _ _ _ _ _ _ _ E) as (d & o'' & _ & _ & Hl).
  rewrite Hl. reflexivity.
Defined.

(** The URL is changed twice: once to the end, once with the rename failing. *)
Definition demo_url : bytes := lit "ws://localhost:8787".
Definition demo_set (faults : list fault) : identity_res unit * os :=
  chat_identity_set_server_url demo_env (Some demo_url) (with_faults demo_created_os faults).
Definition rename_fails : list fault := replicate 11 FNone ++ [FError].

Lemma demo_set_eq faults r :
  (demo_set faults).1 = r →
  chat_identity_set_server_url demo_env (Some demo_url) (with_faults demo_created_os faults)
  = (r, (demo_set faults).2).
Proof. intros <-. fold (demo_set faults). by destruct (demo_set faults). Qed.

Lemma demo_dir : chat_identity_config_dir demo_env PATH_MAX = inr (lit "/home/a/.chat").
Proof. vm_compute. reflexivity. Qed.

Lemma set_server_url_atomic_witness :
  (demo_set rename_fails).1 = inl CHAT_IDENTITY_ERR_IO
  ∧ os_fs (demo_set rename_fails).2 !! path_of (lit "/home/a/.chat/config.toml")
    = os_fs demo_created_os !! path_of (lit "/home/a/.chat/config.toml").
Proof.
  assert (Er : (demo_set rename_fails).1 = inl CHAT_IDENTITY_ERR_IO)
    by (vm_compute; reflexivity).
  split; [exact Er|].
  pose proof (set_server_url_atomic demo_env demo_url _ _ _ _ demo_dir (demo_set_eq _ _ Er)) as Ha.
  exact (Ha (path_of (lit "/home/a/.chat/config.toml")) ltac:(vm_compute; discriminate)).
Defined.

Lemma set_then_load_server_url_witness :
  (chat_identity_load_server_url demo_env 256 (with_faults (demo_set []).2 [])).1 = inr demo_url.
Proof.
  assert (Er : (demo_set []).1 = inr tt) by (vm_compute; reflexivity).
  apply (set_then_load_server_url demo_env demo_url _ _ _ _
           (config_text (lit "alice") CHAT_DEFAULT_SERVER_URL) 384 256 demo_dir (demo_set_eq _ _ Er)).
  - vm_compute. reflexivity.
  - apply (bool_decide_eq_true_1 _). vm_compute. reflexivity.
  - apply (bool_decide_eq_true_1 _). vm_compute. reflexivity.
  - vm_compute. reflexivity.
Defined.
