(* ===== verification/Contacts.v ===== *)
(** * Pinned contacts (src/common/contacts.c, contacts.h)

    The file [contacts.db] that binds a user name to the first identity key
    seen for it, over the file system of [FileSys].  Theorems: on a file the
    program wrote, the operations are those of a finite map that never
    changes an entry; and whatever the system does to the calls, once a name
    was accepted with a key no other key is ever accepted for it. *)

From S2P Require Import Prelude CLib Protocol Sodium Identity FileSys IdentityStore.

Definition CHAT_CONTACTS_HEX_PUBLIC_KEY_LEN : Z := crypto_sign_PUBLICKEYBYTES * 2 + 1.
Definition CHAT_CONTACTS_LINE_MAX : Z :=
  CHAT_USERNAME_MAX_LEN + 1 + CHAT_CONTACTS_HEX_PUBLIC_KEY_LEN + 2.

Inductive chat_contacts_result_t :=
  | CHAT_CONTACTS_OK
  | CHAT_CONTACTS_ERR_INVALID
  | CHAT_CONTACTS_ERR_IO
  | CHAT_CONTACTS_ERR_BUFFER
  | CHAT_CONTACTS_ERR_BAD_FILE
  | CHAT_CONTACTS_ERR_MISMATCH
  | CHAT_CONTACTS_ERR_NOT_FOUND.
#[export] Instance chat_contacts_result_eq_dec : EqDecision chat_contacts_result_t.
Proof. solve_decision. Defined.

Definition chat_contacts_result_name (result : chat_contacts_result_t) : string :=
  match result with
  | CHAT_CONTACTS_OK => "ok"
  | CHAT_CONTACTS_ERR_INVALID => "invalid contact"
  | CHAT_CONTACTS_ERR_IO => "contact storage I/O error"
  | CHAT_CONTACTS_ERR_BUFFER => "contact buffer too small"
  | CHAT_CONTACTS_ERR_BAD_FILE => "invalid contacts file"
  | CHAT_CONTACTS_ERR_MISMATCH => "identity mismatch"
  | CHAT_CONTACTS_ERR_NOT_FOUND => "contact not found"
  end.

(** ** Lines *)

(** The conversion [%ns] of sscanf: white space skipped, then at least one and
    at most [n] other characters; the word and the rest. *)
Definition scan_word (n : nat) (s : bytes) : option (bytes * bytes) :=
  let s := skip_space s in
  match scan_set (λ c, negb (isspace c)) n s with
  | [] => None
  | w => Some (w, drop (length w) s)
  end.

(** [sscanf(line, "%32s %64s %c", ...) == 2]: two words and nothing after. *)
Definition scan_contact (line : bytes) : option (bytes * bytes) :=
  match scan_word 32 line with
  | None => None
  | Some (username, rest) =>
      match scan_word 64 rest with
      | None => None
      | Some (hex, rest) =>
          match skip_space rest with
          | [] => Some (username, hex)
          | _ => None
          end
      end
  end.

Section contacts.
Context `{SodiumCodec}.

(** [username_size] is the size of the caller's buffer. *)
Definition parse_contact_line (line : bytes) (username_size : Z)
    : chat_contacts_result_t + (bytes * bytes) :=
  match scan_contact line with
  | None => inl CHAT_CONTACTS_ERR_BAD_FILE
  | Some (username, hex) =>
      if negb (chat_username_is_valid (Some username)) then inl CHAT_CONTACTS_ERR_BAD_FILE
      else if (strlen username + 1 >? username_size)
              || negb (strlen hex =? CHAT_CONTACTS_HEX_PUBLIC_KEY_LEN - 1)
      then inl CHAT_CONTACTS_ERR_BAD_FILE
      else match sodium_hex2bin crypto_sign_PUBLICKEYBYTES hex with
           | None => inl CHAT_CONTACTS_ERR_BAD_FILE
           | Some identity_pk =>
               if negb (len identity_pk =? crypto_sign_PUBLICKEYBYTES)
               then inl CHAT_CONTACTS_ERR_BAD_FILE
               else inr (username, identity_pk)
           end
  end.

(** The loop over the lines: the result and, when found, the key.  [n] bounds
    the number of lines; the bytes of the file plus one suffice. *)
Fixpoint find_loop (n : nat) (username : bytes) (st : istream)
    : chat_contacts_result_t * option bytes :=
  match n with
  | O => (CHAT_CONTACTS_ERR_IO, None)
  | S n' =>
      match fgets CHAT_CONTACTS_LINE_MAX st with
      | None => (if ferror st then CHAT_CONTACTS_ERR_IO else CHAT_CONTACTS_OK, None)
      | Some (line, st') =>
          match parse_contact_line (c_string line) (CHAT_USERNAME_MAX_LEN + 1) with
          | inl result => (result, None)
          | inr (stored_username, stored_pk) =>
              if streq stored_username username then (CHAT_CONTACTS_OK, Some stored_pk)
              else find_loop n' username st'
          end
      end
  end.

Definition find_contact (p username : bytes) (o : os)
    : chat_contacts_result_t * option bytes * os :=
  match fopen_read p o with
  | (inl ENOENT, o) => (CHAT_CONTACTS_OK, None, o)
  | (inl _, o) => (CHAT_CONTACTS_ERR_IO, None, o)
  | (inr st, o) =>
      (find_loop (S (length (is_data st))) username st, (sys_simple o).2)
  end.

(** ** Appending *)

(** The loop of [write_all]: unlike identity.c it does not retry an
    interrupted write. *)
Fixpoint contacts_write_loop (faults : list fault) (data : bytes)
    : chat_contacts_result_t * bytes * list fault :=
  match data with
  | [] => (CHAT_CONTACTS_OK, [], faults)
  | _ =>
      match faults with
      | [] => (CHAT_CONTACTS_OK, data, [])
      | FNone :: faults => (CHAT_CONTACTS_OK, data, faults)
      | FEintr :: faults | FError :: faults | FShort 0 :: faults =>
          (CHAT_CONTACTS_ERR_IO, [], faults)
      | FShort n :: faults =>
          match contacts_write_loop faults (drop n data) with
          | (res, written, faults) => (res, take n data ++ written, faults)
          end
      end
  end.

Definition write_all (p buffer : bytes) (o : os) : chat_contacts_result_t * os :=
  match contacts_write_loop (os_faults o) buffer with
  | (res, written, faults) => (res, append_to p written (with_faults o faults))
  end.

Definition contact_line (username identity_pk : bytes) : bytes :=
  username ++ " "%char :: sodium_bin2hex identity_pk ++ [newline].

Definition append_contact (p username identity_pk : bytes) (o : os)
    : chat_contacts_result_t * os :=
  match snprintf CHAT_CONTACTS_LINE_MAX (contact_line username identity_pk) with
  | None => (CHAT_CONTACTS_ERR_BUFFER, o)
  | Some line =>
      match sys_open_append p 384 o with
      | (inl _, o) => (CHAT_CONTACTS_ERR_IO, o)
      | (inr _, o) =>
          let '(result, o) := write_all p line o in
          let '(closed, o) := sys_simple o in
          (if negb closed && bool_decide (result = CHAT_CONTACTS_OK)
           then CHAT_CONTACTS_ERR_IO else result, o)
      end
  end.

(** ** The public functions *)

Context (getenv : bytes → cptr).

Definition contacts_path (out_size : Z) : chat_contacts_result_t + bytes :=
  match chat_identity_config_dir getenv 512 with
  | inl _ => inl CHAT_CONTACTS_ERR_IO
  | inr config_dir =>
      match snprintf out_size (config_dir ++ lit "/" ++ lit "contacts.db") with
      | None => inl CHAT_CONTACTS_ERR_BUFFER
      | Some p => inr p
      end
  end.

(** The result, the value of [out_new_contact], and the system. *)
Definition chat_contacts_verify_or_pin (username identity_pk : cptr) (o : os)
    : chat_contacts_result_t * bool * os :=
  match username, identity_pk with
  | Some username, Some identity_pk =>
      if negb (chat_username_is_valid (Some username)) then (CHAT_CONTACTS_ERR_INVALID, false, o)
      else
        match contacts_path 1024 with
        | inl result => (result, false, o)
        | inr p =>
            match find_contact p username o with
            | (CHAT_CONTACTS_OK, Some stored_pk, o) =>
                (if sodium_memcmp stored_pk identity_pk =? 0 then CHAT_CONTACTS_OK
                 else CHAT_CONTACTS_ERR_MISMATCH, false, o)
            | (CHAT_CONTACTS_OK, None, o) =>
                let '(result, o) := append_contact p username identity_pk o in
                (result, bool_decide (result = CHAT_CONTACTS_OK), o)
            | (result, _, o) => (result, false, o)
            end
        end
  | _, _ => (CHAT_CONTACTS_ERR_INVALID, false, o)
  end.

Definition chat_contacts_load_public_key (username : cptr) (o : os)
    : (chat_contacts_result_t + bytes) * os :=
  match username with
  | None => (inl CHAT_CONTACTS_ERR_INVALID, o)
  | Some username =>
      if negb (chat_username_is_valid (Some username)) then (inl CHAT_CONTACTS_ERR_INVALID, o)
      else
        match contacts_path 1024 with
        | inl result => (inl result, o)
        | inr p =>
            match find_contact p username o with
            | (CHAT_CONTACTS_OK, Some key, o) => (inr key, o)
            | (CHAT_CONTACTS_OK, None, o) => (inl CHAT_CONTACTS_ERR_NOT_FOUND, o)
            | (result, _, o) => (inl result, o)
            end
        end
  end.
End contacts.

(** ** Scanning an extended line *)

Lemma skip_space_app s e :
  skip_space (s ++ e) = match skip_space s with [] => skip_space e | r => r ++ e end.
Proof.
  induction s as [|c s IH]; cbn; [done|]. destruct (isspace c); [exact IH|done].
Qed.

Lemma scan_set_app ok n s e :
  length (scan_set ok n s) = n ∨ (length (scan_set ok n s) < length s)%nat →
  scan_set ok n (s ++ e) = scan_set ok n s.
Proof.
  revert s; induction n as [|n IH]; intros [|c s] Hl; cbn in *; try done; try lia.
  revert Hl. destruct (ok c); [|done]. cbn. intros Hl. f_equal. apply IH. lia.
Qed.

Lemma scan_set_length ok n s : (length (scan_set ok n s) ≤ n)%nat.
Proof.
  revert s; induction n as [|n IH]; intros [|c s]; cbn; try lia.
  destruct (ok c); cbn; [|lia]. pose proof (IH s). lia.
Qed.

Lemma scan_set_prefix ok n s : (length (scan_set ok n s) ≤ length s)%nat.
Proof.
  revert n; induction s as [|x s IH]; intros [|n]; cbn; try lia. destruct (ok x); cbn; [|lia].
  pose proof (IH n). lia.
Qed.

Lemma scan_word_app n s w rest e :
  scan_word n s = Some (w, rest) → (length w = n ∨ rest ≠ []) →
  scan_word n (s ++ e) = Some (w, rest ++ e).
Proof.
  unfold scan_word. intros Hs Hw. rewrite skip_space_app.
  pose proof (scan_set_prefix (λ c, negb (isspace c)) n (skip_space s)) as Hle.
  destruct (scan_set _ n (skip_space s)) as [|c w'] eqn:Ew; [done|].
  apply (inj Some), pair_equal_spec in Hs as [Hs1 Hs2]. rewrite Hs1 in *.
  destruct (skip_space s) as [|d t]; [destruct n; cbn in Ew; congruence|].
  rewrite scan_set_app; rewrite Ew.
  - destruct w as [|x w]; [done|]. rewrite drop_app_le by done. by rewrite Hs2.
  - destruct Hw as [Hw|Hw]; [by left|right].
    destruct (decide (length w < length (d :: t))%nat) as [|Hn]; [done|].
    destruct Hw. rewrite <- Hs2. apply drop_ge. lia.
Qed.

(** A line with a complete key, followed by more text, is not a contact. *)
Lemma scan_contact_app line username hex e c e' :
  scan_contact line = Some (username, hex) → length hex = 64%nat →
  e = c :: e' → isspace c = false → scan_contact (line ++ e) = None.
Proof.
  unfold scan_contact. intros Hs Hh -> Hc.
  destruct (scan_word 32 line) as [[u rest]|] eqn:E1; [|done].
  destruct (scan_word 64 rest) as [[h rest']|] eqn:E2; [|done].
  destruct (skip_space rest') eqn:E3; [|done]. injection Hs as -> ->.
  rewrite (scan_word_app 32 line username rest) by
    (done || (right; intros ->; discriminate E2)).
  rewrite (scan_word_app 64 rest hex rest') by (done || by left).
  rewrite skip_space_app, E3. cbn. by rewrite Hc.
Qed.

(** ** Chunks of the file *)

Definition chunk (content : bytes) : bytes := line_of 99 content.
Definition complete (line : bytes) : Prop := last line = Some newline ∨ length line = 99%nat.

Lemma line_of_complete n d :
  last (line_of n d) = Some newline ∨ length (line_of n d) = n ∨ line_of n d = d.
Proof.
  revert d; induction n as [|n IH]; intros [|c d]; cbn; auto.
  case_bool_decide as Hc; [left; by rewrite Hc|].
  destruct (IH d) as [Hl|[Hl|Hl]]; [left|right; left; cbn; lia|right; right; congruence].
  rewrite last_cons, Hl. done.
Qed.

Lemma line_of_app n d rest :
  last (line_of n d) = Some newline ∨ length (line_of n d) = n →
  line_of n (d ++ rest) = line_of n d.
Proof.
  revert d; induction n as [|n IH]; intros [|c d] Hl; cbn in *; try done.
  - by destruct Hl.
  - revert Hl. case_bool_decide as Hc; [done|]. intros Hl. f_equal. apply IH.
    destruct Hl as [Hl|Hl]; [left|right; cbn in Hl; lia]. rewrite last_cons in Hl.
    destruct (last (line_of n d)); [done|]. by injection Hl.
Qed.

(** A line that is not complete grows. *)
Lemma line_of_extend n d rest :
  line_of n d = d → last d ≠ Some newline → (length d < n)%nat →
  line_of n (d ++ rest) = d ++ line_of (n - length d) rest.
Proof.
  revert n; induction d as [|c d IH]; intros n Hd Hl Hn; [by cbn; rewrite Nat.sub_0_r|].
  destruct n as [|n]; [cbn in Hn; lia|]. cbn in Hd |- *. revert Hd. case_bool_decide as Hc; intros Hd.
  { destruct Hl. injection Hd as <-. by rewrite Hc. }
  injection Hd as Hd. f_equal. apply IH; [done| |cbn in Hn; lia].
  rewrite last_cons in Hl. by destruct (last d).
Qed.

Section pins.
Context `{SodiumCodecOk}.

Abbreviation text_stream content := {| is_data := content; is_error := false |}.

Lemma fgets_chunk content :
  content ≠ [] →
  fgets CHAT_CONTACTS_LINE_MAX (text_stream content)
  = Some (chunk content, text_stream (drop (length (chunk content)) content)).
Proof. intros Hne. unfold fgets. by destruct content. Qed.

(** A line read before an error is the line of the whole file. *)
Lemma fgets_truncated d rest line st' :
  fgets CHAT_CONTACTS_LINE_MAX {| is_data := d; is_error := true |} = Some (line, st') →
  line = chunk (d ++ rest) ∧ (length line ≤ length d)%nat ∧ line ≠ []
  ∧ st' = {| is_data := drop (length line) d; is_error := true |}.
Proof.
  unfold fgets. cbn [is_data is_error]. destruct d as [|c d]; [done|].
  change (Z.to_nat (CHAT_CONTACTS_LINE_MAX - 1)) with 99%nat.
  set (l := line_of 99 (c :: d)). intros E. case_if_in E; [done|].
  apply (inj Some), pair_equal_spec in E as [<- <-].
  pose proof (line_of_prefix 99 (c :: d)) as Hp. fold l in Hp.
  assert (Hle : (length l ≤ length (c :: d))%nat).
  { apply (f_equal length) in Hp. rewrite length_app in Hp. lia. }
  split_and!; [|done|apply line_of_nonempty; [lia|done]|done].
  symmetry. apply line_of_app. destruct (line_of_complete 99 (c :: d)) as [Hl|[Hl|Hl]]; auto.
  fold l in Hl. cbn [andb] in E0.
  rewrite bool_decide_true in E0 by by rewrite Hl. cbn [andb] in E0.
  apply andb_false_iff in E0 as [E0|E0]; [left|right].
  - apply negb_false_iff in E0. by bdec.
  - apply Nat.ltb_ge in E0. pose proof (line_of_length 99 (c :: d)) as Hm. fold l in Hm |- *. lia.
Qed.

(** The search in a file's content. *)
Definition find_in (content username : bytes) : chat_contacts_result_t * option bytes :=
  find_loop (S (length content)) username (text_stream content).

Definition chunk_contact (content : bytes) : chat_contacts_result_t + (bytes * bytes) :=
  parse_contact_line (c_string (chunk content)) (CHAT_USERNAME_MAX_LEN + 1).

Lemma chunk_length content :
  content ≠ [] → (0 < length (chunk content) ≤ length content)%nat.
Proof.
  intros Hne. pose proof (line_of_nonempty 99 content ltac:(lia) Hne) as Hc.
  pose proof (line_of_prefix 99 content) as Hp. apply (f_equal length) in Hp.
  rewrite length_app in Hp. unfold chunk. destruct (line_of 99 content); [done|]. cbn in *. lia.
Qed.

(** The number of iterations allowed does not matter. *)
Lemma find_loop_fuel n content username :
  (length content < n)%nat → find_loop n username (text_stream content) = find_in content username.
Proof.
  unfold find_in. remember (S (length content)) as m eqn:Em.
  assert (Hm : (length content < m)%nat) by lia. clear Em. revert m content Hm.
  induction n as [|n IH]; intros m content Hm Hn; [lia|]. destruct m as [|m]; [lia|].
  destruct content as [|c content]; [done|]. cbn [find_loop]. rewrite fgets_chunk by done.
  pose proof (chunk_length (c :: content)) as Hl.
  case_match; [done|]. case_match. case_if; [done|].
  apply IH; rewrite length_drop; specialize (Hl ltac:(done)); lia.
Qed.

Lemma find_in_cons content username :
  content ≠ [] →
  find_in content username =
    match chunk_contact content with
    | inl result => (result, None)
    | inr (name, key) =>
        if streq name username then (CHAT_CONTACTS_OK, Some key)
        else find_in (drop (length (chunk content)) content) username
    end.
Proof.
  intros Hne. unfold find_in at 1. cbn [find_loop]. rewrite fgets_chunk by done.
  fold (chunk_contact content). destruct (chunk_contact content) as [r|[name key]]; [done|].
  case_if; [done|]. apply find_loop_fuel. rewrite length_drop.
  pose proof (chunk_length content Hne). lia.
Qed.

Lemma parse_inr line size name key :
  parse_contact_line line size = inr (name, key) →
  ∃ hex, scan_contact line = Some (name, hex) ∧ length hex = 64%nat
         ∧ len key = crypto_sign_PUBLICKEYBYTES.
Proof.
  unfold parse_contact_line. destruct (scan_contact line) as [[u hex]|]; [|done]. intros E.
  case_if_in E; [done|]. case_if_in E; [done|].
  destruct (sodium_hex2bin _ hex) as [k|]; [|done]. case_if_in E; [done|]. simplify_eq.
  exists hex. split_and!; [done| |done].
  unfold strlen, len, CHAT_CONTACTS_HEX_PUBLIC_KEY_LEN, crypto_sign_PUBLICKEYBYTES in *. lia.
Qed.

Lemma parse_inl line size r :
  parse_contact_line line size = inl r → r = CHAT_CONTACTS_ERR_BAD_FILE.
Proof. unfold parse_contact_line. intros E. by repeat case_match; simplify_eq. Qed.

Lemma find_in_key content username r key :
  find_in content username = (r, Some key) → r = CHAT_CONTACTS_OK ∧ len key = 32.
Proof.
  remember (length content) as n eqn:Hn. revert content Hn.
  induction n as [n IH] using lt_wf_ind. intros content Hn E.
  destruct content as [|c content]; [done|]. rewrite find_in_cons in E by done.
  pose proof (chunk_length (c :: content) ltac:(done)) as Hl.
  destruct (chunk_contact (c :: content)) as [r'|[name k]] eqn:Ep; [done|].
  case_if_in E.
  - simplify_eq. by apply parse_inr in Ep as (_ & _ & _ & ?).
  - eapply (IH (length (drop (length (chunk (c :: content))) (c :: content)))); [|done|done].
    rewrite length_drop. lia.
Qed.

(** A search that an error cut short, if it reports success, found what a
    search in the whole file finds. *)
Lemma find_truncated n username d rest x :
  find_loop n username {| is_data := d; is_error := true |} = (CHAT_CONTACTS_OK, x) →
  x ≠ None ∧ find_in (d ++ rest) username = (CHAT_CONTACTS_OK, x).
Proof.
  revert d; induction n as [|n IH]; intros d E; [done|]. cbn [find_loop] in E.
  destruct (fgets _ _) as [[line st']|] eqn:Ef; [|done].
  apply (fgets_truncated d rest) in Ef as (-> & Hle & Hne & ->).
  assert (Hdr : d ++ rest ≠ []) by (intros Hn; rewrite Hn in Hne; done).
  rewrite find_in_cons by done. fold (chunk_contact (d ++ rest)) in E.
  destruct (chunk_contact (d ++ rest)) as [r|[name k]] eqn:Ep.
  { apply parse_inl in Ep. by simplify_eq. }
  case_if; [by simplify_eq|]. apply IH in E as [Hx E]. split; [done|].
  by rewrite drop_app_le.
Qed.

Lemma line_of_first n c e : (0 < n)%nat → ∃ e', line_of n (c :: e) = c :: e'.
Proof. destruct n; [lia|]. intros _. cbn. case_bool_decide; eauto. Qed.

(** What an appended text, starting with a character that is not white
    space, does to the search. *)
Lemma find_append username content c e :
  is_cstr (content ++ c :: e) → isspace c = false →
  (find_in content username).1 = CHAT_CONTACTS_OK →
  (find_in (content ++ c :: e) username).1 = CHAT_CONTACTS_ERR_BAD_FILE
  ∨ (∃ key, find_in content username = (CHAT_CONTACTS_OK, Some key)
            ∧ find_in (content ++ c :: e) username = (CHAT_CONTACTS_OK, Some key))
  ∨ (find_in content username = (CHAT_CONTACTS_OK, None)
     ∧ find_in (content ++ c :: e) username = find_in (c :: e) username).
Proof.
  remember (length content) as n eqn:Hn. revert content Hn.
  induction n as [n IH] using lt_wf_ind. intros content Hn Hcs Hc Hok.
  destruct content as [|x content]; [by right; right|].
  set (text := x :: content) in *.
  assert (Hne : text ≠ []) by done. assert (Hne' : text ++ c :: e ≠ []) by done.
  pose proof (chunk_length text Hne) as Hl.
  rewrite (find_in_cons text) in Hok |- * by done.
  rewrite (find_in_cons (text ++ c :: e)) by done.
  assert (Hcompl : complete (chunk text) ∨ ¬ complete (chunk text) ∧ chunk text = text).
  { unfold complete, chunk. destruct (line_of_complete 99 text) as [?|[?|?]]; auto.
    destruct (decide (last (line_of 99 text) = Some newline)); auto.
    destruct (decide (length (line_of 99 text) = 99%nat)); auto. right. split; [|done]. tauto. }
  destruct Hcompl as [Hcompl|[Hnc Hall]].
  - assert (Ec : chunk (text ++ c :: e) = chunk text)
      by exact (line_of_app 99 text (c :: e) Hcompl).
    assert (Ecc : chunk_contact (text ++ c :: e) = chunk_contact text)
      by (unfold chunk_contact; by rewrite Ec).
    rewrite Ecc, Ec.
    rewrite drop_app_le by lia.
    destruct (chunk_contact text) as [r|[name k]] eqn:Ep.
    { apply parse_inl in Ep. by simplify_eq/=. }
    destruct (streq name username); [right; left; by exists k|].
    apply (IH (length (drop (length (chunk text)) text))); [rewrite length_drop; lia|done| |done|done].
    rewrite <- (line_of_prefix 99 text) in Hcs. fold (chunk text) in Hcs.
    rewrite <- app_assoc in Hcs. by apply is_cstr_app in Hcs as [_ Hcs].
  - left. unfold complete in Hnc. rewrite Hall in Hnc.
    assert (Hlt : (length text < 99)%nat).
    { pose proof (line_of_length 99 text). fold (chunk text) in *. rewrite Hall in *.
      destruct (decide (length text = 99%nat)); [tauto|lia]. }
    destruct (line_of_first (99 - length text) c e) as [e' He]; [lia|].
    assert (Ec : chunk (text ++ c :: e) = text ++ c :: e').
    { unfold chunk. rewrite line_of_extend by (done || tauto). by rewrite He. }
    assert (Hbad : chunk_contact (text ++ c :: e) = inl CHAT_CONTACTS_ERR_BAD_FILE).
    { unfold chunk_contact in Hok |- *. rewrite Ec. rewrite Hall in Hok.
      assert (Hcs1 : is_cstr text) by by apply is_cstr_app in Hcs as [? _].
      assert (Hcs2 : is_cstr (text ++ c :: e')).
      { rewrite <- Ec. unfold chunk. rewrite <- (line_of_prefix 99 (text ++ c :: e)) in Hcs.
        by apply is_cstr_app in Hcs as [? _]. }
      rewrite c_string_id in Hok |- * by done.
      destruct (parse_contact_line text _) as [r|[name k]] eqn:Ep.
      - apply parse_inl in Ep. by simplify_eq/=.
      - apply parse_inr in Ep as (hex & Hs & Hh & _). unfold parse_contact_line.
        by erewrite scan_contact_app. }
    by rewrite Hbad.
Qed.

(** A file in which one name is not found parses for every name. *)
Lemma find_in_all_good content u u' :
  find_in content u = (CHAT_CONTACTS_OK, None) → (find_in content u').1 = CHAT_CONTACTS_OK.
Proof.
  remember (length content) as n eqn:Hn. revert content Hn.
  induction n as [n IH] using lt_wf_ind. intros content Hn E.
  destruct content as [|c content]; [done|]. rewrite find_in_cons in E |- * by done.
  pose proof (chunk_length (c :: content) ltac:(done)) as Hl.
  destruct (chunk_contact (c :: content)) as [r'|[name k]] eqn:Ep.
  { apply parse_inl in Ep. by simplify_eq/=. }
  case_if_in E; [done|]. case_if; [done|].
  eapply IH; [|done|exact E]. rewrite length_drop. lia.
Qed.

(** ** The calls on the file *)

Lemma fopen_read_cases p o st o1 :
  fopen_read p o = (inr st, o1) →
  os_fs o1 = os_fs o
  ∧ ∃ content m, os_fs o !! path_of p = Some (File content m)
    ∧ ((is_error st = false ∧ is_data st = content)
       ∨ (is_error st = true ∧ ∃ rest, content = is_data st ++ rest)).
Proof.
  unfold fopen_read, sys_open_read. pose proof (call_ok_fs o) as Hc.
  destruct (call_ok o) as [[] o2]; cbn [snd negb] in *; [|done].
  destruct (os_fs o2 !! path_of p) as [[|data m]|] eqn:El; [done| |done].
  pose proof (next_fault_snd o2) as Hn.
  destruct (next_fault o2) as [[|n| |] o3]; cbn [fst snd] in *; intros [= <- <-];
    (split; [congruence|]); exists data, m; rewrite <- Hc; (split; [done|]).
  - by left.
  - cbn. destruct (n <? length data)%nat eqn:E; [right|left]; (split; [done|]).
    + exists (drop n data). by rewrite take_drop.
    + apply Nat.ltb_ge in E. by apply take_ge.
  - by left.
  - right. split; [done|]. by exists data.
Qed.

Lemma find_contact_fs p u o : os_fs (find_contact p u o).2 = os_fs o.
Proof.
  unfold find_contact. destruct (fopen_read_inv p o) as [Hf _].
  destruct (fopen_read p o) as [[[]|st] o1]; cbn [snd] in *; try done.
  rewrite <- Hf. apply simple_fs.
Qed.

(** The content the search sees. *)
Definition file_content (p : bytes) (o : os) : option bytes :=
  match os_fs o !! path_of p with Some (File content _) => Some content | _ => None end.

Lemma find_contact_ok p u o x o1 :
  find_contact p u o = (CHAT_CONTACTS_OK, x, o1) →
  match file_content p o with
  | Some content => find_in content u = (CHAT_CONTACTS_OK, x)
  | None => x = None
  end.
Proof.
  unfold find_contact, file_content. destruct (fopen_read p o) as [[e|st] o2] eqn:Ef.
  - destruct e; intros E; simplify_eq. unfold fopen_read, sys_open_read in Ef.
    pose proof (call_ok_fs o) as Hc. destruct (call_ok o) as [[] o3]; cbn [snd negb] in *; [|done].
    rewrite <- Hc. destruct (os_fs o3 !! path_of p) as [[|data m]|]; try done.
    by destruct (next_fault o3) as [[] ?].
  - apply fopen_read_cases in Ef as (_ & content & m & -> & Hst). intros [E _]%pair_equal_spec.
    destruct st as [d err]. cbn [is_error is_data] in Hst. cbn [is_data] in E.
    destruct Hst as [[-> ->]|[-> [rest ->]]]; [done|].
    by apply (find_truncated _ _ _ rest) in E as [_ ?].
Qed.

Lemma contacts_write_prefix faults data res w faults' :
  contacts_write_loop faults data = (res, w, faults') →
  ∃ rest, data = w ++ rest ∧ (res = CHAT_CONTACTS_OK → rest = []).
Proof.
  revert data res w faults'; induction faults as [|f faults IH]; intros data res w faults' E;
    cbn in E; destruct data as [|c data]; simplify_eq; try (by exists []; rewrite ?app_nil_r).
  destruct f as [|[|n]| |]; simplify_eq;
    [by exists []; rewrite ?app_nil_r|by exists (c :: data)| |by exists (c :: data)..].
  destruct (contacts_write_loop faults (drop (S n) (c :: data))) as [[res1 w1] fl] eqn:Ew.
  simplify_eq. apply IH in Ew as (rest & Hd & Hr). exists rest. split; [|done].
  rewrite <- app_assoc, <- Hd. by rewrite take_drop.
Qed.

Lemma open_append_inv p mode o x o1 :
  sys_open_append p mode o = (inr x, o1) →
  ∃ content m, os_fs o1 !! path_of p = Some (File content m)
    ∧ content = default [] (file_content p o)
    ∧ (os_fs o1 = os_fs o ∨ os_fs o1 = <[path_of p := File content m]> (os_fs o)).
Proof.
  unfold sys_open_append, file_content. pose proof (call_ok_fs o) as Hc.
  destruct (call_ok o) as [ok o2]. cbn [snd] in Hc. intros E. case_if_in E; [done|].
  rewrite <- Hc. destruct (os_fs o2 !! path_of p) as [[|content m]|] eqn:El; [done|..].
  - simplify_eq. exists content, m. rewrite El. auto.
  - case_if_in E; [done|]. simplify_eq. exists [], mode. cbn. rewrite lookup_insert_eq. auto.
Qed.

(** Only the contacts file changes, by a prefix of the new line. *)
Lemma append_contact_inv p u k o r o1 :
  append_contact p u k o = (r, o1) →
  (file_content p o1 = file_content p o ∧ r ≠ CHAT_CONTACTS_OK)
  ∨ ∃ w rest, file_content p o1 = Some (default [] (file_content p o) ++ w)
      ∧ contact_line u k = w ++ rest ∧ (r = CHAT_CONTACTS_OK → rest = []).
Proof.
  unfold append_contact. destruct (snprintf _ _) as [line|] eqn:Es.
  2: { intros [= <- <-]. by left. }
  apply snprintf_eq in Es as [-> _].
  destruct (sys_open_append p 384 o) as [[e|x] o2] eqn:Eo.
  { intros [= <- <-]. left. split; [|done]. unfold file_content.
    unfold sys_open_append in Eo. pose proof (call_ok_fs o) as Hc.
    destruct (call_ok o) as [ok o3]. cbn [snd] in Hc.
    case_if_in Eo; [simplify_eq; by rewrite Hc|].
    destruct (os_fs o3 !! path_of p) as [[|? ?]|] eqn:El; simplify_eq; [by rewrite Hc|].
    case_if_in Eo; simplify_eq. by rewrite Hc. }
  apply open_append_inv in Eo as (content & m & El & -> & Hfs). unfold write_all.
  destruct (contacts_write_loop (os_faults o2) _) as [[res w] faults] eqn:Ew.
  apply contacts_write_prefix in Ew as (rest & Hw & Hr).
  set (o3 := append_to p w (with_faults o2 faults)).
  assert (H3 : os_fs o3 !! path_of p = Some (File (default [] (file_content p o) ++ w) m)).
  { unfold o3. erewrite append_to_fs; [|exact El]. by rewrite lookup_insert_eq. }
  pose proof (simple_fs o3) as H4. destruct (sys_simple o3) as [closed o4]. cbn [snd] in H4.
  intros [= <- <-]. right. exists w, rest. split_and!; [|done|].
  - unfold file_content at 1. by rewrite H4, H3.
  - case_if; [done|]. done.
Qed.

(** ** Pins are permanent *)

Context (getenv : bytes → cptr).

(** The file, if there is one, holds no NUL byte. *)
Definition text_file (p : bytes) (o : os) : Prop :=
  match file_content p o with Some content => is_cstr content | None => True end.

(** The name is bound to the key, or no search for it can succeed. *)
Definition pinned (p u k : bytes) (o : os) : Prop :=
  ∃ content, file_content p o = Some content
    ∧ (find_in content u = (CHAT_CONTACTS_OK, Some k)
       ∨ (find_in content u).1 = CHAT_CONTACTS_ERR_BAD_FILE).

Lemma contact_line_facts u k :
  chat_username_is_valid (Some u) = true →
  is_cstr (contact_line u k)
  ∧ ∃ c e, contact_line u k = c :: e ∧ isspace c = false.
Proof.
  intros Hu. split.
  - unfold contact_line. apply is_cstr_app. split; [by apply username_valid_cstr|].
    apply Forall_cons. split; [done|]. apply is_cstr_app. split; [apply bin2hex_cstr|].
    by repeat constructor.
  - destruct (proj1 (chat_username_is_valid_spec _) Hu) as (Hl & Hc).
    destruct u as [|c u]; [rewrite len_nil in Hl; lia|]. eexists c, _. split; [done|].
    apply Forall_cons in Hc as [Hc _]. apply username_char_ok_value in Hc.
    unfold isspace. apply orb_false_iff. rewrite andb_false_iff, Z.eqb_neq, !Z.leb_gt. lia.
Qed.

Definition nonspace (s : bytes) : Prop := Forall (λ c, negb (isspace c) = true) s.

Lemma nonspace_hex b : nonspace (sodium_bin2hex b).
Proof.
  eapply Forall_impl; [apply bin2hex_digits|]. intros c Hd%hex_digit_value. unfold isspace.
  apply negb_true_iff, orb_false_iff. rewrite andb_false_iff, Z.eqb_neq, !Z.leb_gt. lia.
Qed.
Lemma nonspace_name u : chat_username_is_valid (Some u) = true → nonspace u.
Proof.
  intros [_ Hc]%chat_username_is_valid_spec.
  eapply Forall_impl; [exact Hc|]. intros c Hd%username_char_ok_value. unfold isspace.
  apply negb_true_iff, orb_false_iff. rewrite andb_false_iff, Z.eqb_neq, !Z.leb_gt. lia.
Qed.
Lemma nonspace_no_newline s : nonspace s → newline ∉ s.
Proof. intros Hs Hin. unfold nonspace in Hs. rewrite Forall_forall in Hs. by apply Hs in Hin. Qed.

Lemma scan_word_word n w r :
  nonspace w → w ≠ [] → (length w ≤ n)%nat →
  match r with c :: _ => isspace c = true | [] => True end →
  scan_word n (w ++ r) = Some (w, r).
Proof.
  intros Hw Hn Hl Hr. unfold scan_word.
  assert (Hs : skip_space (w ++ r) = w ++ r).
  { destruct w as [|c w]; [done|]. apply Forall_cons in Hw as [Hw _]. cbn.
    apply negb_true_iff in Hw. by rewrite Hw. }
  rewrite Hs, scan_set_all; [|done|done|by destruct r; rewrite ?Hr].
  destruct w as [|c w]; [done|]. f_equal. f_equal. by rewrite drop_app_length.
Qed.

Lemma bin2hex_length k : len k = 32 → length (sodium_bin2hex k) = 64%nat.
Proof. intros Hk. pose proof (bin2hex_len k) as Hb. unfold len in *. lia. Qed.

Lemma parse_contact u k :
  chat_username_is_valid (Some u) = true → len k = 32 →
  parse_contact_line (contact_line u k) (CHAT_USERNAME_MAX_LEN + 1) = inr (u, k).
Proof.
  intros Hu Hk. pose proof (bin2hex_length k Hk) as Hh. pose proof (username_valid_len u Hu) as Hl.
  assert (Hscan : scan_contact (contact_line u k) = Some (u, sodium_bin2hex k)).
  { unfold scan_contact, contact_line.
    rewrite scan_word_word; [|by apply nonspace_name|by destruct u|unfold len in *; lia|done].
    change (scan_word 64 (" "%char :: ?x)) with (scan_word 64 x).
    rewrite scan_word_word;
      [done|apply nonspace_hex|by destruct (sodium_bin2hex k)|lia|done]. }
  unfold parse_contact_line. rewrite Hscan, Hu. cbn [negb].
  rewrite hex2bin_bin2hex by by rewrite Hk. rewrite Hk.
  unfold strlen. rewrite bin2hex_len, Hk.
  unfold CHAT_USERNAME_MAX_LEN, CHAT_CONTACTS_HEX_PUBLIC_KEY_LEN, crypto_sign_PUBLICKEYBYTES.
  rewrite Z.gtb_ltb, (proj2 (Z.ltb_ge _ _)) by lia. done.
Qed.

(** A file that starts with the line of a contact. *)
Lemma find_in_line u k rest v :
  chat_username_is_valid (Some u) = true → len k = 32 →
  find_in (contact_line u k ++ rest) v =
    if streq u v then (CHAT_CONTACTS_OK, Some k) else find_in rest v.
Proof.
  intros Hu Hk. pose proof (bin2hex_length k Hk) as Hh. pose proof (username_valid_len u Hu) as Hl.
  destruct (contact_line_facts u k Hu) as [Hcs (c & e & Hce & _)].
  assert (Hchunk : chunk (contact_line u k ++ rest) = contact_line u k).
  { unfold chunk, contact_line.
    replace ((u ++ " "%char :: sodium_bin2hex k ++ [newline]) ++ rest)
      with ((u ++ " "%char :: sodium_bin2hex k) ++ newline :: rest)
      by (rewrite <- !app_assoc; cbn; by rewrite <- app_assoc).
    rewrite line_of_line; [by rewrite <- app_assoc| |].
    - rewrite elem_of_app, elem_of_cons. intros [Hin|[Hin|Hin]]; [|done|].
      + by apply nonspace_no_newline in Hin; [|apply nonspace_name].
      + by apply nonspace_no_newline in Hin; [|apply nonspace_hex].
    - rewrite length_app. cbn. unfold len in *. lia. }
  rewrite find_in_cons by by rewrite Hce. unfold chunk_contact.
  rewrite Hchunk, c_string_id, parse_contact by done.
  case_if; [done|]. by rewrite drop_app_length.
Qed.

(** Extending a file in which [v] was not found by a prefix of a line. *)
Lemma append_prefix_cases content u k w rest v :
  is_cstr content → chat_username_is_valid (Some u) = true → contact_line u k = w ++ rest →
  find_in content u = (CHAT_CONTACTS_OK, None) →
  (find_in (content ++ w) v).1 = CHAT_CONTACTS_ERR_BAD_FILE
  ∨ (find_in (content ++ w) v = find_in content v
     ∧ (w = [] ∨ ∃ key, find_in content v = (CHAT_CONTACTS_OK, Some key)))
  ∨ (find_in content v = (CHAT_CONTACTS_OK, None) ∧ find_in (content ++ w) v = find_in w v).
Proof.
  intros Hc Hu Hw Hn. destruct (contact_line_facts u k Hu) as [Hcs (c & e & Hce & Hsp)].
  destruct w as [|c' w]; [right; left; rewrite app_nil_r; by auto|].
  rewrite Hw in Hcs, Hce. injection Hce as -> _. apply is_cstr_app in Hcs as [Hcs _].
  destruct (find_append v content c w) as [Hb|[(key & E1 & E2)|[E1 E2]]]; auto.
  - by apply is_cstr_app.
  - by eapply find_in_all_good.
  - right. left. split; [congruence|]. eauto.
Qed.

Lemma append_keeps_text p u k o r o1 :
  text_file p o → chat_username_is_valid (Some u) = true →
  append_contact p u k o = (r, o1) → text_file p o1.
Proof.
  intros Ht Hu E. destruct (contact_line_facts u k Hu) as [Hcs _]. unfold text_file in *.
  apply append_contact_inv in E as [[-> _]|(w & rest & -> & Hw & _)]; [done|].
  rewrite Hw in Hcs. apply is_cstr_app in Hcs as [Hcs _]. apply is_cstr_app. split; [|done].
  by destruct (file_content p o); [|constructor].
Qed.

(** The three outcomes of [chat_contacts_verify_or_pin]. *)
Lemma verify_inv p u k o r new o1 :
  contacts_path getenv 1024 = inr p →
  chat_contacts_verify_or_pin getenv (Some u) (Some k) o = (r, new, o1) →
  (file_content p o1 = file_content p o
   ∧ (r = CHAT_CONTACTS_OK → ∃ content k', file_content p o = Some content
        ∧ find_in content u = (CHAT_CONTACTS_OK, Some k') ∧ sodium_memcmp k' k = 0))
  ∨ (chat_username_is_valid (Some u) = true
     ∧ find_in (default [] (file_content p o)) u = (CHAT_CONTACTS_OK, None)
     ∧ ∃ o0, file_content p o0 = file_content p o ∧ append_contact p u k o0 = (r, o1)).
Proof.
  intros Hp. unfold chat_contacts_verify_or_pin. rewrite Hp.
  destruct (chat_username_is_valid (Some u)) eqn:Hu; cbn [negb].
  2: { intros [= <- <- <-]. by left. }
  pose proof (find_contact_fs p u o) as Hfs.
  destruct (find_contact p u o) as [[res x] o0] eqn:Ef. cbn [snd] in Hfs.
  assert (Hfc : file_content p o0 = file_content p o) by (unfold file_content; by rewrite Hfs).
  destruct (decide (res = CHAT_CONTACTS_OK)) as [->|Hres].
  2: { destruct res; try done; intros [= <- <- <-]; by left. }
  apply find_contact_ok in Ef. destruct x as [k'|].
  - intros [= <- <- <-]. left. split; [done|]. intros Hr.
    destruct (file_content p o) as [content|]; [|done]. exists content, k'.
    split_and!; [done..|]. case_if_in Hr; [done|done].
  - destruct (append_contact p u k o0) as [r' o2] eqn:Ea. intros [= -> _ ->]. right.
    split; [done|]. split; [|by exists o0]. by destruct (file_content p o) as [content|].
Qed.

Lemma file_content_text p o o0 :
  file_content p o0 = file_content p o → text_file p o → text_file p o0.
Proof. unfold text_file. by intros ->. Qed.

(** Success binds the name. *)
Lemma verify_pins p u k o new o1 :
  contacts_path getenv 1024 = inr p → text_file p o → len k = 32 →
  chat_contacts_verify_or_pin getenv (Some u) (Some k) o = (CHAT_CONTACTS_OK, new, o1) →
  pinned p u k o1.
Proof.
  intros Hp Ht Hk E. destruct (verify_inv _ _ _ _ _ _ _ Hp E)
    as [[Hfc Hok]|(Hu & Hn & o0 & Hfc & Ea)].
  - destruct (Hok eq_refl) as (content & k' & Hc & Hf & Hm).
    destruct (find_in_key _ _ _ _ Hf) as [_ Hk'].
    apply memcmp_spec in Hm as ->; [|by rewrite Hk, Hk'].
    exists content. split; [congruence|]. by left.
  - apply append_contact_inv in Ea as [[_ ?]|(w & rest & Hc & Hw & Hr)]; [done|].
    rewrite (Hr eq_refl), app_nil_r in Hw. subst w. rewrite Hfc in Hc.
    eexists. split; [exact Hc|].
    assert (Hcs : is_cstr (default [] (file_content p o))).
    { unfold text_file in Ht. by destruct (file_content p o); [|constructor]. }
    destruct (append_prefix_cases _ u k (contact_line u k) [] u Hcs Hu
      ltac:(by rewrite app_nil_r) Hn) as [Hb|[[_ Hb]|[_ Hb]]]; [by right|exfalso|left].
    + destruct Hb as [Hb|[key Hb]]; [|congruence].
      destruct (contact_line_facts u k Hu) as [_ (c & e & Hce & _)]. congruence.
    + rewrite Hb, <- (app_nil_r (contact_line u k)), find_in_line by done.
      by rewrite streq_refl.
Qed.

(** Every later call keeps the binding. *)
Lemma verify_keeps_pin p u k v k' o r new o1 :
  contacts_path getenv 1024 = inr p → text_file p o → pinned p u k o →
  chat_contacts_verify_or_pin getenv (Some v) (Some k') o = (r, new, o1) →
  text_file p o1 ∧ pinned p u k o1.
Proof.
  intros Hp Ht (content & Hc & Hf) E. destruct (verify_inv _ _ _ _ _ _ _ Hp E)
    as [[Hfc _]|(Hv & Hn & o0 & Hfc & Ea)].
  - split; [by eapply file_content_text|]. exists content. by rewrite Hfc.
  - split; [eapply append_keeps_text; [by eapply file_content_text|done..]|].
    apply append_contact_inv in Ea as [[Hc1 _]|(w & rest & Hc1 & Hw & _)];
      rewrite Hfc, Hc in Hc1; [by exists content|]. cbn [default from_option id] in Hc1.
    rewrite Hc in Hn. cbn [default from_option id] in Hn.
    eexists. split; [exact Hc1|].
    assert (Hcs : is_cstr content) by (unfold text_file in Ht; by rewrite Hc in Ht).
    destruct Hf as [Hf|Hf]; [|by rewrite (find_in_all_good _ _ _ Hn) in Hf].
    destruct (append_prefix_cases _ v k' w rest u Hcs Hv Hw Hn) as [Hb|[[Hb _]|[Hb _]]];
      [by right|left|]; congruence.
Qed.

(** A bound name is accepted with its key only. *)
Lemma pinned_unique p u k k' o new o1 :
  contacts_path getenv 1024 = inr p → pinned p u k o → len k = 32 → len k' = 32 →
  chat_contacts_verify_or_pin getenv (Some u) (Some k') o = (CHAT_CONTACTS_OK, new, o1) →
  k' = k.
Proof.
  intros Hp (content & Hc & Hf) Hk Hk' E. destruct (verify_inv _ _ _ _ _ _ _ Hp E)
    as [[_ Hok]|(_ & Hn & _)].
  - destruct (Hok eq_refl) as (content' & k0 & Hc' & Hf' & Hm).
    destruct (find_in_key _ _ _ _ Hf') as [_ Hk0].
    apply memcmp_spec in Hm as ->; [|by rewrite Hk', Hk0].
    rewrite Hc in Hc'. injection Hc' as <-. rewrite Hf' in Hf.
    destruct Hf as [Hf|Hf]; [by injection Hf|done].
  - rewrite Hc in Hn. cbn [default from_option id] in Hn. rewrite Hn in Hf. by destruct Hf.
Qed.

(** Calls of the daemon, each under its own schedule of faults. *)
Inductive contact_op :=
  | OpVerify (faults : list fault) (username identity_pk : bytes)
  | OpLoad (faults : list fault) (username : bytes).
Definition contact_exec (op : contact_op) (o : os) : os :=
  match op with
  | OpVerify faults u k =>
      (chat_contacts_verify_or_pin getenv (Some u) (Some k) (with_faults o faults)).2
  | OpLoad faults u => (chat_contacts_load_public_key getenv (Some u) (with_faults o faults)).2
  end.

Lemma load_fs u o : os_fs (chat_contacts_load_public_key getenv (Some u) o).2 = os_fs o.
Proof.
  unfold chat_contacts_load_public_key. case_if; [done|].
  destruct (contacts_path getenv 1024) as [|p]; [done|].
  pose proof (find_contact_fs p u o). destruct (find_contact p u o) as [[[] []] o1]; done.
Qed.

Lemma exec_keeps_pin p u k op o :
  contacts_path getenv 1024 = inr p → text_file p o ∧ pinned p u k o →
  text_file p (contact_exec op o) ∧ pinned p u k (contact_exec op o).
Proof.
  intros Hp [Ht Hpin]. destruct op as [faults v k'|faults v]; cbn [contact_exec].
  - destruct (chat_contacts_verify_or_pin getenv (Some v) (Some k') (with_faults o faults))
      as [[r new] o1] eqn:E. cbn [snd]. by eapply verify_keeps_pin; [done| | |exact E].
  - assert (Hfc : file_content p (chat_contacts_load_public_key getenv (Some v)
                    (with_faults o faults)).2 = file_content p o).
    { unfold file_content. by rewrite load_fs. }
    split; [by eapply file_content_text|]. destruct Hpin as (c & Hc & Hf).
    exists c. by rewrite Hfc.
Qed.

(** C5: once [chat_contacts_verify_or_pin] has accepted a name with a key,
    then after any further calls for any names, whatever short writes,
    interruptions and errors occur, it never accepts that name with another
    key. *)
Theorem tofu_pin_is_permanent p u k o new o1 ops faults k' new' o2 :
  contacts_path getenv 1024 = inr p → text_file p o → len k = 32 → len k' = 32 →
  chat_contacts_verify_or_pin getenv (Some u) (Some k) o = (CHAT_CONTACTS_OK, new, o1) →
  chat_contacts_verify_or_pin getenv (Some u) (Some k')
    (with_faults (fold_left (λ o op, contact_exec op o) ops o1) faults)
    = (CHAT_CONTACTS_OK, new', o2) →
  k' = k.
Proof.
  intros Hp Ht Hk Hk' E1 E2.
  assert (Hinv : text_file p o1 ∧ pinned p u k o1).
  { split; [|by eapply verify_pins]. destruct (verify_inv _ _ _ _ _ _ _ Hp E1)
      as [[Hfc _]|(Hv & _ & o0 & Hfc & Ea)]; [by eapply file_content_text|].
    eapply append_keeps_text; [by eapply file_content_text|done..]. }
  clear E1. revert o1 Hinv E2. induction ops as [|op ops IH]; intros o1 Hinv E2.
  - eapply (pinned_unique p u k k'); [done| |done|done|exact E2]. apply Hinv.
  - cbn [fold_left] in E2. eapply IH; [|exact E2]. by apply exec_keeps_pin.
Qed.

(** ** The file as a map *)

Definition contacts_text (entries : list (bytes * bytes)) : bytes :=
  mjoin ((λ e, contact_line e.1 e.2) <$> entries).
Definition entry_ok (e : bytes * bytes) : Prop :=
  chat_username_is_valid (Some e.1) = true ∧ len e.2 = 32.
Fixpoint contact_lookup (u : bytes) (entries : list (bytes * bytes)) : option bytes :=
  match entries with
  | [] => None
  | (name, key) :: entries' => if streq name u then Some key else contact_lookup u entries'
  end.

Lemma find_in_entries entries u :
  Forall entry_ok entries →
  find_in (contacts_text entries) u = (CHAT_CONTACTS_OK, contact_lookup u entries).
Proof.
  induction 1 as [|[name key] entries [Hu Hk] _ IH]; [done|].
  unfold contacts_text. cbn [fmap list_fmap fst snd]. rewrite join_cons, find_in_line by done.
  fold (contacts_text entries). rewrite IH. cbn [contact_lookup]. by destruct (streq name u).
Qed.

Lemma contact_lookup_len entries u k :
  Forall entry_ok entries → contact_lookup u entries = Some k → len k = 32.
Proof.
  induction 1 as [|[name key] entries [Hu Hk] _ IH]; cbn; [done|].
  case_if; [by intros [= <-]|done].
Qed.

(** The system is undisturbed and the file holds the entries; with no entries
    it may be missing from its directory. *)
Record contacts_file (p : bytes) (entries : list (bytes * bytes)) (o : os) : Prop := {
  cf_quiet : os_faults o = [];
  cf_path : (path_of p).2 ≠ [];
  cf_entries : Forall entry_ok entries;
  cf_content : (∃ m, os_fs o !! path_of p = Some (File (contacts_text entries) m))
    ∨ (entries = [] ∧ os_fs o !! path_of p = None
       ∧ is_dir (os_fs o) (parent (path_of p)) = true);
}.

Lemma find_contact_map p entries o u :
  contacts_file p entries o →
  find_contact p u o = (CHAT_CONTACTS_OK, contact_lookup u entries, o).
Proof.
  intros [Hq Hp He Hc]. unfold find_contact. destruct Hc as [[m Hc]|(-> & Hc & _)].
  - erewrite fopen_read_faultless by done. unfold sys_simple. rewrite call_ok_faultless by done.
    cbn [snd is_data]. change (find_loop _ u _) with (find_in (contacts_text entries) u).
    by rewrite find_in_entries.
  - unfold fopen_read, sys_open_read. rewrite call_ok_faultless by done. cbn. by rewrite Hc.
Qed.

Lemma append_contact_map p entries o u k :
  contacts_file p entries o → chat_username_is_valid (Some u) = true → len k = 32 →
  ∃ o1, append_contact p u k o = (CHAT_CONTACTS_OK, o1)
        ∧ contacts_file p (entries ++ [(u, k)]) o1.
Proof.
  intros [Hq Hp He Hc] Hu Hk. unfold append_contact.
  assert (Hlen : len (contact_line u k) < CHAT_CONTACTS_LINE_MAX).
  { pose proof (username_valid_len u Hu). unfold contact_line. rewrite len_app, len_cons, len_app.
    rewrite bin2hex_len, Hk. change (len [newline]) with 1.
    change CHAT_CONTACTS_LINE_MAX with 100. lia. }
  change CHAT_CONTACTS_LINE_MAX with 100 in *.
  rewrite snprintf_ok by (done || (unfold INT_MAX; lia)).
  assert (Hopen : ∃ o2 m, sys_open_append p 384 o = (inr tt, o2) ∧ os_faults o2 = []
            ∧ os_fs o2 !! path_of p = Some (File (contacts_text entries) m)).
  { unfold sys_open_append. rewrite call_ok_faultless by done. cbn [negb orb].
    rewrite bool_decide_false by done. destruct Hc as [[m Hc]|(-> & Hc & Hd)]; rewrite Hc.
    - by exists o, m.
    - rewrite Hd. cbn [negb]. eexists _, 384. split_and!; [done..|]. cbn.
      by rewrite lookup_insert_eq. }
  destruct Hopen as (o2 & m & -> & Hq2 & Hf2). unfold write_all. rewrite Hq2.
  destruct (contact_line_facts u k Hu) as [_ (c & e & Hce & _)].
  assert (Hw : contacts_write_loop [] (contact_line u k)
               = (CHAT_CONTACTS_OK, contact_line u k, [])) by by rewrite Hce.
  rewrite Hw. unfold sys_simple.
  set (o3 := append_to p (contact_line u k) (with_faults o2 [])).
  assert (H3 : os_fs o3 = <[path_of p := File (contacts_text entries ++ contact_line u k) m]>
                            (os_fs o2)) by by apply (append_to_fs _ _ (with_faults o2 [])).
  assert (Hq3 : os_faults o3 = []).
  { unfold o3, append_to. cbn [with_faults os_fs]. by rewrite Hf2. }
  rewrite call_ok_faultless by done. exists o3. split; [done|]. split; [done|done| |].
  - apply Forall_app. split; [done|]. by repeat constructor.
  - left. exists m. rewrite H3, lookup_insert_eq. do 2 f_equal. unfold contacts_text.
    rewrite fmap_app, join_app. cbn. by rewrite app_nil_r.
Qed.

(** C23: on an undisturbed system and a file the program wrote, contacts are
    a map that only grows: a known name is accepted with its key and refused
    with any other, nothing changing; an unknown name is added with the key
    given; looking up a name returns its key. *)
Theorem contacts_behave_as_map p entries o u k :
  contacts_path getenv 1024 = inr p → contacts_file p entries o →
  chat_username_is_valid (Some u) = true → len k = 32 →
  chat_contacts_load_public_key getenv (Some u) o
    = (match contact_lookup u entries with
       | Some key => inr key
       | None => inl CHAT_CONTACTS_ERR_NOT_FOUND
       end, o)
  ∧ match contact_lookup u entries with
    | Some key =>
        chat_contacts_verify_or_pin getenv (Some u) (Some k) o
        = (if decide (key = k) then CHAT_CONTACTS_OK else CHAT_CONTACTS_ERR_MISMATCH, false, o)
    | None =>
        ∃ o1, chat_contacts_verify_or_pin getenv (Some u) (Some k) o = (CHAT_CONTACTS_OK, true, o1)
              ∧ contacts_file p (entries ++ [(u, k)]) o1
    end.
Proof.
  intros Hp Hf Hu Hk. unfold chat_contacts_load_public_key, chat_contacts_verify_or_pin.
  rewrite Hu, Hp. cbn [negb]. rewrite (find_contact_map p entries o u Hf).
  destruct (contact_lookup u entries) as [key|] eqn:El; (split; [done|]).
  - pose proof (contact_lookup_len _ _ _ (cf_entries _ _ _ Hf) El) as Hl.
    pose proof (memcmp_spec key k ltac:(by rewrite Hk)) as Hm.
    destruct (sodium_memcmp key k =? 0) eqn:Em; bdec; case_decide; try done; exfalso; tauto.
  - destruct (append_contact_map p entries o u k Hf Hu Hk) as (o1 & -> & Hf1).
    exists o1. split; [|done]. by rewrite bool_decide_true.
Qed.
End pins.

(** ** Concrete instances *)

Import Reference.

Definition demo_contacts_os : os :=
  {| os_fs := <[path_of (lit "/home/a/.chat") := Dir]> (<[path_of (lit "/home/a") := Dir]>
                (<[path_of (lit "/home") := Dir]> ∅));
     os_faults := []; os_suffix := [] |}.
Definition demo_key (v : Z) : bytes := replicate 32 (byte_of v).
Definition demo_db : bytes := lit "/home/a/.chat/contacts.db".
Definition demo_pin (u : string) (v : Z) (o : os) : chat_contacts_result_t * bool * os :=
  chat_contacts_verify_or_pin demo_env (Some (lit u)) (Some (demo_key v)) o.

Lemma demo_pin_eq u v o r new :
  (demo_pin u v o).1 = (r, new) → demo_pin u v o = (r, new, (demo_pin u v o).2).
Proof. intros E. by rewrite <- E, <- surjective_pairing. Qed.
Lemma demo_db_path : contacts_path demo_env 1024 = inr demo_db.
Proof. vm_compute. reflexivity. Qed.

(** Bob is pinned; carol's line is cut short by a full disk; bob's key is
    still the only one accepted, any other is a mismatch. *)
Definition demo_after_bob : os := (demo_pin "bob" 2 demo_contacts_os).2.
Definition demo_ops : list contact_op :=
  [OpLoad [] (lit "bob");
   OpVerify [FNone; FNone; FNone; FNone; FShort 20; FError] (lit "carol") (demo_key 3)].
Definition demo_after_ops : os :=
  with_faults (fold_left (λ o op, contact_exec demo_env op o) demo_ops demo_after_bob) [].

Lemma tofu_pin_is_permanent_witness :
  (demo_pin "bob" 2 demo_after_ops).1 = (CHAT_CONTACTS_OK, false)
  ∧ (demo_pin "bob" 7 demo_after_ops).1 = (CHAT_CONTACTS_ERR_MISMATCH, false)
  ∧ (demo_pin "dave" 4 demo_after_ops).1 = (CHAT_CONTACTS_ERR_BAD_FILE, false)
  ∧ demo_key 2 = demo_key 2.
Proof.
  assert (E1 : (demo_pin "bob" 2 demo_contacts_os).1 = (CHAT_CONTACTS_OK, true))
    by (vm_compute; reflexivity).
  assert (E2 : (demo_pin "bob" 2 demo_after_ops).1 = (CHAT_CONTACTS_OK, false))
    by (vm_compute; reflexivity).
  split_and!; [exact E2|vm_compute; reflexivity|vm_compute; reflexivity|].
  eapply (tofu_pin_is_permanent demo_env demo_db (lit "bob") (demo_key 2) demo_contacts_os true
            demo_after_bob demo_ops [] (demo_key 2) false _ demo_db_path).
  - vm_compute. exact I.
  - reflexivity.
  - reflexivity.
  - exact (demo_pin_eq _ _ _ _ _ E1).
  - exact (demo_pin_eq _ _ _ _ _ E2).
Defined.

Lemma contacts_behave_as_map_witness :
  ∃ o1, demo_pin "bob" 2 demo_contacts_os = (CHAT_CONTACTS_OK, true, o1)
        ∧ contacts_file demo_db [(lit "bob", demo_key 2)] o1.
Proof.
  destruct (contacts_behave_as_map demo_env demo_db [] demo_contacts_os (lit "bob") (demo_key 2)
              demo_db_path) as [_ Hv].
  - split; [reflexivity|vm_compute; discriminate|constructor|].
    right. split_and!; vm_compute; reflexivity.
  - reflexivity.
  - reflexivity.
  - exact Hv.
Defined.
