(* ===== verification/Ipc.v ===== *)
(** * The local socket's path (src/common/ipc.c, ipc.h) *)

From S2P Require Import Prelude CLib Protocol Sodium Identity.

Definition CHAT_IPC_MAX_COMMAND : Z := 4096.
Definition CHAT_IPC_MAX_RESPONSE : Z := 4096.

Inductive chat_ipc_result_t := CHAT_IPC_OK | CHAT_IPC_ERR_BUFFER | CHAT_IPC_ERR_IO.

Definition chat_ipc_result_name (result : chat_ipc_result_t) : string :=
  match result with
  | CHAT_IPC_OK => "ok"
  | CHAT_IPC_ERR_BUFFER => "buffer too small"
  | CHAT_IPC_ERR_IO => "I/O error"
  end.

(** [out] is the caller's buffer of [out_size] bytes. *)
Definition chat_ipc_socket_path (getenv : bytes → cptr) (out_size : Z)
    : chat_ipc_result_t + bytes :=
  let copy (text : bytes) :=
    match snprintf out_size text with
    | None => inl CHAT_IPC_ERR_BUFFER
    | Some s => inr s
    end in
  if out_size =? 0 then inl CHAT_IPC_ERR_BUFFER
  else
    match getenv_nonempty getenv "CHAT_SOCKET_PATH" with
    | Some override => copy override
    | None =>
        match getenv_nonempty getenv "XDG_RUNTIME_DIR" with
        | Some runtime_dir => copy (runtime_dir ++ lit "/chatd.sock")
        | None =>
            match chat_identity_config_dir getenv 512 with
            | inl _ => inl CHAT_IPC_ERR_IO
            | inr config_dir => copy (config_dir ++ lit "/chatd.sock")
            end
        end
    end.

(** The path always fits the buffer with its NUL. *)
Lemma socket_path_fits getenv out_size p :
  chat_ipc_socket_path getenv out_size = inr p → len p < out_size.
Proof.
  unfold chat_ipc_socket_path. intros E. case_if_in E; [done|].
  assert (Hc : ∀ t, match snprintf out_size t with
                    | None => inl CHAT_IPC_ERR_BUFFER | Some s => inr s end = inr p →
                    len p < out_size).
  { intros t. destruct (snprintf out_size t) eqn:Es; [|done].
    apply snprintf_eq in Es as [-> Hl]. by intros [= <-]. }
  destruct (getenv_nonempty getenv "CHAT_SOCKET_PATH"); [by eapply Hc|].
  destruct (getenv_nonempty getenv "XDG_RUNTIME_DIR"); [by eapply Hc|].
  destruct (chat_identity_config_dir getenv 512); [done|by eapply Hc].
Qed.
