(* ===== verification/Crypto.v ===== *)
(** * Handshake and encrypted stream (src/common/crypto.c, crypto.h)

    Every function of crypto.c, on top of the libsodium interface of
    [Sodium].  A pointer argument is an [option] ([None] is NULL); an output
    buffer is passed in and returned, so that what a failing call leaves in
    it is visible. *)

From S2P Require Import Prelude CLib Protocol Sodium Identity.

Definition CHAT_CRYPTO_SESSION_ID_MAX : Z := 128.
Definition CHAT_CRYPTO_KX_MESSAGE_BYTES : Z := crypto_kx_PUBLICKEYBYTES + crypto_sign_BYTES.
Definition CHAT_CRYPTO_STREAM_HEADER_BYTES : Z := crypto_secretstream_HEADERBYTES.
Definition CHAT_CRYPTO_STREAM_ABYTES : Z := crypto_secretstream_ABYTES.
Definition CHAT_CRYPTO_TRANSCRIPT_DOMAIN : bytes := lit "ProntoChat crypto-kx v1".

Inductive chat_crypto_result_t :=
  | CHAT_CRYPTO_OK
  | CHAT_CRYPTO_ERR_NULL
  | CHAT_CRYPTO_ERR_INVALID
  | CHAT_CRYPTO_ERR_BUFFER
  | CHAT_CRYPTO_ERR_SODIUM
  | CHAT_CRYPTO_ERR_VERIFY
  | CHAT_CRYPTO_ERR_DECRYPT
  | CHAT_CRYPTO_ERR_TOO_LARGE.
#[export] Instance chat_crypto_result_eq_dec : EqDecision chat_crypto_result_t.
Proof. solve_decision. Defined.

(** The enumeration is an [int] that the code checks before use. *)
Definition chat_crypto_role_t : Type := Z.
Definition CHAT_CRYPTO_ROLE_INITIATOR : chat_crypto_role_t := 1.
Definition CHAT_CRYPTO_ROLE_RESPONDER : chat_crypto_role_t := 2.

Record chat_crypto_session_keys_t := { keys_rx : bytes; keys_tx : bytes }.

(** [session_id] is the 128-byte array. *)
Record chat_crypto_handshake_t := {
  hs_role : chat_crypto_role_t;
  hs_local_identity_pk : bytes;
  hs_remote_identity_pk : bytes;
  hs_local_kx_pk : bytes;
  hs_local_kx_sk : bytes;
  hs_session_id : bytes;
  hs_session_id_len : Z;
  hs_initialized : bool;
  hs_finished : bool;
}.

Definition zero_keys : chat_crypto_session_keys_t :=
  {| keys_rx := zeros crypto_kx_SESSIONKEYBYTES; keys_tx := zeros crypto_kx_SESSIONKEYBYTES |}.
Definition zero_handshake : chat_crypto_handshake_t :=
  {| hs_role := 0;
     hs_local_identity_pk := zeros crypto_sign_PUBLICKEYBYTES;
     hs_remote_identity_pk := zeros crypto_sign_PUBLICKEYBYTES;
     hs_local_kx_pk := zeros crypto_kx_PUBLICKEYBYTES;
     hs_local_kx_sk := zeros crypto_kx_SECRETKEYBYTES;
     hs_session_id := zeros CHAT_CRYPTO_SESSION_ID_MAX;
     hs_session_id_len := 0;
     hs_initialized := false;
     hs_finished := false |}.

Definition chat_crypto_result_name (result : chat_crypto_result_t) : string :=
  match result with
  | CHAT_CRYPTO_OK => "ok"
  | CHAT_CRYPTO_ERR_NULL => "null pointer"
  | CHAT_CRYPTO_ERR_INVALID => "invalid crypto input"
  | CHAT_CRYPTO_ERR_BUFFER => "buffer too small"
  | CHAT_CRYPTO_ERR_SODIUM => "libsodium failure"
  | CHAT_CRYPTO_ERR_VERIFY => "signature verification failed"
  | CHAT_CRYPTO_ERR_DECRYPT => "decryption failed"
  | CHAT_CRYPTO_ERR_TOO_LARGE => "message too large"
  end.

Definition chat_crypto_role_is_valid (role : chat_crypto_role_t) : bool :=
  (role =? CHAT_CRYPTO_ROLE_INITIATOR) || (role =? CHAT_CRYPTO_ROLE_RESPONDER).

Definition chat_crypto_opposite_role (role : chat_crypto_role_t) : chat_crypto_role_t :=
  if role =? CHAT_CRYPTO_ROLE_INITIATOR then CHAT_CRYPTO_ROLE_RESPONDER
  else CHAT_CRYPTO_ROLE_INITIATOR.

(** The loop writes byte [i] as bits [8 (7 - i) ..] of the value. *)
Definition chat_crypto_write_u64_be (value : Z) : bytes :=
  (λ i, byte_of (Z.land (Z.shiftr value ((7 - i) * 8)) 255)) <$> seqZ 0 8.

Definition chat_crypto_handshake_wipe (handshake : option chat_crypto_handshake_t)
    : option chat_crypto_handshake_t :=
  match handshake with
  | None => None
  | Some _ => Some zero_handshake
  end.

Definition chat_crypto_session_keys_wipe (keys : option chat_crypto_session_keys_t)
    : option chat_crypto_session_keys_t :=
  match keys with
  | None => None
  | Some _ => Some zero_keys
  end.

(** ** Transcript *)

Section handshake.
Context `{SodiumInit} `{SodiumHash} `{SodiumSign} `{!SodiumKx}.

(** [session_id] with [session_id_len] is a pointer to that many bytes. *)
Definition chat_crypto_transcript_hash (signer_role : chat_crypto_role_t)
    (signer_identity_pk peer_identity_pk session_id signer_kx_pk : cptr)
    : chat_crypto_result_t + bytes :=
  match signer_identity_pk, peer_identity_pk, session_id, signer_kx_pk with
  | Some signer_identity_pk, Some peer_identity_pk, Some session_id, Some signer_kx_pk =>
      if negb (chat_crypto_role_is_valid signer_role) || (len session_id =? 0)
         || (len session_id >? CHAT_CRYPTO_SESSION_ID_MAX)
      then inl CHAT_CRYPTO_ERR_INVALID
      else
        match crypto_generichash_init with
        | None => inl CHAT_CRYPTO_ERR_SODIUM
        | Some state =>
            let role_byte := byte_of signer_role in
            let session_len_be := chat_crypto_write_u64_be (len session_id) in
            match generichash_absorb state
                    [ CHAT_CRYPTO_TRANSCRIPT_DOMAIN; [role_byte]; signer_identity_pk;
                      peer_identity_pk; session_len_be; session_id; signer_kx_pk ]
            with
            | None => inl CHAT_CRYPTO_ERR_SODIUM
            | Some state =>
                match crypto_generichash_final state with
                | None => inl CHAT_CRYPTO_ERR_SODIUM
                | Some hash => inr hash
                end
            end
        end
  | _, _, _, _ => inl CHAT_CRYPTO_ERR_INVALID
  end.

(** ** Handshake *)

Definition chat_crypto_handshake_init (handshake : option chat_crypto_handshake_t)
    (identity : option chat_identity_t) (remote_identity_pk : cptr) (role : chat_crypto_role_t)
    (session_id out_message : cptr) (g : rng)
    : chat_crypto_result_t * option chat_crypto_handshake_t * cptr * rng :=
  match handshake, identity, remote_identity_pk, out_message with
  | Some _, Some identity, Some remote_pk, Some out =>
      match session_id with
      | None => (CHAT_CRYPTO_ERR_INVALID, handshake, out_message, g)
      | Some sid =>
          if negb (chat_crypto_role_is_valid role) || (len sid =? 0)
             || (len sid >? CHAT_CRYPTO_SESSION_ID_MAX)
          then (CHAT_CRYPTO_ERR_INVALID, handshake, out_message, g)
          else if sodium_init <? 0 then (CHAT_CRYPTO_ERR_SODIUM, handshake, out_message, g)
          else
            match crypto_kx_keypair g with
            | (None, g) =>
                (CHAT_CRYPTO_ERR_SODIUM, chat_crypto_handshake_wipe handshake, out_message, g)
            | (Some (kx_pk, kx_sk), g) =>
                match chat_crypto_transcript_hash role (Some (id_public_key identity))
                        (Some remote_pk) (Some sid) (Some kx_pk) with
                | inl result => (result, chat_crypto_handshake_wipe handshake, out_message, g)
                | inr transcript_hash =>
                    match crypto_sign_detached transcript_hash (id_secret_key identity) with
                    | None =>
                        (CHAT_CRYPTO_ERR_SODIUM, chat_crypto_handshake_wipe handshake,
                         out_message, g)
                    | Some signature =>
                        (CHAT_CRYPTO_OK,
                         Some {| hs_role := role;
                                 hs_local_identity_pk := id_public_key identity;
                                 hs_remote_identity_pk := remote_pk;
                                 hs_local_kx_pk := kx_pk;
                                 hs_local_kx_sk := kx_sk;
                                 hs_session_id := blit (zeros CHAT_CRYPTO_SESSION_ID_MAX) sid;
                                 hs_session_id_len := len sid;
                                 hs_initialized := true;
                                 hs_finished := false |},
                         Some (kx_pk ++ signature), g)
                    end
                end
            end
      end
  | _, _, _, _ => (CHAT_CRYPTO_ERR_NULL, handshake, out_message, g)
  end.

(** The handshake after the key exchange secret is wiped. *)
Definition handshake_spent (hs : chat_crypto_handshake_t) (finished : bool)
    : chat_crypto_handshake_t :=
  {| hs_role := hs_role hs;
     hs_local_identity_pk := hs_local_identity_pk hs;
     hs_remote_identity_pk := hs_remote_identity_pk hs;
     hs_local_kx_pk := hs_local_kx_pk hs;
     hs_local_kx_sk := zeros crypto_kx_SECRETKEYBYTES;
     hs_session_id := hs_session_id hs;
     hs_session_id_len := hs_session_id_len hs;
     hs_initialized := hs_initialized hs;
     hs_finished := finished |}.

Definition chat_crypto_handshake_finish (handshake : option chat_crypto_handshake_t)
    (remote_message : cptr) (out_keys : option chat_crypto_session_keys_t)
    : chat_crypto_result_t * option chat_crypto_handshake_t
      * option chat_crypto_session_keys_t :=
  match handshake, remote_message, out_keys with
  | Some hs, Some remote_message, Some _ =>
      if negb (hs_initialized hs) || hs_finished hs
      then (CHAT_CRYPTO_ERR_INVALID, handshake, out_keys)
      else
        let remote_kx_pk := ztake crypto_kx_PUBLICKEYBYTES remote_message in
        let remote_signature :=
          ztake crypto_sign_BYTES (zdrop crypto_kx_PUBLICKEYBYTES remote_message) in
        match chat_crypto_transcript_hash (chat_crypto_opposite_role (hs_role hs))
                (Some (hs_remote_identity_pk hs)) (Some (hs_local_identity_pk hs))
                (Some (ztake (hs_session_id_len hs) (hs_session_id hs))) (Some remote_kx_pk) with
        | inl result => (result, handshake, out_keys)
        | inr transcript_hash =>
            if negb (crypto_sign_verify_detached remote_signature transcript_hash
                       (hs_remote_identity_pk hs) =? 0)
            then (CHAT_CRYPTO_ERR_VERIFY, handshake, out_keys)
            else
              match (if hs_role hs =? CHAT_CRYPTO_ROLE_INITIATOR
                     then crypto_kx_client_session_keys (hs_local_kx_pk hs) (hs_local_kx_sk hs)
                            remote_kx_pk
                     else crypto_kx_server_session_keys (hs_local_kx_pk hs) (hs_local_kx_sk hs)
                            remote_kx_pk) with
              | None =>
                  (CHAT_CRYPTO_ERR_SODIUM, Some (handshake_spent hs (hs_finished hs)),
                   chat_crypto_session_keys_wipe out_keys)
              | Some (rx, tx) =>
                  (CHAT_CRYPTO_OK, Some (handshake_spent hs true),
                   Some {| keys_rx := rx; keys_tx := tx |})
              end
        end
  | _, _, _ => (CHAT_CRYPTO_ERR_NULL, handshake, out_keys)
  end.
End handshake.

(** ** Encrypted stream *)

Section stream.
Context `{SodiumRandom} `{!SodiumStream}.

Record chat_crypto_secretstream_t := {
  st_push : secretstream_state;
  st_pull : secretstream_state;
  st_push_initialized : bool;
  st_pull_initialized : bool;
}.
Definition zero_stream : chat_crypto_secretstream_t :=
  {| st_push := secretstream_zero; st_pull := secretstream_zero;
     st_push_initialized := false; st_pull_initialized := false |}.

Definition chat_crypto_secretstream_init (stream : option chat_crypto_secretstream_t)
    : option chat_crypto_secretstream_t :=
  match stream with
  | None => None
  | Some _ => Some zero_stream
  end.

Definition chat_crypto_secretstream_wipe (stream : option chat_crypto_secretstream_t)
    : option chat_crypto_secretstream_t :=
  match stream with
  | None => None
  | Some _ => Some zero_stream
  end.

Definition chat_crypto_secretstream_init_push (stream : option chat_crypto_secretstream_t)
    (tx_key out_header : cptr) (g : rng)
    : chat_crypto_result_t * option chat_crypto_secretstream_t * cptr * rng :=
  match stream, tx_key, out_header with
  | Some st, Some tx_key, Some _ =>
      match secretstream_init_push tx_key g with
      | (None, g) => (CHAT_CRYPTO_ERR_SODIUM, stream, out_header, g)
      | (Some (push, header), g) =>
          (CHAT_CRYPTO_OK,
           Some {| st_push := push; st_pull := st_pull st; st_push_initialized := true;
                   st_pull_initialized := st_pull_initialized st |},
           Some header, g)
      end
  | _, _, _ => (CHAT_CRYPTO_ERR_NULL, stream, out_header, g)
  end.

Definition chat_crypto_secretstream_init_pull (stream : option chat_crypto_secretstream_t)
    (rx_key header : cptr) : chat_crypto_result_t * option chat_crypto_secretstream_t :=
  match stream, rx_key, header with
  | Some st, Some rx_key, Some header =>
      match secretstream_init_pull header rx_key with
      | None => (CHAT_CRYPTO_ERR_SODIUM, stream)
      | Some pull =>
          (CHAT_CRYPTO_OK,
           Some {| st_push := st_push st; st_pull := pull;
                   st_push_initialized := st_push_initialized st;
                   st_pull_initialized := true |})
      end
  | _, _, _ => (CHAT_CRYPTO_ERR_NULL, stream)
  end.

(** [ciphertext] is the output array, its length [ciphertext_size]; the
    result also gives the value left in [out_ciphertext_len]. *)
Definition chat_crypto_secretstream_encrypt (stream : option chat_crypto_secretstream_t)
    (plaintext : cptr) (plaintext_len : Z) (final : bool) (ciphertext : cptr)
    (out_ciphertext_len : option Z)
    : chat_crypto_result_t * option chat_crypto_secretstream_t * cptr * option Z :=
  match stream, ciphertext, out_ciphertext_len with
  | Some st, Some out, Some _ =>
      if negb (st_push_initialized st)
         || bool_decide (plaintext = None) && negb (plaintext_len =? 0)
      then (CHAT_CRYPTO_ERR_INVALID, stream, ciphertext, out_ciphertext_len)
      else if plaintext_len >? CHAT_MAX_MESSAGE_SIZE
      then (CHAT_CRYPTO_ERR_TOO_LARGE, stream, ciphertext, out_ciphertext_len)
      else if len out <? plaintext_len + CHAT_CRYPTO_STREAM_ABYTES
      then (CHAT_CRYPTO_ERR_BUFFER, stream, ciphertext, out_ciphertext_len)
      else
        match secretstream_push (st_push st) (ztake plaintext_len (default [] plaintext))
                (if final then TAG_FINAL else TAG_MESSAGE) with
        | None => (CHAT_CRYPTO_ERR_SODIUM, stream, ciphertext, out_ciphertext_len)
        | Some (c, push) =>
            (CHAT_CRYPTO_OK,
             Some {| st_push := push; st_pull := st_pull st;
                     st_push_initialized := st_push_initialized st;
                     st_pull_initialized := st_pull_initialized st |},
             Some (blit out c), Some (len c))
        end
  | _, _, _ => (CHAT_CRYPTO_ERR_NULL, stream, ciphertext, out_ciphertext_len)
  end.

(** The result gives the plaintext array, [out_plaintext_len] and [out_tag]. *)
Definition chat_crypto_secretstream_decrypt (stream : option chat_crypto_secretstream_t)
    (ciphertext plaintext : cptr) (out_plaintext_len out_tag : option Z)
    : chat_crypto_result_t * option chat_crypto_secretstream_t * cptr * option Z * option Z :=
  match stream, ciphertext, plaintext, out_plaintext_len, out_tag with
  | Some st, Some ciphertext, Some out, Some _, Some _ =>
      if negb (st_pull_initialized st) || (len ciphertext <? CHAT_CRYPTO_STREAM_ABYTES)
      then (CHAT_CRYPTO_ERR_INVALID, stream, Some (zeros (len out)), Some 0, Some 0)
      else
        let max_plaintext_len := len ciphertext - CHAT_CRYPTO_STREAM_ABYTES in
        if len out <? max_plaintext_len
        then (CHAT_CRYPTO_ERR_BUFFER, stream, Some (zeros (len out)), Some 0, Some 0)
        else
          match secretstream_pull (st_pull st) ciphertext with
          | None => (CHAT_CRYPTO_ERR_DECRYPT, stream, Some (zeros (len out)), Some 0, Some 0)
          | Some (m, tag, pull) =>
              (CHAT_CRYPTO_OK,
               Some {| st_push := st_push st; st_pull := pull;
                       st_push_initialized := st_push_initialized st;
                       st_pull_initialized := st_pull_initialized st |},
               Some (blit out m), Some (len m), Some tag)
          end
  | _, _, _, _, _ =>
      (CHAT_CRYPTO_ERR_NULL, stream, plaintext, out_plaintext_len, out_tag)
  end.
End stream.

(** ** The transcript, as one string *)

(** What is hashed and signed. *)
Definition transcript_bytes (role : chat_crypto_role_t) (signer peer sid kx : bytes) : bytes :=
  CHAT_CRYPTO_TRANSCRIPT_DOMAIN ++ [byte_of role] ++ signer ++ peer
  ++ chat_crypto_write_u64_be (len sid) ++ sid ++ kx.

Lemma len_write_u64_be v : len (chat_crypto_write_u64_be v) = 8.
Proof. done. Qed.

(** The value of a big-endian string. *)
Definition be_value (b : bytes) : Z := fold_left (λ acc c, acc * 256 + byte_val c) b 0.

Lemma base256_step v k k' :
  0 ≤ k → k' = k + 8 → v / 2 ^ k = v / 2 ^ k' * 256 + (v / 2 ^ k) mod 256.
Proof.
  intros Hk ->. rewrite Z.pow_add_r, <- Z.div_div by lia. change (2 ^ 8) with 256.
  pose proof (Z.div_mod (v / 2 ^ k) 256). lia.
Qed.

Lemma write_u64_be_value v : 0 ≤ v < 2 ^ 64 → be_value (chat_crypto_write_u64_be v) = v.
Proof.
  intros Hv. unfold be_value, chat_crypto_write_u64_be.
  change (seqZ 0 8) with [0; 1; 2; 3; 4; 5; 6; 7]. cbn [fmap list_fmap fold_left].
  assert (Hb : ∀ k, 0 ≤ k →
    byte_val (byte_of (Z.land (Z.shiftr v k) 255)) = (v / 2 ^ k) mod 256).
  { intros k Hk. change 255 with (Z.ones 8).
    rewrite byte_val_of, Z.land_ones, Z.shiftr_div_pow2 by lia. apply Zmod_mod. }
  rewrite !Hb by lia.
  change ((7 - 0) * 8) with 56. change ((7 - 1) * 8) with 48. change ((7 - 2) * 8) with 40.
  change ((7 - 3) * 8) with 32. change ((7 - 4) * 8) with 24. change ((7 - 5) * 8) with 16.
  change ((7 - 6) * 8) with 8. change ((7 - 7) * 8) with 0.
  assert (H7 : v / 2 ^ 56 < 256).
  { apply Z.div_lt_upper_bound; [done|]. change (2 ^ 56 * 256) with (2 ^ 64). lia. }
  pose proof (Z.div_pos v (2 ^ 56)) as H7'.
  rewrite (Z.mod_small (v / 2 ^ 56)) by lia.
  pose proof (base256_step v 48 56 ltac:(lia) eq_refl) as E6.
  pose proof (base256_step v 40 48 ltac:(lia) eq_refl) as E5.
  pose proof (base256_step v 32 40 ltac:(lia) eq_refl) as E4.
  pose proof (base256_step v 24 32 ltac:(lia) eq_refl) as E3.
  pose proof (base256_step v 16 24 ltac:(lia) eq_refl) as E2.
  pose proof (base256_step v 8 16 ltac:(lia) eq_refl) as E1.
  pose proof (base256_step v 0 8 ltac:(lia) eq_refl) as E0.
  change (2 ^ 0) with 1 in *. rewrite Z.div_1_r in *.
  revert E0 E1 E2 E3 E4 E5 E6.
  generalize (v / 2 ^ 8), (v / 2 ^ 16), (v / 2 ^ 24), (v / 2 ^ 32), (v / 2 ^ 40),
    (v / 2 ^ 48), (v / 2 ^ 56).
  intros q1 q2 q3 q4 q5 q6 q7 E0 E1 E2 E3 E4 E5 E6.
  lia.
Qed.

Lemma role_valid_iff role :
  chat_crypto_role_is_valid role = true ↔
  role = CHAT_CRYPTO_ROLE_INITIATOR ∨ role = CHAT_CRYPTO_ROLE_RESPONDER.
Proof. unfold chat_crypto_role_is_valid. rewrite orb_true_iff, !Z.eqb_eq. done. Qed.

(** The session identifiers the functions accept. *)
Definition session_id_ok (sid : bytes) : Prop := 0 < len sid ≤ CHAT_CRYPTO_SESSION_ID_MAX.

Lemma role_sid_guard role sid :
  chat_crypto_role_is_valid role = true → session_id_ok sid →
  negb (chat_crypto_role_is_valid role) || (len sid =? 0)
    || (len sid >? CHAT_CRYPTO_SESSION_ID_MAX) = false.
Proof.
  unfold session_id_ok. intros -> Hs. cbn [negb orb].
  apply orb_false_iff. rewrite Z.eqb_neq, Z.gtb_ltb, Z.ltb_ge. lia.
Qed.

Section theorems.
Context `{SodiumInitOk} `{SodiumHashOk} `{SodiumSignOk} `{!SodiumKx} `{!SodiumKxOk}.

Lemma transcript_hash_ok role signer peer sid kx :
  chat_crypto_role_is_valid role = true → session_id_ok sid →
  ∃ h, chat_crypto_transcript_hash role (Some signer) (Some peer) (Some sid) (Some kx) = inr h
       ∧ crypto_generichash (transcript_bytes role signer peer sid kx) = Some h.
Proof.
  intros Hr Hs. unfold chat_crypto_transcript_hash. rewrite role_sid_guard by done.
  destruct generichash_succeeds as [st Est]. rewrite Est.
  pose proof (generichash_multipart [CHAT_CRYPTO_TRANSCRIPT_DOMAIN; [byte_of role]; signer; peer;
    chat_crypto_write_u64_be (len sid); sid; kx] st) as Hm.
  destruct (generichash_absorbs st [CHAT_CRYPTO_TRANSCRIPT_DOMAIN; [byte_of role]; signer; peer;
    chat_crypto_write_u64_be (len sid); sid; kx]) as [st' Est'].
  rewrite Est'. rewrite (Hm st' Est Est').
  assert (Ej : mjoin [CHAT_CRYPTO_TRANSCRIPT_DOMAIN; [byte_of role]; signer; peer;
    chat_crypto_write_u64_be (len sid); sid; kx] = transcript_bytes role signer peer sid kx).
  { unfold transcript_bytes. cbn [mjoin list_join]. by rewrite app_nil_r. }
  rewrite Ej. destruct (generichash_one_shot (transcript_bytes role signer peer sid kx))
    as (h & -> & _). by exists h.
Qed.

Lemma transcript_hash_inr role signer peer sid kx h :
  chat_crypto_transcript_hash role (Some signer) (Some peer) (Some sid) (Some kx) = inr h →
  chat_crypto_role_is_valid role = true ∧ session_id_ok sid
  ∧ crypto_generichash (transcript_bytes role signer peer sid kx) = Some h.
Proof.
  intros E. destruct (chat_crypto_role_is_valid role) eqn:Er.
  - destruct (decide (session_id_ok sid)) as [Hs|Hs].
    + destruct (transcript_hash_ok role signer peer sid kx Er Hs) as (h' & E' & Hh).
      split_and!; [done..|]. congruence.
    + exfalso. unfold chat_crypto_transcript_hash in E. rewrite Er in E. cbn [negb orb] in E.
      unfold session_id_ok in Hs. pose proof (len_nonneg sid).
      case_if_in E; [done|]. lia.
  - unfold chat_crypto_transcript_hash in E. by rewrite Er in E.
Qed.

Lemma transcript_hash_inl role signer peer sid kx r :
  chat_crypto_transcript_hash role signer peer sid kx = inl r → r ≠ CHAT_CRYPTO_OK.
Proof. unfold chat_crypto_transcript_hash. intros E. by repeat case_match; simplify_eq. Qed.

(** The state and message an honest side produces. *)
Lemma handshake_init_ok identity remote role sid out g :
  chat_crypto_role_is_valid role = true → session_id_ok sid →
  sign_key_pair (id_public_key identity) (id_secret_key identity) →
  is_Some (fst (crypto_kx_keypair g)) →
  ∃ hs kx_pk kx_sk signature h g',
    crypto_kx_keypair g = (Some (kx_pk, kx_sk), g')
    ∧ chat_crypto_handshake_init (Some zero_handshake) (Some identity) (Some remote) role
        (Some sid) (Some out) g = (CHAT_CRYPTO_OK, Some hs, Some (kx_pk ++ signature), g')
    ∧ hs = {| hs_role := role; hs_local_identity_pk := id_public_key identity;
              hs_remote_identity_pk := remote; hs_local_kx_pk := kx_pk; hs_local_kx_sk := kx_sk;
              hs_session_id := blit (zeros CHAT_CRYPTO_SESSION_ID_MAX) sid;
              hs_session_id_len := len sid; hs_initialized := true; hs_finished := false |}
    ∧ crypto_generichash (transcript_bytes role (id_public_key identity) remote sid kx_pk) = Some h
    ∧ len signature = crypto_sign_BYTES
    ∧ crypto_sign_verify_detached signature h (id_public_key identity) = 0.
Proof.
  intros Hr Hs Hk Hkx. unfold chat_crypto_handshake_init.
  rewrite role_sid_guard by done. rewrite (proj2 (Z.ltb_ge _ _) sodium_init_ok).
  destruct (crypto_kx_keypair g) as [[[kx_pk kx_sk]|] g']; [|by destruct Hkx].
  destruct (transcript_hash_ok role (id_public_key identity) remote sid kx_pk Hr Hs)
    as (h & -> & Hh).
  destruct (sign_verify _ _ h Hk) as (s & -> & Hl & Hv).
  eexists _, kx_pk, kx_sk, s, h, g'. split_and!; done.
Qed.

(** What a successful finish has checked. *)
Lemma handshake_finish_inv hs msg keys hs' keys' :
  chat_crypto_handshake_finish (Some hs) (Some msg) (Some keys)
    = (CHAT_CRYPTO_OK, Some hs', Some keys') →
  hs_initialized hs = true ∧ hs_finished hs = false ∧ hs' = handshake_spent hs true
  ∧ ∃ h, crypto_generichash (transcript_bytes (chat_crypto_opposite_role (hs_role hs))
             (hs_remote_identity_pk hs) (hs_local_identity_pk hs)
             (ztake (hs_session_id_len hs) (hs_session_id hs)) (ztake 32 msg)) = Some h
    ∧ crypto_sign_verify_detached (ztake 64 (zdrop 32 msg)) h (hs_remote_identity_pk hs) = 0.
Proof.
  unfold chat_crypto_handshake_finish. intros E. case_if_in E; [done|].
  destruct (chat_crypto_transcript_hash _ _ _ _ _) as [r|h] eqn:Eh.
  { apply transcript_hash_inl in Eh. by simplify_eq. }
  apply transcript_hash_inr in Eh as (_ & _ & Hh). case_if_in E; [done|].
  repeat case_match; simplify_eq; split_and!; try done; exists h; split; done.
Qed.

Lemma opposite_role_valid role : chat_crypto_role_is_valid (chat_crypto_opposite_role role) = true.
Proof. unfold chat_crypto_opposite_role. by destruct (_ =? _). Qed.

(** A side that is initialised accepts the honest message of the other. *)
Lemma handshake_finish_ok hs sid kx_pk signature h keys rx tx :
  hs_initialized hs = true → hs_finished hs = false → session_id_ok sid →
  ztake (hs_session_id_len hs) (hs_session_id hs) = sid →
  len kx_pk = crypto_kx_PUBLICKEYBYTES → len signature = crypto_sign_BYTES →
  crypto_generichash (transcript_bytes (chat_crypto_opposite_role (hs_role hs))
    (hs_remote_identity_pk hs) (hs_local_identity_pk hs) sid kx_pk) = Some h →
  crypto_sign_verify_detached signature h (hs_remote_identity_pk hs) = 0 →
  (if hs_role hs =? CHAT_CRYPTO_ROLE_INITIATOR
   then crypto_kx_client_session_keys (hs_local_kx_pk hs) (hs_local_kx_sk hs) kx_pk
   else crypto_kx_server_session_keys (hs_local_kx_pk hs) (hs_local_kx_sk hs) kx_pk)
    = Some (rx, tx) →
  chat_crypto_handshake_finish (Some hs) (Some (kx_pk ++ signature)) (Some keys)
    = (CHAT_CRYPTO_OK, Some (handshake_spent hs true), Some {| keys_rx := rx; keys_tx := tx |}).
Proof.
  intros Hi Hf Hs Hsid Hkx Hsig Hh Hv Hd. unfold chat_crypto_handshake_finish.
  rewrite Hi, Hf. cbn [negb orb]. rewrite ztake_app_len, zdrop_app_len, Hsid by done.
  rewrite (ztake_all _ signature) by lia.
  destruct (transcript_hash_ok (chat_crypto_opposite_role (hs_role hs))
    (hs_remote_identity_pk hs) (hs_local_identity_pk hs) sid kx_pk (opposite_role_valid _) Hs)
    as (h' & -> & Hh'). rewrite Hh in Hh'. injection Hh' as <-.
  rewrite Hv. cbn [negb Z.eqb]. by rewrite Hd.
Qed.

(** The exchange of two honest sides: both messages are accepted, whatever
    the memory for the keys held before. *)
Lemma handshake_exchange ida idb sid outa outb ga gb :
  session_id_ok sid →
  sign_key_pair (id_public_key ida) (id_secret_key ida) →
  sign_key_pair (id_public_key idb) (id_secret_key idb) →
  is_Some (fst (crypto_kx_keypair ga)) → is_Some (fst (crypto_kx_keypair gb)) →
  ∃ hsa msga ga' hsb msgb gb' k1 k2,
    chat_crypto_handshake_init (Some zero_handshake) (Some ida) (Some (id_public_key idb))
      CHAT_CRYPTO_ROLE_INITIATOR (Some sid) (Some outa) ga
      = (CHAT_CRYPTO_OK, Some hsa, Some msga, ga')
    ∧ chat_crypto_handshake_init (Some zero_handshake) (Some idb) (Some (id_public_key ida))
      CHAT_CRYPTO_ROLE_RESPONDER (Some sid) (Some outb) gb
      = (CHAT_CRYPTO_OK, Some hsb, Some msgb, gb')
    ∧ len msga = CHAT_CRYPTO_KX_MESSAGE_BYTES ∧ len msgb = CHAT_CRYPTO_KX_MESSAGE_BYTES
    ∧ (∀ keys, chat_crypto_handshake_finish (Some hsa) (Some msgb) (Some keys)
        = (CHAT_CRYPTO_OK, Some (handshake_spent hsa true),
           Some {| keys_rx := k1; keys_tx := k2 |}))
    ∧ (∀ keys, chat_crypto_handshake_finish (Some hsb) (Some msga) (Some keys)
        = (CHAT_CRYPTO_OK, Some (handshake_spent hsb true),
           Some {| keys_rx := k2; keys_tx := k1 |})).
Proof.
  intros Hs Hka Hkb Hga Hgb.
  destruct (handshake_init_ok ida (id_public_key idb) CHAT_CRYPTO_ROLE_INITIATOR sid outa ga
    eq_refl Hs Hka Hga) as (hsa & pka & ska & siga & ha & ga' & Ea & Ia & Ha & Hha & Hla & Hva).
  destruct (handshake_init_ok idb (id_public_key ida) CHAT_CRYPTO_ROLE_RESPONDER sid outb gb
    eq_refl Hs Hkb Hgb) as (hsb & pkb & skb & sigb & hb & gb' & Eb & Ib & Hb & Hhb & Hlb & Hvb).
  destruct (kx_keypair_len _ _ _ _ Ea) as [Hpa _]. destruct (kx_keypair_len _ _ _ _ Eb) as [Hpb _].
  destruct (kx_agree _ _ _ _ _ _ _ _ Ea Eb) as (k1 & k2 & Hc & Hsv & _).
  assert (Hsid : ztake (len sid) (blit (zeros CHAT_CRYPTO_SESSION_ID_MAX) sid) = sid)
    by by apply ztake_blit.
  exists hsa, (pka ++ siga), ga', hsb, (pkb ++ sigb), gb', k1, k2.
  split_and!; [done|done|by rewrite len_app, Hpa, Hla|by rewrite len_app, Hpb, Hlb|..];
    intros keys.
  - subst hsa. by eapply (handshake_finish_ok _ sid pkb sigb hb).
  - subst hsb. by eapply (handshake_finish_ok _ sid pka siga ha).
Qed.

(** A finished handshake accepts nothing more. *)
Lemma handshake_finished_refuses hs msg keys :
  hs_finished hs = true →
  chat_crypto_handshake_finish (Some hs) (Some msg) (Some keys)
  = (CHAT_CRYPTO_ERR_INVALID, Some hs, Some keys).
Proof. intros Hf. unfold chat_crypto_handshake_finish. by rewrite Hf, orb_true_r. Qed.

(** C9: two parties that hold each other's identity keys and the same
    session identifier, one as initiator and one as responder, complete the
    handshake with each other's messages; what one sends with is what the
    other receives with; the ephemeral secrets are wiped and neither side
    accepts another message. *)
Theorem handshake_agreement ida idb sid outa outb keysa keysb ga gb :
  session_id_ok sid →
  sign_key_pair (id_public_key ida) (id_secret_key ida) →
  sign_key_pair (id_public_key idb) (id_secret_key idb) →
  is_Some (fst (crypto_kx_keypair ga)) → is_Some (fst (crypto_kx_keypair gb)) →
  ∃ hsa msga ga' hsb msgb gb' hsa' hsb' ka kb,
    chat_crypto_handshake_init (Some zero_handshake) (Some ida) (Some (id_public_key idb))
      CHAT_CRYPTO_ROLE_INITIATOR (Some sid) (Some outa) ga
      = (CHAT_CRYPTO_OK, Some hsa, Some msga, ga')
    ∧ chat_crypto_handshake_init (Some zero_handshake) (Some idb) (Some (id_public_key ida))
      CHAT_CRYPTO_ROLE_RESPONDER (Some sid) (Some outb) gb
      = (CHAT_CRYPTO_OK, Some hsb, Some msgb, gb')
    ∧ len msga = CHAT_CRYPTO_KX_MESSAGE_BYTES ∧ len msgb = CHAT_CRYPTO_KX_MESSAGE_BYTES
    ∧ chat_crypto_handshake_finish (Some hsa) (Some msgb) (Some keysa)
      = (CHAT_CRYPTO_OK, Some hsa', Some ka)
    ∧ chat_crypto_handshake_finish (Some hsb) (Some msga) (Some keysb)
      = (CHAT_CRYPTO_OK, Some hsb', Some kb)
    ∧ keys_tx ka = keys_rx kb ∧ keys_rx ka = keys_tx kb
    ∧ hs_local_kx_sk hsa' = zeros crypto_kx_SECRETKEYBYTES
    ∧ hs_local_kx_sk hsb' = zeros crypto_kx_SECRETKEYBYTES
    ∧ (∀ msg keys, chat_crypto_handshake_finish (Some hsa') (Some msg) (Some keys)
                     = (CHAT_CRYPTO_ERR_INVALID, Some hsa', Some keys))
    ∧ (∀ msg keys, chat_crypto_handshake_finish (Some hsb') (Some msg) (Some keys)
                     = (CHAT_CRYPTO_ERR_INVALID, Some hsb', Some keys)).
Proof.
  intros Hs Hka Hkb Hga Hgb.
  destruct (handshake_exchange ida idb sid outa outb ga gb Hs Hka Hkb Hga Hgb)
    as (hsa & msga & ga' & hsb & msgb & gb' & k1 & k2 & Ea & Eb & La & Lb & Fa & Fb).
  exists hsa, msga, ga', hsb, msgb, gb', (handshake_spent hsa true), (handshake_spent hsb true),
    {| keys_rx := k1; keys_tx := k2 |}, {| keys_rx := k2; keys_tx := k1 |}.
  split_and!; [done..| |]; intros msg keys; apply handshake_finished_refuses; done.
Qed.

(** C6: a handshake completes only with a message whose signature verifies,
    under the identity key expected of the peer, over the transcript of the
    opposite role, the peer's and the own identity, this session's identifier
    and the ephemeral key the message carries; and only once. *)
Theorem handshake_authenticates hs msg keys hs' keys' :
  chat_crypto_handshake_finish (Some hs) (Some msg) (Some keys)
    = (CHAT_CRYPTO_OK, Some hs', Some keys') →
  hs_finished hs = false ∧ hs_finished hs' = true
  ∧ hs_local_kx_sk hs' = zeros crypto_kx_SECRETKEYBYTES
  ∧ ∃ h, crypto_generichash (transcript_bytes (chat_crypto_opposite_role (hs_role hs))
             (hs_remote_identity_pk hs) (hs_local_identity_pk hs)
             (ztake (hs_session_id_len hs) (hs_session_id hs)) (ztake 32 msg)) = Some h
    ∧ crypto_sign_verify_detached (ztake 64 (zdrop 32 msg)) h (hs_remote_identity_pk hs) = 0.
Proof.
  intros (_ & Hf & -> & Hh)%handshake_finish_inv. by split_and!.
Qed.
End theorems.

(** C24: what is signed is unambiguous: two transcripts are the same string
    only if role, both identities, session identifier and ephemeral key are
    the same.  A signature made for one role, session or peer is therefore
    not a signature for another. *)
Theorem transcript_unambiguous role role' a a' b b' sid sid' kx kx' :
  chat_crypto_role_is_valid role = true → chat_crypto_role_is_valid role' = true →
  len a = crypto_sign_PUBLICKEYBYTES → len a' = crypto_sign_PUBLICKEYBYTES →
  len b = crypto_sign_PUBLICKEYBYTES → len b' = crypto_sign_PUBLICKEYBYTES →
  session_id_ok sid → session_id_ok sid' →
  transcript_bytes role a b sid kx = transcript_bytes role' a' b' sid' kx' →
  role = role' ∧ a = a' ∧ b = b' ∧ sid = sid' ∧ kx = kx'.
Proof.
  intros Hr Hr' Ha Ha' Hb Hb' Hs Hs' E. unfold transcript_bytes in E.
  apply app_inj_len in E as [_ E]; [|done].
  apply app_inj_len in E as [E1 E]; [|done].
  apply app_inj_len in E as [-> E]; [|congruence].
  apply app_inj_len in E as [-> E]; [|congruence].
  apply app_inj_len in E as [E2 E]; [|done].
  assert (Hl : len sid = len sid').
  { apply (f_equal be_value) in E2. unfold session_id_ok, CHAT_CRYPTO_SESSION_ID_MAX in *.
    rewrite !write_u64_be_value in E2 by lia. done. }
  apply app_inj_len in E as [-> ->]; [|done]. split; [|done].
  apply role_valid_iff in Hr, Hr'.
  by destruct Hr as [->| ->], Hr' as [->| ->].
Qed.

(** ** Streams *)

Section streams.
Context `{SodiumRandom} `{!SodiumStream}.

(** One message sent into a buffer of the exact size, one frame received into
    a buffer of the maximal message size. *)
Definition stream_send1 (st : chat_crypto_secretstream_t) (m : bytes) (final : bool)
    : option (bytes * chat_crypto_secretstream_t) :=
  match chat_crypto_secretstream_encrypt (Some st) (Some m) (len m) final
          (Some (zeros (len m + CHAT_CRYPTO_STREAM_ABYTES))) (Some 0) with
  | (CHAT_CRYPTO_OK, Some st', Some buf, Some n) => Some (ztake n buf, st')
  | _ => None
  end.
Definition stream_receive1 (st : chat_crypto_secretstream_t) (frame : bytes)
    : option (bytes * Z * chat_crypto_secretstream_t) :=
  match chat_crypto_secretstream_decrypt (Some st) (Some frame)
          (Some (zeros CHAT_MAX_MESSAGE_SIZE)) (Some 0) (Some 0) with
  | (CHAT_CRYPTO_OK, Some st', Some buf, Some n, Some tag) => Some (ztake n buf, tag, st')
  | _ => None
  end.

Fixpoint stream_send (st : chat_crypto_secretstream_t) (msgs : list (bytes * bool))
    : option (list bytes) :=
  match msgs with
  | [] => Some []
  | (m, final) :: msgs' =>
      match stream_send1 st m final with
      | None => None
      | Some (frame, st') =>
          match stream_send st' msgs' with
          | None => None
          | Some frames => Some (frame :: frames)
          end
      end
  end.
Fixpoint stream_receive (st : chat_crypto_secretstream_t) (frames : list bytes)
    : option (list (bytes * Z)) :=
  match frames with
  | [] => Some []
  | frame :: frames' =>
      match stream_receive1 st frame with
      | None => None
      | Some (m, tag, st') =>
          match stream_receive st' frames' with
          | None => None
          | Some msgs => Some ((m, tag) :: msgs)
          end
      end
  end.

Definition message_tag (final : bool) : Z := if final then TAG_FINAL else TAG_MESSAGE.

Context `{!SodiumStreamOk}.

(** A sending and a receiving end that are in step. *)
Definition streams_linked (s r : chat_crypto_secretstream_t) : Prop :=
  st_push_initialized s = true ∧ st_pull_initialized r = true
  ∧ stream_sync (st_push s) (st_pull r).

Lemma stream_step s r m final :
  streams_linked s r → len m ≤ CHAT_MAX_MESSAGE_SIZE →
  ∃ frame s' r', stream_send1 s m final = Some (frame, s')
    ∧ len frame = len m + CHAT_CRYPTO_STREAM_ABYTES
    ∧ stream_receive1 r frame = Some (m, message_tag final, r') ∧ streams_linked s' r'.
Proof.
  intros (Hs & Hr & Hsync) Hm. pose proof (len_nonneg m).
  unfold CHAT_MAX_MESSAGE_SIZE, CHAT_CRYPTO_STREAM_ABYTES, crypto_secretstream_ABYTES in *.
  destruct (stream_push_succeeds (st_push s) m (message_tag final)) as [[c p'] Hp];
    [by destruct final|lia|].
  destruct (stream_push_pull _ _ _ _ _ _ Hsync Hp) as (Hc & pl' & Hpull & Hsync').
  unfold crypto_secretstream_ABYTES in Hc.
  eexists c, _, _. split_and!.
  - unfold stream_send1, chat_crypto_secretstream_encrypt. rewrite Hs. cbn [negb orb].
    rewrite bool_decide_false by done. cbn [andb].
    rewrite Z.gtb_ltb, (proj2 (Z.ltb_ge _ _)) by done.
    rewrite len_zeros, Z.ltb_irrefl by (unfold CHAT_CRYPTO_STREAM_ABYTES, crypto_secretstream_ABYTES; lia).
    cbn [default from_option id]. rewrite (ztake_all _ m) by done. fold (message_tag final).
    rewrite Hp, ztake_blit by done. done.
  - done.
  - unfold stream_receive1, chat_crypto_secretstream_decrypt. rewrite Hr. cbn [negb orb].
    unfold CHAT_CRYPTO_STREAM_ABYTES, crypto_secretstream_ABYTES, CHAT_MAX_MESSAGE_SIZE.
    rewrite (proj2 (Z.ltb_ge (len c) _)) by lia.
    rewrite len_zeros, (proj2 (Z.ltb_ge _ (len c - _))) by lia.
    rewrite Hpull, ztake_blit by done. done.
  - by split_and!.
Qed.

Lemma streams_deliver s r msgs :
  streams_linked s r → Forall (λ m, len m.1 ≤ CHAT_MAX_MESSAGE_SIZE) msgs →
  ∃ frames, stream_send s msgs = Some frames
    ∧ stream_receive r frames = Some ((λ m, (m.1, message_tag m.2)) <$> msgs).
Proof.
  intros Hl Hm. revert s r Hl; induction Hm as [|[m final] msgs Hm _ IH]; intros s r Hl.
  - by exists [].
  - destruct (stream_step s r m final Hl Hm) as (frame & s' & r' & Es & _ & Er & Hl').
    destruct (IH s' r' Hl') as (frames & Efs & Efr). exists (frame :: frames).
    cbn [stream_send stream_receive]. rewrite Es, Er, Efs, Efr. done.
Qed.

(** When one side opens its sending stream with a key and the other its
    receiving stream with the same key and the transmitted header, every
    sequence of messages of at most 64 KiB is encrypted, and decrypted in
    order to the same messages, each with the tag that tells whether it was
    the final one. *)
Theorem stream_delivers key g sender receiver hdr0 push_st header g' msgs :
  chat_crypto_secretstream_init_push (Some sender) (Some key) (Some hdr0) g
    = (CHAT_CRYPTO_OK, Some push_st, Some header, g') →
  Forall (λ m, len m.1 ≤ CHAT_MAX_MESSAGE_SIZE) msgs →
  len header = CHAT_CRYPTO_STREAM_HEADER_BYTES
  ∧ ∃ pull_st frames,
      chat_crypto_secretstream_init_pull (Some receiver) (Some key) (Some header)
        = (CHAT_CRYPTO_OK, Some pull_st)
      ∧ stream_send push_st msgs = Some frames
      ∧ stream_receive pull_st frames = Some ((λ m, (m.1, message_tag m.2)) <$> msgs).
Proof.
  unfold chat_crypto_secretstream_init_push. intros E Hm.
  destruct (secretstream_init_push key g) as [[[push hdr]|] g1] eqn:Ep; simplify_eq.
  destruct (stream_init _ _ _ _ _ Ep) as (Hl & pull & Epull & Hsync). split; [done|].
  unfold chat_crypto_secretstream_init_pull. rewrite Epull.
  edestruct (streams_deliver) as (frames & Es & Er); [|done|].
  2: { eexists _, frames. split_and!; [done|exact Es|exact Er]. }
  by split_and!.
Qed.

(** C25: decryption never overruns the caller's buffer, and when it fails for
    any reason (its pointers being valid) it leaves no plaintext: the buffer is all zero, the length and
    the tag are 0 and the stream is unchanged. *)
Theorem decrypt_leaves_nothing st ciphertext out n0 t0 res st' buf n tag :
  chat_crypto_secretstream_decrypt (Some st) (Some ciphertext) (Some out) (Some n0) (Some t0)
    = (res, st', buf, n, tag) →
  (res = CHAT_CRYPTO_OK →
    ∃ m t, buf = Some (blit out m) ∧ len m ≤ len out ∧ n = Some (len m) ∧ tag = Some t
           ∧ len ciphertext = len m + CHAT_CRYPTO_STREAM_ABYTES)
  ∧ (res ≠ CHAT_CRYPTO_OK →
      st' = Some st ∧ buf = Some (zeros (len out)) ∧ n = Some 0 ∧ tag = Some 0).
Proof.
  unfold chat_crypto_secretstream_decrypt, CHAT_CRYPTO_STREAM_ABYTES. intros E.
  case_if_in E; [by simplify_eq|]. case_if_in E; [by simplify_eq|].
  destruct (secretstream_pull _ _) as [[[m t] pull]|] eqn:Ep; simplify_eq; [|done].
  apply stream_pull_len in Ep. split; [|done]. intros _. exists m, t.
  split_and!; [done|lia|done|done|lia].
Qed.
End streams.

(** ** Concrete instances *)

Import Reference.

Definition seed (z : Z) : @rng random := z.
Definition demo_identity (name : string) (v : Z) : chat_identity_t :=
  {| id_username := lit name; id_public_key := replicate 32 (byte_of v);
     id_secret_key := replicate 32 (byte_of v) ++ replicate 32 (byte_of v) |}.
Definition demo_message (role g : Z) (me peer : chat_identity_t)
    : option chat_crypto_handshake_t * bytes :=
  match chat_crypto_handshake_init (Some zero_handshake) (Some me) (Some (id_public_key peer))
          role (Some (lit "s1")) (Some (zeros 96)) (seed g) with
  | (_, hs, msg, _) => (hs, default [] msg)
  end.

Lemma handshake_agreement_witness :
  ∃ hsa msgb hsa' ka,
    chat_crypto_handshake_finish (Some hsa) (Some msgb) (Some zero_keys)
      = (CHAT_CRYPTO_OK, Some hsa', Some ka).
Proof.
  destruct (handshake_agreement (demo_identity "alice" 1) (demo_identity "bob" 2) (lit "s1")
    (zeros 96) (zeros 96) zero_keys zero_keys (seed 3) (seed 4))
    as (hsa & _ & _ & _ & msgb & _ & hsa' & _ & ka & _ & _ & _ & _ & _ & Hf & _).
  - by vm_compute.
  - by vm_compute.
  - by vm_compute.
  - by eexists.
  - by eexists.
  - exists hsa, msgb, hsa', ka. exact Hf.
Defined.

Definition demo_hs : chat_crypto_handshake_t :=
  default zero_handshake (demo_message CHAT_CRYPTO_ROLE_INITIATOR 3
                            (demo_identity "alice" 1) (demo_identity "bob" 2)).1.
Definition demo_msg : bytes :=
  (demo_message CHAT_CRYPTO_ROLE_RESPONDER 4
     (demo_identity "bob" 2) (demo_identity "alice" 1)).2.
Definition demo_finish
    : chat_crypto_result_t * option chat_crypto_handshake_t * option chat_crypto_session_keys_t :=
  chat_crypto_handshake_finish (Some demo_hs) (Some demo_msg) (Some zero_keys).

Lemma handshake_authenticates_witness :
  demo_finish.1.1 = CHAT_CRYPTO_OK
  ∧ hs_finished (default zero_handshake demo_finish.1.2) = true.
Proof.
  split; [vm_compute; reflexivity|].
  destruct (handshake_authenticates demo_hs demo_msg zero_keys
    (default zero_handshake demo_finish.1.2) (default zero_keys demo_finish.2))
    as (_ & Hf & _).
  - vm_compute. reflexivity.
  - exact Hf.
Defined.

Lemma transcript_unambiguous_witness :
  transcript_bytes 1 (zeros 32) (zeros 32) (lit "s1") (zeros 32)
  = transcript_bytes 1 (zeros 32) (zeros 32) (lit "s1") (zeros 32)
  ∧ (1 : chat_crypto_role_t) = 1.
Proof.
  split; [reflexivity|].
  eapply (transcript_unambiguous 1 1 (zeros 32) (zeros 32) (zeros 32) (zeros 32)
            (lit "s1") (lit "s1") (zeros 32) (zeros 32)); by vm_compute.
Defined.

Definition demo_push : chat_crypto_secretstream_t :=
  {| st_push := (zeros 32, 0) : @secretstream_state _ stream;
     st_pull := secretstream_zero; st_push_initialized := true; st_pull_initialized := false |}.

Lemma stream_delivers_witness :
  ∃ pull_st frames,
    stream_send demo_push [(lit "hello", false); (lit "bye", true)] = Some frames
    ∧ stream_receive pull_st frames = Some [(lit "hello", 0); (lit "bye", 3)].
Proof.
  destruct (stream_delivers (zeros 32) (seed 5) zero_stream zero_stream (zeros 24) demo_push
              (replicate 24 (byte_of 5)) (seed 6) [(lit "hello", false); (lit "bye", true)])
    as (_ & pull_st & frames & _ & Es & Er).
  - reflexivity.
  - repeat constructor; by vm_compute.
  - exists pull_st, frames. split; [exact Es|exact Er].
Defined.

Lemma decrypt_leaves_nothing_witness :
  let out := chat_crypto_secretstream_decrypt (Some zero_stream) (Some (zeros 20))
               (Some (lit "secret")) (Some 9) (Some 9) in
  out.1.1.1.1 = CHAT_CRYPTO_ERR_INVALID ∧ out.1.1.2 = Some (zeros 6).
Proof.
  split; [reflexivity|].
  eapply (decrypt_leaves_nothing zero_stream (zeros 20) (lit "secret") 9 9
            CHAT_CRYPTO_ERR_INVALID (Some zero_stream) (Some (zeros 6)) (Some 0) (Some 0)).
  - reflexivity.
  - discriminate.
Defined.
