(* ===== verification/Ice.v ===== *)
(** * The ICE transport (src/daemon/ice.c, ice.h)

    libnice is the class [Nice]: its functions are parameters that thread
    the state of the library, and [NiceOk] states which calls create and
    release agents.  The session with its receive ring, every operation and
    the three callbacks libnice invokes are modelled.  Theorems: the ring
    implements a queue of eight packets that drops the oldest when full and
    leaves no byte of a packet that was taken or dropped; a session owns
    exactly the agents it created, on every error path. *)

From S2P Require Import Prelude CLib Protocol.

Definition CHAT_ICE_RECV_MAX : Z := 4096.
Definition CHAT_ICE_RECV_QUEUE_CAPACITY : nat := 8.
Definition CHAT_ICE_HOST_MAX : Z := 256.
Definition CHAT_ICE_TURN_USERNAME_MAX : Z := 128.
Definition CHAT_ICE_TURN_PASSWORD_MAX : Z := 256.

Inductive chat_ice_result_t :=
  | CHAT_ICE_OK
  | CHAT_ICE_ERR_INVALID
  | CHAT_ICE_ERR_AGENT
  | CHAT_ICE_ERR_GATHER
  | CHAT_ICE_ERR_SDP
  | CHAT_ICE_ERR_REMOTE
  | CHAT_ICE_ERR_SEND
  | CHAT_ICE_ERR_BUFFER.
#[export] Instance chat_ice_result_eq_dec : EqDecision chat_ice_result_t.
Proof. solve_decision. Defined.

Record chat_ice_config_t := {
  cfg_local_address : bytes;
  cfg_stun_host : bytes;
  cfg_stun_port : Z;
  cfg_turn_host : bytes;
  cfg_turn_port : Z;
  cfg_turn_username : bytes;
  cfg_turn_password : bytes;
  cfg_has_stun : bool;
  cfg_has_turn : bool;
  cfg_has_local_address : bool;
  cfg_force_relay : bool;
}.
Definition zero_config : chat_ice_config_t :=
  {| cfg_local_address := []; cfg_stun_host := []; cfg_stun_port := 0; cfg_turn_host := [];
     cfg_turn_port := 0; cfg_turn_username := []; cfg_turn_password := [];
     cfg_has_stun := false; cfg_has_turn := false; cfg_has_local_address := false;
     cfg_force_relay := false |}.
Definition chat_ice_config_init (config : option chat_ice_config_t) : option chat_ice_config_t :=
  match config with
  | None => None
  | Some _ => Some zero_config
  end.

(** ** libnice *)

Abbreviation agent_t := positive.
Definition NICE_COMPONENT_TYPE_RTP : Z := 1.

Inductive nice_state := NICE_READY | NICE_CONNECTED | NICE_FAILED | NICE_OTHER.
Inductive nice_candidate_type := NICE_RELAYED | NICE_NOT_RELAYED.
#[export] Instance nice_candidate_type_eq_dec : EqDecision nice_candidate_type.
Proof. solve_decision. Defined.

Class Nice := {
  nice : Type;   (** the state of the library *)
  nice_agent_new_full : nice → option agent_t * nice;
  nice_configure : agent_t → bool → bool → nice → nice;
  nice_agent_add_stream : agent_t → nice → Z * nice;
  nice_agent_set_stream_name : agent_t → Z → bytes → nice → bool * nice;
  nice_address_ok : bytes → bool;
  nice_agent_add_local_address : agent_t → bytes → nice → bool * nice;
  nice_set_stun : agent_t → bytes → Z → nice → nice;
  nice_agent_set_relay_info :
    agent_t → Z → Z → bytes → Z → bytes → bytes → nice → bool * nice;
  nice_connect_signals : agent_t → nice → nice;
  nice_agent_attach_recv : agent_t → Z → Z → nice → bool * nice;
  nice_agent_gather_candidates : agent_t → Z → nice → bool * nice;
  nice_agent_remove_stream : agent_t → Z → nice → nice;
  nice_agent_unref : agent_t → nice → nice;
  nice_agent_generate_local_sdp : agent_t → nice → cptr;
  nice_agent_parse_remote_sdp : agent_t → bytes → nice → Z * nice;
  nice_agent_send : agent_t → Z → Z → bytes → nice → Z * nice;
  nice_agent_get_selected_pair :
    agent_t → Z → Z → nice → option (option nice_candidate_type * option nice_candidate_type);
  (** The agents that have been created and not yet released. *)
  nice_agents : nice → gset agent_t;
}.

Class NiceOk `{Nice} := {
  new_agent_fresh n a n' : nice_agent_new_full n = (Some a, n') →
    (a ∉ nice_agents n) ∧ nice_agents n' = {[a]} ∪ nice_agents n;
  new_agent_none n n' : nice_agent_new_full n = (None, n') → nice_agents n' = nice_agents n;
  unref_agent n a : nice_agents (nice_agent_unref a n) = nice_agents n ∖ {[a]};
  (** No other call creates or releases an agent. *)
  configure_agents n a c f : nice_agents (nice_configure a c f n) = nice_agents n;
  add_stream_agents n a : nice_agents (nice_agent_add_stream a n).2 = nice_agents n;
  stream_name_agents n a s t :
    nice_agents (nice_agent_set_stream_name a s t n).2 = nice_agents n;
  local_address_agents n a x :
    nice_agents (nice_agent_add_local_address a x n).2 = nice_agents n;
  stun_agents n a h p : nice_agents (nice_set_stun a h p n) = nice_agents n;
  relay_agents n a s c h p u w :
    nice_agents (nice_agent_set_relay_info a s c h p u w n).2 = nice_agents n;
  signals_agents n a : nice_agents (nice_connect_signals a n) = nice_agents n;
  attach_agents n a s c : nice_agents (nice_agent_attach_recv a s c n).2 = nice_agents n;
  gather_agents n a s : nice_agents (nice_agent_gather_candidates a s n).2 = nice_agents n;
  remove_stream_agents n a s : nice_agents (nice_agent_remove_stream a s n) = nice_agents n;
  parse_sdp_agents n a x : nice_agents (nice_agent_parse_remote_sdp a x n).2 = nice_agents n;
  send_agents n a s c d : nice_agents (nice_agent_send a s c d n).2 = nice_agents n;
}.

(** ** The session *)

Record chat_ice_session_t := {
  ice_agent : option agent_t;
  ice_stream_id : Z;
  ice_component_id : Z;
  ice_gathering_done : bool;
  ice_remote_set : bool;
  ice_ready : bool;
  ice_failed : bool;
  ice_selected_pair_known : bool;
  ice_selected_pair_is_relayed : bool;
  ice_recv_queue : list bytes;   (** eight slots of 4096 bytes *)
  ice_recv_lens : list Z;
  ice_recv_head : nat;
  ice_recv_count : nat;
}.

(** Changing one group of fields. *)
Definition ice_with_agent (s : chat_ice_session_t) (agent : option agent_t) (stream_id component_id : Z)
    : chat_ice_session_t :=
  {| ice_agent := agent; ice_stream_id := stream_id; ice_component_id := component_id;
     ice_gathering_done := ice_gathering_done s; ice_remote_set := ice_remote_set s;
     ice_ready := ice_ready s; ice_failed := ice_failed s;
     ice_selected_pair_known := ice_selected_pair_known s;
     ice_selected_pair_is_relayed := ice_selected_pair_is_relayed s;
     ice_recv_queue := ice_recv_queue s; ice_recv_lens := ice_recv_lens s;
     ice_recv_head := ice_recv_head s; ice_recv_count := ice_recv_count s |}.
Definition ice_with_flags (s : chat_ice_session_t)
    (gathering_done remote_set ready failed pair_known pair_relayed : bool) : chat_ice_session_t :=
  {| ice_agent := ice_agent s; ice_stream_id := ice_stream_id s;
     ice_component_id := ice_component_id s;
     ice_gathering_done := gathering_done; ice_remote_set := remote_set;
     ice_ready := ready; ice_failed := failed;
     ice_selected_pair_known := pair_known; ice_selected_pair_is_relayed := pair_relayed;
     ice_recv_queue := ice_recv_queue s; ice_recv_lens := ice_recv_lens s;
     ice_recv_head := ice_recv_head s; ice_recv_count := ice_recv_count s |}.
Definition ice_with_ring (s : chat_ice_session_t) (queue : list bytes) (lens : list Z)
    (head count : nat) : chat_ice_session_t :=
  {| ice_agent := ice_agent s; ice_stream_id := ice_stream_id s;
     ice_component_id := ice_component_id s;
     ice_gathering_done := ice_gathering_done s; ice_remote_set := ice_remote_set s;
     ice_ready := ice_ready s; ice_failed := ice_failed s;
     ice_selected_pair_known := ice_selected_pair_known s;
     ice_selected_pair_is_relayed := ice_selected_pair_is_relayed s;
     ice_recv_queue := queue; ice_recv_lens := lens;
     ice_recv_head := head; ice_recv_count := count |}.
Definition ice_set_failed (s : chat_ice_session_t) : chat_ice_session_t :=
  ice_with_flags s (ice_gathering_done s) (ice_remote_set s) (ice_ready s) true
    (ice_selected_pair_known s) (ice_selected_pair_is_relayed s).

(** [memset] with zero, then the component. *)
Definition ice_initial : chat_ice_session_t :=
  {| ice_agent := None; ice_stream_id := 0; ice_component_id := NICE_COMPONENT_TYPE_RTP;
     ice_gathering_done := false; ice_remote_set := false; ice_ready := false;
     ice_failed := false; ice_selected_pair_known := false;
     ice_selected_pair_is_relayed := false;
     ice_recv_queue := replicate CHAT_ICE_RECV_QUEUE_CAPACITY (zeros CHAT_ICE_RECV_MAX);
     ice_recv_lens := replicate CHAT_ICE_RECV_QUEUE_CAPACITY 0;
     ice_recv_head := 0; ice_recv_count := 0 |}.
Definition chat_ice_session_init (session : option chat_ice_session_t) : option chat_ice_session_t :=
  match session with
  | None => None
  | Some _ => Some ice_initial
  end.

(** ** Callbacks *)

Definition on_candidate_gathering_done (stream_id : Z) (session : option chat_ice_session_t)
    : option chat_ice_session_t :=
  match session with
  | None => None
  | Some s =>
      if negb (stream_id =? ice_stream_id s) then Some s
      else Some (ice_with_flags s true (ice_remote_set s) (ice_ready s) (ice_failed s)
                   (ice_selected_pair_known s) (ice_selected_pair_is_relayed s))
  end.

Definition on_component_state_changed `{Nice} (agent : agent_t) (stream_id component_id : Z)
    (state : nice_state) (session : option chat_ice_session_t) (n : nice)
    : option chat_ice_session_t :=
  match session with
  | None => None
  | Some s =>
      if negb (stream_id =? ice_stream_id s) || negb (component_id =? ice_component_id s)
      then Some s
      else
        match state with
        | NICE_READY | NICE_CONNECTED =>
            match nice_agent_get_selected_pair agent stream_id component_id n with
            | None =>
                Some (ice_with_flags s (ice_gathering_done s) (ice_remote_set s) true
                        (ice_failed s) (ice_selected_pair_known s)
                        (ice_selected_pair_is_relayed s))
            | Some (local, remote) =>
                Some (ice_with_flags s (ice_gathering_done s) (ice_remote_set s) true
                        (ice_failed s) true
                        (bool_decide (local = Some NICE_RELAYED)
                         || bool_decide (remote = Some NICE_RELAYED)))
            end
        | NICE_FAILED => Some (ice_set_failed s)
        | NICE_OTHER => Some s
        end
  end.

(** [sodium_memzero(slot, n)]. *)
Definition wipe_prefix (n : Z) (slot : bytes) : bytes := zeros n ++ zdrop n slot.
(** Writing through [array[index]]. *)
Definition slot_at (queue : list bytes) (index : nat) : bytes := nth index queue [].
Definition len_at (lens : list Z) (index : nat) : Z := nth index lens 0.

(** The head slot wiped and released. *)
Definition ring_release (s : chat_ice_session_t) : chat_ice_session_t :=
  let head := ice_recv_head s in
  ice_with_ring s
    (<[head := wipe_prefix (len_at (ice_recv_lens s) head) (slot_at (ice_recv_queue s) head)]>
       (ice_recv_queue s))
    (<[head := 0]> (ice_recv_lens s))
    ((head + 1) mod CHAT_ICE_RECV_QUEUE_CAPACITY)%nat
    (ice_recv_count s - 1)%nat.

(** The packet stored in the slot after the queued ones. *)
Definition ring_store (s : chat_ice_session_t) (buf : bytes) : chat_ice_session_t :=
  let index := ((ice_recv_head s + ice_recv_count s) mod CHAT_ICE_RECV_QUEUE_CAPACITY)%nat in
  ice_with_ring s
    (<[index := blit (slot_at (ice_recv_queue s) index) buf]> (ice_recv_queue s))
    (<[index := len buf]> (ice_recv_lens s))
    (ice_recv_head s) (ice_recv_count s + 1).

Definition on_recv (buf : cptr) (session : option chat_ice_session_t) : option chat_ice_session_t :=
  match session with
  | None => None
  | Some s =>
      match buf with
      | None => Some (ice_set_failed s)
      | Some buf =>
          if len buf >? CHAT_ICE_RECV_MAX then Some (ice_set_failed s)
          else
            Some (ring_store (if (CHAT_ICE_RECV_QUEUE_CAPACITY <=? ice_recv_count s)%nat
                              then ring_release s else s) buf)
      end
  end.

(** ** Operations *)

Section operations.
Context `{Nice}.

Definition chat_ice_session_close (session : option chat_ice_session_t) (n : nice)
    : option chat_ice_session_t * nice :=
  match session with
  | None => (None, n)
  | Some s =>
      let n :=
        match ice_agent s with
        | None => n
        | Some agent =>
            let n := if negb (ice_stream_id s =? 0)
                     then nice_agent_remove_stream agent (ice_stream_id s) n else n in
            nice_agent_unref agent n
        end in
      (chat_ice_session_init session, n)
  end.

(** An error path of [chat_ice_session_start]. *)
Definition start_fails (result : chat_ice_result_t) (s : chat_ice_session_t) (n : nice)
    : chat_ice_result_t * option chat_ice_session_t * nice :=
  let '(session, n) := chat_ice_session_close (Some s) n in (result, session, n).

(** The optional local address: parsed, then added. *)
Definition start_local_address (agent : agent_t) (config : option chat_ice_config_t) (n : nice)
    : bool * nice :=
  match config with
  | Some config =>
      if cfg_has_local_address config then
        if negb (nice_address_ok (cfg_local_address config)) then (false, n)
        else nice_agent_add_local_address agent (cfg_local_address config) n
      else (true, n)
  | None => (true, n)
  end.

Definition start_stun (agent : agent_t) (config : option chat_ice_config_t) (n : nice) : nice :=
  match config with
  | Some config =>
      if cfg_has_stun config then nice_set_stun agent (cfg_stun_host config) (cfg_stun_port config) n
      else n
  | None => n
  end.

Definition start_turn (agent : agent_t) (stream_id component_id : Z)
    (config : option chat_ice_config_t) (n : nice) : bool * nice :=
  match config with
  | Some config =>
      if cfg_has_turn config then
        nice_agent_set_relay_info agent stream_id component_id (cfg_turn_host config)
          (cfg_turn_port config) (cfg_turn_username config) (cfg_turn_password config) n
      else (true, n)
  | None => (true, n)
  end.

Definition chat_ice_session_start (session : option chat_ice_session_t) (controlling : bool)
    (config : option chat_ice_config_t) (n : nice)
    : chat_ice_result_t * option chat_ice_session_t * nice :=
  match session with
  | None => (CHAT_ICE_ERR_INVALID, None, n)
  | Some _ =>
      match chat_ice_session_close session n with
      | (None, n) => (CHAT_ICE_ERR_INVALID, None, n)
      | (Some s, n) =>
          match nice_agent_new_full n with
          | (None, n) => (CHAT_ICE_ERR_AGENT, Some s, n)
          | (Some agent, n) =>
              let n := nice_configure agent controlling
                         (match config with Some c => cfg_force_relay c | None => false end) n in
              let '(stream_id, n) := nice_agent_add_stream agent n in
              let s := ice_with_agent s (Some agent) stream_id NICE_COMPONENT_TYPE_RTP in
              if stream_id =? 0 then start_fails CHAT_ICE_ERR_AGENT s n
              else
                let '(named, n) :=
                  nice_agent_set_stream_name agent stream_id (lit "application") n in
                if negb named then start_fails CHAT_ICE_ERR_AGENT s n
                else
                  let '(addressed, n) := start_local_address agent config n in
                  if negb addressed then start_fails CHAT_ICE_ERR_AGENT s n
                  else
                    let n := start_stun agent config n in
                    let '(relayed, n) :=
                      start_turn agent stream_id NICE_COMPONENT_TYPE_RTP config n in
                    if negb relayed then start_fails CHAT_ICE_ERR_AGENT s n
                    else
                      let n := nice_connect_signals agent n in
                      let '(attached, n) :=
                        nice_agent_attach_recv agent stream_id NICE_COMPONENT_TYPE_RTP n in
                      if negb attached then start_fails CHAT_ICE_ERR_AGENT s n
                      else
                        let '(gathering, n) := nice_agent_gather_candidates agent stream_id n in
                        if negb gathering then start_fails CHAT_ICE_ERR_GATHER s n
                        else (CHAT_ICE_OK, Some s, n)
          end
      end
  end.

(** [out_sdp] is the address of a pointer of the caller; the result gives
    the string it points to after the call. *)
Definition chat_ice_session_generate_local_sdp (session : option chat_ice_session_t) (n : nice)
    : chat_ice_result_t * cptr :=
  match session with
  | None => (CHAT_ICE_ERR_INVALID, None)
  | Some s =>
      match ice_agent s with
      | None => (CHAT_ICE_ERR_INVALID, None)
      | Some agent =>
          if negb (ice_gathering_done s) then (CHAT_ICE_ERR_GATHER, None)
          else match nice_agent_generate_local_sdp agent n with
               | None | Some [] => (CHAT_ICE_ERR_SDP, None)
               | Some sdp => (CHAT_ICE_OK, Some sdp)
               end
      end
  end.

Definition chat_ice_session_set_remote_sdp (session : option chat_ice_session_t)
    (remote_sdp : cptr) (n : nice) : chat_ice_result_t * option chat_ice_session_t * nice :=
  match session with
  | None => (CHAT_ICE_ERR_INVALID, None, n)
  | Some s =>
      match ice_agent s, remote_sdp with
      | Some agent, Some remote_sdp =>
          let '(added, n) := nice_agent_parse_remote_sdp agent remote_sdp n in
          if added <? 0 then (CHAT_ICE_ERR_SDP, session, n)
          else if added =? 0 then (CHAT_ICE_ERR_REMOTE, session, n)
          else (CHAT_ICE_OK,
                Some (ice_with_flags s (ice_gathering_done s) true (ice_ready s) (ice_failed s)
                        (ice_selected_pair_known s) (ice_selected_pair_is_relayed s)), n)
      | _, _ => (CHAT_ICE_ERR_INVALID, session, n)
      end
  end.

Definition chat_ice_send (session : option chat_ice_session_t) (data : cptr) (n : nice)
    : chat_ice_result_t * nice :=
  match session, data with
  | Some s, Some data =>
      match ice_agent s with
      | None => (CHAT_ICE_ERR_INVALID, n)
      | Some agent =>
          if negb (ice_ready s) || (len data =? 0) || (len data >? CHAT_ICE_RECV_MAX)
          then (CHAT_ICE_ERR_INVALID, n)
          else
            let '(sent, n) :=
              nice_agent_send agent (ice_stream_id s) (ice_component_id s) data n in
            if negb (sent =? len data) then (CHAT_ICE_ERR_SEND, n) else (CHAT_ICE_OK, n)
      end
  | _, _ => (CHAT_ICE_ERR_INVALID, n)
  end.
End operations.

(** [out] is the caller's array; the result gives it with [out_len] after the
    call ([None]: not written). *)
Definition chat_ice_take_received (session : option chat_ice_session_t) (out : cptr)
    : chat_ice_result_t * option chat_ice_session_t * cptr * option Z :=
  match session, out with
  | Some s, Some buf =>
      if (ice_recv_count s =? 0)%nat then (CHAT_ICE_OK, session, out, Some 0)
      else
        let recv_len := len_at (ice_recv_lens s) (ice_recv_head s) in
        if len buf <? recv_len then (CHAT_ICE_ERR_BUFFER, session, out, None)
        else
          (CHAT_ICE_OK, Some (ring_release s),
           Some (blit buf (ztake recv_len (slot_at (ice_recv_queue s) (ice_recv_head s)))),
           Some recv_len)
  | _, _ => (CHAT_ICE_ERR_INVALID, session, out, None)
  end.

Definition chat_ice_selected_pair_is_relayed (session : option chat_ice_session_t) : option bool :=
  match session with
  | None => None
  | Some s => if ice_selected_pair_known s then Some (ice_selected_pair_is_relayed s) else None
  end.

Definition chat_ice_result_name (result : chat_ice_result_t) : string :=
  match result with
  | CHAT_ICE_OK => "ok"
  | CHAT_ICE_ERR_INVALID => "invalid ICE session"
  | CHAT_ICE_ERR_AGENT => "ICE agent error"
  | CHAT_ICE_ERR_GATHER => "ICE candidate gathering error"
  | CHAT_ICE_ERR_SDP => "ICE SDP error"
  | CHAT_ICE_ERR_REMOTE => "ICE remote candidate error"
  | CHAT_ICE_ERR_SEND => "ICE send error"
  | CHAT_ICE_ERR_BUFFER => "ICE buffer too small"
  end.

(** ** The ring represents a queue *)

(** [ring_repr s packets]: the slots, read from the head on, hold the packets
    padded with zeros, then zeros; the lengths accordingly. *)
Definition pad (m : bytes) : bytes := blit (zeros CHAT_ICE_RECV_MAX) m.
Record ring_repr (s : chat_ice_session_t) (packets : list bytes) : Prop := {
  rr_count : ice_recv_count s = length packets;
  rr_cap : (length packets ≤ CHAT_ICE_RECV_QUEUE_CAPACITY)%nat;
  rr_head : (ice_recv_head s < CHAT_ICE_RECV_QUEUE_CAPACITY)%nat;
  rr_fit : Forall (λ m, len m ≤ CHAT_ICE_RECV_MAX) packets;
  rr_queue : rotate (ice_recv_head s) (ice_recv_queue s) =
    (pad <$> packets)
    ++ replicate (CHAT_ICE_RECV_QUEUE_CAPACITY - length packets) (zeros CHAT_ICE_RECV_MAX);
  rr_lens : rotate (ice_recv_head s) (ice_recv_lens s) =
    (len <$> packets) ++ replicate (CHAT_ICE_RECV_QUEUE_CAPACITY - length packets) 0;
}.

Lemma rotate_length' {A} h (l : list A) : length (rotate h l) = length l.
Proof. unfold rotate. rewrite length_app, length_drop, length_take. lia. Qed.

(** Reading and writing at [(head + k) mod n] is reading and writing at [k]
    in the rotated list. *)
Lemma rotate_nth {A} h k (l : list A) d :
  (h < length l)%nat → (k < length l)%nat →
  nth ((h + k) mod length l) l d = nth k (rotate h l) d.
Proof.
  intros Hh Hk. unfold rotate. rewrite Nat.mod_small with (a := h) by done.
  destruct (decide (h + k < length l)%nat).
  - rewrite Nat.mod_small by done. rewrite app_nth1 by (rewrite length_drop; lia).
    by rewrite nth_skipn.
  - assert (E : ((h + k) mod length l = h + k - length l)%nat).
    { rewrite <- (Nat.mod_small (h + k - length l) (length l)) by lia.
      replace (h + k)%nat with (h + k - length l + 1 * length l)%nat at 1 by lia.
      apply Nat.Div0.mod_add. }
    rewrite E, app_nth2 by (rewrite length_drop; lia). rewrite length_drop.
    rewrite nth_firstn. replace (_ <? h)%nat with true by (symmetry; apply Nat.ltb_lt; lia).
    f_equal. lia.
Qed.

Lemma mod_wrap a n : (n ≤ a < 2 * n)%nat → (a mod n = a - n)%nat.
Proof.
  intros Ha. rewrite <- (Nat.mod_small (a - n) n) by lia.
  replace a with (a - n + 1 * n)%nat at 1 by lia. apply Nat.Div0.mod_add.
Qed.

Lemma rotate_insert {A} h k (l : list A) x :
  (h < length l)%nat → (k < length l)%nat →
  rotate h (<[((h + k) mod length l)%nat := x]> l) = <[k := x]> (rotate h l).
Proof.
  intros Hh Hk. unfold rotate. rewrite length_insert, (Nat.mod_small h) by done.
  destruct (decide (h + k < length l)%nat).
  - rewrite (Nat.mod_small (h + k)) by done.
    rewrite drop_insert_ge, take_insert_ge by lia.
    rewrite insert_app_l by (rewrite length_drop; lia). by replace (h + k - h)%nat with k by lia.
  - rewrite (mod_wrap (h + k)) by lia.
    rewrite drop_insert_lt by lia. rewrite insert_app_r_alt by (rewrite length_drop; lia).
    rewrite length_drop. rewrite take_insert_lt by lia. do 2 f_equal. lia.
Qed.

Lemma rotate_step {A} h (l : list A) x r :
  (h < length l)%nat → rotate h l = x :: r → rotate ((h + 1) mod length l) l = r ++ [x].
Proof.
  intros Hh. unfold rotate. rewrite (Nat.mod_small h) by done.
  destruct (lookup_lt_is_Some_2 l h Hh) as [y Hy]. rewrite (drop_S _ y) by done.
  intros [= -> <-]. destruct (decide (h + 1 < length l)%nat).
  - assert (E : ((h + 1) mod length l = S h)%nat) by (rewrite Nat.mod_small; lia).
    rewrite E, (Nat.mod_small (S h)) by lia.
    by rewrite (take_S_r _ h x), app_assoc by done.
  - assert (E : ((h + 1) mod length l = 0)%nat) by (rewrite mod_wrap; lia).
    rewrite E, Nat.Div0.mod_0_l. cbn [take drop]. rewrite app_nil_r, (drop_ge l (S h)) by lia.
    cbn [app]. rewrite <- take_S_r by done. by rewrite firstn_all2 by lia.
Qed.

Lemma pad_facts m : len m ≤ CHAT_ICE_RECV_MAX → len (pad m) = CHAT_ICE_RECV_MAX
  ∧ ztake (len m) (pad m) = m ∧ wipe_prefix (len m) (pad m) = zeros CHAT_ICE_RECV_MAX.
Proof.
  intros Hm. unfold pad, wipe_prefix. split_and!.
  - by rewrite len_blit.
  - by apply ztake_blit.
  - unfold blit. rewrite zdrop_app_len by done. unfold zeros. rewrite drop_replicate.
    rewrite <- replicate_add. f_equal. unfold len in *. lia.
Qed.

(** Lengths of the arrays under the representation. *)
Lemma repr_lengths s packets :
  ring_repr s packets →
  length (ice_recv_queue s) = 8%nat ∧ length (ice_recv_lens s) = 8%nat.
Proof.
  intros [_ Hcap _ _ Hq Hl]. unfold CHAT_ICE_RECV_QUEUE_CAPACITY in *.
  apply (f_equal length) in Hq, Hl. rewrite rotate_length' in Hq. rewrite rotate_length' in Hl.
  rewrite Hq, Hl, !length_app, !length_fmap, !length_replicate. lia.
Qed.

(** The head of the ring is the head of the queue. *)
Lemma repr_head s m packets :
  ring_repr s (m :: packets) →
  len_at (ice_recv_lens s) (ice_recv_head s) = len m
  ∧ slot_at (ice_recv_queue s) (ice_recv_head s) = pad m.
Proof.
  intros Hr. destruct (repr_lengths s _ Hr) as [Lq Ll].
  destruct Hr as [Hc Hcap Hh Hfit Hq Hl]. unfold CHAT_ICE_RECV_QUEUE_CAPACITY in *.
  set (h := ice_recv_head s) in *. split.
  - unfold len_at. replace h with ((h + 0) mod length (ice_recv_lens s))%nat
      by (rewrite Ll, Nat.add_0_r, Nat.mod_small; lia).
    rewrite rotate_nth by lia. by rewrite Hl.
  - unfold slot_at. replace h with ((h + 0) mod length (ice_recv_queue s))%nat
      by (rewrite Lq, Nat.add_0_r, Nat.mod_small; lia).
    rewrite rotate_nth by lia. by rewrite Hq.
Qed.

(** Releasing the head drops the first packet. *)
Lemma release_repr s m packets :
  ring_repr s (m :: packets) → ring_repr (ring_release s) packets.
Proof.
  intros Hr. destruct (repr_lengths s _ Hr) as [Lq Ll].
  destruct (repr_head _ _ _ Hr) as [Ehl Ehq].
  destruct Hr as [Hc Hcap Hh Hfit Hq Hl]. unfold CHAT_ICE_RECV_QUEUE_CAPACITY in *.
  cbn [length] in *. apply Forall_cons in Hfit as [Hm Hfit].
  set (h := ice_recv_head s) in *.
  assert (Hrot : ∀ {A} (l : list A) x y r, length l = 8%nat → rotate h l = y :: r →
            rotate ((h + 1) mod 8) (<[h := x]> l) = r ++ [x]).
  { intros A l x y r Hlen Hrl. rewrite <- Hlen, <- (length_insert l h x).
    apply rotate_step; [rewrite length_insert; lia|].
    replace h with ((h + 0) mod length l)%nat at 2
      by (rewrite Hlen, Nat.add_0_r, Nat.mod_small; lia).
    rewrite rotate_insert by lia. by rewrite Hrl. }
  split; cbn [ring_release ice_with_ring ice_recv_count ice_recv_head ice_recv_queue ice_recv_lens];
    fold h; unfold CHAT_ICE_RECV_QUEUE_CAPACITY.
  - lia.
  - lia.
  - apply Nat.mod_upper_bound. lia.
  - done.
  - rewrite Ehl, Ehq, (proj2 (proj2 (pad_facts m Hm))). rewrite (Hrot _ _ _ _ _ Lq Hq).
    replace (8 - length packets)%nat with (8 - S (length packets) + 1)%nat by lia.
    rewrite replicate_add. by rewrite app_assoc.
  - rewrite (Hrot _ _ _ _ _ Ll Hl).
    replace (8 - length packets)%nat with (8 - S (length packets) + 1)%nat by lia.
    rewrite replicate_add. by rewrite app_assoc.
Qed.

(** Storing in the first free slot appends a packet. *)
Lemma store_repr s packets buf :
  ring_repr s packets → (length packets < CHAT_ICE_RECV_QUEUE_CAPACITY)%nat →
  len buf ≤ CHAT_ICE_RECV_MAX → ring_repr (ring_store s buf) (packets ++ [buf]).
Proof.
  intros Hr Hlt Hb. destruct (repr_lengths s _ Hr) as [Lq Ll].
  destruct Hr as [Hc Hcap Hh Hfit Hq Hl]. unfold CHAT_ICE_RECV_QUEUE_CAPACITY in *.
  unfold ring_store, CHAT_ICE_RECV_QUEUE_CAPACITY. rewrite Hc.
  set (h := ice_recv_head s) in *. set (k := length packets) in *.
  assert (Erep : ∀ {A} (x : A), replicate (8 - k) x = x :: replicate (8 - (k + 1)) x).
  { intros A x. by replace (8 - k)%nat with (S (8 - (k + 1))) by lia. }
  assert (Eslot : slot_at (ice_recv_queue s) ((h + k) mod 8) = zeros CHAT_ICE_RECV_MAX).
  { unfold slot_at. rewrite <- Lq, rotate_nth by lia. rewrite Hq, app_nth2, length_fmap by
      (rewrite length_fmap; lia). fold k. by rewrite Nat.sub_diag, Erep. }
  split; cbn [ice_with_ring ice_recv_count ice_recv_head ice_recv_queue ice_recv_lens];
    rewrite ?length_app; cbn [length]; fold h k; unfold CHAT_ICE_RECV_QUEUE_CAPACITY.
  - lia.
  - lia.
  - done.
  - apply Forall_app. auto.
  - rewrite Eslot, <- Lq at 1. rewrite rotate_insert by lia. rewrite Hq, insert_app_r_alt
      by (rewrite length_fmap; lia). rewrite length_fmap. fold k. rewrite Nat.sub_diag, Erep.
    cbn. rewrite fmap_app, <- app_assoc. done.
  - rewrite <- Ll at 1. rewrite rotate_insert by lia. rewrite Hl, insert_app_r_alt
      by (rewrite length_fmap; lia). rewrite length_fmap. fold k. rewrite Nat.sub_diag, Erep.
    cbn. rewrite fmap_app, <- app_assoc. done.
Qed.

Lemma set_failed_repr s packets : ring_repr s packets → ring_repr (ice_set_failed s) packets.
Proof. by intros [? ? ? ? ? ?]. Qed.

Lemma init_repr s0 s : chat_ice_session_init (Some s0) = Some s → ring_repr s [].
Proof. intros [= <-]. split; cbn; try done; unfold CHAT_ICE_RECV_QUEUE_CAPACITY; lia. Qed.

(** ** The queue it implements *)

Inductive ring_op := OpRecv (buf : bytes) | OpTake (out : bytes).
Abbreviation ring_out := (option (chat_ice_result_t * cptr * option Z)).

Definition ring_exec (op : ring_op) (s : chat_ice_session_t) : ring_out * chat_ice_session_t :=
  match op with
  | OpRecv buf => (None, default s (on_recv (Some buf) (Some s)))
  | OpTake out =>
      match chat_ice_take_received (Some s) (Some out) with
      | (res, s', buf, n) => (Some (res, buf, n), default s s')
      end
  end.

(** A queue of at most eight packets; a packet that arrives when it is full
    replaces the oldest, a packet that is too large is refused. *)
Definition queue_exec (op : ring_op) (q : list bytes) : ring_out * list bytes :=
  match op with
  | OpRecv buf =>
      (None, if len buf >? CHAT_ICE_RECV_MAX then q
             else (if (CHAT_ICE_RECV_QUEUE_CAPACITY <=? length q)%nat then tail q else q) ++ [buf])
  | OpTake out =>
      match q with
      | [] => (Some (CHAT_ICE_OK, Some out, Some 0), q)
      | m :: q' =>
          if len out <? len m then (Some (CHAT_ICE_ERR_BUFFER, Some out, None), q)
          else (Some (CHAT_ICE_OK, Some (blit out m), Some (len m)), q')
      end
  end.

Fixpoint ring_run {S} (exec : ring_op → S → ring_out * S) (ops : list ring_op) (st : S)
    : list ring_out * S :=
  match ops with
  | [] => ([], st)
  | op :: ops' =>
      let '(o, st) := exec op st in
      let '(os, st) := ring_run exec ops' st in (o :: os, st)
  end.

Lemma recv_repr s packets buf :
  ring_repr s packets →
  ring_repr (ring_exec (OpRecv buf) s).2 (queue_exec (OpRecv buf) packets).2.
Proof.
  intros Hr. cbn [ring_exec queue_exec snd on_recv].
  destruct (len buf >? CHAT_ICE_RECV_MAX) eqn:E; bdec; [by apply set_failed_repr|].
  cbn [default from_option id]. rewrite (rr_count _ _ Hr).
  destruct (CHAT_ICE_RECV_QUEUE_CAPACITY <=? length packets)%nat eqn:Ec; bdec.
  - pose proof (rr_cap _ _ Hr). unfold CHAT_ICE_RECV_QUEUE_CAPACITY in *.
    destruct packets as [|m packets]; cbn [length tail] in *; [lia|].
    apply store_repr; [by eapply release_repr|unfold CHAT_ICE_RECV_QUEUE_CAPACITY; lia|done].
  - by apply store_repr.
Qed.

Lemma ring_step op s packets :
  ring_repr s packets →
  (ring_exec op s).1 = (queue_exec op packets).1
  ∧ ring_repr (ring_exec op s).2 (queue_exec op packets).2.
Proof.
  intros Hr. destruct op as [buf|out]; [by split; [|apply recv_repr]|].
  cbn [ring_exec queue_exec chat_ice_take_received]. rewrite (rr_count _ _ Hr).
  destruct packets as [|m packets]; [done|]. cbn [length Nat.eqb].
  destruct (repr_head _ _ _ Hr) as [El Es]. rewrite El.
  destruct (len out <? len m); [done|]. rewrite Es.
  assert (Hm : len m ≤ CHAT_ICE_RECV_MAX).
  { pose proof (rr_fit _ _ Hr) as Hf. by apply Forall_cons in Hf as [? _]. }
  rewrite (proj1 (proj2 (pad_facts m Hm))). split; [done|]. by eapply release_repr.
Qed.

(** C11: any interleaving of packets from the network and reads by the daemon
    gives the daemon what a queue of eight packets gives it, in order, the
    oldest dropped when the queue is full; and at every moment every byte of
    the ring outside the queued packets is zero, so nothing of a packet that
    was read or dropped stays in memory. *)
Theorem ring_refines_queue s0 s ops :
  chat_ice_session_init (Some s0) = Some s →
  (ring_run ring_exec ops s).1 = (ring_run queue_exec ops []).1
  ∧ ring_repr (ring_run ring_exec ops s).2 (ring_run queue_exec ops []).2.
Proof.
  intros Hi. apply init_repr in Hi. revert s Hi. generalize (@nil bytes) as q.
  induction ops as [|op ops IH]; intros q s Hr; [done|]. cbn [ring_run].
  destruct (ring_step op s q Hr) as [Eo Hr'].
  destruct (ring_exec op s) as [o s'], (queue_exec op q) as [o' q']. cbn [fst snd] in *.
  destruct (IH q' s' Hr') as [Eos Hrs].
  destruct (ring_run ring_exec ops s'), (ring_run queue_exec ops q'). cbn [fst snd] in *.
  by subst.
Qed.

(** ** Agents *)

Section agents.
Context `{NiceOk}.

Definition session_agents (s : chat_ice_session_t) : gset agent_t :=
  match ice_agent s with Some a => {[a]} | None => ∅ end.

(** The library holds the session's agent, if any, and [others]. *)
Definition owns (s : chat_ice_session_t) (others : gset agent_t) (n : nice) : Prop :=
  session_agents s ## others ∧ nice_agents n = session_agents s ∪ others.

(** A session as [chat_ice_session_init] leaves it. *)
Definition session_fresh (s : chat_ice_session_t) : Prop :=
  ring_repr s [] ∧ ice_gathering_done s = false ∧ ice_remote_set s = false
  ∧ ice_ready s = false ∧ ice_failed s = false ∧ ice_selected_pair_known s = false
  ∧ ice_selected_pair_is_relayed s = false.

Lemma init_fresh s0 s :
  chat_ice_session_init (Some s0) = Some s → session_fresh s ∧ ice_agent s = None.
Proof.
  intros Hi. split; [|by injection Hi as <-].
  split; [by eapply init_repr|]. by injection Hi as <-.
Qed.

Lemma close_owns s others n s' n' :
  owns s others n → chat_ice_session_close (Some s) n = (s', n') →
  ∃ s1, s' = Some s1 ∧ session_fresh s1 ∧ ice_agent s1 = None ∧ owns s1 others n'.
Proof.
  intros [Hd Hn] E. cbn [chat_ice_session_close] in E.
  destruct (chat_ice_session_init (Some s)) as [s1|] eqn:Ei; [|done].
  destruct (init_fresh _ _ Ei) as [Hf Ha]. injection E as <- En.
  exists s1. split_and!; [done..|]. unfold owns, session_agents in *. rewrite Ha.
  split; [set_solver|]. destruct (ice_agent s) as [a|]; rewrite <- En; [|set_solver].
  rewrite unref_agent. destruct (negb _); rewrite ?remove_stream_agents; set_solver.
Qed.

Lemma start_fails_owns res s others n res' s' n' :
  owns s others n → start_fails res s n = (res', s', n') →
  ∃ s1, s' = Some s1 ∧ res' = res ∧ session_fresh s1 ∧ ice_agent s1 = None ∧ owns s1 others n'.
Proof.
  intros Ho. unfold start_fails.
  destruct (chat_ice_session_close (Some s) n) as [s1 n1] eqn:Ec. intros [= <- <- <-].
  destruct (close_owns _ _ _ _ _ Ho Ec) as (s2 & -> & ?). by exists s2.
Qed.

(** The calls between the creation of the agent and the end do not create or
    release agents. *)
Lemma start_local_address_agents a config n :
  nice_agents (start_local_address a config n).2 = nice_agents n.
Proof.
  unfold start_local_address. destruct config; [|done]. case_if; [|done]. case_if; [done|].
  apply local_address_agents.
Qed.
Lemma start_stun_agents a config n : nice_agents (start_stun a config n) = nice_agents n.
Proof. unfold start_stun. destruct config; [|done]. case_if; [|done]. apply stun_agents. Qed.
Lemma start_turn_agents a s c config n :
  nice_agents (start_turn a s c config n).2 = nice_agents n.
Proof. unfold start_turn. destruct config; [|done]. case_if; [|done]. apply relay_agents. Qed.

Lemma owns_agents s others n n' : owns s others n → nice_agents n' = nice_agents n → owns s others n'.
Proof. unfold owns. intros [? ?] ->. done. Qed.

(** What [chat_ice_session_start] guarantees. *)
Definition start_post (others : gset agent_t)
    (r : chat_ice_result_t * option chat_ice_session_t * nice) : Prop :=
  ∃ s1, r.1.2 = Some s1 ∧ session_fresh s1 ∧ owns s1 others r.2
        ∧ (r.1.1 = CHAT_ICE_OK ↔ is_Some (ice_agent s1)).

Lemma start_fails_post res s others n :
  res ≠ CHAT_ICE_OK → owns s others n → start_post others (start_fails res s n).
Proof.
  intros Hres Ho. destruct (start_fails res s n) as [[res' s'] n'] eqn:E.
  destruct (start_fails_owns _ _ _ _ _ _ _ Ho E) as (s1 & -> & -> & Hf & Ha & Ho1).
  exists s1. split_and!; [done..|]. rewrite Ha. split; [done|by intros []].
Qed.

(** One more call that keeps the agents: the start goes on or fails. *)
Lemma start_stage s others n (call : bool * nice) res (k : nice → _) :
  owns s others n → nice_agents call.2 = nice_agents n → res ≠ CHAT_ICE_OK →
  (∀ n', owns s others n' → start_post others (k n')) →
  start_post others (let '(ok, n) := call in
                     if negb ok then start_fails res s n else k n).
Proof.
  intros Ho Ha Hres Hk. destruct call as [[] n']; cbn [negb snd] in *.
  - apply Hk. by eapply owns_agents.
  - apply start_fails_post; [done|]. by eapply owns_agents.
Qed.

Lemma start_keeps_agents s controlling config others n :
  owns s others n → start_post others (chat_ice_session_start (Some s) controlling config n).
Proof.
  intros Ho.
  unfold chat_ice_session_start.
  destruct (chat_ice_session_close (Some s) n) as [s0' n0] eqn:Ec.
  destruct (close_owns _ _ _ _ _ Ho Ec) as (s0 & -> & Hf0 & Ha0 & Ho0). clear Ho Ec.
  destruct (nice_agent_new_full n0) as [[a|] n1] eqn:En.
  2: { exists s0. split_and!; [done..| |].
       - eapply owns_agents; [done|]. by apply new_agent_none.
       - rewrite Ha0. split; [done|by intros []]. }
  destruct (new_agent_fresh _ _ _ En) as [Hfresh Hnew].
  match goal with |- context [nice_agent_add_stream a ?m] =>
    pose proof (add_stream_agents m a) as Hs; rewrite configure_agents in Hs;
    destruct (nice_agent_add_stream a m) as [sid n2] end.
  cbn [snd] in Hs. set (s2 := ice_with_agent s0 (Some a) sid NICE_COMPONENT_TYPE_RTP).
  assert (Hf : session_fresh s2) by by destruct Hf0 as [[? ? ? ? ? ?] ?].
  assert (Ho : owns s2 others n2).
  { destruct Ho0 as [Hd0 Hn0]. unfold owns, session_agents in *. cbn.
    rewrite Ha0 in Hn0. rewrite Hs, Hnew, Hn0 in *. set_solver. }
  destruct (sid =? 0); [by apply start_fails_post|].
  apply (start_stage s2 others n2); [done|apply stream_name_agents|done|intros n3 Ho3].
  apply (start_stage s2 others n3); [done|apply start_local_address_agents|done|intros n4 Ho4].
  eapply (start_stage s2 others (start_stun a config n4));
    [eapply owns_agents; [done|apply start_stun_agents]|apply start_turn_agents|done|intros n5 Ho5].
  eapply (start_stage s2 others (nice_connect_signals a n5));
    [eapply owns_agents; [done|apply signals_agents]|apply attach_agents|done|intros n6 Ho6].
  apply (start_stage s2 others n6); [done|apply gather_agents|done|intros n7 Ho7].
  exists s2. split_and!; [done..|]. by split; [eexists|].
Qed.

(** C32: starting a session first releases the agent it had, and then holds
    exactly one new agent if it succeeds and none if it fails, on every error
    path; the agents of others are untouched.  The session starts with an
    empty receive queue and all its flags cleared. *)
Theorem start_owns_one_agent s controlling config others n res s' n' :
  owns s others n →
  chat_ice_session_start (Some s) controlling config n = (res, s', n') →
  ∃ s1, s' = Some s1 ∧ session_fresh s1 ∧ owns s1 others n'
        ∧ (res = CHAT_ICE_OK ↔ is_Some (ice_agent s1)).
Proof. intros Ho E. pose proof (start_keeps_agents s controlling config others n Ho) as Hp. by rewrite E in Hp. Qed.
End agents.

(** ** Concrete instances *)

(** A library in which every call succeeds, except that it refuses every relay;
    its state is the agents in use. *)
Module Reference.
Record library := { lib_agents : gset agent_t }.
Definition fresh_agent (n : library) : agent_t := fresh (lib_agents n).
Lemma fresh_agent_spec n : fresh_agent n ∉ lib_agents n.
Proof. exact (is_fresh (lib_agents n)). Qed.

#[export] Instance nice_lib : Nice := {
  nice := library;
  nice_agent_new_full n :=
    let a := fresh_agent n in
    (Some a, {| lib_agents := {[a]} ∪ lib_agents n |});
  nice_configure _ _ _ n := n;
  nice_agent_add_stream _ n := (1, n);
  nice_agent_set_stream_name _ _ _ n := (true, n);
  nice_address_ok _ := true;
  nice_agent_add_local_address _ _ n := (true, n);
  nice_set_stun _ _ _ n := n;
  nice_agent_set_relay_info _ _ _ _ _ _ _ n := (false, n);
  nice_connect_signals _ n := n;
  nice_agent_attach_recv _ _ _ n := (true, n);
  nice_agent_gather_candidates _ _ n := (true, n);
  nice_agent_remove_stream _ _ n := n;
  nice_agent_unref a n := {| lib_agents := lib_agents n ∖ {[a]} |};
  nice_agent_generate_local_sdp _ _ := Some (lit "v=0");
  nice_agent_parse_remote_sdp _ _ n := (1, n);
  nice_agent_send _ _ _ data n := (len data, n);
  nice_agent_get_selected_pair _ _ _ _ := None;
  nice_agents := lib_agents;
}.

#[export] Instance nice_lib_ok : NiceOk.
Proof.
  split; try done.
  intros n a n' E. cbn in E. injection E as <- <-. split; [|done]. apply fresh_agent_spec.
Qed.

Definition session0 : chat_ice_session_t := ice_initial.
Definition library0 : @nice nice_lib := {| lib_agents := ∅ |}.
(** A configuration whose TURN relay the library refuses. *)
Definition turn_config : chat_ice_config_t :=
  {| cfg_local_address := []; cfg_stun_host := []; cfg_stun_port := 0;
     cfg_turn_host := lit "turn.example"; cfg_turn_port := 3478;
     cfg_turn_username := lit "u"; cfg_turn_password := lit "p";
     cfg_has_stun := false; cfg_has_turn := true; cfg_has_local_address := false;
     cfg_force_relay := true |}.
End Reference.

Import Reference.

(** Nine packets arrive, three reads follow: the first packet is lost. *)
Lemma ring_refines_queue_witness :
  let ops := ((λ i, OpRecv [byte_of i]) <$> seqZ 1 9) ++ replicate 3 (OpTake (zeros 2)) in
  drop 9 (ring_run ring_exec ops session0).1
  = [ Some (CHAT_ICE_OK, Some [byte_of 2; NUL], Some 1);
      Some (CHAT_ICE_OK, Some [byte_of 3; NUL], Some 1);
      Some (CHAT_ICE_OK, Some [byte_of 4; NUL], Some 1) ].
Proof.
  intros ops. destruct (ring_refines_queue session0 session0 ops) as [-> _]; [reflexivity|].
  vm_compute. reflexivity.
Defined.

Lemma start_owns_one_agent_witness :
  (∃ s1 n1, chat_ice_session_start (Some session0) true None library0
              = (CHAT_ICE_OK, Some s1, n1) ∧ is_Some (ice_agent s1))
  ∧ ∃ s2 n2, chat_ice_session_start (Some session0) true (Some turn_config) library0
              = (CHAT_ICE_ERR_AGENT, Some s2, n2) ∧ nice_agents n2 = ∅.
Proof.
  assert (Ho : owns session0 ∅ library0) by by split.
  split.
  - destruct (chat_ice_session_start (Some session0) true None library0) as [[res s'] n'] eqn:E.
    destruct (start_owns_one_agent session0 true None ∅ library0 _ _ _ Ho E)
      as (s1 & -> & _ & _ & Hok).
    assert (res = CHAT_ICE_OK) as -> by (vm_compute in E; congruence).
    exists s1, n'. split; [reflexivity|]. by apply Hok.
  - destruct (chat_ice_session_start (Some session0) true (Some turn_config) library0)
      as [[res s'] n'] eqn:E.
    destruct (start_owns_one_agent session0 true (Some turn_config) ∅ library0 _ _ _ Ho E)
      as (s1 & -> & _ & [_ Ha] & Hok).
    assert (res = CHAT_ICE_ERR_AGENT) as -> by (vm_compute in E; congruence).
    exists s1, n'. split; [reflexivity|]. rewrite Ha. unfold session_agents.
    destruct (ice_agent s1) as [a|] eqn:Ea; [|set_solver].
    discriminate (proj2 Hok (mk_is_Some _ _ eq_refl)).
Defined.
