(* ===== verification/Base64.v ===== *)
(** * Base64, as the daemon uses it

    libsodium's [sodium_bin2base64] and [sodium_base642bin] with the variant
    [sodium_base64_VARIANT_URLSAFE_NO_PADDING], the only one the sources use:
    the functions are the class [SodiumBase64], their documented behaviour is
    [SodiumBase64Ok], and the module [Base64Reference] gives an executable
    codec that satisfies it. *)

From S2P Require Import Prelude CLib.

(** [sodium_base64_encoded_len(n, variant)] and the macro
    [sodium_base64_ENCODED_LEN]: the characters and the terminating NUL. *)
Definition sodium_base64_encoded_len (n : Z) : Z :=
  n / 3 * 4 + (if n mod 3 =? 0 then 0 else n mod 3 + 1) + 1.

(** [sodium_base642bin maxlen s]: [None] for the result -1 (with [ignore] and
    [b64_end] NULL, so that the whole string has to be read). *)
Class SodiumBase64 := {
  sodium_bin2base64 : bytes → bytes;
  sodium_base642bin : Z → bytes → option bytes;
}.

(** The characters of the variant. *)
Definition is_base64_char (c : byte) : bool :=
  isalnum c || bool_decide (c = "-"%char) || bool_decide (c = "_"%char).

Class SodiumBase64Ok `{SodiumBase64} := {
  bin2base64_len b : len (sodium_bin2base64 b) + 1 = sodium_base64_encoded_len (len b);
  bin2base64_chars b : Forall (λ c, is_base64_char c = true) (sodium_bin2base64 b);
  base642bin_bin2base64 n b : len b ≤ n → sodium_base642bin n (sodium_bin2base64 b) = Some b;
  base642bin_len n s b : sodium_base642bin n s = Some b → len b ≤ n;
}.

Lemma base64_char_value c :
  is_base64_char c = true →
  45 = byte_val c ∨ 48 ≤ byte_val c ≤ 57 ∨ 65 ≤ byte_val c ≤ 90 ∨ 95 = byte_val c
  ∨ 97 ≤ byte_val c ≤ 122.
Proof.
  unfold is_base64_char, isalnum. intros Hc.
  repeat (apply orb_true_iff in Hc as [Hc|Hc]); bdec; subst; byte_consts; lia.
Qed.

Section base64.
Context `{SodiumBase64Ok}.

Lemma bin2base64_cstr b : is_cstr (sodium_bin2base64 b).
Proof.
  eapply Forall_impl; [apply bin2base64_chars|].
  intros c Hc%base64_char_value ->. change (byte_val NUL) with 0 in Hc. lia.
Qed.

Lemma encoded_len_mono a b :
  0 ≤ a ≤ b → sodium_base64_encoded_len a ≤ sodium_base64_encoded_len b.
Proof.
  unfold sodium_base64_encoded_len. intros. case_ifs; Z.div_mod_to_equations; lia.
Qed.
End base64.

Module Base64Reference.
Definition b64_char (v : Z) : byte :=
  byte_of (if v <? 26 then 65 + v else if v <? 52 then 71 + v
           else if v <? 62 then v - 4 else if v =? 62 then 45 else 95).
Definition b64_val (c : byte) : option Z :=
  let v := byte_val c in
  if (65 <=? v) && (v <=? 90) then Some (v - 65)
  else if (97 <=? v) && (v <=? 122) then Some (v - 71)
  else if (48 <=? v) && (v <=? 57) then Some (v + 4)
  else if v =? 45 then Some 62 else if v =? 95 then Some 63 else None.

Fixpoint encode (b : bytes) : bytes :=
  match b with
  | x :: y :: z :: b' =>
      let x := byte_val x in let y := byte_val y in let z := byte_val z in
      b64_char (x / 4) :: b64_char (x mod 4 * 16 + y / 16)
        :: b64_char (y mod 16 * 4 + z / 64) :: b64_char (z mod 64) :: encode b'
  | [x; y] =>
      let x := byte_val x in let y := byte_val y in
      [b64_char (x / 4); b64_char (x mod 4 * 16 + y / 16); b64_char (y mod 16 * 4)]
  | [x] => let x := byte_val x in [b64_char (x / 4); b64_char (x mod 4 * 16)]
  | [] => []
  end.
Fixpoint decode (s : bytes) : option bytes :=
  match s with
  | [] => Some []
  | [c; d] =>
      match b64_val c, b64_val d with
      | Some c, Some d => Some [byte_of (c * 4 + d / 16)]
      | _, _ => None
      end
  | [c; d; e] =>
      match b64_val c, b64_val d, b64_val e with
      | Some c, Some d, Some e => Some [byte_of (c * 4 + d / 16); byte_of (d mod 16 * 16 + e / 4)]
      | _, _, _ => None
      end
  | c :: d :: e :: f :: s' =>
      match b64_val c, b64_val d, b64_val e, b64_val f, decode s' with
      | Some c, Some d, Some e, Some f, Some b =>
          Some (byte_of (c * 4 + d / 16) :: byte_of (d mod 16 * 16 + e / 4)
                  :: byte_of (e mod 4 * 64 + f) :: b)
      | _, _, _, _, _ => None
      end
  | _ => None
  end.

#[export] Instance base64 : SodiumBase64 := {
  sodium_bin2base64 := encode;
  sodium_base642bin n s :=
    match decode s with
    | Some b => if len b <=? n then Some b else None
    | None => None
    end;
}.

Lemma b64_char_facts v :
  0 ≤ v < 64 → is_base64_char (b64_char v) = true ∧ b64_val (b64_char v) = Some v.
Proof.
  intros Hv. assert (v ∈ seqZ 0 64) as Hin by (apply elem_of_seqZ; lia).
  clear Hv. revert v Hin.
  apply (Forall_forall
    (λ v, is_base64_char (b64_char v) = true ∧ b64_val (b64_char v) = Some v)).
  apply (bool_decide_eq_true (Forall _ (seqZ 0 64))). vm_compute. reflexivity.
Qed.

(** Induction three bytes at a time. *)
Lemma triple_ind (P : bytes → Prop) :
  P [] → (∀ x, P [x]) → (∀ x y, P [x; y]) → (∀ x y z b, P b → P (x :: y :: z :: b)) →
  ∀ b, P b.
Proof.
  intros P0 P1 P2 P3. fix go 1. intros [|x [|y [|z b]]]; [done|apply P1|apply P2|].
  apply P3, go.
Qed.

Ltac b64_range :=
  repeat match goal with
  | |- context [byte_val ?c] =>
      lazymatch goal with
      | _ : 0 ≤ byte_val c < 256 |- _ => fail
      | _ => pose proof (byte_val_range c)
      end
  end; Z.div_mod_to_equations; lia.
Ltac b64_byte := match goal with
  | |- byte_of _ = ?x => transitivity (byte_of (byte_val x)); [f_equal; b64_range|apply byte_of_val]
  end.

Lemma decode_encode b : decode (encode b) = Some b.
Proof.
  induction b as [|x|x y|x y z b IH] using triple_ind; [done|..]; cbn [encode decode];
    rewrite !(λ v H, proj2 (b64_char_facts v H)) by b64_range; [| |rewrite IH];
    repeat f_equal; b64_byte.
Qed.

#[export] Instance base64_ok : SodiumBase64Ok.
Proof.
  split.
  - intros b. change (len (encode b) + 1 = sodium_base64_encoded_len (len b)).
    unfold sodium_base64_encoded_len.
    induction b as [|x|x y|x y z b IH] using triple_ind; [done..|]. cbn [encode].
    rewrite !len_cons. revert IH. generalize (len (encode b)).
    pose proof (len_nonneg b). case_ifs; intros; Z.div_mod_to_equations; lia.
  - intros b. change (Forall (λ c, is_base64_char c = true) (encode b)).
    induction b as [|x|x y|x y z b IH] using triple_ind; cbn [encode]; [by constructor|..];
      repeat (constructor; [apply b64_char_facts; b64_range|]); done.
  - intros n b Hn. cbn. rewrite decode_encode. by rewrite (proj2 (Z.leb_le _ _) Hn).
  - cbn. intros n s b Hb. case_match; [|done]. case_if_in Hb; by simplify_eq.
Qed.
End Base64Reference.
