(* ===== verification/Users.v ===== *)
(** * The server's user registry (src/server/users.h, src/server/users.c)

    A fixed array of 256 entries of which the first [count] are live.  The
    concrete operations are modelled on that array; [users_abs] is the
    directory they implement, a finite map from names to identity keys and
    connections, and the refinement lemmas relate the two. *)

From S2P Require Import Prelude CLib Protocol Sodium.

(** ** Data *)

Definition CHAT_SERVER_MAX_USERS : nat := 256.
Arguments CHAT_SERVER_MAX_USERS : simpl never.

(** [struct lws *] and [void *session]: opaque non-NULL addresses; a pointer
    that may be NULL is an [option]. *)
Abbreviation wsi_t := positive.
Abbreviation session_ptr := positive.

Inductive chat_server_users_result_t :=
  | CHAT_SERVER_USERS_OK
  | CHAT_SERVER_USERS_ERR_INVALID
  | CHAT_SERVER_USERS_ERR_FULL
  | CHAT_SERVER_USERS_ERR_EXISTS
  | CHAT_SERVER_USERS_ERR_NOT_FOUND.

#[export] Instance chat_server_users_result_eq_dec : EqDecision chat_server_users_result_t.
Proof. solve_decision. Defined.

Record chat_server_user_t := {
  user_username : bytes;
  user_identity_pk : bytes;
  user_wsi : option wsi_t;
  user_session : option session_ptr;
  user_online : bool;
}.

Record chat_server_users_t := {
  reg_users : list chat_server_user_t;
  reg_count : nat;
}.

(** ** Operations

    The registry is always [&state.users], the address of an object, so the
    tests [registry == NULL] are never true and are left out. *)

Definition chat_server_users_init (registry : chat_server_users_t) : chat_server_users_t :=
  {| reg_users := reg_users registry; reg_count := 0 |}.

(** The loop of [chat_server_users_find] from index [i], [fuel] entries left.
    The result is the index of the entry whose address the code returns. *)
Fixpoint users_find_from (users : list chat_server_user_t) (username : bytes)
    (i fuel : nat) : option nat :=
  match fuel with
  | O => None
  | S fuel' =>
      match users !! i with
      | None => None
      | Some user =>
          if streq (user_username user) username then Some i
          else users_find_from users username (S i) fuel'
      end
  end.

Definition chat_server_users_find (registry : chat_server_users_t) (username : cptr)
    : option nat :=
  match username with
  | None => None
  | Some username => users_find_from (reg_users registry) username 0 (reg_count registry)
  end.

(** The same loop, returning a mutable entry. *)
Definition chat_server_users_find_mut (registry : chat_server_users_t) (username : cptr)
    : option nat :=
  match username with
  | None => None
  | Some username => users_find_from (reg_users registry) username 0 (reg_count registry)
  end.

Definition chat_server_users_register (registry : chat_server_users_t)
    (username : cptr) (identity_pk : option bytes)
    : chat_server_users_result_t * chat_server_users_t :=
  match identity_pk, username with
  | Some identity_pk, Some name =>
      if negb (chat_username_is_valid username) then (CHAT_SERVER_USERS_ERR_INVALID, registry)
      else if (CHAT_SERVER_MAX_USERS <=? reg_count registry)%nat then
        (CHAT_SERVER_USERS_ERR_FULL, registry)
      else match chat_server_users_find registry username with
           | Some _ => (CHAT_SERVER_USERS_ERR_EXISTS, registry)
           | None =>
               let user := {| user_username := snprintf_buf (CHAT_USERNAME_MAX_LEN + 1) name;
                              user_identity_pk := identity_pk;
                              user_wsi := None;
                              user_session := None;
                              user_online := false |} in
               (CHAT_SERVER_USERS_OK,
                 {| reg_users := <[reg_count registry := user]> (reg_users registry);
                    reg_count := S (reg_count registry) |})
           end
  | _, _ => (CHAT_SERVER_USERS_ERR_INVALID, registry)
  end.

Definition chat_server_users_set_online (registry : chat_server_users_t) (username : cptr)
    (wsi : option wsi_t) (session : option session_ptr)
    : chat_server_users_result_t * chat_server_users_t :=
  match chat_server_users_find_mut registry username with
  | None => (CHAT_SERVER_USERS_ERR_NOT_FOUND, registry)
  | Some i =>
      (CHAT_SERVER_USERS_OK,
        {| reg_users := alter (λ user, {| user_username := user_username user;
                                          user_identity_pk := user_identity_pk user;
                                          user_wsi := wsi;
                                          user_session := session;
                                          user_online := true |}) i (reg_users registry);
           reg_count := reg_count registry |})
  end.

(** The entry after the three assignments of the loop body. *)
Definition user_offline (user : chat_server_user_t) : chat_server_user_t :=
  {| user_username := user_username user;
     user_identity_pk := user_identity_pk user;
     user_wsi := None;
     user_session := None;
     user_online := false |}.

Fixpoint users_offline_from (users : list chat_server_user_t) (wsi : wsi_t)
    (i fuel : nat) : list chat_server_user_t :=
  match fuel with
  | O => users
  | S fuel' =>
      match users !! i with
      | None => users
      | Some user =>
          users_offline_from
            (if bool_decide (user_wsi user = Some wsi) then <[i := user_offline user]> users
             else users)
            wsi (S i) fuel'
      end
  end.

Definition chat_server_users_set_offline_by_wsi (registry : chat_server_users_t)
    (wsi : option wsi_t) : chat_server_users_t :=
  match wsi with
  | None => registry
  | Some wsi =>
      {| reg_users := users_offline_from (reg_users registry) wsi 0 (reg_count registry);
         reg_count := reg_count registry |}
  end.

Definition chat_server_users_result_name (result : chat_server_users_result_t) : string :=
  match result with
  | CHAT_SERVER_USERS_OK => "ok"
  | CHAT_SERVER_USERS_ERR_INVALID => "invalid user"
  | CHAT_SERVER_USERS_ERR_FULL => "user registry full"
  | CHAT_SERVER_USERS_ERR_EXISTS => "user already exists"
  | CHAT_SERVER_USERS_ERR_NOT_FOUND => "user not found"
  end.

(** ** Invariant *)

(** The live entries. *)
Definition users_live (r : chat_server_users_t) : list chat_server_user_t :=
  take (reg_count r) (reg_users r).

(** An entry is either offline with NULL pointers or online with both. *)
Definition user_wf (u : chat_server_user_t) : Prop :=
  chat_username_is_valid (Some (user_username u)) = true
  ∧ len (user_identity_pk u) = crypto_sign_PUBLICKEYBYTES
  ∧ match user_wsi u, user_session u, user_online u with
    | Some _, Some _, true | None, None, false => True
    | _, _, _ => False
    end.

Record users_wf (r : chat_server_users_t) : Prop := {
  wf_array : length (reg_users r) = CHAT_SERVER_MAX_USERS;
  wf_count : (reg_count r ≤ CHAT_SERVER_MAX_USERS)%nat;
  wf_names : NoDup (user_username <$> users_live r);
  wf_live : Forall user_wf (users_live r);
}.

(** ** The directory the registry implements *)

Record entry := { entry_key : bytes; entry_conn : option (wsi_t * session_ptr) }.

Definition user_entry (u : chat_server_user_t) : entry :=
  {| entry_key := user_identity_pk u;
     entry_conn := match user_wsi u, user_session u with
                   | Some w, Some s => Some (w, s)
                   | _, _ => None
                   end |}.

Definition users_abs (r : chat_server_users_t) : gmap bytes entry :=
  list_to_map ((λ u, (user_username u, user_entry u)) <$> users_live r).

(** ** Lemmas *)

Lemma live_lookup r i u :
  users_live r !! i = Some u ↔ reg_users r !! i = Some u ∧ (i < reg_count r)%nat.
Proof.
  unfold users_live. destruct (decide (i < reg_count r)%nat).
  - rewrite lookup_take_lt by done. tauto.
  - rewrite lookup_take_ge by lia. naive_solver.
Qed.

Lemma users_find_from_spec users username i fuel :
  (i + fuel ≤ length users)%nat →
  match users_find_from users username i fuel with
  | Some j => (i ≤ j < i + fuel)%nat ∧ ∃ u, users !! j = Some u ∧ user_username u = username
  | None => ∀ j u, (i ≤ j < i + fuel)%nat → users !! j = Some u → user_username u ≠ username
  end.
Proof.
  revert i; induction fuel as [|fuel IH]; intros i Hlen; cbn [users_find_from]; [lia|].
  destruct (users !! i) as [u|] eqn:Ei; [|apply lookup_ge_None in Ei; lia].
  destruct (streq (user_username u) username) eqn:Es.
  - apply streq_true in Es. split; [lia|]. eauto.
  - apply streq_false in Es. specialize (IH (S i) ltac:(lia)).
    destruct (users_find_from users username (S i) fuel) as [j|].
    + destruct IH as [? ?]. split; [lia|done].
    + intros j u' Hj Hu'. destruct (decide (j = i)) as [->|]; [congruence|].
      apply (IH j u'); [lia|done].
Qed.

Section registry.
Context (r : chat_server_users_t) (Hwf : users_wf r).

Lemma find_Some username j :
  chat_server_users_find r (Some username) = Some j →
  ∃ u, users_live r !! j = Some u ∧ user_username u = username.
Proof using Hwf.
  intros H. unfold chat_server_users_find in H.
  pose proof (users_find_from_spec (reg_users r) username 0 (reg_count r)) as Hs.
  rewrite H in Hs. destruct Hs as [Hj (u & Hu & Hn)].
  { rewrite (wf_array r Hwf). apply Hwf. }
  exists u. split; [|done]. apply live_lookup. split; [done|lia].
Qed.

Lemma find_None username :
  chat_server_users_find r (Some username) = None ↔
  username ∉ user_username <$> users_live r.
Proof using Hwf.
  split.
  - intros H (u & -> & Hin)%list_elem_of_fmap.
    apply list_elem_of_lookup in Hin as [i [Hi Hlt]%live_lookup].
    unfold chat_server_users_find in H.
    pose proof (users_find_from_spec (reg_users r) (user_username u) 0 (reg_count r)) as Hs.
    rewrite H in Hs. eapply Hs; [|split; [lia|exact Hlt]|exact Hi|done].
    rewrite (wf_array r Hwf). apply Hwf.
  - intros Hn. destruct (chat_server_users_find r (Some username)) as [j|] eqn:E; [|done].
    apply find_Some in E as (u & Hu & <-). destruct Hn.
    apply list_elem_of_fmap. exists u. split; [done|]. by eapply list_elem_of_lookup_2.
Qed.

(** The entry at an index is the one the directory holds under its name. *)
Lemma live_abs j u : users_live r !! j = Some u → users_abs r !! user_username u = Some (user_entry u).
Proof using Hwf.
  intros Hu. unfold users_abs. apply elem_of_list_to_map_1.
  - rewrite <- list_fmap_compose. apply Hwf.
  - apply list_elem_of_fmap. exists u. split; [done|]. by eapply list_elem_of_lookup_2.
Qed.

Lemma abs_live name e :
  users_abs r !! name = Some e →
  ∃ j u, users_live r !! j = Some u ∧ user_username u = name ∧ user_entry u = e.
Proof using Hwf.
  intros H%elem_of_list_to_map_2. apply list_elem_of_fmap in H as (u & [= -> ->] & Hin).
  apply list_elem_of_lookup in Hin as [j Hj]. eauto.
Qed.

Lemma abs_None name :
  users_abs r !! name = None ↔ name ∉ user_username <$> users_live r.
Proof using Hwf.
  unfold users_abs. rewrite <- not_elem_of_list_to_map, <- list_fmap_compose. done.
Qed.

Lemma abs_size : size (users_abs r) = reg_count r.
Proof using Hwf.
  unfold users_abs. rewrite map_size_list_to_map.
  - rewrite length_fmap. unfold users_live. rewrite length_take, (wf_array r Hwf).
    pose proof (wf_count r Hwf). lia.
  - rewrite <- list_fmap_compose. apply Hwf.
Qed.

(** [chat_server_users_find] is the directory's lookup. *)
Lemma find_refines username :
  match chat_server_users_find r (Some username) with
  | Some j => ∃ u, users_live r !! j = Some u ∧ user_username u = username
                   ∧ users_abs r !! username = Some (user_entry u)
  | None => users_abs r !! username = None
  end.
Proof using Hwf.
  destruct (chat_server_users_find r (Some username)) as [j|] eqn:E.
  - apply find_Some in E as (u & Hu & <-). eauto using live_abs.
  - by apply abs_None, find_None.
Qed.
End registry.

Lemma abs_lookup r name e :
  users_wf r →
  users_abs r !! name = Some e ↔
  ∃ j u, users_live r !! j = Some u ∧ user_username u = name ∧ user_entry u = e.
Proof.
  intros Hwf. split; [by apply abs_live|]. intros (j & u & Hu & <- & <-).
  by eapply live_abs.
Qed.

Lemma live_unique r i j u v :
  users_wf r → users_live r !! i = Some u → users_live r !! j = Some v →
  user_username u = user_username v → i = j.
Proof.
  intros Hwf Hi Hj E. eapply (NoDup_lookup (user_username <$> users_live r)); [apply Hwf|..].
  - rewrite list_lookup_fmap, Hi. done.
  - rewrite list_lookup_fmap, Hj. simpl. by rewrite E.
Qed.

(** *** Registration *)

Lemma register_live r u :
  users_wf r → (reg_count r < CHAT_SERVER_MAX_USERS)%nat →
  users_live {| reg_users := <[reg_count r := u]> (reg_users r); reg_count := S (reg_count r) |}
  = users_live r ++ [u].
Proof.
  intros Hwf Hlt. unfold users_live. cbn [reg_users reg_count].
  rewrite (take_S_r _ _ u).
  - by rewrite take_insert_ge by lia.
  - apply list_lookup_insert_eq. rewrite (wf_array r Hwf). done.
Qed.

Definition new_user (name pk : bytes) : chat_server_user_t :=
  {| user_username := name; user_identity_pk := pk;
     user_wsi := None; user_session := None; user_online := false |}.

(** The four outcomes of a registration, in the order of the tests. *)
Lemma register_refines r name pk :
  users_wf r → len pk = crypto_sign_PUBLICKEYBYTES →
  match chat_server_users_register r (Some name) (Some pk) with
  | (CHAT_SERVER_USERS_OK, r') =>
      users_wf r' ∧ chat_username_is_valid (Some name) = true
      ∧ (size (users_abs r) < CHAT_SERVER_MAX_USERS)%nat ∧ users_abs r !! name = None
      ∧ users_abs r' = <[name := {| entry_key := pk; entry_conn := None |}]> (users_abs r)
  | (CHAT_SERVER_USERS_ERR_INVALID, r') => r' = r ∧ chat_username_is_valid (Some name) = false
  | (CHAT_SERVER_USERS_ERR_FULL, r') =>
      r' = r ∧ size (users_abs r) = CHAT_SERVER_MAX_USERS
  | (CHAT_SERVER_USERS_ERR_EXISTS, r') => r' = r ∧ is_Some (users_abs r !! name)
  | (CHAT_SERVER_USERS_ERR_NOT_FOUND, _) => False
  end.
Proof.
  intros Hwf Hpk. rewrite abs_size by done. unfold chat_server_users_register.
  destruct (chat_username_is_valid (Some name)) eqn:Hv; cbn [negb]; [|done].
  pose proof (wf_count r Hwf). case_if; [split; [done|lia]|].
  pose proof (find_refines r Hwf name) as Hfind.
  destruct (chat_server_users_find r (Some name)) as [j|] eqn:Ef.
  { destruct Hfind as (u & _ & _ & ->). by eexists. }
  pose proof (username_valid_len _ Hv).
  replace (snprintf_buf (CHAT_USERNAME_MAX_LEN + 1) name) with name
    by (unfold snprintf_buf, CHAT_USERNAME_MAX_LEN; rewrite ztake_all by lia; done).
  fold (new_user name pk).
  pose proof (register_live r (new_user name pk) Hwf ltac:(lia)) as Hl.
  split_and!; [|done|lia|done|].
  - split.
    + cbn. rewrite length_insert. apply Hwf.
    + cbn. lia.
    + rewrite Hl, fmap_app. apply NoDup_app. split_and!; [apply Hwf| |apply NoDup_singleton].
      intros x Hx ->%list_elem_of_singleton. by apply (proj1 (abs_None r Hwf _) Hfind).
    + rewrite Hl. apply Forall_app. split; [apply Hwf|].
      by apply Forall_singleton.
  - unfold users_abs. rewrite Hl, fmap_app. apply list_to_map_snoc.
    rewrite <- list_fmap_compose. by apply (abs_None r Hwf).
Qed.

(** *** Presence *)

Lemma set_online_refines r name w s :
  users_wf r →
  match chat_server_users_set_online r (Some name) (Some w) (Some s) with
  | (CHAT_SERVER_USERS_OK, r') =>
      users_wf r' ∧ ∃ e, users_abs r !! name = Some e
      ∧ users_abs r' = <[name := {| entry_key := entry_key e; entry_conn := Some (w, s) |}]>
                         (users_abs r)
  | (CHAT_SERVER_USERS_ERR_NOT_FOUND, r') => r' = r ∧ users_abs r !! name = None
  | _ => False
  end.
Proof.
  intros Hwf. unfold chat_server_users_set_online.
  change (chat_server_users_find_mut r (Some name)) with (chat_server_users_find r (Some name)).
  pose proof (find_refines r Hwf name) as Hfind.
  destruct (chat_server_users_find r (Some name)) as [j|]; [|done].
  destruct Hfind as (u & Hu & Hn & Ha).
  set (f := λ user, {| user_username := user_username user;
                       user_identity_pk := user_identity_pk user;
                       user_wsi := Some w; user_session := Some s; user_online := true |}).
  set (r' := {| reg_users := alter f j (reg_users r); reg_count := reg_count r |}).
  assert (Hl : users_live r' = alter f j (users_live r)).
  { unfold users_live, r'. cbn [reg_users reg_count].
    apply live_lookup in Hu as [Hu Hlt]. by rewrite take_alter_lt by lia. }
  assert (Hwf' : users_wf r').
  { split.
    - cbn. rewrite length_alter. apply Hwf.
    - apply Hwf.
    - rewrite Hl, (list_fmap_alter _ f id) by (by apply Forall_true).
      rewrite list_alter_id by done. apply Hwf.
    - rewrite Hl. apply Forall_alter; [apply Hwf|]. intros v Hv (?&?&?). done. }
  split; [done|]. exists (user_entry u). split; [done|].
  apply map_eq. intros name'. apply option_eq. intros e.
  rewrite lookup_insert, abs_lookup by done. rewrite Hl. case_decide as Hd.
  - subst name' name. split.
    + intros (k & v & Hk & Hv & <-). destruct (decide (k = j)) as [->|Hne].
      * rewrite list_lookup_alter_eq, Hu in Hk. by simplify_eq/=.
      * rewrite list_lookup_alter_ne in Hk by done.
        destruct Hne. by eapply (live_unique r k j v u).
    + intros [= <-]. exists j, (f u). rewrite list_lookup_alter_eq, Hu. done.
  - rewrite abs_lookup by done. split.
    + intros (k & v & Hk & Hv & <-). destruct (decide (k = j)) as [->|Hne].
      * rewrite list_lookup_alter_eq, Hu in Hk. by simplify_eq/=.
      * rewrite list_lookup_alter_ne in Hk by done. eauto.
    + intros (k & v & Hk & Hv & <-). exists k, v.
      rewrite list_lookup_alter_ne; [done|]. intros ->. congruence.
Qed.

(** The directory entry after the connection [w] is gone. *)
Definition entry_disconnect (w : wsi_t) (e : entry) : entry :=
  match entry_conn e with
  | Some (w', _) =>
      if bool_decide (w' = w) then {| entry_key := entry_key e; entry_conn := None |} else e
  | None => e
  end.

Definition user_disconnect (w : wsi_t) (u : chat_server_user_t) : chat_server_user_t :=
  if bool_decide (user_wsi u = Some w) then user_offline u else u.

Lemma users_offline_from_length users w i fuel :
  length (users_offline_from users w i fuel) = length users.
Proof.
  revert users i; induction fuel as [|fuel IH]; intros users i; cbn; [done|].
  case_match; [|done]. rewrite IH. case_bool_decide; [apply length_insert|done].
Qed.

Lemma users_offline_from_lookup users w i fuel j :
  (i + fuel ≤ length users)%nat →
  users_offline_from users w i fuel !! j =
    if bool_decide (i ≤ j < i + fuel)%nat then user_disconnect w <$> users !! j else users !! j.
Proof.
  revert users i; induction fuel as [|fuel IH]; intros users i Hlen; cbn [users_offline_from].
  { rewrite bool_decide_false by lia. done. }
  destruct (users !! i) as [u|] eqn:Ei; [|apply lookup_ge_None in Ei; lia].
  set (users' := if bool_decide (user_wsi u = Some w) then _ else users).
  assert (Hlen' : length users' = length users).
  { unfold users'. case_bool_decide; [apply length_insert|done]. }
  assert (Hi : users' !! i = Some (user_disconnect w u)).
  { unfold users', user_disconnect. case_bool_decide; [|done].
    apply list_lookup_insert_eq. lia. }
  assert (Hne : j ≠ i → users' !! j = users !! j).
  { intros Hji. unfold users'. case_bool_decide; [|done]. by apply list_lookup_insert_ne. }
  rewrite IH by lia. destruct (decide (j = i)) as [->|Hji].
  - rewrite bool_decide_false, bool_decide_true by lia. by rewrite Hi, Ei.
  - rewrite Hne by done. repeat case_bool_decide; try done; lia.
Qed.

Lemma set_offline_refines r w :
  users_wf r →
  let r' := chat_server_users_set_offline_by_wsi r (Some w) in
  users_wf r' ∧ users_abs r' = entry_disconnect w <$> users_abs r.
Proof.
  intros Hwf r'. pose proof (wf_array r Hwf) as Ha. pose proof (wf_count r Hwf) as Hc.
  assert (Hl : users_live r' = user_disconnect w <$> users_live r).
  { apply list_eq. intros j. rewrite list_lookup_fmap. unfold users_live, r'. cbn.
    destruct (decide (j < reg_count r)%nat) as [Hj|Hj].
    - rewrite !lookup_take_lt by done. rewrite users_offline_from_lookup by lia.
      by rewrite bool_decide_true by lia.
    - by rewrite !lookup_take_ge by lia. }
  split.
  - split.
    + cbn. by rewrite users_offline_from_length.
    + done.
    + rewrite Hl, <- list_fmap_compose. erewrite list_fmap_ext; [apply Hwf|].
      intros i u _. cbn. unfold user_disconnect. by case_bool_decide.
    + rewrite Hl. apply Forall_fmap. eapply Forall_impl; [apply Hwf|].
      intros u (Hv & Hp & Ho). unfold user_disconnect. cbn. case_bool_decide; done.
  - unfold users_abs. rewrite Hl, <- list_to_map_fmap, <- !list_fmap_compose.
    f_equal. apply list_fmap_ext. intros i u Hu.
    apply (Forall_lookup_1 _ _ _ _ (wf_live r Hwf)) in Hu as (_ & _ & Ho). cbn.
    unfold user_disconnect, entry_disconnect, user_entry. cbn.
    destruct u as [n p [w'|] [s'|] []]; try done; cbn;
      repeat case_bool_decide; simplify_eq; done.
Qed.

(** ** Sequences of operations

    The operations as data, run on the array and on the directory. *)
Inductive users_op :=
  | OpRegister (name pk : bytes)
  | OpFind (name : bytes)
  | OpSetOnline (name : bytes) (w : wsi_t) (s : session_ptr)
  | OpSetOffline (w : wsi_t).

Inductive users_out :=
  | OutResult (res : chat_server_users_result_t)
  | OutFound (e : option entry)
  | OutDone.

Definition op_ok (op : users_op) : Prop :=
  match op with OpRegister _ pk => len pk = crypto_sign_PUBLICKEYBYTES | _ => True end.

Definition users_exec (op : users_op) (r : chat_server_users_t)
    : users_out * chat_server_users_t :=
  match op with
  | OpRegister name pk =>
      let '(res, r') := chat_server_users_register r (Some name) (Some pk) in (OutResult res, r')
  | OpFind name =>
      (OutFound (match chat_server_users_find r (Some name) with
                 | Some i => user_entry <$> reg_users r !! i
                 | None => None
                 end), r)
  | OpSetOnline name w s =>
      let '(res, r') := chat_server_users_set_online r (Some name) (Some w) (Some s) in
      (OutResult res, r')
  | OpSetOffline w => (OutDone, chat_server_users_set_offline_by_wsi r (Some w))
  end.

Definition dir_exec (op : users_op) (m : gmap bytes entry) : users_out * gmap bytes entry :=
  match op with
  | OpRegister name pk =>
      if negb (chat_username_is_valid (Some name)) then
        (OutResult CHAT_SERVER_USERS_ERR_INVALID, m)
      else if (CHAT_SERVER_MAX_USERS <=? size m)%nat then (OutResult CHAT_SERVER_USERS_ERR_FULL, m)
      else match m !! name with
           | Some _ => (OutResult CHAT_SERVER_USERS_ERR_EXISTS, m)
           | None => (OutResult CHAT_SERVER_USERS_OK,
                       <[name := {| entry_key := pk; entry_conn := None |}]> m)
           end
  | OpFind name => (OutFound (m !! name), m)
  | OpSetOnline name w s =>
      match m !! name with
      | None => (OutResult CHAT_SERVER_USERS_ERR_NOT_FOUND, m)
      | Some e => (OutResult CHAT_SERVER_USERS_OK,
                    <[name := {| entry_key := entry_key e; entry_conn := Some (w, s) |}]> m)
      end
  | OpSetOffline w => (OutDone, entry_disconnect w <$> m)
  end.

Fixpoint run_ops {S} (exec : users_op → S → users_out * S) (ops : list users_op) (st : S)
    : list users_out * S :=
  match ops with
  | [] => ([], st)
  | op :: ops' =>
      let '(out, st') := exec op st in
      let '(outs, st'') := run_ops exec ops' st' in
      (out :: outs, st'')
  end.

Lemma exec_refines op r :
  users_wf r → op_ok op →
  users_wf (users_exec op r).2
  ∧ dir_exec op (users_abs r) = ((users_exec op r).1, users_abs (users_exec op r).2).
Proof.
  intros Hwf Hop. destruct op as [name pk|name|name w s|w]; cbn [users_exec dir_exec op_ok] in *.
  - pose proof (register_refines r name pk Hwf Hop) as H.
    pose proof (abs_size r Hwf) as Hsz. pose proof (wf_count r Hwf) as Hc.
    destruct (chat_server_users_register r (Some name) (Some pk)) as [res r'] eqn:E.
    unfold chat_server_users_register in E.
    destruct res; cbn [fst snd].
    + destruct H as (Hwf' & Hv & Hlt & Hn & Ha). split; [done|].
      rewrite Hv, Hn, Ha. cbn [negb]. by rewrite (proj2 (Nat.leb_gt _ _) Hlt).
    + destruct H as [-> Hv]. split; [done|]. by rewrite Hv.
    + destruct H as [-> Hs]. split; [done|].
      destruct (chat_username_is_valid (Some name)); [|by repeat case_match].
      rewrite Hs. cbn [negb]. by rewrite Nat.leb_refl.
    + destruct H as [-> [e He]]. split; [done|]. rewrite He.
      destruct (chat_username_is_valid (Some name)); [|done]. cbn [negb] in *.
      rewrite Hsz. destruct (_ <=? _)%nat; [done|]. done.
    + done.
  - split; [done|]. pose proof (find_refines r Hwf name) as H.
    destruct (chat_server_users_find r (Some name)) as [j|].
    + destruct H as (u & [Hu _]%live_lookup & _ & Ha). by rewrite Hu, Ha.
    + by rewrite H.
  - pose proof (set_online_refines r name w s Hwf) as H.
    destruct (chat_server_users_set_online _ _ _ _) as [[] r']; cbn [fst snd]; try done.
    + destruct H as (Hwf' & e & He & Ha). split; [done|]. by rewrite He, Ha.
    + destruct H as [-> Hn]. split; [done|]. by rewrite Hn.
  - destruct (set_offline_refines r w Hwf) as [Hwf' Ha]. split; [done|]. by rewrite <- Ha.
Qed.

Lemma run_refines ops r :
  users_wf r → Forall op_ok ops →
  users_wf (run_ops users_exec ops r).2
  ∧ run_ops dir_exec ops (users_abs r)
    = ((run_ops users_exec ops r).1, users_abs (run_ops users_exec ops r).2).
Proof.
  intros Hwf Hops. revert r Hwf. induction Hops as [|op ops Hop Hops IH]; intros r Hwf; [done|].
  cbn [run_ops]. destruct (exec_refines op r Hwf Hop) as [Hwf' E]. rewrite E.
  destruct (users_exec op r) as [out r']. cbn [fst snd] in *.
  destruct (IH r' Hwf') as [Hwf'' E']. rewrite E'.
  by destruct (run_ops users_exec ops r').
Qed.

Lemma init_wf g :
  length (reg_users g) = CHAT_SERVER_MAX_USERS →
  users_wf (chat_server_users_init g) ∧ users_abs (chat_server_users_init g) = ∅.
Proof.
  intros Hl. split; [|done].
  split; cbn; [done|lia|apply NoDup_nil_2|constructor].
Qed.

(** C10: started on an uninitialised array, the registry behaves exactly like
    a directory of at most 256 users: every sequence of registrations,
    lookups and presence changes returns the results the finite map gives,
    ends in the state that represents the map's final state, and keeps the
    array invariant (unique valid names, live entries inside the array,
    pointers set exactly when online). *)
Theorem registry_refines_directory g ops :
  length (reg_users g) = CHAT_SERVER_MAX_USERS → Forall op_ok ops →
  let '(outs, r) := run_ops users_exec ops (chat_server_users_init g) in
  users_wf r ∧ run_ops dir_exec ops ∅ = (outs, users_abs r).
Proof.
  intros Hg Hops. destruct (init_wf g Hg) as [Hwf Habs].
  destruct (run_refines ops _ Hwf Hops) as [Hwf' E]. rewrite Habs in E.
  by destruct (run_ops users_exec ops (chat_server_users_init g)).
Qed.

(** A registry with an uninitialised array, for the witnesses. *)
Definition garbage_registry : chat_server_users_t :=
  {| reg_users := replicate CHAT_SERVER_MAX_USERS
       {| user_username := lit "x"; user_identity_pk := []; user_wsi := None;
          user_session := Some 7%positive; user_online := true |};
     reg_count := 99 |}.

Lemma registry_refines_directory_witness :
  let ops := [OpRegister (lit "alice") (zeros 32); OpSetOnline (lit "alice") 1 2;
              OpFind (lit "alice"); OpSetOffline 1; OpRegister (lit "alice") (zeros 32)] in
  let '(outs, r) := run_ops users_exec ops (chat_server_users_init garbage_registry) in
  outs = [OutResult CHAT_SERVER_USERS_OK; OutResult CHAT_SERVER_USERS_OK;
          OutFound (Some {| entry_key := zeros 32; entry_conn := Some (1%positive, 2%positive) |});
          OutDone; OutResult CHAT_SERVER_USERS_ERR_EXISTS]
  ∧ users_wf r ∧ run_ops dir_exec ops ∅ = (outs, users_abs r).
Proof.
  intros ops.
  pose proof (registry_refines_directory garbage_registry ops) as H.
  destruct (run_ops users_exec ops (chat_server_users_init garbage_registry)) as [outs r] eqn:E.
  vm_compute in E. injection E as <- Er.
  split; [vm_compute; reflexivity|]. apply H; [vm_compute; reflexivity|].
  repeat constructor.
Defined.

(** No operation rebinds a name: its key stays the one it was registered with. *)
Lemma dir_exec_key op m name e :
  m !! name = Some e →
  ∃ e', (dir_exec op m).2 !! name = Some e' ∧ entry_key e' = entry_key e.
Proof.
  intros He. destruct op as [n pk|n|n w s|w]; cbn [dir_exec].
  - repeat case_match; cbn; eauto. exists e. rewrite lookup_insert_ne; [done|]. congruence.
  - eauto.
  - destruct (m !! n) as [e0|] eqn:E0; cbn; [|eauto].
    destruct (decide (n = name)) as [->|].
    + rewrite lookup_insert_eq. eexists. split; [done|]. cbn. congruence.
    + exists e. by rewrite lookup_insert_ne.
  - cbn. rewrite lookup_fmap, He. cbn. eexists. split; [done|].
    unfold entry_disconnect. by repeat case_match.
Qed.

(** C29: no sequence of registry operations changes the identity key of a
    registered name or removes the name. *)
Theorem registered_key_immutable r ops name e :
  users_wf r → Forall op_ok ops → users_abs r !! name = Some e →
  ∃ e', users_abs (run_ops users_exec ops r).2 !! name = Some e'
        ∧ entry_key e' = entry_key e.
Proof.
  intros Hwf Hops. revert r e Hwf.
  induction Hops as [|op ops Hop Hops IH]; intros r e Hwf He; [by eauto|].
  cbn [run_ops]. destruct (exec_refines op r Hwf Hop) as [Hwf' E].
  destruct (dir_exec_key op _ _ _ He) as (e1 & He1 & Hk). rewrite E in He1.
  destruct (users_exec op r) as [out r']. cbn [fst snd] in *.
  destruct (IH r' e1 Hwf' He1) as (e2 & He2 & Hk2).
  destruct (run_ops users_exec ops r') as [outs r'']. cbn [snd] in *.
  exists e2. split; [done|]. congruence.
Qed.

Lemma registered_key_immutable_witness :
  let r := (run_ops users_exec [OpRegister (lit "alice") (zeros 32)]
              (chat_server_users_init garbage_registry)).2 in
  let ops := [OpRegister (lit "alice") (lit "0123456789abcdef0123456789abcdef"); OpSetOnline (lit "alice") 1 2] in
  ∃ e', users_abs (run_ops users_exec ops r).2 !! lit "alice" = Some e'
        ∧ entry_key e' = zeros 32.
Proof.
  intros r ops.
  assert (Hwf : users_wf r).
  { destruct (init_wf garbage_registry) as [Hwf _]; [vm_compute; reflexivity|].
    exact (proj1 (run_refines [OpRegister (lit "alice") (zeros 32)] _ Hwf
                    ltac:(repeat constructor))). }
  exact (registered_key_immutable r ops (lit "alice")
           {| entry_key := zeros 32; entry_conn := None |} Hwf
           ltac:(repeat constructor) ltac:(vm_compute; reflexivity)).
Defined.
