(* ===== verification/Server.v ===== *)
(** * The control server (src/server/main.c)

    The handlers run on a state that holds the user registry, the memory of
    the per-connection sessions and the random generator.  A handler reaches
    a session through its address, also the address the registry stores for
    another user; reaching a session or a connection that libwebsockets has
    already freed is undefined behaviour in C, and is the outcome [None] of
    the monad [M].  [server_exec] runs the callback for one event of
    libwebsockets and does the bookkeeping of the library around it (allocate
    the session before LWS_CALLBACK_ESTABLISHED, free it after
    LWS_CALLBACK_CLOSED).  Log output is not modelled. *)

From S2P Require Import Prelude CLib Protocol Sodium Json Users.

Definition CHAT_SERVER_MAX_JSON_SIZE : Z := 4096.
Definition CHAT_SERVER_CHALLENGE_BYTES : Z := 32.
Definition CHAT_SERVER_HEX_PUBLIC_KEY_LEN : Z := crypto_sign_PUBLICKEYBYTES * 2 + 1.
Definition CHAT_SERVER_HEX_SIGNATURE_LEN : Z := crypto_sign_BYTES * 2 + 1.
Definition CHAT_SERVER_HEX_CHALLENGE_LEN : Z := CHAT_SERVER_CHALLENGE_BYTES * 2 + 1.
Definition CHAT_SERVER_SESSION_ID_MAX : Z := 128.
Definition CHAT_SERVER_DEFAULT_PORT : Z := 8787.

(** [pending] is the part of the array after the [LWS_PRE] bytes that belong
    to libwebsockets.  The field [state] always points to the one
    [chat_server_state_t] of [main]. *)
Record chat_server_session_t := {
  ses_username : bytes;
  ses_challenge : bytes;
  ses_has_challenge : bool;
  ses_authenticated : bool;
  ses_pending : bytes;
  ses_pending_len : Z;
}.

(** The session after [memset] with zero over its whole size. *)
Definition zero_session : chat_server_session_t :=
  {| ses_username := [];
     ses_challenge := zeros CHAT_SERVER_CHALLENGE_BYTES;
     ses_has_challenge := false;
     ses_authenticated := false;
     ses_pending := zeros CHAT_SERVER_MAX_JSON_SIZE;
     ses_pending_len := 0 |}.

Section server.
Context `{SodiumCodec} `{SodiumSign}.

(** ** State and monad *)

Record server := {
  srv_users : chat_server_users_t;
  srv_mem : gmap session_ptr chat_server_session_t;   (** allocated sessions *)
  srv_conns : gmap wsi_t session_ptr;                 (** open connections *)
  srv_rng : rng;
}.

Definition M (A : Type) : Type := server → option (A * server).
#[export] Instance M_ret : MRet M := λ A a s, Some (a, s).
#[export] Instance M_bind : MBind M := λ A B k m s,
  match m s with
  | Some (a, s') => k a s'
  | None => None
  end.

(** [*session]. *)
Definition load (p : session_ptr) : M chat_server_session_t := λ s,
  match srv_mem s !! p with
  | Some ses => Some (ses, s)
  | None => None
  end.
Definition store (p : session_ptr) (ses : chat_server_session_t) : M unit := λ s,
  match srv_mem s !! p with
  | Some _ => Some (tt, {| srv_users := srv_users s; srv_mem := <[p := ses]> (srv_mem s);
                           srv_conns := srv_conns s; srv_rng := srv_rng s |})
  | None => None
  end.
Definition get_users : M chat_server_users_t := λ s, Some (srv_users s, s).
Definition set_users (r : chat_server_users_t) : M unit := λ s,
  Some (tt, {| srv_users := r; srv_mem := srv_mem s;
               srv_conns := srv_conns s; srv_rng := srv_rng s |}).
(** [randombytes_buf] into a buffer of [n] bytes. *)
Definition random (n : Z) : M bytes := λ s,
  let '(b, g) := randombytes_buf n (srv_rng s) in
  Some (b, {| srv_users := srv_users s; srv_mem := srv_mem s;
              srv_conns := srv_conns s; srv_rng := g |}).
(** [lws_callback_on_writable(wsi)] and [lws_cancel_service_pt(wsi)]: they ask
    libwebsockets for a later callback on an open connection. *)
Definition lws_wakeup (w : wsi_t) : M unit := λ s,
  match srv_conns s !! w with
  | Some _ => Some (tt, s)
  | None => None
  end.
(** [*user] for the address of a registry entry. *)
Definition user_at (i : nat) : M chat_server_user_t := λ s,
  match reg_users (srv_users s) !! i with
  | Some u => Some (u, s)
  | None => None
  end.

(** ** Sending *)

Definition send_json (wsi : wsi_t) (session : session_ptr) (json : bytes) : M Z :=
  let length := strlen json in
  if length >=? CHAT_SERVER_MAX_JSON_SIZE then mret (-1)
  else
    ses ← load session;
    store session {| ses_username := ses_username ses;
                     ses_challenge := ses_challenge ses;
                     ses_has_challenge := ses_has_challenge ses;
                     ses_authenticated := ses_authenticated ses;
                     ses_pending := blit (ses_pending ses) json;
                     ses_pending_len := length |};;
    lws_wakeup wsi;;
    mret 0.

Definition error_json (code : bytes) : bytes :=
  qlit "{'type':'error','code':'" ++ code ++ qlit "'}".

Definition send_error (wsi : wsi_t) (session : session_ptr) (code : bytes) : M Z :=
  match snprintf 256 (error_json code) with
  | None => mret (-1)
  | Some response => send_json wsi session response
  end.

(** ** Handlers *)

(** The guard of [handle_register]: the two fields, the name test and the
    decoding of the key, left to right. *)
Definition parse_register (json : bytes) : option (bytes * bytes) :=
  match json_get_string (Some json) (Some (lit "username")) (CHAT_USERNAME_MAX_LEN + 1),
        json_get_string (Some json) (Some (lit "public_key")) CHAT_SERVER_HEX_PUBLIC_KEY_LEN with
  | Some username, Some public_key_hex =>
      if negb (chat_username_is_valid (Some username)) then None
      else match hex_to_bin public_key_hex crypto_sign_PUBLICKEYBYTES with
           | Some public_key => Some (username, public_key)
           | None => None
           end
  | _, _ => None
  end.

Definition handle_register (wsi : wsi_t) (session : session_ptr) (json : bytes) : M Z :=
  match parse_register json with
  | None => send_error wsi session (lit "bad_register")
  | Some (username, public_key) =>
      users ← get_users;
      let '(result, users') :=
        chat_server_users_register users (Some username) (Some public_key) in
      set_users users';;
      if negb (bool_decide (result = CHAT_SERVER_USERS_OK)) then
        send_error wsi session (lit (chat_server_users_result_name result))
      else send_json wsi session (qlit "{'type':'register_ok'}")
  end.

Definition challenge_json (challenge_hex : bytes) : bytes :=
  qlit "{'type':'auth_challenge','challenge':'" ++ challenge_hex ++ qlit "'}".

Definition handle_hello (wsi : wsi_t) (session : session_ptr) (json : bytes) : M Z :=
  match json_get_string (Some json) (Some (lit "username")) (CHAT_USERNAME_MAX_LEN + 1) with
  | Some username =>
      if negb (chat_username_is_valid (Some username)) then
        send_error wsi session (lit "bad_hello")
      else
        users ← get_users;
        match chat_server_users_find users (Some username) with
        | None => send_error wsi session (lit "unknown_user")
        | Some _ =>
            challenge ← random CHAT_SERVER_CHALLENGE_BYTES;
            ses ← load session;
            store session {| ses_username := snprintf_buf (CHAT_USERNAME_MAX_LEN + 1) username;
                             ses_challenge := challenge;
                             ses_has_challenge := true;
                             ses_authenticated := false;
                             ses_pending := ses_pending ses;
                             ses_pending_len := ses_pending_len ses |};;
            match snprintf 192 (challenge_json (sodium_bin2hex challenge)) with
            | None => mret (-1)
            | Some response => send_json wsi session response
            end
        end
  | None => send_error wsi session (lit "bad_hello")
  end.

Definition parse_signature (json : bytes) : option bytes :=
  match json_get_string (Some json) (Some (lit "signature")) CHAT_SERVER_HEX_SIGNATURE_LEN with
  | Some signature_hex => hex_to_bin signature_hex crypto_sign_BYTES
  | None => None
  end.

(** The session with the flags and the wiped challenge of a successful
    verification; [authenticated] as given. *)
Definition session_verified (ses : chat_server_session_t) (authenticated : bool)
    : chat_server_session_t :=
  {| ses_username := ses_username ses;
     ses_challenge := zeros CHAT_SERVER_CHALLENGE_BYTES;
     ses_has_challenge := false;
     ses_authenticated := authenticated;
     ses_pending := ses_pending ses;
     ses_pending_len := ses_pending_len ses |}.

Definition handle_auth_response (wsi : wsi_t) (session : session_ptr) (json : bytes) : M Z :=
  ses ← load session;
  if negb (ses_has_challenge ses) || bool_decide (ses_username ses = []) then
    send_error wsi session (lit "auth_not_started")
  else
    match parse_signature json with
    | None => send_error wsi session (lit "bad_auth_response")
    | Some signature =>
        users ← get_users;
        match chat_server_users_find users (Some (ses_username ses)) with
        | None => send_error wsi session (lit "unknown_user")
        | Some i =>
            user ← user_at i;
            if negb (crypto_sign_verify_detached signature (ses_challenge ses)
                       (user_identity_pk user) =? 0) then
              send_error wsi session (lit "authentication_failed")
            else
              store session (session_verified ses true);;
              let '(result, users') :=
                chat_server_users_set_online users (Some (ses_username ses))
                  (Some wsi) (Some session) in
              set_users users';;
              if negb (bool_decide (result = CHAT_SERVER_USERS_OK)) then
                store session (session_verified ses false);;
                send_error wsi session (lit (chat_server_users_result_name result))
              else send_json wsi session (qlit "{'type':'auth_ok'}")
        end
    end.

Definition signaling_types : list bytes :=
  [ lit "chat_request"; lit "chat_accept"; lit "chat_reject"; lit "ice_credentials";
    lit "ice_candidate"; lit "ice_done"; lit "ice_gathering_done"; lit "chat_end";
    lit "chat_cancel" ].

Definition signaling_type_is_supported (type : bytes) : bool :=
  existsb (streq type) signaling_types.

Definition parse_signaling (json : bytes) : option (bytes * bytes) :=
  match json_get_string (Some json) (Some (lit "from")) (CHAT_USERNAME_MAX_LEN + 1),
        json_get_string (Some json) (Some (lit "to")) (CHAT_USERNAME_MAX_LEN + 1),
        json_get_string (Some json) (Some (lit "session_id")) CHAT_SERVER_SESSION_ID_MAX with
  | Some from, Some to, Some session_id =>
      if negb (chat_username_is_valid (Some from)) || negb (chat_username_is_valid (Some to))
         || bool_decide (session_id = []) then None
      else Some (from, to)
  | _, _, _ => None
  end.

Definition parse_public_key (json : bytes) : option bytes :=
  match json_get_string (Some json) (Some (lit "public_key")) CHAT_SERVER_HEX_PUBLIC_KEY_LEN with
  | Some public_key_hex => hex_to_bin public_key_hex crypto_sign_PUBLICKEYBYTES
  | None => None
  end.

(** The last part of the handler: find the recipient and queue the message. *)
Definition forward_to_target (wsi : wsi_t) (session : session_ptr) (json to : bytes) : M Z :=
  users ← get_users;
  match chat_server_users_find_mut users (Some to) with
  | None => send_error wsi session (lit "peer_offline")
  | Some i =>
      target ← user_at i;
      match user_online target, user_wsi target, user_session target with
      | true, Some target_wsi, Some target_session =>
          tses ← load target_session;
          if negb (ses_pending_len tses =? 0) then send_error wsi session (lit "peer_busy")
          else send_json target_wsi target_session json
      | _, _, _ => send_error wsi session (lit "peer_offline")
      end
  end.

Definition handle_signaling_forward (wsi : wsi_t) (session : session_ptr) (json type : bytes)
    : M Z :=
  ses ← load session;
  if negb (ses_authenticated ses) then send_error wsi session (lit "authentication_required")
  else
    match parse_signaling json with
    | None => send_error wsi session (lit "bad_signaling_message")
    | Some (from, to) =>
        if negb (streq from (ses_username ses)) then send_error wsi session (lit "from_mismatch")
        else
          users ← get_users;
          match chat_server_users_find users (Some from) with
          | None => send_error wsi session (lit "unknown_user")
          | Some i =>
              sender ← user_at i;
              if streq type (lit "chat_request") || streq type (lit "chat_accept") then
                match parse_public_key json with
                | None => send_error wsi session (lit "bad_public_key")
                | Some public_key =>
                    if negb (sodium_memcmp public_key (user_identity_pk sender) =? 0) then
                      send_error wsi session (lit "public_key_mismatch")
                    else forward_to_target wsi session json to
                end
              else forward_to_target wsi session json to
          end
    end.

Definition status_json_unknown (username : bytes) : bytes :=
  qlit "{'type':'user_status','username':'" ++ username
  ++ qlit "','known':false,'online':false}".
Definition status_json_known (username : bytes) (online : bool) (public_key_hex : bytes) : bytes :=
  qlit "{'type':'user_status','username':'" ++ username
  ++ qlit "','known':true,'online':" ++ lit (if online then "true" else "false")
  ++ qlit ",'public_key':'" ++ public_key_hex ++ qlit "'}".

Definition handle_user_lookup (wsi : wsi_t) (session : session_ptr) (json : bytes) : M Z :=
  ses ← load session;
  if negb (ses_authenticated ses) then send_error wsi session (lit "authentication_required")
  else
    match json_get_string (Some json) (Some (lit "username")) (CHAT_USERNAME_MAX_LEN + 1) with
    | Some username =>
        if negb (chat_username_is_valid (Some username)) then
          send_error wsi session (lit "bad_lookup")
        else
          users ← get_users;
          match chat_server_users_find users (Some username) with
          | None =>
              match snprintf 160 (status_json_unknown username) with
              | None => mret (-1)
              | Some response => send_json wsi session response
              end
          | Some i =>
              user ← user_at i;
              match snprintf 320 (status_json_known (user_username user) (user_online user)
                                    (sodium_bin2hex (user_identity_pk user))) with
              | None => mret (-1)
              | Some response => send_json wsi session response
              end
          end
    | None => send_error wsi session (lit "bad_lookup")
    end.

Definition handle_message (wsi : wsi_t) (session : session_ptr) (json : bytes) : M Z :=
  match json_get_string (Some json) (Some (lit "type")) 32 with
  | None => send_error wsi session (lit "missing_type")
  | Some type =>
      if streq type (lit "register") then handle_register wsi session json
      else if streq type (lit "hello") then handle_hello wsi session json
      else if streq type (lit "auth_response") then handle_auth_response wsi session json
      else if streq type (lit "user_lookup") then handle_user_lookup wsi session json
      else if signaling_type_is_supported type then
        handle_signaling_forward wsi session json type
      else send_error wsi session (lit "unknown_type")
  end.

(** ** The libwebsockets callback *)

(** The callback reasons with the data the callback reads: the received bytes
    with [lws_remaining_packet_payload] and [lws_is_final_fragment], and the
    result [lws_write] will give. *)
Inductive lws_reason :=
  | LWS_CALLBACK_ESTABLISHED
  | LWS_CALLBACK_RECEIVE (payload : bytes) (remaining : Z) (final : bool)
  | LWS_CALLBACK_SERVER_WRITEABLE (lws_write_result : Z)
  | LWS_CALLBACK_CLOSED
  | LWS_CALLBACK_OTHER.

Definition callback_chat_control (wsi : wsi_t) (reason : lws_reason) (session : session_ptr)
    : M Z :=
  match reason with
  | LWS_CALLBACK_ESTABLISHED => store session zero_session;; mret 0
  | LWS_CALLBACK_RECEIVE payload remaining final =>
      if (len payload >=? CHAT_SERVER_MAX_JSON_SIZE) || negb (remaining =? 0) || negb final then
        send_error wsi session (lit "message_too_large_or_fragmented")
      else handle_message wsi session (c_string payload)
  | LWS_CALLBACK_SERVER_WRITEABLE lws_write_result =>
      ses ← load session;
      if ses_pending_len ses =? 0 then mret 0
      else if lws_write_result <? ses_pending_len ses then mret (-1)
      else
        store session {| ses_username := ses_username ses;
                         ses_challenge := ses_challenge ses;
                         ses_has_challenge := ses_has_challenge ses;
                         ses_authenticated := ses_authenticated ses;
                         ses_pending := ses_pending ses;
                         ses_pending_len := 0 |};;
        mret 0
  | LWS_CALLBACK_CLOSED =>
      ses ← load session;
      if ses_authenticated ses then
        users ← get_users;
        set_users (chat_server_users_set_offline_by_wsi users (Some wsi));;
        store session {| ses_username := ses_username ses;
                         ses_challenge := zeros CHAT_SERVER_CHALLENGE_BYTES;
                         ses_has_challenge := ses_has_challenge ses;
                         ses_authenticated := ses_authenticated ses;
                         ses_pending := ses_pending ses;
                         ses_pending_len := ses_pending_len ses |};;
        mret 0
      else mret 0
  | LWS_CALLBACK_OTHER => mret 0
  end.

(** ** Events *)

(** What libwebsockets does to the server: a connection opens (its session
    memory is fresh and uninitialised), delivers data, becomes writable,
    closes (its session memory is freed after the callback). *)
Inductive lws_event :=
  | EvOpen (w : wsi_t) (p : session_ptr) (uninitialised : chat_server_session_t)
  | EvReceive (w : wsi_t) (payload : bytes) (remaining : Z) (final : bool)
  | EvWriteable (w : wsi_t) (lws_write_result : Z)
  | EvClose (w : wsi_t)
  | EvOther (w : wsi_t).

Definition event_wsi (ev : lws_event) : wsi_t :=
  match ev with
  | EvOpen w _ _ | EvReceive w _ _ _ | EvWriteable w _ | EvClose w | EvOther w => w
  end.

Definition event_enabled (ev : lws_event) (s : server) : bool :=
  match ev with
  | EvOpen w p _ => bool_decide (srv_conns s !! w = None) && bool_decide (srv_mem s !! p = None)
  | _ => bool_decide (is_Some (srv_conns s !! event_wsi ev))
  end.

Definition event_reason (ev : lws_event) : lws_reason :=
  match ev with
  | EvOpen _ _ _ => LWS_CALLBACK_ESTABLISHED
  | EvReceive _ payload remaining final => LWS_CALLBACK_RECEIVE payload remaining final
  | EvWriteable _ res => LWS_CALLBACK_SERVER_WRITEABLE res
  | EvClose _ => LWS_CALLBACK_CLOSED
  | EvOther _ => LWS_CALLBACK_OTHER
  end.

(** One event: [None] is undefined behaviour of the callback. *)
Definition server_exec (ev : lws_event) (s : server) : option (Z * server) :=
  match ev with
  | EvOpen w p uninitialised =>
      callback_chat_control w LWS_CALLBACK_ESTABLISHED p
        {| srv_users := srv_users s; srv_mem := <[p := uninitialised]> (srv_mem s);
           srv_conns := <[w := p]> (srv_conns s); srv_rng := srv_rng s |}
  | EvClose w =>
      match srv_conns s !! w with
      | None => None
      | Some p =>
          match callback_chat_control w LWS_CALLBACK_CLOSED p s with
          | None => None
          | Some (ret, s') =>
              Some (ret, {| srv_users := srv_users s'; srv_mem := delete p (srv_mem s');
                            srv_conns := delete w (srv_conns s'); srv_rng := srv_rng s' |})
          end
      end
  | _ =>
      match srv_conns s !! event_wsi ev with
      | None => None
      | Some p => callback_chat_control (event_wsi ev) (event_reason ev) p s
      end
  end.

(** The state [main] builds before its service loop. *)
Definition server_init (users : chat_server_users_t) (g : rng) : server :=
  {| srv_users := chat_server_users_init users; srv_mem := ∅; srv_conns := ∅; srv_rng := g |}.

(** States reached from [main]'s state by events that satisfy [allowed]. *)
Inductive reachable (allowed : lws_event → server → bool) : server → Prop :=
  | reachable_init users g :
      length (reg_users users) = CHAT_SERVER_MAX_USERS →
      reachable allowed (server_init users g)
  | reachable_step s ev ret s' :
      reachable allowed s → event_enabled ev s = true → allowed ev s = true →
      server_exec ev s = Some (ret, s') → reachable allowed s'.

(** A run of events that are enabled and allowed. *)
Fixpoint server_run (allowed : lws_event → server → bool) (evs : list lws_event) (s : server)
    : option server :=
  match evs with
  | [] => Some s
  | ev :: evs' =>
      if event_enabled ev s && allowed ev s then
        match server_exec ev s with
        | Some (_, s') => server_run allowed evs' s'
        | None => None
        end
      else None
  end.

Lemma server_run_reachable allowed evs s s' :
  reachable allowed s → server_run allowed evs s = Some s' → reachable allowed s'.
Proof.
  revert s; induction evs as [|ev evs IH]; intros s Hs Hrun; cbn in Hrun; [by simplify_eq|].
  case_if_in Hrun; [|done]. destruct (server_exec ev s) as [[ret s1]|] eqn:E'; [|done].
  eapply IH; [|done]. by eapply reachable_step.
Qed.

(** ** Command line *)

(** [atoi] is a parameter: its behaviour on text that is not a number in
    range is not specified by C.  [argv] is the argument list without the
    program name. *)
Fixpoint parse_port (atoi : bytes → Z) (argv : list bytes) : Z :=
  match argv with
  | arg :: ((next :: _) as rest) =>
      let port := atoi next in
      if streq arg (lit "--port") && (port >? 0) && (port <=? 65535) then port
      else parse_port atoi rest
  | _ => CHAT_SERVER_DEFAULT_PORT
  end.

(** [main]: the exit status and the state at the end.  [argv] is as above;
    [lws_create_context port] is whether the context could be created; the
    events are those of the service loop and of [lws_context_destroy], which
    closes the connections that are left. *)
Definition server_main `{SodiumInit} (atoi : bytes → Z) (lws_create_context : Z → bool)
    (users : chat_server_users_t) (g : rng) (argv : list bytes) (evs : list lws_event)
    : option (Z * option server) :=
  if sodium_init <? 0 then Some (1, None)
  else if negb (lws_create_context (parse_port atoi argv)) then Some (1, None)
  else
    match server_run (λ _ _, true) evs (server_init users g) with
    | None => None
    | Some s => Some (0, Some s)
    end.

(** The states the theorems are about are those of [main]. *)
Lemma server_main_reachable `{SodiumInit} atoi create users g argv evs status s :
  length (reg_users users) = CHAT_SERVER_MAX_USERS →
  server_main atoi create users g argv evs = Some (status, Some s) →
  status = 0 ∧ create (parse_port atoi argv) = true ∧ reachable (λ _ _, true) s.
Proof.
  intros Hu. unfold server_main. case_match; [done|].
  destruct (create (parse_port atoi argv)); [|done]. cbn [negb].
  case_match; [|done]. intros; simplify_eq. split_and!; [done..|].
  eapply server_run_reachable; [by apply reachable_init|done].
Qed.

(** The port is one the server can listen on. *)
Lemma parse_port_range atoi argv : 0 < parse_port atoi argv ≤ 65535.
Proof.
  induction argv as [|arg [|next rest] IH]; cbn [parse_port]; [by vm_compute..|].
  case_match; [|exact IH]. bdec. lia.
Qed.

End server.
