(* ===== verification/ServerSpec.v ===== *)
(** * What a message can do to the server

    [message_effect] is the specification of the server's message handling:
    the five kinds of state change a message on connection [w] can cause,
    each with the conditions under which the server allows it, stated on the
    directory of users rather than on the array.  [handle_message_effect]
    shows that the handlers of [Server] implement it, and that the only way
    they can go wrong is a stale connection recorded in the directory. *)

From S2P Require Import Prelude CLib Protocol Sodium Json Users Server.

(** The directory of a server state. *)
Abbreviation directory s := (users_abs (srv_users s)).

Section spec.
Context `{SodiumCodecOk} `{SodiumSign} `{!SodiumRandomOk}.

(** ** Updates of the state *)

Definition with_mem (s : server) (mem : gmap session_ptr chat_server_session_t) : server :=
  {| srv_users := srv_users s; srv_mem := mem; srv_conns := srv_conns s; srv_rng := srv_rng s |}.
Definition with_users (s : server) (users : chat_server_users_t) : server :=
  {| srv_users := users; srv_mem := srv_mem s; srv_conns := srv_conns s; srv_rng := srv_rng s |}.
Definition with_rng (s : server) (g : rng) : server :=
  {| srv_users := srv_users s; srv_mem := srv_mem s; srv_conns := srv_conns s; srv_rng := g |}.
Definition put_session (s : server) (p : session_ptr) (ses : chat_server_session_t) : server :=
  with_mem s (<[p := ses]> (srv_mem s)).

(** A session with a message queued for its connection. *)
Definition session_queue (ses : chat_server_session_t) (msg : bytes) : chat_server_session_t :=
  {| ses_username := ses_username ses;
     ses_challenge := ses_challenge ses;
     ses_has_challenge := ses_has_challenge ses;
     ses_authenticated := ses_authenticated ses;
     ses_pending := blit (ses_pending ses) msg;
     ses_pending_len := len msg |}.

(** At most a reply was queued on the connection's own session. *)
Definition replied (p : session_ptr) (s s' : server) : Prop :=
  ∃ ses, srv_mem s !! p = Some ses
    ∧ (s' = s ∨ ∃ msg, len msg < CHAT_SERVER_MAX_JSON_SIZE
                       ∧ s' = put_session s p (session_queue ses msg)).

Definition session_challenged (ses : chat_server_session_t) (name challenge : bytes)
    : chat_server_session_t :=
  {| ses_username := name;
     ses_challenge := challenge;
     ses_has_challenge := true;
     ses_authenticated := false;
     ses_pending := ses_pending ses;
     ses_pending_len := ses_pending_len ses |}.

(** ** The specification *)

Inductive message_effect (w : wsi_t) (p : session_ptr) (json : bytes) (s s' : server) : Prop :=
  | eff_reply : replied p s s' → message_effect w p json s s'
  | eff_register name key users' :
      parse_register json = Some (name, key) →
      directory s !! name = None →
      (size (directory s) < CHAT_SERVER_MAX_USERS)%nat →
      users_wf users' →
      users_abs users' = <[name := {| entry_key := key; entry_conn := None |}]> (directory s) →
      replied p (with_users s users') s' →
      message_effect w p json s s'
  | eff_challenge ses name challenge g :
      srv_mem s !! p = Some ses →
      json_get_string (Some json) (Some (lit "type")) 32 = Some (lit "hello") →
      json_get_string (Some json) (Some (lit "username")) 33 = Some name →
      chat_username_is_valid (Some name) = true →
      is_Some (directory s !! name) →
      randombytes_buf CHAT_SERVER_CHALLENGE_BYTES (srv_rng s) = (challenge, g) →
      replied p (put_session (with_rng s g) p (session_challenged ses name challenge)) s' →
      message_effect w p json s s'
  | eff_authenticate ses signature e users' :
      srv_mem s !! p = Some ses →
      ses_has_challenge ses = true →
      parse_signature json = Some signature →
      directory s !! ses_username ses = Some e →
      crypto_sign_verify_detached signature (ses_challenge ses) (entry_key e) = 0 →
      users_wf users' →
      users_abs users' =
        <[ses_username ses := {| entry_key := entry_key e; entry_conn := Some (w, p) |}]>
          (directory s) →
      replied p (with_users (put_session s p (session_verified ses true)) users') s' →
      message_effect w p json s s'
  | eff_forward ses type from to e te tw tp tses :
      srv_mem s !! p = Some ses →
      ses_authenticated ses = true →
      json_get_string (Some json) (Some (lit "type")) 32 = Some type →
      signaling_type_is_supported type = true →
      parse_signaling json = Some (from, to) →
      from = ses_username ses →
      directory s !! from = Some e →
      (type = lit "chat_request" ∨ type = lit "chat_accept" →
        parse_public_key json = Some (entry_key e)) →
      directory s !! to = Some te →
      entry_conn te = Some (tw, tp) →
      srv_mem s !! tp = Some tses →
      ses_pending_len tses = 0 →
      len json < CHAT_SERVER_MAX_JSON_SIZE →
      s' = put_session s tp (session_queue tses json) →
      message_effect w p json s s'.

(** A connection the directory records that is no longer open. *)
Definition stale (s : server) : Prop :=
  ∃ name e tw tp, directory s !! name = Some e ∧ entry_conn e = Some (tw, tp)
    ∧ (srv_conns s !! tw = None ∨ srv_mem s !! tp = None).

(** [outcome m s Q U]: [m] returns with [Q], or has undefined behaviour and [U]. *)
Definition outcome (m : M Z) (s : server) (Q : server → Prop) (U : Prop) : Prop :=
  match m s with
  | Some (_, s') => Q s'
  | None => U
  end.

(** ** Stepping through a handler *)

Lemma outcome_ret z s (Q : server → Prop) U : Q s → outcome (mret z) s Q U.
Proof. done. Qed.
Lemma outcome_load p (k : _ → M Z) s ses Q U :
  srv_mem s !! p = Some ses → outcome (k ses) s Q U → outcome (load p ≫= k) s Q U.
Proof. intros Hp. unfold outcome, mbind, M_bind, load. by rewrite Hp. Qed.
Lemma outcome_store p ses ses' (k : _ → M Z) s Q U :
  srv_mem s !! p = Some ses →
  outcome (k tt) (put_session s p ses') Q U → outcome (store p ses' ≫= k) s Q U.
Proof. intros Hp. unfold outcome, mbind, M_bind, store. by rewrite Hp. Qed.
Lemma outcome_get_users (k : _ → M Z) s Q U :
  outcome (k (srv_users s)) s Q U → outcome (get_users ≫= k) s Q U.
Proof. done. Qed.
Lemma outcome_set_users r (k : _ → M Z) s Q U :
  outcome (k tt) (with_users s r) Q U → outcome (set_users r ≫= k) s Q U.
Proof. done. Qed.
Lemma outcome_random n (k : _ → M Z) s b g Q U :
  randombytes_buf n (srv_rng s) = (b, g) →
  outcome (k b) (with_rng s g) Q U → outcome (random n ≫= k) s Q U.
Proof. intros Hr. unfold outcome, mbind, M_bind, random. by rewrite Hr. Qed.
Lemma outcome_user_at i (k : _ → M Z) s u Q U :
  reg_users (srv_users s) !! i = Some u →
  outcome (k u) s Q U → outcome (user_at i ≫= k) s Q U.
Proof. intros Hi. unfold outcome, mbind, M_bind, user_at. by rewrite Hi. Qed.
Lemma outcome_wakeup w (k : _ → M Z) s p Q U :
  srv_conns s !! w = Some p → outcome (k tt) s Q U → outcome (lws_wakeup w ≫= k) s Q U.
Proof. intros Hi. unfold outcome, mbind, M_bind, lws_wakeup. by rewrite Hi. Qed.
Lemma outcome_mono m s (Q Q' : server → Prop) (U U' : Prop) :
  outcome m s Q U → (∀ s', Q s' → Q' s') → (U → U') → outcome m s Q' U'.
Proof. unfold outcome. repeat case_match; naive_solver. Qed.

(** ** Handlers implement the specification *)

Section own_session.
Context (w : wsi_t) (p : session_ptr) (U : Prop).

(** What every handler may rely on: its connection is open and its session
    allocated. *)
Definition opened (s : server) (ses : chat_server_session_t) : Prop :=
  srv_conns s !! w = Some p ∧ srv_mem s !! p = Some ses.

Lemma send_json_replied s ses json :
  opened s ses → outcome (send_json w p json) s (replied p s) U.
Proof.
  intros [Hw Hp]. unfold send_json. case_if.
  - apply outcome_ret. exists ses. split; [done|]. by left.
  - eapply outcome_load; [done|]. eapply outcome_store; [done|].
    eapply outcome_wakeup; [done|]. apply outcome_ret.
    exists ses. split; [done|]. right. exists json. split; [unfold strlen in *; lia|done].
Qed.

Lemma send_error_replied s ses code :
  opened s ses → outcome (send_error w p code) s (replied p s) U.
Proof.
  intros Ho. unfold send_error. destruct (snprintf _ _).
  - by eapply send_json_replied.
  - apply outcome_ret. exists ses. split; [apply Ho|]. by left.
Qed.

Lemma send_error_effect json s ses code :
  opened s ses → outcome (send_error w p code) s (message_effect w p json s) U.
Proof.
  intros Ho. eapply outcome_mono; [by eapply send_error_replied|apply eff_reply|done].
Qed.
Lemma send_json_effect json s ses msg :
  opened s ses → outcome (send_json w p msg) s (message_effect w p json s) U.
Proof.
  intros Ho. eapply outcome_mono; [by eapply send_json_replied|apply eff_reply|done].
Qed.
End own_session.

(** A reply on the connection's own session closes a branch. *)
Ltac reply :=
  lazymatch goal with
  | |- outcome (send_error _ _ _) _ _ _ => by eapply send_error_effect
  | |- outcome (send_json _ _ _) _ _ _ => by eapply send_json_effect
  end.

Section handlers.
Context (w : wsi_t) (p : session_ptr) (U : Prop).
Abbreviation opened := (opened w p).

Lemma handle_register_effect json s ses :
  users_wf (srv_users s) → opened s ses →
  outcome (handle_register w p json) s (message_effect w p json s) U.
Proof.
  intros Hwf Ho. unfold handle_register.
  destruct (parse_register json) as [[name key]|] eqn:Ep; [|reply].
  assert (len key = crypto_sign_PUBLICKEYBYTES) as Hk.
  { unfold parse_register in Ep. repeat case_match; simplify_eq. by eapply hex_to_bin_len. }
  pose proof (register_refines (srv_users s) name key Hwf Hk) as Hr.
  apply outcome_get_users. destruct (chat_server_users_register _ _ _) as [res users'].
  apply outcome_set_users. destruct (decide (res = CHAT_SERVER_USERS_OK)) as [->|Hne].
  - destruct Hr as (Hwf' & Hv & Hlt & Hn & Ha). cbn [bool_decide negb].
    eapply outcome_mono; [by eapply (send_json_replied w p U (with_users s users'))| |done].
    intros s' Hs'. by eapply eff_register.
  - rewrite bool_decide_false by done. cbn [negb].
    assert (users' = srv_users s) as -> by (destruct res; naive_solver).
    replace (with_users s (srv_users s)) with s by by destruct s. reply.
Qed.

(** A reply that fits is queued. *)
Lemma send_json_eval s ses reply :
  opened s ses → len reply < CHAT_SERVER_MAX_JSON_SIZE →
  outcome (send_json w p reply) s (λ s', s' = put_session s p (session_queue ses reply)) U.
Proof.
  intros [Hw Hp] Hl. unfold send_json, strlen.
  rewrite Z.geb_leb, (proj2 (Z.leb_gt _ _)) by done.
  eapply outcome_load; [done|]. eapply outcome_store; [done|].
  eapply outcome_wakeup; [done|]. by apply outcome_ret.
Qed.

(** The greeting of a registered user is answered with a challenge. *)
Lemma handle_hello_eval json s ses name challenge g :
  users_wf (srv_users s) → opened s ses →
  json_get_string (Some json) (Some (lit "username")) (CHAT_USERNAME_MAX_LEN + 1) = Some name →
  chat_username_is_valid (Some name) = true → is_Some (directory s !! name) →
  randombytes_buf CHAT_SERVER_CHALLENGE_BYTES (srv_rng s) = (challenge, g) →
  let s1 := put_session (with_rng s g) p (session_challenged ses name challenge) in
  outcome (handle_hello w p json) s
    (λ s', s' = put_session s1 p (session_queue (session_challenged ses name challenge)
                                    (challenge_json (sodium_bin2hex challenge)))) U.
Proof.
  intros Hwf Ho Hj Hv [e He] Hr s1. unfold handle_hello. rewrite Hj, Hv. cbn [negb].
  apply outcome_get_users. pose proof (find_refines _ Hwf name) as Hf.
  destruct (chat_server_users_find _ _) as [i|]; [|congruence].
  assert (Hc : len challenge = 32).
  { pose proof (randombytes_len CHAT_SERVER_CHALLENGE_BYTES (srv_rng s) ltac:(done)) as Hc.
    rewrite Hr in Hc. exact Hc. }
  assert (Hlc : len (challenge_json (sodium_bin2hex challenge)) < 192).
  { unfold challenge_json. rewrite !len_app, bin2hex_len, Hc. by vm_compute. }
  eapply outcome_random; [exact Hr|]. eapply outcome_load; [apply Ho|].
  eapply outcome_store; [apply Ho|]. pose proof (username_valid_len _ Hv).
  replace (snprintf_buf (CHAT_USERNAME_MAX_LEN + 1) name) with name
    by (unfold snprintf_buf, CHAT_USERNAME_MAX_LEN; rewrite ztake_all by lia; done).
  fold (session_challenged ses name challenge). fold s1.
  rewrite snprintf_ok by (unfold INT_MAX; lia).
  apply send_json_eval; [|unfold CHAT_SERVER_MAX_JSON_SIZE; lia].
  split; [apply Ho|apply lookup_insert_eq].
Qed.

Lemma handle_hello_effect json s ses :
  users_wf (srv_users s) → opened s ses →
  json_get_string (Some json) (Some (lit "type")) 32 = Some (lit "hello") →
  outcome (handle_hello w p json) s (message_effect w p json s) U.
Proof.
  intros Hwf Ho Hty. unfold handle_hello, CHAT_USERNAME_MAX_LEN.
  destruct (json_get_string _ (Some (lit "username")) _) as [name|] eqn:En; [|reply].
  destruct (chat_username_is_valid (Some name)) eqn:Hv; cbn [negb]; [|reply].
  apply outcome_get_users. pose proof (find_refines _ Hwf name) as Hf.
  destruct (chat_server_users_find _ _) as [i|]; [|reply].
  destruct Hf as (u & _ & _ & Hu).
  destruct (randombytes_buf CHAT_SERVER_CHALLENGE_BYTES (srv_rng s)) as [chal g] eqn:Hr.
  eapply outcome_random; [done|]. eapply outcome_load; [apply Ho|].
  eapply outcome_store; [apply Ho|].
  pose proof (username_valid_len _ Hv).
  replace (snprintf_buf (32 + 1) name) with name
    by (unfold snprintf_buf; rewrite ztake_all by lia; done).
  fold (session_challenged ses name chal).
  set (s1 := put_session (with_rng s g) p (session_challenged ses name chal)).
  assert (Hs1 : ∀ s', replied p s1 s' → message_effect w p json s s').
  { intros s' Hs'. eapply eff_challenge; try done; apply Ho. }
  assert (Ho1 : opened s1 (session_challenged ses name chal)).
  { split; [apply Ho|]. apply lookup_insert_eq. }
  destruct (snprintf _ _) as [resp|].
  - eapply outcome_mono; [by eapply send_json_replied|done|done].
  - apply outcome_ret, Hs1. eexists. split; [apply Ho1|]. by left.
Qed.

Lemma handle_auth_response_effect json s ses :
  users_wf (srv_users s) → opened s ses →
  outcome (handle_auth_response w p json) s (message_effect w p json s) U.
Proof.
  intros Hwf Ho. unfold handle_auth_response.
  eapply outcome_load; [apply Ho|].
  destruct (ses_has_challenge ses) eqn:Hc; cbn [negb orb]; [|reply].
  case_bool_decide; [reply|].
  destruct (parse_signature json) as [signature|] eqn:Hsig; [|reply].
  apply outcome_get_users. pose proof (find_refines _ Hwf (ses_username ses)) as Hf.
  destruct (chat_server_users_find _ _) as [i|] eqn:Ef; [|reply].
  destruct Hf as (u & [Hi _]%live_lookup & Hn & Hu).
  eapply outcome_user_at; [done|].
  destruct (crypto_sign_verify_detached _ _ _ =? 0) eqn:Hver; cbn [negb]; [|reply]. bdec.
  eapply outcome_store; [apply Ho|].
  pose proof (set_online_refines _ (ses_username ses) w p Hwf) as Hon.
  destruct (chat_server_users_set_online _ _ _ _) as [res users'].
  apply outcome_set_users.
  destruct (decide (res = CHAT_SERVER_USERS_OK)) as [->|Hne].
  - destruct Hon as (Hwf' & e & He & Ha). rewrite Hu in He. injection He as <-.
    cbn [bool_decide negb].
    eapply outcome_mono; [eapply send_json_replied| |done].
    + split; [apply Ho|]. apply lookup_insert_eq.
    + intros s' Hs'. eapply eff_authenticate; try done. apply Ho.
  - exfalso. destruct res; try done. destruct Hon as [_ Hon]. congruence.
Qed.

Lemma handle_user_lookup_effect json s ses :
  users_wf (srv_users s) → opened s ses →
  outcome (handle_user_lookup w p json) s (message_effect w p json s) U.
Proof.
  intros Hwf Ho. unfold handle_user_lookup. eapply outcome_load; [apply Ho|].
  assert (Hret : outcome (mret (-1)) s (message_effect w p json s) U).
  { apply outcome_ret, eff_reply. eexists. split; [apply Ho|]. by left. }
  destruct (ses_authenticated ses); cbn [negb]; [|reply].
  destruct (json_get_string _ _ _) as [name|]; [|reply].
  destruct (chat_username_is_valid (Some name)); cbn [negb]; [|reply].
  apply outcome_get_users. pose proof (find_refines _ Hwf name) as Hf.
  destruct (chat_server_users_find _ _) as [i|].
  - destruct Hf as (u & [Hi _]%live_lookup & _). eapply outcome_user_at; [done|].
    destruct (snprintf _ _); [reply|exact Hret].
  - destruct (snprintf _ _); [reply|exact Hret].
Qed.
End handlers.

Section forward.
Context (w : wsi_t) (p : session_ptr).

(** The recipient's entry: queue the message, or touch a stale connection. *)
Lemma forward_to_target_effect json to s ses :
  users_wf (srv_users s) → opened w p s ses →
  (∀ te tw tp tses, directory s !! to = Some te → entry_conn te = Some (tw, tp) →
     srv_mem s !! tp = Some tses → ses_pending_len tses = 0 →
     len json < CHAT_SERVER_MAX_JSON_SIZE →
     message_effect w p json s (put_session s tp (session_queue tses json))) →
  outcome (forward_to_target w p json to) s (message_effect w p json s) (stale s).
Proof.
  intros Hwf Ho Hfwd. unfold forward_to_target. apply outcome_get_users.
  change (chat_server_users_find_mut ?r ?n) with (chat_server_users_find r n).
  pose proof (find_refines _ Hwf to) as Hf.
  destruct (chat_server_users_find _ _) as [i|]; [|reply].
  destruct Hf as (u & Hl & Hn & Hu). pose proof Hl as [Hi _]%live_lookup.
  eapply outcome_user_at; [done|].
  destruct (user_online u), (user_wsi u) as [tw|] eqn:Ew, (user_session u) as [tp|] eqn:Es;
    try reply.
  assert (Hconn : entry_conn (user_entry u) = Some (tw, tp)) by (cbn; by rewrite Ew, Es).
  destruct (srv_mem s !! tp) as [tses|] eqn:Ep.
  2: { unfold outcome, mbind, M_bind, load. rewrite Ep.
       exists to, (user_entry u), tw, tp. auto. }
  eapply outcome_load; [done|].
  destruct (ses_pending_len tses =? 0) eqn:Epend; cbn [negb]; [bdec|reply].
  unfold send_json. case_if.
  { apply outcome_ret, eff_reply. exists ses. split; [apply Ho|]. by left. }
  eapply outcome_load; [done|]. eapply outcome_store; [done|].
  destruct (srv_conns s !! tw) as [q|] eqn:Eq.
  - eapply outcome_wakeup; [done|]. apply outcome_ret.
    by eapply Hfwd.
  - unfold outcome, mbind, M_bind, lws_wakeup. cbn. rewrite Eq.
    exists to, (user_entry u), tw, tp. auto.
Qed.

Lemma handle_signaling_forward_effect json type s ses :
  users_wf (srv_users s) → opened w p s ses →
  json_get_string (Some json) (Some (lit "type")) 32 = Some type →
  signaling_type_is_supported type = true →
  outcome (handle_signaling_forward w p json type) s (message_effect w p json s) (stale s).
Proof.
  intros Hwf Ho Hty Hsup. unfold handle_signaling_forward. eapply outcome_load; [apply Ho|].
  destruct (ses_authenticated ses) eqn:Hauth; cbn [negb]; [|reply].
  destruct (parse_signaling json) as [[from to]|] eqn:Hpar; [|reply].
  destruct (streq from (ses_username ses)) eqn:Hfrom; cbn [negb]; [|reply].
  apply streq_true in Hfrom.
  apply outcome_get_users. pose proof (find_refines _ Hwf from) as Hf.
  destruct (chat_server_users_find _ _) as [i|]; [|reply].
  destruct Hf as (u & Hl & Hn & Hu). pose proof Hl as [Hi _]%live_lookup.
  eapply outcome_user_at; [done|].
  pose proof (Forall_lookup_1 _ _ _ _ (wf_live _ Hwf) Hl) as (_ & Hkl & _).
  assert (Hfwd : (type = lit "chat_request" ∨ type = lit "chat_accept" →
                  parse_public_key json = Some (user_identity_pk u)) →
    outcome (forward_to_target w p json to) s (message_effect w p json s) (stale s)).
  { intros Hkey. eapply forward_to_target_effect; [done..|]. intros te tw tp tses ?????.
    destruct Ho. by eapply eff_forward. }
  destruct (streq type (lit "chat_request") || streq type (lit "chat_accept")) eqn:Ety.
  - destruct (parse_public_key json) as [key|] eqn:Hk; [|reply].
    destruct (sodium_memcmp key (user_identity_pk u) =? 0) eqn:Hcmp; cbn [negb]; [bdec|reply].
    apply Hfwd. intros _. f_equal. apply memcmp_spec; [|done].
    unfold parse_public_key in Hk. case_match; [|done]. rewrite Hkl. by eapply hex_to_bin_len.
  - apply Hfwd. apply orb_false_iff in Ety as [?%streq_false ?%streq_false]. naive_solver.
Qed.

Lemma handle_message_effect json s ses :
  users_wf (srv_users s) → opened w p s ses →
  outcome (handle_message w p json) s (message_effect w p json s) (stale s).
Proof.
  intros Hwf Ho. unfold handle_message.
  destruct (json_get_string _ _ _) as [type|] eqn:Hty; [|reply].
  destruct (streq type (lit "register")); [by eapply handle_register_effect|].
  destruct (streq type (lit "hello")) eqn:Eh.
  { apply streq_true in Eh as ->. by eapply handle_hello_effect. }
  destruct (streq type (lit "auth_response")); [by eapply handle_auth_response_effect|].
  destruct (streq type (lit "user_lookup")); [by eapply handle_user_lookup_effect|].
  destruct (signaling_type_is_supported type) eqn:Esup; [|reply].
  by eapply handle_signaling_forward_effect.
Qed.
End forward.
End spec.
