(* ===== verification/ServerSafety.v ===== *)
(** * Safety of the control server

    The invariant of the reachable states, the soundness of authentication,
    the integrity of forwarding, and memory safety: no callback touches freed
    memory as long as no client sends a second [hello] on an authenticated
    connection; with such a client one does. *)

From S2P Require Import Prelude CLib Protocol Sodium Json Users Server ServerSpec.

Section safety.
Context `{SodiumCodecOk} `{SodiumSign} `{!SodiumRandomOk}.

(** ** The invariant *)

(** A session names no user or a registered one; while authenticated it has
    no open challenge; the send buffer has its size. *)
Record session_wf (names : bytes → Prop) (ses : chat_server_session_t) : Prop := {
  ses_name_ok : ses_username ses = [] ∨ names (ses_username ses);
  ses_auth_ok : ses_authenticated ses = true →
    names (ses_username ses) ∧ ses_has_challenge ses = false;
  ses_challenge_ok : ses_has_challenge ses = true →
    names (ses_username ses) ∧ len (ses_challenge ses) = CHAT_SERVER_CHALLENGE_BYTES;
  ses_buffer_ok : len (ses_pending ses) = CHAT_SERVER_MAX_JSON_SIZE;
  ses_pending_ok : 0 ≤ ses_pending_len ses < CHAT_SERVER_MAX_JSON_SIZE;
}.

Definition registered (s : server) (name : bytes) : Prop := is_Some (directory s !! name).

Record server_wf (s : server) : Prop := {
  swf_users : users_wf (srv_users s);
  swf_conns : ∀ w p, srv_conns s !! w = Some p → is_Some (srv_mem s !! p);
  swf_inj : ∀ w1 w2 p, srv_conns s !! w1 = Some p → srv_conns s !! w2 = Some p → w1 = w2;
  swf_sessions : ∀ p ses, srv_mem s !! p = Some ses → session_wf (registered s) ses;
}.

Lemma session_wf_mono (P Q : bytes → Prop) ses :
  (∀ n, P n → Q n) → session_wf P ses → session_wf Q ses.
Proof.
  intros HPQ [Hn Ha Hc Hb Hp]. split; [| | |done|done].
  - destruct Hn; [by left|right; auto].
  - intros []%Ha. auto.
  - intros []%Hc. auto.
Qed.

Lemma session_queue_wf P ses msg :
  session_wf P ses → len msg < CHAT_SERVER_MAX_JSON_SIZE → session_wf P (session_queue ses msg).
Proof.
  intros [Hn Ha Hc Hb Hp] Hm. split; cbn; [done..| |].
  - rewrite len_blit; [done|]. lia.
  - pose proof (len_nonneg msg). lia.
Qed.

(** Updating one allocated session. *)
Lemma put_session_wf s p ses ses' :
  server_wf s → srv_mem s !! p = Some ses → session_wf (registered s) ses' →
  server_wf (put_session s p ses').
Proof.
  intros [Hu Hc Hi Hs] Hp Hwf. split; cbn; [done| |done|].
  - intros w q Hq. destruct (decide (q = p)) as [->|].
    + rewrite lookup_insert_eq. eauto.
    + rewrite lookup_insert_ne by done. eauto.
  - intros q sesq. destruct (decide (q = p)) as [->|].
    + rewrite lookup_insert_eq. by intros [= <-].
    + rewrite lookup_insert_ne by done. apply Hs.
Qed.

(** Changing the registry without forgetting a name. *)
Lemma with_users_wf s users' :
  server_wf s → users_wf users' →
  (∀ n, registered s n → is_Some (users_abs users' !! n)) → server_wf (with_users s users').
Proof.
  intros [Hu Hc Hi Hs] Hu' Hn. split; cbn; [done..|].
  intros p ses Hp. eapply session_wf_mono; [|by eapply Hs]. apply Hn.
Qed.

Lemma with_rng_wf s g : server_wf s → server_wf (with_rng s g).
Proof. intros [Hu Hc Hi Hs]. by split. Qed.

Lemma replied_wf p s s' : server_wf s → replied p s s' → server_wf s'.
Proof.
  intros Hwf (ses & Hp & [->|(msg & Hm & ->)]); [done|].
  eapply put_session_wf; [done..|]. apply session_queue_wf; [|done]. by eapply swf_sessions.
Qed.

Lemma insert_names (m : gmap bytes entry) name e n :
  is_Some (m !! n) → is_Some (<[name := e]> m !! n).
Proof. intros. rewrite lookup_insert. by case_decide. Qed.

Lemma verified_wf P ses :
  session_wf P ses → ses_has_challenge ses = true → session_wf P (session_verified ses true).
Proof.
  intros [Hn Ha Hc Hb Hp] Hch. destruct (Hc Hch) as [Hname _].
  split; cbn; try done.
Qed.

Lemma effect_wf w p json s s' :
  server_wf s → message_effect w p json s s' → server_wf s'.
Proof.
  intros Hwf Heff.
  destruct Heff as [Hr
    | name key users' _ _ _ Hu Habs Hr
    | ses name chal g Hp _ _ _ Hname Hrand Hr
    | ses sig e users' Hp Hch _ _ _ Hu Habs Hr
    | ses ty from to e te tw tp tses _ _ _ _ _ _ _ _ _ _ Htp _ Hlen ->].
  - by eapply replied_wf.
  - eapply replied_wf; [|done]. apply with_users_wf; [done..|].
    intros n Hn. rewrite Habs. by apply insert_names.
  - eapply replied_wf; [|done].
    eapply put_session_wf; [by apply with_rng_wf|done|].
    destruct (swf_sessions s Hwf _ _ Hp) as [Hn Ha Hc Hb Hpend].
    pose proof (randombytes_len CHAT_SERVER_CHALLENGE_BYTES (srv_rng s)) as Hl.
    rewrite Hrand in Hl. split; cbn; try done; [by right|].
    intros _. split; [done|]. by apply Hl.
  - eapply replied_wf; [|done]. apply with_users_wf.
    + eapply put_session_wf; [done..|]. apply verified_wf; [|done]. by eapply swf_sessions.
    + done.
    + intros n Hn. rewrite Habs. by apply insert_names.
  - eapply put_session_wf; [done..|]. apply session_queue_wf; [|done].
    by eapply swf_sessions.
Qed.

(** ** Events keep the invariant *)

(** The effect of one event: the specification of the callback. *)
Inductive event_effect (s s' : server) : lws_event → Prop :=
  | ev_open w p g :
      srv_conns s !! w = None → srv_mem s !! p = None →
      s' = {| srv_users := srv_users s; srv_mem := <[p := zero_session]> (srv_mem s);
              srv_conns := <[w := p]> (srv_conns s); srv_rng := srv_rng s |} →
      event_effect s s' (EvOpen w p g)
  | ev_message w p payload :
      srv_conns s !! w = Some p →
      len payload < CHAT_SERVER_MAX_JSON_SIZE →
      message_effect w p (c_string payload) s s' →
      event_effect s s' (EvReceive w payload 0 true)
  | ev_refused w p payload remaining final :
      srv_conns s !! w = Some p → replied p s s' →
      event_effect s s' (EvReceive w payload remaining final)
  | ev_written w p ses res :
      srv_conns s !! w = Some p → srv_mem s !! p = Some ses →
      s' = s ∨ s' = put_session s p
                      {| ses_username := ses_username ses;
                         ses_challenge := ses_challenge ses;
                         ses_has_challenge := ses_has_challenge ses;
                         ses_authenticated := ses_authenticated ses;
                         ses_pending := ses_pending ses;
                         ses_pending_len := 0 |} →
      event_effect s s' (EvWriteable w res)
  | ev_close w p ses :
      srv_conns s !! w = Some p → srv_mem s !! p = Some ses →
      srv_users s' = (if ses_authenticated ses
                      then chat_server_users_set_offline_by_wsi (srv_users s) (Some w)
                      else srv_users s) →
      srv_mem s' = delete p (srv_mem s) →
      srv_conns s' = delete w (srv_conns s) →
      event_effect s s' (EvClose w)
  | ev_other w : s' = s → event_effect s s' (EvOther w).

(** Every event has its effect, or touches a stale connection. *)
Lemma server_exec_effect ev s :
  server_wf s → event_enabled ev s = true →
  match server_exec ev s with
  | Some (_, s') => event_effect s s' ev
  | None => stale s
  end.
Proof.
  intros Hwf Hen.
  assert (Hlive : ∀ w, is_Some (srv_conns s !! w) →
    ∃ p ses, srv_conns s !! w = Some p ∧ srv_mem s !! p = Some ses).
  { intros w [p Hw]. destruct (swf_conns s Hwf w p Hw) as [ses Hp]. eauto. }
  destruct ev as [w p g|w payload rem fin|w res|w|w]; cbn [event_enabled event_wsi] in Hen; bdec.
  - cbn. unfold mbind, M_bind, store. cbn. rewrite lookup_insert_eq. cbn.
    constructor; [done..|]. by rewrite insert_insert_eq.
  - destruct (Hlive w Hen) as (p & ses & Hw & Hp). unfold server_exec. cbn [event_wsi event_reason].
    rewrite Hw. unfold callback_chat_control.
    destruct (_ || _ || _) eqn:Eg.
    + pose proof (send_error_replied w p (stale s) s ses
        (lit "message_too_large_or_fragmented")) as Hs.
      unfold outcome in Hs. destruct (send_error w p _ s) as [[z s']|]; [|by apply Hs].
      eapply ev_refused; [done|]. by apply Hs.
    + apply orb_false_iff in Eg as [[Eg1 Eg2]%orb_false_iff Eg3]. bdec. subst.
      pose proof (handle_message_effect w p (c_string payload) s ses (swf_users s Hwf)) as Hm.
      unfold outcome in Hm. destruct (handle_message w p _ s) as [[z s']|]; [|by apply Hm].
      eapply ev_message; [done|lia|]. by apply Hm.
  - destruct (Hlive w Hen) as (p & ses & Hw & Hp). unfold server_exec. cbn [event_wsi event_reason].
    rewrite Hw. cbn. unfold mbind, M_bind, load. rewrite Hp.
    destruct (ses_pending_len ses =? 0); [by eapply ev_written; eauto|].
    destruct (res <? ses_pending_len ses); [by eapply ev_written; eauto|].
    cbn. unfold store. rewrite Hp. cbn. eapply ev_written; [done..|]. by right.
  - destruct (Hlive w Hen) as (p & ses & Hw & Hp). cbn. rewrite Hw.
    unfold mbind, M_bind, load. rewrite Hp.
    destruct (ses_authenticated ses) eqn:Ea; cbn.
    + unfold store. cbn. rewrite Hp. cbn. eapply ev_close; cbn; try done.
      * by rewrite Ea.
      * by rewrite delete_insert_eq.
    + eapply ev_close; cbn; try done. by rewrite Ea.
  - destruct (Hlive w Hen) as (p & ses & Hw & Hp). cbn. rewrite Hw. by constructor.
Qed.

Lemma offline_names r w n :
  users_wf r → is_Some (users_abs r !! n) →
  is_Some (users_abs (chat_server_users_set_offline_by_wsi r (Some w)) !! n).
Proof.
  intros Hr Hn. destruct (set_offline_refines r w Hr) as [_ ->].
  rewrite lookup_fmap. destruct Hn as [e ->]. eauto.
Qed.

Lemma zero_session_wf P : session_wf P zero_session.
Proof. split; cbn; try done. by left. Qed.

Lemma event_effect_wf s s' ev : server_wf s → event_effect s s' ev → server_wf s'.
Proof.
  intros Hwf Hev.
  destruct Hev as [w p g Hw Hp -> | w p payload Hw Hlen Heff | w p payload rem fin Hw Hr
    | w p ses res Hw Hp Hs' | w p ses Hw Hp Hus Hmem Hconns | w ->].
  - destruct Hwf as [Hu Hc Hi Hs]. split; cbn; [done|..].
    + intros w' q. rewrite !lookup_insert. repeat case_decide; naive_solver.
    + intros w1 w2 q. rewrite !lookup_insert.
      assert (∀ w', srv_conns s !! w' = Some p → False).
      { intros w' Hw'. destruct (Hc _ _ Hw'). congruence. }
      repeat case_decide; naive_solver.
    + intros q ses. rewrite lookup_insert. case_decide; [|by apply Hs].
      intros [= <-]. apply zero_session_wf.
  - by eapply effect_wf.
  - by eapply replied_wf.
  - destruct Hs' as [->| ->]; [done|]. eapply put_session_wf; [done..|].
    destruct (swf_sessions s Hwf _ _ Hp) as [? ? ? ? ?]. by split.
  - assert (Hu' : users_wf (srv_users s') ∧ ∀ n, registered s n → registered s' n).
    { rewrite Hus. unfold registered. rewrite Hus. destruct (ses_authenticated ses).
      - split; [|intros n; apply offline_names]; apply set_offline_refines || idtac; apply Hwf.
      - split; [apply Hwf|done]. }
    destruct Hu' as [Hu' Hn'].
    split; [done|..].
    + intros w' q. rewrite Hconns, Hmem, !lookup_delete.
      repeat case_decide; try done; [|by apply Hwf].
      intros Hq. destruct (swf_inj s Hwf w w' p); naive_solver.
    + intros w1 w2 q. rewrite Hconns, !lookup_delete.
      repeat case_decide; try done. by apply Hwf.
    + intros q sesq. rewrite Hmem, lookup_delete. case_decide; [done|].
      intros Hq. eapply session_wf_mono; [exact Hn'|]. by eapply swf_sessions.
  - done.
Qed.

Lemma server_init_wf users g :
  length (reg_users users) = CHAT_SERVER_MAX_USERS → server_wf (server_init users g).
Proof.
  intros Hl. split; cbn; [by apply init_wf|..].
  - intros w p. by rewrite lookup_empty.
  - intros w1 w2 p. by rewrite lookup_empty.
  - intros p ses. by rewrite lookup_empty.
Qed.

Lemma server_exec_wf s ev ret s' :
  server_wf s → event_enabled ev s = true → server_exec ev s = Some (ret, s') →
  server_wf s' ∧ event_effect s s' ev.
Proof.
  intros Hwf Hen Hex. pose proof (server_exec_effect ev s Hwf Hen) as Heff.
  rewrite Hex in Heff. split; [|done]. by eapply event_effect_wf.
Qed.

Lemma reachable_wf allowed s : reachable allowed s → server_wf s.
Proof.
  induction 1; [by apply server_init_wf|]. by eapply server_exec_wf.
Qed.

(** ** Which connection an entry names *)

(** Every connection the directory records is open, and its session is
    authenticated under the entry's name. *)
Definition tracked (s : server) : Prop :=
  ∀ name e w p, directory s !! name = Some e → entry_conn e = Some (w, p) →
    srv_conns s !! w = Some p
    ∧ ∃ ses, srv_mem s !! p = Some ses ∧ ses_authenticated ses = true
             ∧ ses_username ses = name.

(** The discipline of the daemon: no [hello] on an authenticated connection. *)
Definition no_second_hello (ev : lws_event) (s : server) : bool :=
  match ev with
  | EvReceive w payload _ _ =>
      match srv_conns s !! w ≫= λ p, srv_mem s !! p with
      | Some ses =>
          negb (ses_authenticated ses
                && bool_decide (json_get_string (Some (c_string payload)) (Some (lit "type")) 32
                                = Some (lit "hello")))
      | None => true
      end
  | _ => true
  end.

Lemma no_second_hello_spec w payload rem fin s p ses :
  no_second_hello (EvReceive w payload rem fin) s = true →
  srv_conns s !! w = Some p → srv_mem s !! p = Some ses → ses_authenticated ses = true →
  json_get_string (Some (c_string payload)) (Some (lit "type")) 32 ≠ Some (lit "hello").
Proof.
  unfold no_second_hello. intros Hok Hw Hp Ha. rewrite Hw in Hok. cbn in Hok.
  rewrite Hp, Ha in Hok. cbn in Hok. by bdec.
Qed.

Lemma tracked_not_stale s : server_wf s → tracked s → ~ stale s.
Proof.
  intros Hwf Ht (name & e & tw & tp & He & Hc & Hno).
  destruct (Ht _ _ _ _ He Hc) as (Hw & ses & Hp & _). destruct Hno; congruence.
Qed.

(** Updating a session keeps [tracked] when the session keeps its name and
    stays authenticated, or was not authenticated. *)
Lemma tracked_put s p ses ses' :
  tracked s → srv_mem s !! p = Some ses →
  (ses_authenticated ses = true →
    ses_authenticated ses' = true ∧ ses_username ses' = ses_username ses) →
  tracked (put_session s p ses').
Proof.
  intros Ht Hp Hk name e w q He Hc. destruct (Ht name e w q He Hc) as (Hw & sq & Hq & Ha & Hn).
  split; [done|]. cbn. destruct (decide (q = p)) as [->|].
  - rewrite lookup_insert_eq. rewrite Hp in Hq. simplify_eq.
    destruct (Hk Ha) as [? ?]. eauto.
  - rewrite lookup_insert_ne by done. eauto.
Qed.

Lemma tracked_replied p s s' : tracked s → replied p s s' → tracked s'.
Proof.
  intros Ht (ses & Hp & [->|(msg & _ & ->)]); [done|]. by eapply tracked_put.
Qed.

Lemma effect_tracked w p json s s' :
  server_wf s → tracked s → srv_conns s !! w = Some p →
  (∀ ses, srv_mem s !! p = Some ses → ses_authenticated ses = true →
    json_get_string (Some json) (Some (lit "type")) 32 ≠ Some (lit "hello")) →
  message_effect w p json s s' → tracked s'.
Proof.
  intros Hwf Ht Hw Hhello Heff.
  destruct Heff as [Hr
    | name key users' _ Hnone _ Hu Habs Hr
    | ses name chal g Hp Hty _ _ Hname Hrand Hr
    | ses sig e users' Hp Hch _ He _ Hu Habs Hr
    | ses ty from to e te tw tp tses _ _ _ _ _ _ _ _ _ _ Htp _ Hlen ->].
  - by eapply tracked_replied.
  - eapply tracked_replied; [|done]. intros n e w' p'. cbn. rewrite Habs, lookup_insert.
    case_decide; [by intros [= <-]|]. apply Ht.
  - eapply tracked_replied; [|done]. eapply (tracked_put (with_rng s g)); [done..|].
    intros Ha. by destruct (Hhello ses Hp Ha).
  - eapply tracked_replied; [|done]. intros n e' w' p'. cbn. rewrite Habs, lookup_insert.
    case_decide as Hn.
    + intros [= <-] [= <- <-]. split; [done|]. rewrite lookup_insert_eq.
      eexists. split_and!; done.
    + intros He' Hc. destruct (Ht n e' w' p' He' Hc) as (Hw' & sq & Hq & Ha & Hsq).
      split; [done|]. destruct (decide (p' = p)) as [->|].
      * rewrite Hp in Hq. by simplify_eq.
      * rewrite lookup_insert_ne by done. eauto.
  - by eapply tracked_put.
Qed.

Lemma event_effect_tracked s s' ev :
  server_wf s → tracked s → no_second_hello ev s = true → event_effect s s' ev → tracked s'.
Proof.
  intros Hwf Ht Hok Hev.
  destruct Hev as [w p g Hw Hp -> | w p payload Hw Hlen Heff | w p payload rem fin Hw Hr
    | w p ses res Hw Hp Hs' | w p ses Hw Hp Hus Hmem Hconns | w ->].
  - intros n e w' p' He Hc. destruct (Ht n e w' p' He Hc) as (Hw' & sq & Hq & Ha & Hsq). cbn.
    rewrite !lookup_insert_ne by congruence. eauto.
  - eapply effect_tracked; [done..| |done].
    intros ses. by eapply no_second_hello_spec.
  - by eapply tracked_replied.
  - destruct Hs' as [->| ->]; [done|]. by eapply tracked_put.
  - intros n e w' p' He Hc.
    assert (∃ e0, directory s !! n = Some e0 ∧ entry_conn e0 = Some (w', p') ∧ w' ≠ w)
      as (e0 & He0 & Hc0 & Hne).
    { rewrite Hus in He. destruct (ses_authenticated ses) eqn:Ea.
      - destruct (set_offline_refines _ w (swf_users s Hwf)) as [_ Habs].
        rewrite Habs, lookup_fmap in He. destruct (directory s !! n) as [e0|]; [|done].
        cbn in He. injection He as <-. exists e0. split; [done|].
        unfold entry_disconnect in Hc. destruct (entry_conn e0) as [[w0 p0]|] eqn:E0; [|congruence].
        case_bool_decide; [done|]. rewrite E0 in Hc. by simplify_eq.
      - exists e. split_and!; [done..|]. intros ->.
        destruct (Ht n e w p' He Hc) as (Hw' & sq & Hq & Ha & _). congruence. }
    destruct (Ht n e0 w' p' He0 Hc0) as (Hw' & sq & Hq & Ha & Hsq).
    rewrite Hconns, Hmem, !lookup_delete_ne; [eauto| |done].
    intros ->. by destruct (swf_inj s Hwf w w' p').
  - done.
Qed.

Lemma reachable_tracked s : reachable no_second_hello s → tracked s.
Proof.
  induction 1 as [users g Hl|s ev ret s' Hr IH Hen Hok Hex].
  - intros n e w p He. change (users_abs (chat_server_users_init users) !! n = Some e) in He.
    destruct (init_wf users Hl) as [_ E]. rewrite E in He. by rewrite lookup_empty in He.
  - apply reachable_wf in Hr as Hwf. eapply event_effect_tracked; [done..|].
    by eapply server_exec_wf.
Qed.

(** ** What changes a session *)

Lemma replied_session q p s s' ses' :
  replied p s s' → srv_mem s' !! q = Some ses' →
  ∃ ses, srv_mem s !! q = Some ses
    ∧ ses_authenticated ses' = ses_authenticated ses ∧ ses_username ses' = ses_username ses
    ∧ ses_has_challenge ses' = ses_has_challenge ses ∧ (q ≠ p → ses' = ses).
Proof.
  intros (ses & Hp & [->|(msg & _ & ->)]) Hq; [by exists ses'|].
  cbn [put_session with_mem srv_mem] in Hq. rewrite lookup_insert in Hq.
  case_decide as Hd; [|by exists ses'].
  injection Hq as <-. subst q. exists ses. by split_and!.
Qed.

Lemma event_authentication s s' ev p ses' :
  event_effect s s' ev → srv_mem s' !! p = Some ses' → ses_authenticated ses' = true →
  (∃ ses, srv_mem s !! p = Some ses ∧ ses_authenticated ses = true
          ∧ ses_username ses = ses_username ses')
  ∨ ∃ w payload ses signature e,
      ev = EvReceive w payload 0 true ∧ srv_conns s !! w = Some p
      ∧ srv_mem s !! p = Some ses ∧ ses_has_challenge ses = true
      ∧ parse_signature (c_string payload) = Some signature
      ∧ directory s !! ses_username ses = Some e
      ∧ crypto_sign_verify_detached signature (ses_challenge ses) (entry_key e) = 0
      ∧ ses_username ses' = ses_username ses ∧ ses_has_challenge ses' = false.
Proof.
  intros Hev Hp Ha.
  destruct Hev as [w q g Hw Hq -> | w q payload Hw Hlen Heff | w q payload rem fin Hw Hr
    | w q ses res Hw Hq Hs' | w q ses Hw Hq Hus Hmem Hconns | w ->].
  - cbn [srv_mem] in Hp. rewrite lookup_insert in Hp. case_decide.
    + by injection Hp as <-.
    + left. by exists ses'.
  - destruct Heff as [Hr
      | name key users' _ Hnone _ Hu Habs Hr
      | ses name chal g Hq Hty _ _ Hname Hrand Hr
      | ses sig e users' Hq Hch Hsig He Hver Hu Habs Hr
      | ses ty from to e te tw tp tses _ _ _ _ _ _ _ _ _ _ Htp _ _ ->].
    + destruct (replied_session p _ _ _ _ Hr Hp) as (ses & Hs & E1 & E2 & _ & _).
      left. exists ses. by rewrite <- E1, <- E2.
    + destruct (replied_session p _ _ _ _ Hr Hp) as (ses & Hs & E1 & E2 & _ & _).
      left. exists ses. by rewrite <- E1, <- E2.
    + destruct (replied_session p _ _ _ _ Hr Hp) as (ses1 & Hs & E1 & E2 & _ & _). cbn in Hs.
      rewrite lookup_insert in Hs. case_decide; simplify_eq; [by rewrite E1 in Ha|].
      left. exists ses1. by rewrite <- E1, <- E2.
    + destruct (replied_session p _ _ _ _ Hr Hp) as (ses1 & Hs & E1 & E2 & E3 & _). cbn in Hs.
      rewrite lookup_insert in Hs. case_decide; simplify_eq.
      * right. exists w, payload, ses, sig, e. by split_and!.
      * left. exists ses1. by rewrite <- E1, <- E2.
    + left. cbn [put_session with_mem srv_mem] in Hp. rewrite lookup_insert in Hp.
      case_decide; [|by exists ses']. subst. injection Hp as <-. by exists tses.
  - destruct (replied_session p _ _ _ _ Hr Hp) as (ses & Hs & E1 & E2 & _ & _).
    left. exists ses. by rewrite <- E1, <- E2.
  - left. destruct Hs' as [->| ->]; [by exists ses'|]. cbn [put_session with_mem srv_mem] in Hp.
    rewrite lookup_insert in Hp. case_decide; [|by exists ses'].
    subst. injection Hp as <-. by exists ses.
  - left. rewrite Hmem, lookup_delete in Hp. case_decide; [done|]. by exists ses'.
  - left. by exists ses'.
Qed.

(** A session other than the connection's own changes only by a forward. *)
Lemma event_forward s s' ev q sq sq' :
  event_effect s s' ev → srv_conns s !! event_wsi ev ≠ Some q →
  srv_mem s !! q = Some sq → srv_mem s' !! q = Some sq' → sq' ≠ sq →
  ∃ w payload p ses type from to e te tw,
    ev = EvReceive w payload 0 true ∧ srv_conns s !! w = Some p
    ∧ srv_mem s !! p = Some ses ∧ ses_authenticated ses = true
    ∧ json_get_string (Some (c_string payload)) (Some (lit "type")) 32 = Some type
    ∧ signaling_type_is_supported type = true
    ∧ parse_signaling (c_string payload) = Some (from, to)
    ∧ from = ses_username ses ∧ directory s !! from = Some e
    ∧ (type = lit "chat_request" ∨ type = lit "chat_accept" →
        parse_public_key (c_string payload) = Some (entry_key e))
    ∧ directory s !! to = Some te ∧ entry_conn te = Some (tw, q)
    ∧ ses_pending_len sq = 0 ∧ sq' = session_queue sq (c_string payload).
Proof.
  intros Hev Hown Hsq Hsq' Hne.
  destruct Hev as [w p g Hw Hp -> | w p payload Hw Hlen Heff | w p payload rem fin Hw Hr
    | w p ses res Hw Hp Hs' | w p ses Hw Hp Hus Hmem Hconns | w ->]; cbn [event_wsi] in Hown.
  - cbn in Hsq'. rewrite lookup_insert in Hsq'. case_decide; simplify_eq.
  - assert (Hqp : q ≠ p) by congruence.
    destruct Heff as [Hr
      | name key users' _ Hnone _ Hu Habs Hr
      | ses name chal g Hq Hty _ _ Hname Hrand Hr
      | ses sig e users' Hq Hch Hsig He Hver Hu Habs Hr
      | ses ty from to e te tw tp tses Hp Ha Hty Hsup Hpar Hfrom He Hkey Hte Hc Htp Hpend _ ->].
    1-4: destruct (replied_session q _ _ _ _ Hr Hsq') as (s1 & Hs1 & _ & _ & _ & E);
      cbn in Hs1; rewrite ?lookup_insert_ne in Hs1 by done; specialize (E Hqp); congruence.
    cbn in Hsq'. rewrite lookup_insert in Hsq'. case_decide; simplify_eq.
    exists w, payload, p, ses, ty, (ses_username ses), to, e, te, tw. by split_and!.
  - destruct (replied_session q _ _ _ _ Hr Hsq') as (s1 & Hs1 & _ & _ & _ & E).
    rewrite E in Hne by congruence. congruence.
  - destruct Hs' as [->| ->]; [congruence|]. cbn in Hsq'.
    rewrite lookup_insert_ne in Hsq' by congruence. congruence.
  - rewrite Hmem, lookup_delete in Hsq'. case_decide; [done|]. congruence.
  - congruence.
Qed.
End safety.
