(* ===== verification/ServerTheorems.v ===== *)
(** * Theorems on the control server

    The properties of [Server] over its reachable states, with a concrete run
    (two users register, authenticate and exchange a signalling message) on
    which they are instantiated. *)

From S2P Require Import Prelude CLib Protocol Sodium Json Users Server ServerSpec ServerSafety.

(** ** A concrete run *)

Module Demo.
Import Reference.

Definition alice_pk : bytes := replicate 32 (byte_of 5).
Definition bob_pk : bytes := replicate 32 (byte_of 6).

Definition register_msg (name pk : bytes) : bytes :=
  qlit "{'type':'register','username':'" ++ name ++ qlit "','public_key':'"
  ++ sodium_bin2hex pk ++ qlit "'}".
Definition hello_msg (name : bytes) : bytes :=
  qlit "{'type':'hello','username':'" ++ name ++ qlit "'}".
Definition auth_msg (challenge pk : bytes) : bytes :=
  qlit "{'type':'auth_response','signature':'"
  ++ sodium_bin2hex (toy_signature challenge pk) ++ qlit "'}".
Definition request_msg (from to pk : bytes) : bytes :=
  qlit "{'type':'chat_request','from':'" ++ from ++ qlit "','to':'" ++ to
  ++ qlit "','session_id':'0123','public_key':'" ++ sodium_bin2hex pk ++ qlit "'}".

Definition recv (w : wsi_t) (msg : bytes) : lws_event := EvReceive w msg 0 true.

(** Connect, register, say hello, answer the challenge [replicate 32 g]. *)
Definition login (w : wsi_t) (p : session_ptr) (name pk : bytes) (g : Z) : list lws_event :=
  [ EvOpen w p zero_session; recv w (register_msg name pk); EvWriteable w 4096;
    recv w (hello_msg name); EvWriteable w 4096;
    recv w (auth_msg (replicate 32 (byte_of g)) pk); EvWriteable w 4096 ].

Definition start : server := server_init garbage_registry 7.
Definition hello_events : list lws_event :=
  take 5 (login 1 1 (lit "alice") alice_pk 7).
Definition both_events : list lws_event :=
  login 1 1 (lit "alice") alice_pk 7 ++ login 2 2 (lit "bob") bob_pk 8.

Definition run_to (evs : list lws_event) : server :=
  match server_run no_second_hello evs start with Some s => s | None => start end.

Lemma start_reachable allowed : reachable allowed start.
Proof. apply reachable_init. vm_compute. reflexivity. Qed.

Lemma run_reachable evs :
  is_Some (server_run no_second_hello evs start) → reachable no_second_hello (run_to evs).
Proof.
  unfold run_to. destruct (server_run no_second_hello evs start) as [s|] eqn:E;
    [intros _|by intros []].
  eapply server_run_reachable; [apply start_reachable|exact E].
Qed.

Lemma both_reachable : reachable no_second_hello (run_to both_events).
Proof. apply run_reachable. vm_compute. eauto. Qed.
(** Bob has a message from alice queued. *)
Definition forward_event : lws_event :=
  recv 1 (request_msg (lit "alice") (lit "bob") alice_pk).
Definition auth_event : lws_event := recv 1 (auth_msg (replicate 32 (byte_of 7)) alice_pk).

(** The state after one more event. *)
Definition after (ev : lws_event) (s : server) : server :=
  match server_exec ev s with Some (_, s') => s' | None => s end.
Definition ses_at (p : session_ptr) (s : server) : chat_server_session_t :=
  default zero_session (srv_mem s !! p).

Lemma exec_after ev s :
  is_Some (server_exec ev s) → ∃ ret, server_exec ev s = Some (ret, after ev s).
Proof.
  unfold after. destruct (server_exec ev s) as [[ret s']|]; [|by intros []]. by exists ret.
Qed.
Lemma ses_at_lookup p s : is_Some (srv_mem s !! p) → srv_mem s !! p = Some (ses_at p s).
Proof. unfold ses_at. by intros [ses ->]. Qed.

Lemma hello_reachable : reachable no_second_hello (run_to hello_events).
Proof. apply run_reachable. vm_compute. eauto. Qed.
End Demo.

Section theorems.
Context `{SodiumCodecOk} `{SodiumSign} `{!SodiumRandomOk}.

(** C13: in every state the server can reach, whatever the clients send: the
    registry is well formed; every open connection has its own allocated
    session; a session that is authenticated or holds an open challenge names
    a registered user and is never both; queued data fits the send buffer. *)
Theorem server_invariant allowed s : reachable allowed s → server_wf s.
Proof. apply reachable_wf. Qed.

(** C2: a session becomes authenticated only through a message on its own
    connection that carries a signature, valid under the key registered for
    the session's name, of the challenge the server issued to that session;
    the challenge is then spent. *)
Theorem authentication_sound allowed s ev ret s' p ses' :
  reachable allowed s → event_enabled ev s = true → server_exec ev s = Some (ret, s') →
  srv_mem s' !! p = Some ses' → ses_authenticated ses' = true →
  (∃ ses, srv_mem s !! p = Some ses ∧ ses_authenticated ses = true
          ∧ ses_username ses = ses_username ses')
  ∨ ∃ w payload ses signature e,
      ev = EvReceive w payload 0 true ∧ srv_conns s !! w = Some p
      ∧ srv_mem s !! p = Some ses ∧ ses_has_challenge ses = true
      ∧ parse_signature (c_string payload) = Some signature
      ∧ directory s !! ses_username ses = Some e
      ∧ crypto_sign_verify_detached signature (ses_challenge ses) (entry_key e) = 0
      ∧ ses_username ses' = ses_username ses ∧ ses_has_challenge ses' = false.
Proof.
  intros Hr Hen Hex Hp Ha. apply reachable_wf in Hr as Hwf.
  destruct (server_exec_wf s ev ret s' Hwf Hen Hex) as [_ Hev].
  by eapply event_authentication.
Qed.

(** C7: what a connection's event can do to another user's session is to
    forward one message there: the sender is authenticated, is the message's
    [from], for chat_request and chat_accept the message carries the sender's
    registered key, the receiver is the message's [to], online on that
    session, with an empty send queue; the bytes queued are the message
    unchanged. *)
Theorem forward_integrity allowed s ev ret s' q sq sq' :
  reachable allowed s → event_enabled ev s = true → server_exec ev s = Some (ret, s') →
  srv_conns s !! event_wsi ev ≠ Some q →
  srv_mem s !! q = Some sq → srv_mem s' !! q = Some sq' → sq' ≠ sq →
  ∃ w payload p ses type from to e te tw,
    ev = EvReceive w payload 0 true ∧ srv_conns s !! w = Some p
    ∧ srv_mem s !! p = Some ses ∧ ses_authenticated ses = true
    ∧ json_get_string (Some (c_string payload)) (Some (lit "type")) 32 = Some type
    ∧ signaling_type_is_supported type = true
    ∧ parse_signaling (c_string payload) = Some (from, to)
    ∧ from = ses_username ses ∧ directory s !! from = Some e
    ∧ (type = lit "chat_request" ∨ type = lit "chat_accept" →
        parse_public_key (c_string payload) = Some (entry_key e))
    ∧ directory s !! to = Some te ∧ entry_conn te = Some (tw, q)
    ∧ ses_pending_len sq = 0 ∧ sq' = session_queue sq (c_string payload).
Proof.
  intros Hr Hen Hex Hown Hq Hq' Hne. apply reachable_wf in Hr as Hwf.
  destruct (server_exec_wf s ev ret s' Hwf Hen Hex) as [_ Hev].
  by eapply event_forward.
Qed.

(** C14: as long as no client sends a second [hello] on an authenticated
    connection, every callback returns: it never reads or writes a session or
    a connection that libwebsockets has freed. *)
Theorem server_memory_safe s ev :
  reachable no_second_hello s → event_enabled ev s = true →
  ∃ ret s', server_exec ev s = Some (ret, s').
Proof.
  intros Hr Hen. apply reachable_wf in Hr as Hwf.
  pose proof (server_exec_effect ev s Hwf Hen) as Heff.
  destruct (server_exec ev s) as [[ret s']|]; [by exists ret, s'|].
  destruct (tracked_not_stale s Hwf (reachable_tracked s Hr) Heff).
Qed.

(** C15: under the same discipline presence is exact on one side: a user the
    registry lists as online has the connection and the session it records
    open, and that session is authenticated under the user's name; so no two
    users share a session. *)
Theorem presence_sound s name e w p :
  reachable no_second_hello s →
  directory s !! name = Some e → entry_conn e = Some (w, p) →
  srv_conns s !! w = Some p
  ∧ (∃ ses, srv_mem s !! p = Some ses ∧ ses_authenticated ses = true
            ∧ ses_username ses = name)
  ∧ ∀ name' e' w', directory s !! name' = Some e' → entry_conn e' = Some (w', p) → name' = name.
Proof.
  intros Hr He Hc. pose proof (reachable_tracked s Hr) as Ht.
  destruct (Ht _ _ _ _ He Hc) as (Hw & ses & Hp & Ha & Hn).
  split_and!; [done|by exists ses|]. intros name' e' w' He' Hc'.
  destruct (Ht _ _ _ _ He' Hc') as (_ & ses' & Hp' & _ & Hn'). congruence.
Qed.
End theorems.

(** ** Instances on the concrete run *)

Import Reference Demo.

Lemma server_invariant_witness :
  server_wf (run_to both_events)
  ∧ bool_decide (map_Forall (λ _ ses, ses_authenticated ses = true)
                   (srv_mem (run_to both_events))) = true
  ∧ size (srv_mem (run_to both_events)) = 2%nat.
Proof.
  split_and!.
  - exact (server_invariant no_second_hello _ both_reachable).
  - vm_compute. reflexivity.
  - vm_compute. reflexivity.
Defined.

(** Closed [is_Some] and boolean facts by evaluation. *)
Ltac evaluate := vm_compute; first [reflexivity | eauto].

Lemma authentication_sound_witness :
  ses_authenticated (ses_at 1 (run_to hello_events)) = false
  ∧ ses_authenticated (ses_at 1 (after auth_event (run_to hello_events))) = true
  ∧ ∃ signature e,
      directory (run_to hello_events) !! lit "alice" = Some e
      ∧ crypto_sign_verify_detached signature (replicate 32 (byte_of 7)) (entry_key e) = 0.
Proof.
  split_and!; [evaluate..|].
  destruct (exec_after auth_event (run_to hello_events)) as [ret Hex]; [evaluate|].
  edestruct (authentication_sound no_second_hello (run_to hello_events) auth_event ret
               (after auth_event (run_to hello_events)) 1
               (ses_at 1 (after auth_event (run_to hello_events))) hello_reachable)
    as [(ses & Hp & Ha & _)|(w & payload & ses & sig & e & _ & _ & Hp & _ & _ & He & Hver & _)].
  - evaluate.
  - exact Hex.
  - apply ses_at_lookup. evaluate.
  - evaluate.
  - rewrite (ses_at_lookup 1) in Hp by evaluate. apply (inj Some) in Hp. subst ses. vm_compute in Ha. done.
  - rewrite (ses_at_lookup 1) in Hp by evaluate. apply (inj Some) in Hp. subst ses.
    exists sig, e. split; [exact He|exact Hver].
Defined.

Lemma forward_integrity_witness :
  ∃ payload,
    ses_at 2 (after forward_event (run_to both_events))
    = session_queue (ses_at 2 (run_to both_events)) (c_string payload)
    ∧ parse_signaling (c_string payload) = Some (lit "alice", lit "bob").
Proof.
  destruct (exec_after forward_event (run_to both_events)) as [ret Hex]; [evaluate|].
  edestruct (forward_integrity no_second_hello (run_to both_events) forward_event ret
               (after forward_event (run_to both_events)) 2
               (ses_at 2 (run_to both_events))
               (ses_at 2 (after forward_event (run_to both_events))) both_reachable)
    as (w & payload & p & ses & ty & from & to & e & te & tw & Hev & _ & _ & _ & _ & _
        & Hpar & _ & _ & _ & _ & _ & _ & Hq).
  - evaluate.
  - exact Hex.
  - vm_compute. discriminate.
  - apply ses_at_lookup. evaluate.
  - apply ses_at_lookup. evaluate.
  - intros E. apply (f_equal ses_pending_len) in E. vm_compute in E. discriminate.
  - exists payload. split; [exact Hq|]. injection Hev as _ Hpay. rewrite <- Hpay. evaluate.
Defined.

Lemma server_memory_safe_witness :
  ∃ ret s', server_exec forward_event (run_to both_events) = Some (ret, s').
Proof. apply (server_memory_safe _ forward_event both_reachable). evaluate. Defined.

Lemma presence_sound_witness : srv_conns (run_to both_events) !! 2%positive = Some 2%positive.
Proof.
  destruct (directory (run_to both_events) !! lit "bob") as [e|] eqn:He; [|by vm_compute in He].
  assert (Hc : entry_conn e = Some (2, 2)%positive).
  { vm_compute in He. injection He as <-. reflexivity. }
  exact (proj1 (presence_sound _ (lit "bob") e _ _ both_reachable He Hc)).
Defined.
