(* ===== verification/ServerDefects.v ===== *)
(** * Two defects of the control server

    A second [hello] on an authenticated connection leads to a use of freed
    memory, and a reply destroys a message another user has queued.  Both are
    stated for every reachable state and every message of the kind, with the
    run of [ServerTheorems] as instance. *)

From S2P Require Import Prelude CLib Protocol Sodium Json JsonText Users Server ServerSpec.
From S2P Require Import ServerSafety ServerTheorems.

Section defects.
Context `{SodiumCodecOk} `{SodiumSign} `{!SodiumRandomOk}.

(** ** A message one user addresses to another *)

(** [payload] is a signalling message to [to] that the server accepts from
    the connection [w] with the session at [p]. *)
Record addressed (s : server) (w : wsi_t) (p : session_ptr) (payload to : bytes) : Prop := {
  adr_conn : srv_conns s !! w = Some p;
  adr_len : len payload < CHAT_SERVER_MAX_JSON_SIZE;
  adr_parse : ∃ ses e type,
    srv_mem s !! p = Some ses ∧ ses_authenticated ses = true
    ∧ directory s !! ses_username ses = Some e
    ∧ json_get_string (Some (c_string payload)) (Some (lit "type")) 32 = Some type
    ∧ signaling_type_is_supported type = true
    ∧ parse_signaling (c_string payload) = Some (ses_username ses, to)
    ∧ (type = lit "chat_request" ∨ type = lit "chat_accept" →
        parse_public_key (c_string payload) = Some (entry_key e));
}.

(** The names of the signalling messages are none of the others. *)
Lemma supported_type type :
  signaling_type_is_supported type = true →
  streq type (lit "register") = false ∧ streq type (lit "hello") = false
  ∧ streq type (lit "auth_response") = false ∧ streq type (lit "user_lookup") = false
  ∧ type ≠ lit "user_status".
Proof.
  unfold signaling_type_is_supported. intros (t & Ht & ->%streq_true)%existsb_exists.
  apply list_elem_of_In in Ht. unfold signaling_types in Ht.
  rewrite !elem_of_cons, elem_of_nil in Ht.
  destruct_or? Ht; subst t; done.
Qed.

(** A whole message goes to its handler. *)
Lemma message_handled w p payload s :
  srv_conns s !! w = Some p → len payload < CHAT_SERVER_MAX_JSON_SIZE →
  server_exec (EvReceive w payload 0 true) s = handle_message w p (c_string payload) s.
Proof.
  intros Hw Hl. unfold server_exec. cbn [event_wsi event_reason]. rewrite Hw.
  unfold callback_chat_control. by rewrite Z.geb_leb, (proj2 (Z.leb_gt _ _)) by done.
Qed.

(** An addressed message passes every check on the sender. *)
Lemma addressed_forward s w p payload to :
  users_wf (srv_users s) → addressed s w p payload to →
  server_exec (EvReceive w payload 0 true) s = forward_to_target w p (c_string payload) to s.
Proof.
  intros Hwf [Hw Hl (ses & e & type & Hp & Ha & He & Ht & Hsup & Hpar & Hkey)].
  rewrite (message_handled w p) by done. unfold handle_message. rewrite Ht.
  destruct (supported_type _ Hsup) as (-> & -> & -> & -> & _). rewrite Hsup.
  unfold handle_signaling_forward, mbind at 1, M_bind at 1, load at 1. rewrite Hp, Ha.
  cbn [negb]. rewrite Hpar, streq_refl. cbn [negb].
  unfold mbind at 1, M_bind at 1, get_users at 1. cbn [fst snd].
  pose proof (find_refines _ Hwf (ses_username ses)) as Hf.
  destruct (chat_server_users_find _ _) as [i|]; [|congruence].
  destruct Hf as (u & [Hi _]%live_lookup & _ & Hu). assert (user_entry u = e) as <- by congruence.
  unfold mbind at 1, M_bind at 1, user_at at 1. rewrite Hi.
  destruct (streq type (lit "chat_request") || streq type (lit "chat_accept")) eqn:Ety; [|done].
  rewrite Hkey by (apply orb_true_iff in Ety as [?%streq_true|?%streq_true]; auto).
  cbn [entry_key user_entry]. by rewrite (proj2 (memcmp_spec _ _ eq_refl) eq_refl).
Qed.

(** The recipient the directory records as online. *)
Lemma forward_online s w p json to te tw tp :
  users_wf (srv_users s) → directory s !! to = Some te → entry_conn te = Some (tw, tp) →
  forward_to_target w p json to s =
    (tses ← load tp;
     if negb (ses_pending_len tses =? 0) then send_error w p (lit "peer_busy")
     else send_json tw tp json) s.
Proof.
  intros Hwf Hte Hc. unfold forward_to_target.
  change (chat_server_users_find_mut ?r ?n) with (chat_server_users_find r n).
  unfold mbind at 1, M_bind at 1, get_users at 1. cbn [fst snd].
  pose proof (find_refines _ Hwf to) as Hf.
  destruct (chat_server_users_find _ _) as [i|]; [|congruence].
  destruct Hf as (u & Hl & _ & Hu). assert (user_entry u = te) as <- by congruence.
  pose proof (Forall_lookup_1 _ _ _ _ (wf_live _ Hwf) Hl) as (_ & _ & Hon).
  apply live_lookup in Hl as [Hi _].
  unfold mbind at 1, M_bind at 1, user_at at 1. rewrite Hi. cbn [entry_conn user_entry] in Hc.
  destruct (user_wsi u), (user_session u), (user_online u); try done. by injection Hc as -> ->.
Qed.

(** ** Use after free *)

(** C35: whenever a client that has authenticated, so that the directory records
    its connection for a user, sends [hello] again (for any registered name)
    and then disconnects, the directory goes on recording that connection for
    the user although the connection and its session are freed; every
    signalling message another user then addresses to that user makes the
    server use the freed session ([None]). *)
Theorem second_hello_use_after_free allowed s w p name e hello again :
  reachable allowed s →
  srv_conns s !! w = Some p → directory s !! name = Some e → entry_conn e = Some (w, p) →
  len hello < CHAT_SERVER_MAX_JSON_SIZE →
  json_get_string (Some (c_string hello)) (Some (lit "type")) 32 = Some (lit "hello") →
  json_get_string (Some (c_string hello)) (Some (lit "username")) 33 = Some again →
  chat_username_is_valid (Some again) = true → is_Some (directory s !! again) →
  ∃ r1 s1 r2 s2,
    server_exec (EvReceive w hello 0 true) s = Some (r1, s1)
    ∧ server_exec (EvClose w) s1 = Some (r2, s2)
    ∧ srv_conns s2 !! w = None ∧ srv_mem s2 !! p = None ∧ directory s2 = directory s
    ∧ ∀ w' p' payload, addressed s2 w' p' payload name →
        server_exec (EvReceive w' payload 0 true) s2 = None.
Proof.
  intros Hr Hw He Hc Hl Ht Hn Hv Hagain. apply reachable_wf in Hr as Hwfs.
  pose proof (swf_users _ Hwfs) as Hwf. destruct (swf_conns _ Hwfs _ _ Hw) as [ses Hp].
  destruct (randombytes_buf CHAT_SERVER_CHALLENGE_BYTES (srv_rng s)) as [challenge g] eqn:Erng.
  pose proof (handle_hello_eval w p False (c_string hello) s ses again challenge g Hwf
    (conj Hw Hp) Hn Hv Hagain Erng) as Ho. cbv zeta in Ho.
  set (ses' := session_queue _ _) in Ho. unfold outcome in Ho.
  destruct (handle_hello w p (c_string hello) s) as [[r1 s1]|] eqn:Eh; [|done].
  assert (Hs1 : srv_mem s1 !! p = Some ses') by (subst s1; apply lookup_insert_eq).
  assert (Hw1 : srv_conns s1 !! w = Some p) by by subst s1.
  exists r1, s1. eexists 0, {| srv_users := srv_users s1; srv_mem := delete p (srv_mem s1);
    srv_conns := delete w (srv_conns s1); srv_rng := srv_rng s1 |}. split_and!.
  - rewrite (message_handled w p) by done. unfold handle_message. rewrite Ht. exact Eh.
  - cbn [server_exec]. rewrite Hw1. unfold callback_chat_control, mbind, M_bind, load.
    by rewrite Hs1.
  - apply lookup_delete_eq.
  - apply lookup_delete_eq.
  - by subst s1.
  - intros w' p' payload Hadr. assert (Hd : users_wf (srv_users s1)) by by subst s1.
    pose proof (λ Hx, addressed_forward _ _ _ _ _ Hx Hadr) as Ef. rewrite (Ef Hd).
    rewrite (forward_online _ _ _ _ _ e w p) by (by subst s1).
    unfold mbind, M_bind, load. cbn [srv_mem]. by rewrite lookup_delete_eq.
Qed.

(** ** A lost message *)

(** The answer to the lookup of a user. *)
Definition status_reply (s : server) (name : bytes) : bytes :=
  match directory s !! name with
  | None => status_json_unknown name
  | Some e => status_json_known name (bool_decide (is_Some (entry_conn e)))
                (sodium_bin2hex (entry_key e))
  end.

Lemma user_online_entry u :
  user_wf u → user_online u = bool_decide (is_Some (entry_conn (user_entry u))).
Proof.
  intros (_ & _ & Hu). cbn [entry_conn user_entry].
  destruct (user_wsi u), (user_session u), (user_online u); try done.
Qed.

Lemma entry_key_len s name e :
  users_wf (srv_users s) → directory s !! name = Some e →
  len (entry_key e) = crypto_sign_PUBLICKEYBYTES.
Proof.
  intros Hwf He. apply abs_live in He as (j & u & Hj & _ & <-); [|done].
  by destruct (Forall_lookup_1 _ _ _ _ (wf_live _ Hwf) Hj) as (_ & Hk & _).
Qed.

Lemma status_reply_len s name :
  users_wf (srv_users s) → chat_username_is_valid (Some name) = true →
  match directory s !! name with
  | None => len (status_json_unknown name) < 160
  | Some e => len (status_json_known name (bool_decide (is_Some (entry_conn e)))
                     (sodium_bin2hex (entry_key e))) < 320
  end.
Proof.
  intros Hwf Hl%username_valid_len. destruct (directory s !! name) as [e|] eqn:He.
  - unfold status_json_known. rewrite !len_app, bin2hex_len, (entry_key_len _ _ _ Hwf He).
    change (len (qlit "{'type':'user_status','username':'")) with 34.
    change (len (qlit "','known':true,'online':")) with 24.
    change (len (qlit ",'public_key':'")) with 15. change (len (qlit "'}")) with 2.
    assert (len (lit (if bool_decide (is_Some (entry_conn e)) then "true" else "false")) ≤ 5)
      by by case_bool_decide.
    unfold crypto_sign_PUBLICKEYBYTES. lia.
  - unfold status_json_unknown. rewrite !len_app.
    change (len (qlit "{'type':'user_status','username':'")) with 34.
    change (len (qlit "','known':false,'online':false}")) with 31. lia.
Qed.

(** The lookup of an authenticated client is answered. *)
Lemma lookup_eval w p json s ses name :
  users_wf (srv_users s) → opened w p s ses → ses_authenticated ses = true →
  json_get_string (Some json) (Some (lit "username")) (CHAT_USERNAME_MAX_LEN + 1) = Some name →
  chat_username_is_valid (Some name) = true →
  outcome (handle_user_lookup w p json) s
    (λ s', s' = put_session s p (session_queue ses (status_reply s name))) False.
Proof.
  intros Hwf Ho Ha Hj Hv. unfold handle_user_lookup. eapply outcome_load; [apply Ho|].
  rewrite Ha, Hj, Hv. cbn [negb]. apply outcome_get_users.
  pose proof (find_refines _ Hwf name) as Hf. pose proof (status_reply_len s name Hwf Hv) as Hl.
  unfold status_reply. destruct (chat_server_users_find _ _) as [i|].
  - destruct Hf as (u & Hu & Hn & Hd). rewrite Hd in Hl |- *.
    pose proof (Forall_lookup_1 _ _ _ _ (wf_live _ Hwf) Hu) as Hwu. apply live_lookup in Hu as [Hi _].
    eapply outcome_user_at; [exact Hi|]. rewrite Hn, (user_online_entry u Hwu).
    change (user_identity_pk u) with (entry_key (user_entry u)).
    rewrite snprintf_ok by (unfold INT_MAX; lia).
    apply send_json_eval; [done|unfold CHAT_SERVER_MAX_JSON_SIZE; lia].
  - rewrite Hf in Hl |- *. rewrite snprintf_ok by (unfold INT_MAX; lia).
    apply send_json_eval; [done|unfold CHAT_SERVER_MAX_JSON_SIZE; lia].
Qed.

(** Its type is none of the signalling messages'. *)
Definition status_object (name : bytes) (rest : jobject) : jobject :=
  (lit "type", JStr (plain (lit "user_status"))) :: (lit "username", JStr (plain name)) :: rest.

Lemma status_type name rest :
  chat_username_is_valid (Some name) = true →
  Forall (λ kv, Forall token_wf (member_tokens kv)) rest →
  json_get_string (Some (jobject_text (status_object name rest))) (Some (lit "type")) 32
  = Some (lit "user_status").
Proof.
  intros Hv%username_ident%ident_json Hrest.
  rewrite (json_get_string_json (status_object name rest)).
  - vm_compute. reflexivity.
  - apply object_tokens_forall; [punct_in..|]. apply Forall_cons. split.
    { by apply (bool_decide_eq_true_1 (Forall token_wf _)); vm_compute. }
    apply Forall_cons. split; [|exact Hrest]. apply string_member_wf; [|done].
    by apply (bool_decide_eq_true_1 (Forall json_char _)); vm_compute.
  - by apply spaced_layout.
  - by left.
  - apply (bool_decide_eq_true_1 (ident _)). by vm_compute.
  - done.
  - done.
Qed.

Lemma status_reply_type s name :
  users_wf (srv_users s) → chat_username_is_valid (Some name) = true →
  json_get_string (Some (status_reply s name)) (Some (lit "type")) 32 = Some (lit "user_status").
Proof.
  intros Hwf Hv. assert (Hl : ∀ ts, bool_decide (Forall token_wf ts) = true → Forall token_wf ts)
    by (intros ts; apply bool_decide_eq_true).
  unfold status_reply. destruct (directory s !! name) as [e|].
  - set (online := bool_decide _).
    assert (status_json_known name online (sodium_bin2hex (entry_key e))
      = jobject_text (status_object name
          [(lit "known", JLit (lit "true"));
           (lit "online", JLit (lit (if online then "true" else "false")));
           (lit "public_key", JStr (plain (sodium_bin2hex (entry_key e))))])) as ->.
    { unfold status_json_known, status_object. text_eq. }
    apply status_type; [done|]. apply Forall_cons. split; [by apply Hl; vm_compute|].
    apply Forall_cons. split; [by apply Hl; destruct online; vm_compute|].
    apply Forall_singleton, string_member_wf; [|apply hex_json].
    by apply (bool_decide_eq_true_1 (Forall json_char _)); vm_compute.
  - assert (status_json_unknown name = jobject_text (status_object name
      [(lit "known", JLit (lit "false")); (lit "online", JLit (lit "false"))])) as ->.
    { unfold status_json_unknown, status_object. text_eq. }
    apply status_type; [done|]. repeat (apply Forall_cons; split; [by apply Hl; vm_compute|]).
    apply Forall_nil. done.
Qed.

(** C39: whenever a signalling message for an online user with an empty queue
    arrives, it is queued on that user's session; if that user's client looks
    up any user before the queue is sent, the answer replaces the message:
    the session then holds the answer alone, which is not the message, so the
    message is lost, although its sender was given no error. *)
Theorem reply_overwrites_forwarded_message allowed s w p ses name e w' p' payload lookup peer :
  reachable allowed s →
  srv_conns s !! w = Some p → srv_mem s !! p = Some ses →
  ses_authenticated ses = true → ses_pending_len ses = 0 →
  directory s !! name = Some e → entry_conn e = Some (w, p) →
  addressed s w' p' payload name →
  len lookup < CHAT_SERVER_MAX_JSON_SIZE →
  json_get_string (Some (c_string lookup)) (Some (lit "type")) 32 = Some (lit "user_lookup") →
  json_get_string (Some (c_string lookup)) (Some (lit "username")) 33 = Some peer →
  chat_username_is_valid (Some peer) = true →
  ∃ s1 r2 s2 ses2,
    server_exec (EvReceive w' payload 0 true) s = Some (0, s1)
    ∧ srv_mem s1 = <[p := session_queue ses (c_string payload)]> (srv_mem s)
    ∧ server_exec (EvReceive w lookup 0 true) s1 = Some (r2, s2)
    ∧ srv_mem s2 = <[p := ses2]> (srv_mem s)
    ∧ ztake (ses_pending_len ses2) (ses_pending ses2) = status_reply s peer
    ∧ status_reply s peer ≠ c_string payload.
Proof.
  intros Hr Hw Hp Ha Hq He Hc Hadr Hl Ht Hn Hv. apply reachable_wf in Hr as Hwfs.
  pose proof (swf_users _ Hwfs) as Hwf.
  assert (Hpl : len (c_string payload) < CHAT_SERVER_MAX_JSON_SIZE).
  { pose proof (adr_len _ _ _ _ _ Hadr). pose proof (len_c_string payload). lia. }
  set (s1 := put_session s p (session_queue ses (c_string payload))).
  assert (E1 : server_exec (EvReceive w' payload 0 true) s = Some (0, s1)).
  { rewrite (addressed_forward _ _ _ _ _ Hwf Hadr), (forward_online _ _ _ _ _ e w p) by done.
    unfold mbind, M_bind, load at 1. rewrite Hp, Hq. cbn [negb Z.eqb].
    unfold send_json, strlen. rewrite Z.geb_leb, (proj2 (Z.leb_gt _ _)) by done.
    unfold mbind, M_bind, load, store, lws_wakeup. rewrite Hp, Hp. cbn [srv_conns]. by rewrite Hw. }
  pose proof (lookup_eval w p (c_string lookup) s1 (session_queue ses (c_string payload)) peer
    Hwf (conj Hw (lookup_insert_eq _ _ _)) Ha Hn Hv) as Ho.
  change (status_reply s1 peer) with (status_reply s peer) in Ho. unfold outcome in Ho.
  destruct (handle_user_lookup w p (c_string lookup) s1) as [[r2 s2]|] eqn:E2; [|done].
  exists s1, r2, s2. eexists. split_and!; [done|done| |..].
  - rewrite (message_handled w p) by done. unfold handle_message. rewrite Ht. exact E2.
  - subst s2. apply insert_insert_eq.
  - by apply ztake_blit.
  - intros E. destruct (adr_parse _ _ _ _ _ Hadr) as (_ & _ & type & _ & _ & _ & Hty & Hsup & _).
    rewrite <- E, status_reply_type in Hty by done. injection Hty as <-.
    by destruct (supported_type _ Hsup) as (_ & _ & _ & _ & ?).
Qed.
End defects.

(** ** Instances on the concrete run *)

Import Reference Demo.

(** Deciding a closed instance by evaluation. *)
Lemma addressed_eval s w p payload to ses e type :
  bool_decide (srv_conns s !! w = Some p) = true →
  (len payload <? CHAT_SERVER_MAX_JSON_SIZE) = true →
  srv_mem s !! p = Some ses → ses_authenticated ses = true →
  directory s !! ses_username ses = Some e →
  json_get_string (Some (c_string payload)) (Some (lit "type")) 32 = Some type →
  signaling_type_is_supported type = true →
  parse_signaling (c_string payload) = Some (ses_username ses, to) →
  parse_public_key (c_string payload) = Some (entry_key e) →
  addressed s w p payload to.
Proof.
  intros Hw Hl Hp Ha He Ht Hs Hpar Hk. split; [by bdec|by bdec|]. exists ses, e, type. by auto 10.
Qed.

Definition entry_at (name : bytes) (s : server) : entry :=
  default {| entry_key := []; entry_conn := None |} (directory s !! name).
Lemma entry_at_lookup name s :
  is_Some (directory s !! name) → directory s !! name = Some (entry_at name s).
Proof. unfold entry_at. by intros [e ->]. Qed.

Ltac addressed_by p name :=
  eapply (addressed_eval _ _ _ _ _ (ses_at p _) (entry_at name _));
  first [ apply ses_at_lookup; evaluate | apply entry_at_lookup; evaluate | evaluate ].

Lemma second_hello_use_after_free_witness :
  let s := run_to both_events in
  let s1 := after (recv 1 (hello_msg (lit "alice"))) s in
  let s2 := after (EvClose 1) s1 in
  server_exec (recv 2 (request_msg (lit "bob") (lit "alice") bob_pk)) s2 = None.
Proof.
  destruct (second_hello_use_after_free no_second_hello (run_to both_events) 1 1 (lit "alice")
    (entry_at (lit "alice") (run_to both_events)) (hello_msg (lit "alice")) (lit "alice")
    both_reachable) as (r1 & s1 & r2 & s2 & E1 & E2 & _ & _ & _ & Hnone).
  - evaluate.
  - apply entry_at_lookup. evaluate.
  - evaluate.
  - evaluate.
  - evaluate.
  - evaluate.
  - evaluate.
  - evaluate.
  - assert (H1 : after (recv 1 (hello_msg (lit "alice"))) (run_to both_events) = s1)
      by (unfold after, recv; by rewrite E1).
    assert (H2 : after (EvClose 1) s1 = s2) by (unfold after; by rewrite E2).
    cbv zeta. rewrite H1, H2. apply (Hnone 2%positive 2%positive). rewrite <- H2, <- H1.
    addressed_by 2%positive (lit "bob").
Defined.

Definition lookup_msg (name : bytes) : bytes :=
  qlit "{'type':'user_lookup','username':'" ++ name ++ qlit "'}".

Lemma reply_overwrites_forwarded_message_witness :
  let bob := ses_at 2 (after (recv 2 (lookup_msg (lit "alice")))
                         (after forward_event (run_to both_events))) in
  ztake (ses_pending_len bob) (ses_pending bob)
  = status_json_known (lit "alice") true (sodium_bin2hex alice_pk).
Proof.
  destruct (reply_overwrites_forwarded_message no_second_hello (run_to both_events) 2 2
    (ses_at 2 (run_to both_events)) (lit "bob") (entry_at (lit "bob") (run_to both_events)) 1 1
    (request_msg (lit "alice") (lit "bob") alice_pk) (lookup_msg (lit "alice")) (lit "alice")
    both_reachable) as (s1 & r2 & s2 & ses2 & E1 & _ & E2 & Hm & Hq & _).
  - evaluate.
  - apply ses_at_lookup. evaluate.
  - evaluate.
  - evaluate.
  - apply entry_at_lookup. evaluate.
  - evaluate.
  - addressed_by 1%positive (lit "alice").
  - evaluate.
  - evaluate.
  - evaluate.
  - evaluate.
  - assert (H1 : after forward_event (run_to both_events) = s1)
      by (unfold after, forward_event, recv; by rewrite E1).
    assert (H2 : after (recv 2 (lookup_msg (lit "alice"))) s1 = s2)
      by (unfold after, recv; by rewrite E2).
    cbv zeta. rewrite H1, H2. unfold ses_at. rewrite Hm, lookup_insert_eq.
    etransitivity; [exact Hq|]. vm_compute. reflexivity.
Defined.
