(* ===== verification/StateMonad.v ===== *)
(** * State passing for the daemon

    A state monad over a record, updates of one field of a record, and the
    triples with which the invariants of the daemon are proved: every
    operation of the daemon is a computation of type [stateM W A], and
    [triple P m Q] says that from a state that satisfies [P] the computation
    [m] ends with a result and a state related by [Q]. *)

From S2P Require Import Prelude.

(** ** Field updates

    [Settable R] names the fields of the record once, as its eta expansion;
    [set_field proj f r] is [r] with [f] applied to the field [proj]. *)

Class Settable (R : Type) := field_eta : R → R.
Class Setter {R T : Type} (proj : R → T) := set_field : (T → T) → R → R.
Arguments set_field {R T} proj {_} f r.

Ltac solve_setter :=
  lazymatch goal with
  | |- @Setter ?R ?T ?proj =>
      let inst := constr:(_ : Settable R) in
      let body := eval cbv beta delta [field_eta] in (@field_eta R inst) in
      let body := eval red in body in
      lazymatch (eval pattern proj in body) with
      | ?g _ => exact (λ (f : T → T), g (λ r, f (proj r)))
      end
  end.
#[export] Hint Extern 1 (Setter _) => solve_setter : typeclass_instances.

(** ** The monad *)

Definition stateM (W A : Type) : Type := W → A * W.
#[export] Instance stateM_ret W : MRet (stateM W) := λ A a w, (a, w).
#[export] Instance stateM_bind W : MBind (stateM W) := λ A B k m w,
  let '(a, w) := m w in k a w.

Definition gets {W A} (f : W → A) : stateM W A := λ w, (f w, w).
Definition modify {W} (f : W → W) : stateM W unit := λ w, (tt, f w).
(** A function that threads the state. *)
Definition run_with {W A} (f : W → A * W) : stateM W A := f.

Fixpoint mfor {W A} (f : A → stateM W unit) (l : list A) : stateM W unit :=
  match l with
  | [] => mret tt
  | a :: l => f a;; mfor f l
  end.

(** The calls of [f] on [xs], up to the first that fails; whether all
    returned 0. *)
Fixpoint all_ok {W X} (f : X → stateM W Z) (xs : list X) : stateM W bool :=
  match xs with
  | [] => mret true
  | x :: xs =>
      r ← f x;
      if r =? 0 then all_ok f xs else mret false
  end.

(** ** Triples *)

Definition triple {W A} (P : W → Prop) (m : stateM W A) (Q : A → W → Prop) : Prop :=
  ∀ w, P w → Q (m w).1 (m w).2.

(** [I] is kept, whatever the result. *)
Definition keeps {W A} (I : W → Prop) (m : stateM W A) : Prop := triple I m (λ _, I).

Section triples.
Context {W : Type}.
Implicit Types P I : W → Prop.

Lemma triple_ret {A} (a : A) P (Q : A → W → Prop) :
  (∀ w, P w → Q a w) → triple P (mret a) Q.
Proof. intros H w Hw. by apply H. Qed.

Lemma triple_bind {A B} P R (Q : B → W → Prop) (m : stateM W A) (k : A → stateM W B) :
  triple P m R → (∀ a, triple (R a) (k a) Q) → triple P (m ≫= k) Q.
Proof.
  intros Hm Hk w Hw. specialize (Hm w Hw). unfold mbind, stateM_bind.
  destruct (m w) as [a w']. by apply Hk.
Qed.

Lemma triple_gets {A} (f : W → A) P (Q : A → W → Prop) :
  (∀ w, P w → Q (f w) w) → triple P (gets f) Q.
Proof. intros H w Hw. by apply H. Qed.

Lemma triple_gets_bind {A B} (f : W → A) P (Q : B → W → Prop) (k : A → stateM W B) :
  (∀ a, triple (λ w, P w ∧ f w = a) (k a) Q) → triple P (gets f ≫= k) Q.
Proof. intros H w Hw. by apply (H (f w)). Qed.

Lemma triple_modify f P (Q : unit → W → Prop) :
  (∀ w, P w → Q tt (f w)) → triple P (modify f) Q.
Proof. intros H w Hw. by apply H. Qed.

Lemma triple_conseq {A} P P' (Q Q' : A → W → Prop) (m : stateM W A) :
  triple P m Q → (∀ w, P' w → P w) → (∀ a w, Q a w → Q' a w) → triple P' m Q'.
Proof. intros H HP HQ w Hw. apply HQ, H, HP, Hw. Qed.

Lemma triple_pre {A} P P' (Q : A → W → Prop) (m : stateM W A) :
  triple P m Q → (∀ w, P' w → P w) → triple P' m Q.
Proof. intros H HP w Hw. by apply H, HP. Qed.

Lemma triple_and {A} P (Q Q' : A → W → Prop) (m : stateM W A) :
  triple P m Q → triple P m Q' → triple P m (λ a w, Q a w ∧ Q' a w).
Proof. intros H H' w Hw. split; [by apply H|by apply H']. Qed.

Lemma keeps_bind {A B} I (m : stateM W A) (k : A → stateM W B) :
  keeps I m → (∀ a, keeps I (k a)) → keeps I (m ≫= k).
Proof. apply triple_bind. Qed.

Lemma keeps_ret {A} I (a : A) : keeps I (mret a).
Proof. by apply triple_ret. Qed.
Lemma keeps_gets {A} I (f : W → A) : keeps I (gets f).
Proof. by apply triple_gets. Qed.
Lemma keeps_mfor {A} I (f : A → stateM W unit) l :
  (∀ a, a ∈ l → keeps I (f a)) → keeps I (mfor f l).
Proof.
  induction l as [|a l IH]; intros Hf; cbn [mfor]; [apply keeps_ret|].
  apply keeps_bind; [apply Hf; left|]. intros _. apply IH. intros b Hb. apply Hf. by right.
Qed.
End triples.

(** Evaluation of a computation at a state. *)
Section eval.
Context {W : Type}.
Lemma bind_eval {A B} (m : stateM W A) (k : A → stateM W B) w a w' :
  m w = (a, w') → (m ≫= k) w = k a w'.
Proof. unfold mbind, stateM_bind. by intros ->. Qed.
Lemma gets_eval {A B} (f : W → A) (k : A → stateM W B) w : (gets f ≫= k) w = k (f w) w.
Proof. done. Qed.
Lemma modify_eval {B} (f : W → W) (k : unit → stateM W B) w : (modify f ≫= k) w = k tt (f w).
Proof. done. Qed.
End eval.
