(* ===== verification/DaemonState.v ===== *)
(** * The daemon's state (src/daemon/main.c)

    The structure [chatd_state_t] with every field that holds data (not the
    libwebsockets context, the thread and the mutex: the second thread of the
    daemon only calls [lws_cancel_service], so that everything else runs on
    one thread), the environment the daemon acts on, and the calls of the
    operating system it makes.

    The environment holds the file system, the random generator, the state of
    libnice, the clock (an arbitrary function of the number of readings: it
    may even go backwards), the open sockets by descriptor with what was
    written to them (files are opened and closed within the functions of
    [FileSys], and are not among them), a schedule of write faults, and a
    record of the control messages handed to libwebsockets and of the packets
    handed to libnice.  [e_stale] records that a call named a descriptor that
    is not open. *)

From S2P Require Import Prelude CLib Protocol Sodium Base64 Identity FileSys Ipc Crypto Ice.
From S2P Require Import StateMonad.

(** ** Libraries *)

(** Everything the daemon calls that is not in the repository. *)
Class Libs := {
  lib_init :: SodiumInit;
  lib_codec :: SodiumCodec;
  lib_base64 :: SodiumBase64;
  lib_random :: SodiumRandom;
  lib_sign :: SodiumSign;
  lib_hash :: SodiumHash;
  lib_kx :: SodiumKx;
  lib_stream :: SodiumStream;
  lib_nice :: Nice;
  getenv : bytes → cptr;
}.

(** Their documented behaviour. *)
Class LibsOk `{Libs} := {
  lib_init_ok :: SodiumInitOk;
  lib_codec_ok :: SodiumCodecOk;
  lib_base64_ok :: SodiumBase64Ok;
  lib_random_ok :: SodiumRandomOk;
  lib_sign_ok :: SodiumSignOk;
  lib_hash_ok :: SodiumHashOk;
  lib_kx_ok :: SodiumKxOk;
  lib_stream_ok :: SodiumStreamOk;
  lib_nice_ok :: NiceOk;
}.

(** ** Constants *)

Definition CHATD_MAX_JSON_SIZE : Z := 4096.
Definition CHATD_RECONNECT_SECONDS : Z := 1.
Definition CHATD_HEX_PUBLIC_KEY_LEN : Z := crypto_sign_PUBLICKEYBYTES * 2 + 1.
Definition CHATD_HEX_SIGNATURE_LEN : Z := crypto_sign_BYTES * 2 + 1.
Definition CHATD_CHALLENGE_BYTES : Z := 32.
Definition CHATD_HEX_CHALLENGE_LEN : Z := CHATD_CHALLENGE_BYTES * 2 + 1.
Definition CHATD_SESSION_ID_BYTES : Z := 16.
Definition CHATD_SESSION_ID_HEX_LEN : Z := CHATD_SESSION_ID_BYTES * 2 + 1.
Definition CHATD_ICE_TIMEOUT_SECONDS : Z := 30.
Definition CHATD_CRYPTO_TIMEOUT_SECONDS : Z := 30.
Definition CHATD_ICE_RETRY_MAX : Z := 3.
Definition CHATD_ICE_SDP_MAX : Z := 2048.
Definition CHATD_ICE_PACKET_MAX : Z := CHAT_ICE_RECV_MAX.
(** [sizeof("SEND_MESSAGE \n")] counts the terminating NUL. *)
Definition CHATD_CHAT_TEXT_MAX : Z := CHAT_IPC_MAX_COMMAND - 15.

Inductive chatd_phase_t :=
  | CHATD_PHASE_REGISTER
  | CHATD_PHASE_HELLO
  | CHATD_PHASE_AUTH_RESPONSE
  | CHATD_PHASE_ONLINE
  | CHATD_PHASE_FAILED.
#[export] Instance chatd_phase_eq_dec : EqDecision chatd_phase_t.
Proof. solve_decision. Defined.

Inductive chatd_session_state_t :=
  | CHATD_SESSION_IDLE
  | CHATD_SESSION_LOOKUP
  | CHATD_SESSION_REQUESTING
  | CHATD_SESSION_ICE_NEGOTIATING
  | CHATD_SESSION_ICE_CONNECTED
  | CHATD_SESSION_CRYPTO_HANDSHAKE
  | CHATD_SESSION_SECURE
  | CHATD_SESSION_CLOSING
  | CHATD_SESSION_CLOSED
  | CHATD_SESSION_FAILED.
#[export] Instance chatd_session_state_eq_dec : EqDecision chatd_session_state_t.
Proof. solve_decision. Defined.

Definition chatd_session_state_name (state : chatd_session_state_t) : string :=
  match state with
  | CHATD_SESSION_IDLE => "IDLE"
  | CHATD_SESSION_LOOKUP => "LOOKUP"
  | CHATD_SESSION_REQUESTING => "REQUESTING"
  | CHATD_SESSION_ICE_NEGOTIATING => "ICE_NEGOTIATING"
  | CHATD_SESSION_ICE_CONNECTED => "ICE_CONNECTED"
  | CHATD_SESSION_CRYPTO_HANDSHAKE => "CRYPTO_HANDSHAKE"
  | CHATD_SESSION_SECURE => "SECURE"
  | CHATD_SESSION_CLOSING => "CLOSING"
  | CHATD_SESSION_CLOSED => "CLOSED"
  | CHATD_SESSION_FAILED => "FAILED"
  end.

(** ** The structure *)

Section state.
Context `{Libs}.

(** A descriptor is an [int], negative when there is none; a [char] array is
    the string it holds; an [int] used as a flag is a [bool]; [pending] is
    the part of the array after the [LWS_PRE] bytes. *)
Record chatd_state_t := {
  d_identity : chat_identity_t;
  d_control_wsi : option positive;
  d_phase : chatd_phase_t;
  d_session_state : chatd_session_state_t;
  d_challenge : bytes;
  d_has_challenge : bool;
  d_connected : bool;
  d_should_reconnect : bool;
  d_next_reconnect_at : Z;
  d_ipc_fd : Z;
  d_pending_ipc_client_fd : Z;
  d_pending_ipc_deadline_at : Z;
  d_lookup_client_fd : Z;
  d_lookup_peer : bytes;
  d_chat_retry_count : Z;
  d_ice_peer : bytes;
  d_ice_session_id : bytes;
  d_ice_config : chat_ice_config_t;
  d_ice : chat_ice_session_t;
  d_ice_active : bool;
  d_ice_controlling : bool;
  d_ice_local_sdp_sent : bool;
  d_ice_cli_notified : bool;
  d_ice_selected_pair_is_relayed : bool;
  d_ice_deadline_at : Z;
  d_pending_remote_ice_sdp : bytes;
  d_has_pending_remote_ice_sdp : bool;
  d_remote_identity_pk : bytes;
  d_has_remote_identity_pk : bool;
  d_crypto_role : chat_crypto_role_t;
  d_crypto_handshake : chat_crypto_handshake_t;
  d_crypto_keys : chat_crypto_session_keys_t;
  d_crypto_stream : chat_crypto_secretstream_t;
  d_crypto_local_handshake_message : bytes;
  d_crypto_local_stream_header : bytes;
  d_crypto_deadline_at : Z;
  d_crypto_handshake_sent : bool;
  d_crypto_next_handshake_at : Z;
  d_crypto_keys_ready : bool;
  d_crypto_stream_header_sent : bool;
  d_crypto_next_stream_header_at : Z;
  d_crypto_stream_header_received : bool;
  d_encrypted_session_ready : bool;
  d_pending : bytes;
  d_pending_len : Z;
}.

#[export] Instance chatd_settable : Settable chatd_state_t := λ s,
  Build_chatd_state_t (d_identity s) (d_control_wsi s) (d_phase s) (d_session_state s)
    (d_challenge s) (d_has_challenge s) (d_connected s) (d_should_reconnect s)
    (d_next_reconnect_at s) (d_ipc_fd s) (d_pending_ipc_client_fd s)
    (d_pending_ipc_deadline_at s) (d_lookup_client_fd s) (d_lookup_peer s)
    (d_chat_retry_count s) (d_ice_peer s) (d_ice_session_id s) (d_ice_config s) (d_ice s)
    (d_ice_active s) (d_ice_controlling s) (d_ice_local_sdp_sent s) (d_ice_cli_notified s)
    (d_ice_selected_pair_is_relayed s) (d_ice_deadline_at s) (d_pending_remote_ice_sdp s)
    (d_has_pending_remote_ice_sdp s) (d_remote_identity_pk s) (d_has_remote_identity_pk s)
    (d_crypto_role s) (d_crypto_handshake s) (d_crypto_keys s) (d_crypto_stream s)
    (d_crypto_local_handshake_message s) (d_crypto_local_stream_header s)
    (d_crypto_deadline_at s) (d_crypto_handshake_sent s) (d_crypto_next_handshake_at s)
    (d_crypto_keys_ready s) (d_crypto_stream_header_sent s)
    (d_crypto_next_stream_header_at s) (d_crypto_stream_header_received s)
    (d_encrypted_session_ready s) (d_pending s) (d_pending_len s).

Record chatd_env := {
  e_os : os;
  e_rng : rng;
  e_nice : nice;
  e_clock : nat → Z;
  e_ticks : nat;
  e_fds : gmap Z bytes;
  e_stale : bool;
  e_faults : list fault;
  e_sent : list bytes;
  e_packets : list bytes;
}.

#[export] Instance env_settable : Settable chatd_env := λ e,
  Build_chatd_env (e_os e) (e_rng e) (e_nice e) (e_clock e) (e_ticks e) (e_fds e) (e_stale e)
    (e_faults e) (e_sent e) (e_packets e).

Record world := { w_st : chatd_state_t; w_env : chatd_env }.
#[export] Instance world_settable : Settable world := λ w, Build_world (w_st w) (w_env w).

Definition D (A : Type) : Type := stateM world A.
End state.

(** [state->field = v], the same on a field of the environment, and
    [*state] for reading. *)
Notation "f <~ v" := (modify (set_field w_st (set_field f (λ _, v)))) (at level 70).
Notation "f <~env v" := (modify (set_field w_env (set_field f (λ _, v)))) (at level 70).

Section calls.
Context `{Libs}.

Definition state : D chatd_state_t := gets w_st.
Definition env : D chatd_env := gets w_env.

(** A test and its early return: [when b m]. *)
Definition when (b : bool) (m : D unit) : D unit := if b then m else mret tt.

(** ** System calls *)

(** [time(NULL)]. *)
Definition time_now : D Z :=
  e ← env;
  e_ticks <~env S (e_ticks e);;
  mret (e_clock e (e_ticks e)).

(** [close(fd)]. *)
Definition sys_close (fd : Z) : D unit :=
  e ← env;
  match e_fds e !! fd with
  | Some _ => e_fds <~env delete fd (e_fds e)
  | None => e_stale <~env true
  end.

(** The loop of [write_ipc_line] on the schedule of faults: an interrupted
    write and one that would block (retried after a pause) are [FEintr], a
    write of no byte and an error end it. *)
Fixpoint ipc_write_loop (faults : list fault) (line : bytes) : bool * bytes * list fault :=
  match line with
  | [] => (true, [], faults)
  | _ =>
      match faults with
      | [] => (true, line, [])
      | FNone :: faults => (true, line, faults)
      | FEintr :: faults => ipc_write_loop faults line
      | FError :: faults | FShort 0 :: faults => (false, [], faults)
      | FShort n :: faults =>
          match ipc_write_loop faults (drop n line) with
          | (res, written, faults) => (res, take n line ++ written, faults)
          end
      end
  end.

Definition write_ipc_line (fd : Z) (line : cptr) : D Z :=
  match line with
  | None => mret (-1)
  | Some line =>
      if fd <? 0 then mret (-1)
      else
        e ← env;
        match e_fds e !! fd with
        | None =>
            if strlen line =? 0 then mret 0 else e_stale <~env true;; mret (-1)
        | Some written =>
            let '(res, data, faults) := ipc_write_loop (e_faults e) line in
            e_fds <~env <[fd := written ++ data]> (e_fds e);;
            e_faults <~env faults;;
            mret (if (res : bool) then 0 else -1)
        end
  end.

(** The outcome of a [read] of the socket [fd]: at most [count] bytes (none
    at the end of the input), nothing yet, or an error. *)
Inductive read_result := ReadData (data : bytes) | ReadAgain | ReadError.
Definition sys_read (fd count : Z) (outcome : read_result) : D read_result :=
  e ← env;
  match e_fds e !! fd with
  | None => e_stale <~env true;; mret ReadError
  | Some _ =>
      mret (match outcome with ReadData data => ReadData (ztake count data) | r => r end)
  end.

(** [randombytes_buf] into a buffer of [n] bytes. *)
Definition random (n : Z) : D bytes :=
  e ← env;
  let '(b, g) := randombytes_buf n (e_rng e) in
  e_rng <~env g;;
  mret b.

(** An array of [n] bytes whose contents are not read before they are
    written. *)
Definition scratch (n : Z) : bytes := zeros n.
End calls.

(** ** Automation

    [fields] computes the value of a field after updates of other fields. *)
Ltac fields_step :=
  match goal with
  | |- context [?p (set_field ?q ?f ?s)] =>
      first [ change (p (set_field q f s)) with (p s)
            | change (p (set_field q f s)) with (f (p s)); cbv beta ]
  | H : context [?p (set_field ?q ?f ?s)] |- _ =>
      first [ change (p (set_field q f s)) with (p s) in H
            | change (p (set_field q f s)) with (f (p s)) in H; cbv beta in H ]
  end.
Ltac fields := cbv zeta; repeat fields_step.

(** [run] exposes the final state of a sequence of calls and assignments. *)
Ltac run :=
  unfold mbind, stateM_bind, mret, stateM_ret, modify, state, env, gets; cbn [fst snd].
