(* ===== verification/DaemonSession.v ===== *)
(** * The daemon's chat session (src/daemon/main.c, lines 251 to 1418)

    The control messages the daemon queues, the life of an ICE session, the
    handshake and the encrypted packets, in the order of the source.  A
    [struct lws *] argument is only used to ask libwebsockets for a writable
    callback and is left out: which callbacks come is the event sequence.
    Log output is not modelled. *)

From S2P Require Import Prelude CLib Protocol Sodium Base64 Json Identity FileSys Contacts Ipc.
From S2P Require Import Crypto Ice StateMonad DaemonState.

Section session.
Context `{Libs}.

Definition chatd_set_session_state (next : chatd_session_state_t) : D unit :=
  st ← state;
  if bool_decide (d_session_state st = next) then mret tt else d_session_state <~ next.

(** ** Encoding of session descriptions *)

Definition base64_encode_sdp (sdp : cptr) (out_size : Z) : option bytes :=
  match sdp with
  | None => None
  | Some sdp =>
      if out_size =? 0 then None
      else
        let required := sodium_base64_encoded_len (strlen sdp) in
        if (strlen sdp >? CHATD_ICE_SDP_MAX) || (required >? out_size) then None
        else Some (sodium_bin2base64 sdp)
  end.

(** The result is the string in [out]: the decoded bytes before a NUL. *)
Definition base64_decode_sdp (encoded : cptr) (out_size : Z) : option bytes :=
  match encoded with
  | None => None
  | Some encoded =>
      if out_size =? 0 then None
      else match sodium_base642bin (out_size - 1) encoded with
           | None => None
           | Some decoded => if len decoded >? 0 then Some (c_string decoded) else None
           end
  end.

(** ** Control messages *)

Definition queue_json (json : bytes) : D Z :=
  let length := strlen json in
  if length >=? CHATD_MAX_JSON_SIZE then d_phase <~ CHATD_PHASE_FAILED;; mret (-1)
  else
    st ← state;
    if negb (d_pending_len st =? 0) then mret (-1)
    else
      d_pending <~ blit (d_pending st) json;;
      d_pending_len <~ length;;
      mret 0.

Definition has_pending_control_message : D bool :=
  st ← state;
  mret (negb (d_pending_len st =? 0)).

(** A message formatted into an array of [size] bytes, then queued. *)
Definition queue_formatted (size : Z) (text : bytes) : D Z :=
  match snprintf size text with
  | None => mret (-1)
  | Some json => queue_json json
  end.

Definition register_json (username public_key_hex : bytes) : bytes :=
  qlit "{'type':'register','username':'" ++ username ++ qlit "','public_key':'"
  ++ public_key_hex ++ qlit "'}".
Definition hello_json (username : bytes) : bytes :=
  qlit "{'type':'hello','username':'" ++ username ++ qlit "'}".
Definition auth_response_json (signature_hex : bytes) : bytes :=
  qlit "{'type':'auth_response','signature':'" ++ signature_hex ++ qlit "'}".
Definition chat_accept_json (from to session_id public_key_hex : bytes) : bytes :=
  qlit "{'type':'chat_accept','from':'" ++ from ++ qlit "','to':'" ++ to
  ++ qlit "','session_id':'" ++ session_id ++ qlit "','public_key':'" ++ public_key_hex
  ++ qlit "'}".
Definition chat_request_json (from to session_id public_key_hex : bytes) : bytes :=
  qlit "{'type':'chat_request','from':'" ++ from ++ qlit "','to':'" ++ to
  ++ qlit "','session_id':'" ++ session_id ++ qlit "','public_key':'" ++ public_key_hex
  ++ qlit "'}".
Definition chat_cancel_json (from to session_id : bytes) : bytes :=
  qlit "{'type':'chat_cancel','from':'" ++ from ++ qlit "','to':'" ++ to
  ++ qlit "','session_id':'" ++ session_id ++ qlit "'}".
Definition ice_credentials_json (from to session_id sdp : bytes) : bytes :=
  qlit "{'type':'ice_credentials','from':'" ++ from ++ qlit "','to':'" ++ to
  ++ qlit "','session_id':'" ++ session_id ++ qlit "','sdp':'" ++ sdp ++ qlit "'}".

Definition queue_register : D Z :=
  st ← state;
  queue_formatted 512
    (register_json (id_username (d_identity st)) (sodium_bin2hex (id_public_key (d_identity st)))).

Definition queue_hello : D Z :=
  st ← state;
  queue_formatted 128 (hello_json (id_username (d_identity st))).

Definition queue_auth_response : D Z :=
  st ← state;
  match crypto_sign_detached (d_challenge st) (id_secret_key (d_identity st)) with
  | None => mret (-1)
  | Some signature => queue_formatted 256 (auth_response_json (sodium_bin2hex signature))
  end.

Definition queue_chat_accept (peer session_id : bytes) : D Z :=
  st ← state;
  queue_formatted 512
    (chat_accept_json (id_username (d_identity st)) peer session_id
       (sodium_bin2hex (id_public_key (d_identity st)))).

(** Both callers pass [state->ice_session_id] for the new identifier. *)
Definition queue_chat_request (peer : bytes) : D Z :=
  session_id_bytes ← random CHATD_SESSION_ID_BYTES;
  d_ice_session_id <~ sodium_bin2hex session_id_bytes;;
  st ← state;
  queue_formatted 512
    (chat_request_json (id_username (d_identity st)) peer (d_ice_session_id st)
       (sodium_bin2hex (id_public_key (d_identity st)))).

Definition queue_chat_cancel (peer session_id : bytes) : D Z :=
  st ← state;
  queue_formatted 384 (chat_cancel_json (id_username (d_identity st)) peer session_id).

(** ** The local client *)

Definition close_lookup_client : D unit :=
  st ← state;
  when (d_lookup_client_fd st >=? 0)
    (sys_close (d_lookup_client_fd st);; d_lookup_client_fd <~ -1);;
  d_lookup_peer <~ [];;
  d_chat_retry_count <~ 0.

(** A line formatted into an array of 4096 bytes and written when it fits. *)
Definition write_response (fd : Z) (text : bytes) : D unit :=
  when ((snprintf_ret text >? 0) && (snprintf_ret text <? CHAT_IPC_MAX_RESPONSE))
    (_ ← write_ipc_line fd (Some text); mret tt).

Definition write_lookup_response (prefix username : bytes) : D unit :=
  st ← state;
  if d_lookup_client_fd st <? 0 then mret tt
  else
    write_response (d_lookup_client_fd st) (prefix ++ lit " " ++ username ++ [newline]);;
    close_lookup_client.

(** ** Life of a session *)

(** The assignments of [reset_ice_session] to the structure, after the ICE
    session has been closed. *)
Definition reset_fields (ice : chat_ice_session_t) (st : chatd_state_t) : chatd_state_t :=
  {| d_identity := d_identity st;
     d_control_wsi := d_control_wsi st;
     d_phase := d_phase st;
     d_session_state := d_session_state st;
     d_challenge := d_challenge st;
     d_has_challenge := d_has_challenge st;
     d_connected := d_connected st;
     d_should_reconnect := d_should_reconnect st;
     d_next_reconnect_at := d_next_reconnect_at st;
     d_ipc_fd := d_ipc_fd st;
     d_pending_ipc_client_fd := d_pending_ipc_client_fd st;
     d_pending_ipc_deadline_at := d_pending_ipc_deadline_at st;
     d_lookup_client_fd := d_lookup_client_fd st;
     d_lookup_peer := d_lookup_peer st;
     d_chat_retry_count := d_chat_retry_count st;
     d_ice_peer := [];
     d_ice_session_id := [];
     d_ice_config := d_ice_config st;
     d_ice := ice;
     d_ice_active := false;
     d_ice_controlling := false;
     d_ice_local_sdp_sent := false;
     d_ice_cli_notified := false;
     d_ice_selected_pair_is_relayed := false;
     d_ice_deadline_at := 0;
     d_pending_remote_ice_sdp := [];
     d_has_pending_remote_ice_sdp := false;
     d_remote_identity_pk := zeros crypto_sign_PUBLICKEYBYTES;
     d_has_remote_identity_pk := false;
     d_crypto_role := 0;
     d_crypto_handshake :=
       default (d_crypto_handshake st) (chat_crypto_handshake_wipe (Some (d_crypto_handshake st)));
     d_crypto_keys :=
       default (d_crypto_keys st) (chat_crypto_session_keys_wipe (Some (d_crypto_keys st)));
     d_crypto_stream :=
       default (d_crypto_stream st) (chat_crypto_secretstream_wipe (Some (d_crypto_stream st)));
     d_crypto_local_handshake_message := zeros CHAT_CRYPTO_KX_MESSAGE_BYTES;
     d_crypto_local_stream_header := zeros CHAT_CRYPTO_STREAM_HEADER_BYTES;
     d_crypto_deadline_at := 0;
     d_crypto_handshake_sent := false;
     d_crypto_next_handshake_at := 0;
     d_crypto_keys_ready := false;
     d_crypto_stream_header_sent := false;
     d_crypto_next_stream_header_at := 0;
     d_crypto_stream_header_received := false;
     d_encrypted_session_ready := false;
     d_pending := d_pending st;
     d_pending_len := d_pending_len st |}.

Definition reset_ice_session : D unit :=
  st ← state;
  e ← env;
  let '(ice, n) := chat_ice_session_close (Some (d_ice st)) (e_nice e) in
  modify (set_field w_st (reset_fields (default (d_ice st) ice)));;
  e_nice <~env n.

Definition retry_outgoing_chat_session : D Z :=
  st ← state;
  if (d_lookup_client_fd st <? 0) || bool_decide (d_lookup_peer st = [])
     || bool_decide (d_control_wsi st = None) || d_encrypted_session_ready st
     || (d_chat_retry_count st >=? CHATD_ICE_RETRY_MAX)
  then mret (-1)
  else
    match snprintf (CHAT_USERNAME_MAX_LEN + 1) (d_lookup_peer st) with
    | None => mret (-1)
    | Some peer =>
        d_chat_retry_count <~ d_chat_retry_count st + 1;;
        reset_ice_session;;
        chatd_set_session_state CHATD_SESSION_REQUESTING;;
        queued ← queue_chat_request peer;
        if negb (queued =? 0) then
          write_lookup_response (lit "ERROR") (lit "chat_retry_failed");;
          mret 0
        else mret 0
    end.

Definition session_failed_line : bytes := lit "ERROR session_failed" ++ [newline].

Definition fail_chat_session : D unit :=
  retried ← retry_outgoing_chat_session;
  if retried =? 0 then mret tt
  else
    chatd_set_session_state CHATD_SESSION_FAILED;;
    st ← state;
    when (d_lookup_client_fd st >=? 0)
      (if d_encrypted_session_ready st then
         _ ← write_ipc_line (d_lookup_client_fd st) (Some session_failed_line);
         close_lookup_client
       else if negb (bool_decide (d_ice_peer st = [])) then
         write_lookup_response (lit "ICE_FAILED") (d_ice_peer st)
       else if negb (bool_decide (d_lookup_peer st = [])) then
         write_lookup_response (lit "ICE_FAILED") (d_lookup_peer st)
       else
         _ ← write_ipc_line (d_lookup_client_fd st) (Some session_failed_line);
         close_lookup_client);;
    reset_ice_session.

(** The parts of [begin_ice_session] after the two copies: the assignments,
    then the start of the ICE session. *)
Definition prepare_session (controlling : bool) (remote_identity_pk : bytes) : D unit :=
  d_remote_identity_pk <~ remote_identity_pk;;
  d_has_remote_identity_pk <~ true;;
  d_crypto_role <~ (if controlling then CHAT_CRYPTO_ROLE_INITIATOR else CHAT_CRYPTO_ROLE_RESPONDER);;
  d_ice_controlling <~ controlling;;
  st ← state;
  d_crypto_stream <~ default (d_crypto_stream st)
                      (chat_crypto_secretstream_init (Some (d_crypto_stream st))).

(** [chat_ice_session_start] on the session of the state. *)
Definition ice_start (controlling : bool) : D chat_ice_result_t :=
  st ← state;
  e ← env;
  let '(result, ice, n) :=
    chat_ice_session_start (Some (d_ice st)) controlling (Some (d_ice_config st)) (e_nice e) in
  d_ice <~ default (d_ice st) ice;;
  e_nice <~env n;;
  mret result.

Definition start_ice (controlling : bool) (remote_identity_pk : bytes) : D Z :=
  prepare_session controlling remote_identity_pk;;
  result ← ice_start controlling;
  if negb (bool_decide (result = CHAT_ICE_OK)) then fail_chat_session;; mret (-1)
  else
    d_ice_active <~ true;;
    now ← time_now;
    d_ice_deadline_at <~ now + CHATD_ICE_TIMEOUT_SECONDS;;
    mret 0.

Definition begin_ice_session (peer session_id : bytes) (controlling : bool)
    (remote_identity_pk : cptr) : D Z :=
  match remote_identity_pk with
  | None => mret (-1)
  | Some remote_identity_pk =>
      reset_ice_session;;
      chatd_set_session_state CHATD_SESSION_ICE_NEGOTIATING;;
      d_ice_peer <~ snprintf_buf (CHAT_USERNAME_MAX_LEN + 1) peer;;
      if snprintf_fails (CHAT_USERNAME_MAX_LEN + 1) peer then fail_chat_session;; mret (-1)
      else
        d_ice_session_id <~ snprintf_buf CHATD_SESSION_ID_HEX_LEN session_id;;
        if snprintf_fails CHATD_SESSION_ID_HEX_LEN session_id then
          fail_chat_session;; mret (-1)
        else start_ice controlling remote_identity_pk
  end.

Definition apply_remote_ice_sdp (sdp : bytes) : D Z :=
  st ← state;
  e ← env;
  let '(result, ice, n) := chat_ice_session_set_remote_sdp (Some (d_ice st)) (Some sdp) (e_nice e) in
  d_ice <~ default (d_ice st) ice;;
  e_nice <~env n;;
  if negb (bool_decide (result = CHAT_ICE_OK)) then
    st ← state;
    d_ice <~ ice_set_failed (d_ice st);;
    mret (-1)
  else mret 0.

Definition CHATD_ENCODED_SDP_SIZE : Z := sodium_base64_encoded_len CHATD_ICE_SDP_MAX.

Definition queue_local_ice_sdp : D Z :=
  st ← state;
  e ← env;
  match chat_ice_session_generate_local_sdp (Some (d_ice st)) (e_nice e) with
  | (CHAT_ICE_OK, sdp) =>
      match base64_encode_sdp sdp CHATD_ENCODED_SDP_SIZE with
      | None => mret (-1)
      | Some encoded =>
          match snprintf CHATD_MAX_JSON_SIZE
                  (ice_credentials_json (id_username (d_identity st)) (d_ice_peer st)
                     (d_ice_session_id st) encoded) with
          | None => mret (-1)
          | Some json =>
              queued ← queue_json json;
              if negb (queued =? 0) then mret (-1)
              else d_ice_local_sdp_sent <~ true;; mret 0
          end
      end
  | _ => mret (-1)
  end.

(** The guard of [handle_ice_credentials]: the description it accepts. *)
Definition parse_ice_credentials (st : chatd_state_t) (json : bytes) : option bytes :=
  if negb (d_ice_active st) then None
  else
    match json_get_string (Some json) (Some (lit "from")) (CHAT_USERNAME_MAX_LEN + 1),
          json_get_string (Some json) (Some (lit "to")) (CHAT_USERNAME_MAX_LEN + 1),
          json_get_string (Some json) (Some (lit "session_id")) CHATD_SESSION_ID_HEX_LEN,
          json_get_string (Some json) (Some (lit "sdp")) CHATD_ENCODED_SDP_SIZE with
    | Some from, Some to, Some session_id, Some encoded =>
        if streq from (d_ice_peer st) && streq to (id_username (d_identity st))
           && streq session_id (d_ice_session_id st)
        then base64_decode_sdp (Some encoded) (CHATD_ICE_SDP_MAX + 1)
        else None
    | _, _, _, _ => None
    end.

Definition handle_ice_credentials (json : bytes) : D Z :=
  st ← state;
  match parse_ice_credentials st json with
  | None => mret 0
  | Some sdp =>
      if negb (ice_gathering_done (d_ice st)) then
        d_pending_remote_ice_sdp <~ snprintf_buf (CHATD_ICE_SDP_MAX + 1) sdp;;
        if snprintf_fails (CHATD_ICE_SDP_MAX + 1) sdp then
          d_ice <~ ice_set_failed (d_ice st);;
          mret (-1)
        else
          d_has_pending_remote_ice_sdp <~ true;;
          mret 0
      else apply_remote_ice_sdp sdp
  end.

(** ** Packets *)

Definition send_ice_packet (type : Z) (payload : cptr) (payload_len : Z) : D Z :=
  if bool_decide (payload = None) && negb (payload_len =? 0) then mret (-1)
  else if (payload_len >? CHAT_MAX_MESSAGE_SIZE)
          || (CHAT_PACKET_HEADER_SIZE + payload_len >? CHATD_ICE_PACKET_MAX)
  then mret (-1)
  else
    match chat_packet_encode_header type payload_len (Some (scratch CHATD_ICE_PACKET_MAX)) with
    | (CHAT_PROTOCOL_OK, Some packet) =>
        let packet := ztake CHAT_PACKET_HEADER_SIZE packet
                      ++ ztake payload_len (default [] payload) in
        st ← state;
        e ← env;
        let '(ice_result, n) := chat_ice_send (Some (d_ice st)) (Some packet) (e_nice e) in
        e_nice <~env n;;
        if negb (bool_decide (ice_result = CHAT_ICE_OK)) then mret (-1)
        else e_packets <~env e_packets e ++ [packet];; mret 0
    | _ => mret (-1)
    end.

(** The bytes the daemon does not let through in a message: NUL, CR, LF. *)
Definition line_breaking (c : byte) : bool :=
  bool_decide (c = NUL) || bool_decide (c = byte_of 13) || bool_decide (c = newline).

Definition chat_text_is_valid (text : cptr) (text_len : Z) : bool :=
  match text with
  | None => false
  | Some text =>
      if (text_len =? 0) || (text_len >? CHATD_CHAT_TEXT_MAX) then false
      else forallb (λ c, negb (line_breaking c)) (ztake text_len text)
  end.

Definition send_encrypted_chat_payload (type : Z) (plaintext : cptr) (plaintext_len : Z)
    (final : bool) : D Z :=
  st ← state;
  if negb (d_encrypted_session_ready st)
     || (negb (bool_decide (d_session_state st = CHATD_SESSION_SECURE))
         && negb (bool_decide (d_session_state st = CHATD_SESSION_CLOSING)))
     || bool_decide (plaintext = None) && negb (plaintext_len =? 0)
     || (plaintext_len + CHAT_CRYPTO_STREAM_ABYTES >? CHAT_MAX_MESSAGE_SIZE)
  then mret (-1)
  else
    let '(crypto_result, stream, ciphertext, ciphertext_len) :=
      chat_crypto_secretstream_encrypt (Some (d_crypto_stream st)) plaintext plaintext_len final
        (Some (scratch CHAT_MAX_MESSAGE_SIZE)) (Some 0) in
    d_crypto_stream <~ default (d_crypto_stream st) stream;;
    if negb (bool_decide (crypto_result = CHAT_CRYPTO_OK)) then mret (-1)
    else send_ice_packet type ciphertext (default 0 ciphertext_len).

Definition send_encrypted_chat_message (text : cptr) (text_len : Z) : D Z :=
  if negb (chat_text_is_valid text text_len) then mret (-1)
  else send_encrypted_chat_payload CHAT_PKT_MESSAGE text text_len false.

Definition send_encrypted_chat_close : D Z :=
  chatd_set_session_state CHATD_SESSION_CLOSING;;
  send_encrypted_chat_payload CHAT_PKT_CLOSE None 0 true.

Definition space : byte := byte_of 32.
(** The text as the client gets it: on one line. *)
Definition one_line (text : bytes) : bytes :=
  (λ c, if line_breaking c then space else c) <$> text.

Definition write_chat_message_to_cli (plaintext : bytes) : D Z :=
  st ← state;
  if d_lookup_client_fd st <? 0 then mret 0
  else
    let prefix := lit "MESSAGE " ++ d_ice_peer st ++ [space] in
    if len plaintext + len prefix + 2 >? CHAT_IPC_MAX_RESPONSE then mret (-1)
    else
      match snprintf CHAT_IPC_MAX_RESPONSE prefix with
      | None => mret (-1)
      | Some written =>
          write_ipc_line (d_lookup_client_fd st) (Some (written ++ one_line plaintext ++ [newline]))
      end.

(** The end of [decrypt_chat_payload] for a close packet. *)
Definition peer_closed : D Z :=
  chatd_set_session_state CHATD_SESSION_CLOSING;;
  st ← state;
  when (d_lookup_client_fd st >=? 0)
    (write_response (d_lookup_client_fd st) (lit "CHAT_CLOSED " ++ d_ice_peer st ++ [newline]);;
     close_lookup_client);;
  reset_ice_session;;
  chatd_set_session_state CHATD_SESSION_CLOSED;;
  mret 0.

Definition decrypt_chat_payload (type : Z) (payload : bytes) : D Z :=
  st ← state;
  let '(crypto_result, stream, plaintext, plaintext_len, tag) :=
    chat_crypto_secretstream_decrypt (Some (d_crypto_stream st)) (Some payload)
      (Some (scratch CHAT_MAX_MESSAGE_SIZE)) (Some 0) (Some 0) in
  d_crypto_stream <~ default (d_crypto_stream st) stream;;
  if negb (bool_decide (crypto_result = CHAT_CRYPTO_OK)) then mret (-1)
  else
    let plaintext := ztake (default 0 plaintext_len) (default [] plaintext) in
    let tag := default 0 tag in
    if type =? CHAT_PKT_MESSAGE then
      if negb (tag =? TAG_MESSAGE) then mret (-1) else write_chat_message_to_cli plaintext
    else if type =? CHAT_PKT_CLOSE then
      if negb (tag =? TAG_FINAL) then mret (-1) else peer_closed
    else mret (-1).

(** ** Handshake *)

(** The handshake created before the first transmission; [false] when that
    fails. *)
Definition create_handshake : D bool :=
  st ← state;
  if d_crypto_handshake_sent st then mret true
  else
    e ← env;
    let '(result, handshake, message, g) :=
      chat_crypto_handshake_init (Some (d_crypto_handshake st)) (Some (d_identity st))
        (Some (d_remote_identity_pk st)) (d_crypto_role st) (Some (d_ice_session_id st))
        (Some (d_crypto_local_handshake_message st)) (e_rng e) in
    d_crypto_handshake <~ default (d_crypto_handshake st) handshake;;
    d_crypto_local_handshake_message <~ default (d_crypto_local_handshake_message st) message;;
    e_rng <~env g;;
    mret (bool_decide (result = CHAT_CRYPTO_OK)).

Definition start_crypto_handshake : D Z :=
  chatd_set_session_state CHATD_SESSION_CRYPTO_HANDSHAKE;;
  created ← create_handshake;
  if negb created then mret (-1)
  else
    st ← state;
    sent ← send_ice_packet CHAT_PKT_HANDSHAKE (Some (d_crypto_local_handshake_message st))
             CHAT_CRYPTO_KX_MESSAGE_BYTES;
    if negb (sent =? 0) then mret (-1)
    else
      now ← time_now;
      d_crypto_next_handshake_at <~ now + 1;;
      if d_crypto_handshake_sent st then mret 0
      else d_crypto_handshake_sent <~ true;; mret 0.

Definition finish_crypto_handshake (payload : bytes) : D Z :=
  st ← state;
  let '(result, handshake, keys) :=
    chat_crypto_handshake_finish (Some (d_crypto_handshake st)) (Some payload)
      (Some (d_crypto_keys st)) in
  d_crypto_handshake <~ default (d_crypto_handshake st) handshake;;
  d_crypto_keys <~ default (d_crypto_keys st) keys;;
  if negb (bool_decide (result = CHAT_CRYPTO_OK)) then mret (-1)
  else d_crypto_keys_ready <~ true;; mret 0.

(** The sending stream opened before the first transmission of its header. *)
Definition create_stream_header : D bool :=
  st ← state;
  if d_crypto_stream_header_sent st then mret true
  else
    e ← env;
    let '(result, stream, header, g) :=
      chat_crypto_secretstream_init_push (Some (d_crypto_stream st))
        (Some (keys_tx (d_crypto_keys st))) (Some (d_crypto_local_stream_header st)) (e_rng e) in
    d_crypto_stream <~ default (d_crypto_stream st) stream;;
    d_crypto_local_stream_header <~ default (d_crypto_local_stream_header st) header;;
    e_rng <~env g;;
    mret (bool_decide (result = CHAT_CRYPTO_OK)).

Definition send_stream_header : D Z :=
  created ← create_stream_header;
  if negb created then mret (-1)
  else
    st ← state;
    sent ← send_ice_packet CHAT_PKT_STREAM_HEADER (Some (d_crypto_local_stream_header st))
             CHAT_CRYPTO_STREAM_HEADER_BYTES;
    if negb (sent =? 0) then mret (-1)
    else
      now ← time_now;
      d_crypto_next_stream_header_at <~ now + 1;;
      if d_crypto_stream_header_sent st then mret 0
      else d_crypto_stream_header_sent <~ true;; mret 0.

Definition receive_stream_header (payload : bytes) : D Z :=
  st ← state;
  let '(result, stream) :=
    chat_crypto_secretstream_init_pull (Some (d_crypto_stream st))
      (Some (keys_rx (d_crypto_keys st))) (Some payload) in
  d_crypto_stream <~ default (d_crypto_stream st) stream;;
  if negb (bool_decide (result = CHAT_CRYPTO_OK)) then mret (-1)
  else d_crypto_stream_header_received <~ true;; mret 0.

(** ** Received packets *)

(** The three kinds of packet, after the header has been checked. *)
Definition handle_handshake_packet (length : Z) (payload : bytes) : D Z :=
  st ← state;
  if negb (bool_decide (d_session_state st = CHATD_SESSION_ICE_CONNECTED))
     && negb (bool_decide (d_session_state st = CHATD_SESSION_CRYPTO_HANDSHAKE))
     && negb (bool_decide (d_session_state st = CHATD_SESSION_SECURE) && d_crypto_keys_ready st)
  then mret (-1)
  else if negb (length =? CHAT_CRYPTO_KX_MESSAGE_BYTES) then mret (-1)
  else if d_crypto_keys_ready st then mret 0
  else finish_crypto_handshake payload.

Definition handle_stream_header_packet (length : Z) (payload : bytes) : D Z :=
  st ← state;
  if negb (bool_decide (d_session_state st = CHATD_SESSION_CRYPTO_HANDSHAKE))
     && negb (bool_decide (d_session_state st = CHATD_SESSION_SECURE)
              && d_crypto_stream_header_received st)
  then mret (-1)
  else if negb (length =? CHAT_CRYPTO_STREAM_HEADER_BYTES) then mret (-1)
  else if negb (d_crypto_keys_ready st) then mret 0
  else if d_crypto_stream_header_received st then mret 0
  else receive_stream_header payload.

Definition handle_chat_packet (type length : Z) (payload : bytes) : D Z :=
  st ← state;
  if negb (bool_decide (d_session_state st = CHATD_SESSION_SECURE))
     || negb (d_encrypted_session_ready st) || (length <? CHAT_CRYPTO_STREAM_ABYTES)
  then mret (-1)
  else decrypt_chat_payload type payload.

(** [packet] holds the [packet_len] bytes of the packet. *)
Definition handle_ice_app_packet (packet : bytes) : D Z :=
  match chat_packet_decode_header (Some packet)
          (Some {| hdr_version := 0; hdr_type := 0; hdr_length := 0 |}) with
  | (CHAT_PROTOCOL_OK, Some header) =>
      if negb (len packet =? CHAT_PACKET_HEADER_SIZE + hdr_length header) then mret (-1)
      else
        let payload := zdrop CHAT_PACKET_HEADER_SIZE packet in
        if hdr_type header =? CHAT_PKT_HANDSHAKE then
          handle_handshake_packet (hdr_length header) payload
        else if hdr_type header =? CHAT_PKT_STREAM_HEADER then
          handle_stream_header_packet (hdr_length header) payload
        else if (hdr_type header =? CHAT_PKT_MESSAGE) || (hdr_type header =? CHAT_PKT_CLOSE) then
          handle_chat_packet (hdr_type header) (hdr_length header) payload
        else mret (-1)
  | _ => mret (-1)
  end.

Definition process_received_ice_packet : D Z :=
  st ← state;
  let '(result, ice, packet, packet_len) :=
    chat_ice_take_received (Some (d_ice st)) (Some (scratch CHATD_ICE_PACKET_MAX)) in
  d_ice <~ default (d_ice st) ice;;
  if negb (bool_decide (result = CHAT_ICE_OK)) then mret (-1)
  else
    let packet_len := default 0 packet_len in
    if packet_len =? 0 then mret 0
    else handle_ice_app_packet (ztake packet_len (default [] packet)).

(** ** Service of the session *)

(** The loop over the receive queue of an established session. *)
Fixpoint crypto_drain (n : nat) : D unit :=
  match n with
  | O => mret tt
  | S n =>
      handled ← process_received_ice_packet;
      if negb (handled =? 0) then
        st ← state;
        when (d_ice_active st) fail_chat_session
      else crypto_drain n
  end.

(** The tail of [service_crypto_session]: the session is established. *)
Definition establish_session : D unit :=
  st ← state;
  when (d_crypto_keys_ready st && d_crypto_stream_header_sent st
        && d_crypto_stream_header_received st)
    (d_encrypted_session_ready <~ true;;
     chatd_set_session_state CHATD_SESSION_SECURE;;
     when (d_lookup_client_fd st >=? 0)
       (write_response (d_lookup_client_fd st)
          (lit "ENCRYPTED_SESSION " ++ d_ice_peer st ++ [space]
           ++ lit (if d_ice_selected_pair_is_relayed st then "relay" else "direct")
           ++ [newline]))).

(** Run [step]; when its result is not 0 the session fails, else go on. *)
Definition or_fail (step : D Z) (rest : D unit) : D unit :=
  result ← step;
  if negb (result =? 0) then fail_chat_session else rest.

Definition service_crypto_session : D unit :=
  st ← state;
  if negb (ice_ready (d_ice st)) then mret tt
  else if d_encrypted_session_ready st then crypto_drain CHAT_ICE_RECV_QUEUE_CAPACITY
  else
    now ← time_now;
    if negb (d_has_remote_identity_pk st) then fail_chat_session
    else if negb (d_crypto_deadline_at st =? 0) && (now >=? d_crypto_deadline_at st) then
      fail_chat_session
    else
      or_fail (if negb (d_crypto_handshake_sent st)
                  || (negb (d_crypto_stream_header_received st)
                      && (now >=? d_crypto_next_handshake_at st))
               then start_crypto_handshake else mret 0)
     (or_fail process_received_ice_packet
       (st ← state;
        or_fail (if d_crypto_keys_ready st
                    && (negb (d_crypto_stream_header_sent st)
                        || (negb (d_encrypted_session_ready st)
                            && (now >=? d_crypto_next_stream_header_at st)))
                 then send_stream_header else mret 0)
       (or_fail process_received_ice_packet establish_session))).

(** What [chat_ice_poll] dispatches: the three callbacks, and changes of the
    library's own state. *)
Inductive ice_event :=
  | IceGatheringDone (stream_id : Z)
  | IceStateChanged (agent : agent_t) (stream_id component_id : Z) (s : nice_state)
  | IceRecv (buf : cptr)
  | IceLibrary (f : nice → nice).

Definition ice_dispatch (ev : ice_event) : D unit :=
  st ← state;
  e ← env;
  match ev with
  | IceGatheringDone stream_id =>
      d_ice <~ default (d_ice st) (on_candidate_gathering_done stream_id (Some (d_ice st)))
  | IceStateChanged agent stream_id component_id s =>
      d_ice <~ default (d_ice st)
        (on_component_state_changed agent stream_id component_id s (Some (d_ice st)) (e_nice e))
  | IceRecv buf => d_ice <~ default (d_ice st) (on_recv buf (Some (d_ice st)))
  | IceLibrary f => e_nice <~env f (e_nice e)
  end.

Definition chat_ice_poll (evs : list ice_event) : D unit := mfor ice_dispatch evs.

(** The description that came before gathering was done; [false] when it
    cannot be applied. *)
Definition apply_pending_sdp : D bool :=
  st ← state;
  if ice_gathering_done (d_ice st) && d_has_pending_remote_ice_sdp st then
    applied ← apply_remote_ice_sdp (d_pending_remote_ice_sdp st);
    if negb (applied =? 0) then mret false
    else
      d_pending_remote_ice_sdp <~ [];;
      d_has_pending_remote_ice_sdp <~ false;;
      mret true
  else mret true.

(** The local description, once there is room for it; [false] on an error
    other than a message already waiting. *)
Definition send_local_sdp : D bool :=
  st ← state;
  if ice_gathering_done (d_ice st) && negb (d_ice_local_sdp_sent st)
     && negb (bool_decide (d_control_wsi st = None)) && (d_pending_len st =? 0)
  then
    queued ← queue_local_ice_sdp;
    st ← state;
    mret (negb (negb (queued =? 0) && (d_pending_len st =? 0)))
  else mret true.

(** The first service of a connected session. *)
Definition note_connected : D unit :=
  st ← state;
  when (negb (d_ice_cli_notified st))
    (match chat_ice_selected_pair_is_relayed (Some (d_ice st)) with
     | Some is_relayed => d_ice_selected_pair_is_relayed <~ is_relayed
     | None => mret tt
     end;;
     d_ice_cli_notified <~ true;;
     now ← time_now;
     d_crypto_deadline_at <~ now + CHATD_CRYPTO_TIMEOUT_SECONDS;;
     chatd_set_session_state CHATD_SESSION_ICE_CONNECTED).

Definition service_ice_session (evs : list ice_event) : D unit :=
  st ← state;
  if negb (d_ice_active st) then mret tt
  else
    chat_ice_poll evs;;
    now ← time_now;
    st ← state;
    if negb (d_crypto_deadline_at st =? 0) && negb (d_encrypted_session_ready st)
       && (now >=? d_crypto_deadline_at st)
    then fail_chat_session
    else
      applied ← apply_pending_sdp;
      if negb applied then fail_chat_session
      else
        queued ← send_local_sdp;
        if negb queued then fail_chat_session
        else
          st ← state;
          if ice_failed (d_ice st) then fail_chat_session
          else if ice_ready (d_ice st) then
            note_connected;;
            service_crypto_session
          else if now >=? d_ice_deadline_at st then fail_chat_session
          else mret tt.
End session.
