(* ===== verification/Daemon.v ===== *)
(** * The daemon (src/daemon/main.c, lines 1421 to 2282)

    The messages of the control server, the libwebsockets callback, the
    commands of the local client and the main loop, on top of
    [DaemonSession].  What the environment does in one turn of the loop (the
    connection and the commands of local clients, the events of libnice, the
    callbacks of libwebsockets) is the argument of the loop's body, so that a
    run of the daemon is a list of such inputs. *)

From S2P Require Import Prelude CLib Protocol Sodium Base64 Json Identity FileSys IdentityStore.
From S2P Require Import Contacts Ipc Crypto Ice StateMonad DaemonState DaemonSession.

Section daemon.
Context `{Libs}.

(** ** Control messages *)

(** [chat_contacts_verify_or_pin] on the daemon's file system. *)
Definition verify_or_pin (username identity_pk : bytes) : D (chat_contacts_result_t * bool) :=
  e ← env;
  let '(result, is_new_contact, o) :=
    chat_contacts_verify_or_pin getenv (Some username) (Some identity_pk) (e_os e) in
  e_os <~env o;;
  mret (result, is_new_contact).

(** The guard of [handle_chat_request]: name, session and key of the peer. *)
Definition parse_chat_request (st : chatd_state_t) (json : bytes) : option (bytes * bytes * bytes) :=
  match json_get_string (Some json) (Some (lit "from")) (CHAT_USERNAME_MAX_LEN + 1),
        json_get_string (Some json) (Some (lit "to")) (CHAT_USERNAME_MAX_LEN + 1),
        json_get_string (Some json) (Some (lit "session_id")) CHATD_SESSION_ID_HEX_LEN,
        json_get_string (Some json) (Some (lit "public_key")) CHATD_HEX_PUBLIC_KEY_LEN with
  | Some from, Some to, Some session_id, Some public_key_hex =>
      if negb (streq to (id_username (d_identity st)))
         || negb (chat_username_is_valid (Some from))
         || bool_decide (session_id = [])
      then None
      else match hex_to_bin public_key_hex crypto_sign_PUBLICKEYBYTES with
           | Some remote_identity_pk => Some (from, session_id, remote_identity_pk)
           | None => None
           end
  | _, _, _, _ => None
  end.

Definition handle_chat_request (json : bytes) : D Z :=
  st ← state;
  match parse_chat_request st json with
  | None => mret 0
  | Some (from, session_id, remote_identity_pk) =>
      contact ← verify_or_pin from remote_identity_pk;
      if negb (bool_decide (contact.1 = CHAT_CONTACTS_OK)) then mret 0
      else
        chatd_set_session_state CHATD_SESSION_REQUESTING;;
        result ← queue_chat_accept from session_id;
        if negb (result =? 0) then mret result
        else
          _ ← begin_ice_session from session_id false (Some remote_identity_pk);
          mret 0
  end.

Definition handle_user_status (json : bytes) : D Z :=
  st ← state;
  if d_lookup_client_fd st <? 0 then mret 0
  else
    match json_get_string (Some json) (Some (lit "username")) (CHAT_USERNAME_MAX_LEN + 1) with
    | None => mret 0
    | Some username =>
        if negb (streq username (d_lookup_peer st)) then mret 0
        else if negb (json_bool_is_true json (lit "known"))
                || negb (json_bool_is_true json (lit "online"))
        then write_lookup_response (lit "USER_OFFLINE") username;; mret 0
        else write_lookup_response (lit "USER_ONLINE") username;; mret 0
    end.

(** The branch of [handle_receive] for an error of the server. *)
Definition handle_error (json : bytes) : D Z :=
  let code := default (lit "unknown") (json_get_string (Some json) (Some (lit "code")) 128) in
  st ← state;
  if bool_decide (d_phase st = CHATD_PHASE_REGISTER) && streq code (lit "user already exists") then
    d_phase <~ CHATD_PHASE_HELLO;;
    queue_hello
  else if (d_lookup_client_fd st >=? 0) && streq code (lit "peer_offline") then
    write_lookup_response (lit "USER_OFFLINE") (d_lookup_peer st);;
    mret 0
  else
    when (d_lookup_client_fd st >=? 0) (write_lookup_response (lit "ERROR") code);;
    d_phase <~ CHATD_PHASE_FAILED;;
    mret (-1).

(** The challenge of the server.  (A decoding that fails may leave part of its
    output in the array; the phase is then [CHATD_PHASE_FAILED].) *)
Definition parse_challenge (json : bytes) : option bytes :=
  match json_get_string (Some json) (Some (lit "challenge")) CHATD_HEX_CHALLENGE_LEN with
  | None => None
  | Some challenge_hex => hex_to_bin challenge_hex CHATD_CHALLENGE_BYTES
  end.

Definition handle_challenge (json : bytes) : D Z :=
  match parse_challenge json with
  | None =>
      d_phase <~ CHATD_PHASE_FAILED;;
      mret (-1)
  | Some challenge =>
      d_challenge <~ challenge;;
      d_has_challenge <~ true;;
      d_phase <~ CHATD_PHASE_AUTH_RESPONSE;;
      queue_auth_response
  end.

(** The guard of the branch for [chat_accept]. *)
Definition parse_chat_accept (st : chatd_state_t) (json : bytes) : option (bytes * bytes * bytes) :=
  let remote_identity_pk :=
    match json_get_string (Some json) (Some (lit "public_key")) CHATD_HEX_PUBLIC_KEY_LEN with
    | Some public_key_hex => hex_to_bin public_key_hex crypto_sign_PUBLICKEYBYTES
    | None => None
    end in
  match json_get_string (Some json) (Some (lit "from")) (CHAT_USERNAME_MAX_LEN + 1),
        json_get_string (Some json) (Some (lit "to")) (CHAT_USERNAME_MAX_LEN + 1),
        json_get_string (Some json) (Some (lit "session_id")) CHATD_SESSION_ID_HEX_LEN,
        remote_identity_pk with
  | Some from, Some to, Some session_id, Some remote_identity_pk =>
      if (d_lookup_client_fd st >=? 0) && streq from (d_lookup_peer st)
         && streq to (id_username (d_identity st)) && streq session_id (d_ice_session_id st)
      then Some (from, session_id, remote_identity_pk)
      else None
  | _, _, _, _ => None
  end.

Definition handle_chat_accept (json : bytes) : D Z :=
  st ← state;
  match parse_chat_accept st json with
  | None => mret 0
  | Some (from, session_id, remote_identity_pk) =>
      contact ← verify_or_pin from remote_identity_pk;
      if bool_decide (contact.1 = CHAT_CONTACTS_ERR_MISMATCH) then
        _ ← queue_chat_cancel from session_id;
        write_lookup_response (lit "IDENTITY_MISMATCH") from;;
        mret 0
      else if negb (bool_decide (contact.1 = CHAT_CONTACTS_OK)) then
        write_lookup_response (lit "ERROR") (lit "contact_verification_failed");;
        mret 0
      else
        started ← begin_ice_session from session_id true (Some remote_identity_pk);
        when (negb (started =? 0)) (write_lookup_response (lit "ICE_FAILED") from);;
        mret 0
  end.

(** The guard of the branch for [chat_cancel]. *)
Definition chat_cancel_valid (st : chatd_state_t) (json : bytes) : bool :=
  match json_get_string (Some json) (Some (lit "from")) (CHAT_USERNAME_MAX_LEN + 1),
        json_get_string (Some json) (Some (lit "to")) (CHAT_USERNAME_MAX_LEN + 1),
        json_get_string (Some json) (Some (lit "session_id")) CHATD_SESSION_ID_HEX_LEN with
  | Some from, Some to, Some session_id =>
      d_ice_active st && streq from (d_ice_peer st) && streq to (id_username (d_identity st))
      && streq session_id (d_ice_session_id st)
  | _, _, _ => false
  end.

Definition handle_chat_cancel (json : bytes) : D Z :=
  st ← state;
  when (chat_cancel_valid st json)
    (reset_ice_session;; chatd_set_session_state CHATD_SESSION_CLOSED);;
  mret 0.

Definition handle_receive (json : bytes) : D Z :=
  match json_get_string (Some json) (Some (lit "type")) 32 with
  | None => mret 0
  | Some type =>
      st ← state;
      if streq type (lit "error") then handle_error json
      else if bool_decide (d_phase st = CHATD_PHASE_REGISTER) && streq type (lit "register_ok") then
        d_phase <~ CHATD_PHASE_HELLO;;
        queue_hello
      else if bool_decide (d_phase st = CHATD_PHASE_HELLO) && streq type (lit "auth_challenge") then
        handle_challenge json
      else if bool_decide (d_phase st = CHATD_PHASE_AUTH_RESPONSE) && streq type (lit "auth_ok") then
        d_challenge <~ zeros CHATD_CHALLENGE_BYTES;;
        d_has_challenge <~ false;;
        d_phase <~ CHATD_PHASE_ONLINE;;
        mret 0
      else if streq type (lit "user_status") then handle_user_status json
      else if streq type (lit "chat_request") then handle_chat_request json
      else if streq type (lit "chat_accept") then handle_chat_accept json
      else if streq type (lit "ice_credentials") then handle_ice_credentials json
      else if streq type (lit "chat_cancel") then handle_chat_cancel json
      else mret 0
  end.

(** ** The libwebsockets callback *)

Inductive chatd_reason :=
  | LWS_CALLBACK_CLIENT_ESTABLISHED (wsi : positive)
  | LWS_CALLBACK_CLIENT_RECEIVE (payload : bytes) (remaining : Z) (final : bool)
  | LWS_CALLBACK_CLIENT_WRITEABLE (lws_write_result : Z)
  | LWS_CALLBACK_CLIENT_CONNECTION_ERROR
  | LWS_CALLBACK_CLIENT_CLOSED
  | LWS_CALLBACK_CLIENT_OTHER.

(** The connection is gone; the client that waits for it is told [why]. *)
Definition control_lost (why : bytes) : D unit :=
  d_control_wsi <~ None;;
  d_connected <~ false;;
  d_should_reconnect <~ true;;
  now ← time_now;
  d_next_reconnect_at <~ now + CHATD_RECONNECT_SECONDS;;
  st ← state;
  when ((d_lookup_client_fd st >=? 0) && negb (d_encrypted_session_ready st))
    (write_lookup_response (lit "ERROR") why).

Definition callback_chatd_control (reason : chatd_reason) : D Z :=
  match reason with
  | LWS_CALLBACK_CLIENT_ESTABLISHED wsi =>
      d_control_wsi <~ Some wsi;;
      d_connected <~ true;;
      d_phase <~ CHATD_PHASE_REGISTER;;
      queue_register
  | LWS_CALLBACK_CLIENT_RECEIVE payload remaining final =>
      if (len payload >=? CHATD_MAX_JSON_SIZE) || negb (remaining =? 0) || negb final then
        d_phase <~ CHATD_PHASE_FAILED;;
        mret (-1)
      else handle_receive (c_string payload)
  | LWS_CALLBACK_CLIENT_WRITEABLE lws_write_result =>
      st ← state;
      if d_pending_len st =? 0 then mret 0
      else if lws_write_result <? d_pending_len st then
        d_phase <~ CHATD_PHASE_FAILED;;
        mret (-1)
      else
        e ← env;
        e_sent <~env e_sent e ++ [ztake (d_pending_len st) (d_pending st)];;
        d_pending_len <~ 0;;
        mret 0
  | LWS_CALLBACK_CLIENT_CONNECTION_ERROR =>
      control_lost (lit "server_unavailable");;
      mret 0
  | LWS_CALLBACK_CLIENT_CLOSED =>
      control_lost (lit "server_disconnected");;
      st ← state;
      when (d_has_challenge st)
        (d_challenge <~ zeros CHATD_CHALLENGE_BYTES;; d_has_challenge <~ false);;
      mret 0
  | LWS_CALLBACK_CLIENT_OTHER => mret 0
  end.

(** ** Commands of the local client *)

Definition write_ipc_status (client_fd : Z) : D unit :=
  st ← state;
  let status :=
    if bool_decide (d_phase st = CHATD_PHASE_ONLINE) then lit "ONLINE"
    else if d_connected st then lit "CONNECTING" else lit "OFFLINE" in
  let username := snprintf_buf (CHAT_USERNAME_MAX_LEN + 1) (id_username (d_identity st)) in
  match snprintf CHAT_IPC_MAX_RESPONSE (status ++ [space] ++ username ++ [newline]) with
  | None => mret tt
  | Some response => _ ← write_ipc_line client_fd (Some response); mret tt
  end.

Definition ipc_error (code : string) : bytes := lit "ERROR " ++ lit code ++ [newline].

(** An established session taken over by a client. *)
Definition attach_client (client_fd : Z) : D Z :=
  d_lookup_client_fd <~ client_fd;;
  st ← state;
  write_response client_fd
    (lit "ENCRYPTED_SESSION " ++ d_ice_peer st ++ [space]
     ++ lit (if d_ice_selected_pair_is_relayed st then "relay" else "direct") ++ [newline]);;
  mret 1.

Definition handle_open_chat_command (client_fd : Z) (peer : bytes) : D Z :=
  if negb (chat_username_is_valid (Some peer)) then
    _ ← write_ipc_line client_fd (Some (ipc_error "invalid_username"));
    mret 0
  else
    st ← state;
    if negb (bool_decide (d_phase st = CHATD_PHASE_ONLINE)
             && negb (bool_decide (d_control_wsi st = None))) then
      _ ← write_ipc_line client_fd (Some (ipc_error "daemon_not_online"));
      mret 0
    else if streq peer (id_username (d_identity st)) then
      write_response client_fd (lit "USER_ONLINE " ++ peer ++ [newline]);;
      mret 0
    else if d_ice_active st && d_encrypted_session_ready st && streq peer (d_ice_peer st)
            && (d_lookup_client_fd st <? 0)
    then attach_client client_fd
    else if (d_lookup_client_fd st >=? 0) || negb (d_pending_len st =? 0) then
      _ ← write_ipc_line client_fd (Some (ipc_error "busy"));
      mret 0
    else
      d_lookup_peer <~ snprintf_buf (CHAT_USERNAME_MAX_LEN + 1) peer;;
      if snprintf_fails (CHAT_USERNAME_MAX_LEN + 1) peer then
        _ ← write_ipc_line client_fd (Some (ipc_error "invalid_username"));
        mret 0
      else
        d_lookup_client_fd <~ client_fd;;
        d_chat_retry_count <~ 0;;
        chatd_set_session_state CHATD_SESSION_REQUESTING;;
        queued ← queue_chat_request peer;
        if negb (queued =? 0) then
          write_lookup_response (lit "ERROR") (lit "chat_request_failed");;
          mret 0
        else mret 1.

(** The end of a chat: the session is closed in [final]. *)
Definition end_chat (final : chatd_session_state_t) : D unit :=
  close_lookup_client;;
  reset_ice_session;;
  chatd_set_session_state final.

Definition line_breaks : bytes := [byte_of 13; newline].
Definition send_prefix : bytes := lit "SEND_MESSAGE ".

(** Skip carriage returns and newlines. *)
Fixpoint skip_breaks (s : bytes) : bytes :=
  match s with
  | c :: s' => if bool_decide (c ∈ line_breaks) then skip_breaks s' else s
  | [] => []
  end.

(** One line of the client's input; [true] when the chat was closed. *)
Definition chat_command (line : bytes) : D bool :=
  if streq line (lit "CLOSE_CHAT") then
    _ ← send_encrypted_chat_close;
    end_chat CHATD_SESSION_CLOSED;;
    mret true
  else if has_prefix send_prefix line then
    let text := zdrop (len send_prefix) line in
    sent ← send_encrypted_chat_message (Some text) (strlen text);
    if negb (sent =? 0) then
      st ← state;
      _ ← write_ipc_line (d_lookup_client_fd st) (Some (ipc_error "send_failed"));
      mret false
    else mret false
  else if negb (bool_decide (line = [])) then
    st ← state;
    _ ← write_ipc_line (d_lookup_client_fd st) (Some (ipc_error "unknown_command"));
    mret false
  else mret false.

(** The loop over the lines; every turn but the last consumes at least the
    line break, so [S (length cursor)] turns are enough. *)
Fixpoint chat_commands (fuel : nat) (cursor : bytes) : D unit :=
  match fuel with
  | O => mret tt
  | S fuel =>
      st ← state;
      if bool_decide (cursor = []) || (d_lookup_client_fd st <? 0) || negb (d_ice_active st)
      then mret tt
      else
        let n := strcspn cursor line_breaks in
        closed ← chat_command (ztake n cursor);
        if (closed : bool) then mret tt
        else
          match zdrop n cursor with
          | [] => mret tt
          | _ :: rest => chat_commands fuel (skip_breaks rest)
          end
  end.

Definition service_active_chat_client (outcome : read_result) : D unit :=
  st ← state;
  if (d_lookup_client_fd st <? 0) || negb (d_encrypted_session_ready st) then mret tt
  else
    read ← sys_read (d_lookup_client_fd st) (CHAT_IPC_MAX_COMMAND - 1) outcome;
    match read with
    | ReadAgain => mret tt
    | ReadError => end_chat CHATD_SESSION_FAILED
    | ReadData [] =>
        _ ← send_encrypted_chat_close;
        end_chat CHATD_SESSION_CLOSED
    | ReadData data =>
        let command := c_string data in
        chat_commands (S (length command)) command
    end.

(** [sscanf(command, "OPEN_CHAT %33s", peer) == 1]: white space before the
    word is optional. *)
Definition scan_open_chat (command : bytes) : option bytes :=
  if has_prefix (lit "OPEN_CHAT") command
  then match scan_word 33 (zdrop 9 command) with
       | Some (peer, _) => Some peer
       | None => None
       end
  else None.

Definition handle_ipc_client (client_fd : Z) (outcome : read_result) : D Z :=
  read ← sys_read client_fd (CHAT_IPC_MAX_COMMAND - 1) outcome;
  match read with
  | ReadAgain | ReadError | ReadData [] => mret 0
  | ReadData data =>
      let command := c_string data in
      if streq command (lit "STATUS" ++ [newline]) || streq command (lit "STATUS") then
        write_ipc_status client_fd;;
        mret 0
      else
        match scan_open_chat command with
        | Some peer => handle_open_chat_command client_fd peer
        | None =>
            _ ← write_ipc_line client_fd (Some (ipc_error "unknown_command"));
            mret 0
        end
  end.

(** The results of [accept] (negative: none), of [poll] on the waiting client
    (its return value, whether an error bit is set, whether input is ready)
    and of the [read] of its command. *)
Record ipc_input := {
  in_accept : Z;
  in_poll : Z;
  in_poll_error : bool;
  in_poll_in : bool;
  in_command : read_result;
}.

(** [accept]: the kernel opens a descriptor, which is one that is not open. *)
Definition sys_accept (fd : Z) : D Z :=
  e ← env;
  if (fd <? 0) || bool_decide (is_Some (e_fds e !! fd)) then mret (-1)
  else
    e_fds <~env <[fd := []]> (e_fds e);;
    mret fd.

Definition accept_client (input : ipc_input) : D bool :=
  st ← state;
  if negb (d_pending_ipc_client_fd st <? 0) then mret true
  else
    client_fd ← sys_accept (in_accept input);
    if client_fd <? 0 then mret false
    else
      d_pending_ipc_client_fd <~ client_fd;;
      now ← time_now;
      d_pending_ipc_deadline_at <~ now + 5;;
      mret true.

Definition service_ipc (input : ipc_input) : D unit :=
  accepted ← accept_client input;
  if negb accepted then mret tt
  else
    st ← state;
    let ready := in_poll input in
    expired ← (if (ready <? 0) || (ready >? 0) && in_poll_error input then mret true
               else now ← time_now; mret (now >=? d_pending_ipc_deadline_at st));
    if (expired : bool) then
      sys_close (d_pending_ipc_client_fd st);;
      d_pending_ipc_client_fd <~ -1;;
      d_pending_ipc_deadline_at <~ 0
    else if (ready =? 0) || negb (in_poll_in input) then mret tt
    else
      let client_fd := d_pending_ipc_client_fd st in
      d_pending_ipc_client_fd <~ -1;;
      d_pending_ipc_deadline_at <~ 0;;
      keep_open ← handle_ipc_client client_fd (in_command input);
      when (keep_open =? 0) (sys_close client_fd).

(** ** The main loop *)

(** [lws_service]: the callbacks libwebsockets makes; a result other than 0
    makes it close the connection, which is one of the later callbacks. *)
Definition lws_service (reasons : list chatd_reason) : D unit :=
  mfor (λ reason, _ ← callback_chatd_control reason; mret tt) reasons.

(** [connect_control_server]; [connected] tells whether libwebsockets could
    start the connection, [reasons] the callbacks it makes meanwhile. *)
Definition connect_control_server (connected : bool) (reasons : list chatd_reason) : D bool :=
  d_should_reconnect <~ false;;
  lws_service reasons;;
  mret connected.

(** The environment during one turn of the loop. *)
Record loop_input := {
  in_ipc : ipc_input;
  in_chat : read_result;
  in_ice : list ice_event;
  in_flush : list chatd_reason;
  in_service : list chatd_reason;
  in_connect : bool;
  in_connecting : list chatd_reason;
}.

Definition reconnect (connected : bool) (reasons : list chatd_reason) : D unit :=
  st ← state;
  when (d_should_reconnect st && negb (d_connected st))
    (now ← time_now;
     when (now >=? d_next_reconnect_at st)
       (started ← connect_control_server connected reasons;
        when (negb started)
          (now ← time_now; d_next_reconnect_at <~ now + CHATD_RECONNECT_SECONDS))).

Definition main_loop_body (input : loop_input) : D unit :=
  service_ipc (in_ipc input);;
  service_active_chat_client (in_chat input);;
  service_ice_session (in_ice input);;
  pending ← has_pending_control_message;
  st ← state;
  when (pending && negb (bool_decide (d_control_wsi st = None))) (lws_service (in_flush input));;
  lws_service (in_service input);;
  reconnect (in_connect input) (in_connecting input).

(** The loop runs until it is interrupted (the end of the inputs) or the
    phase is [CHATD_PHASE_FAILED]. *)
Fixpoint main_loop (inputs : list loop_input) : D unit :=
  match inputs with
  | [] => mret tt
  | input :: inputs =>
      st ← state;
      if bool_decide (d_phase st = CHATD_PHASE_FAILED) then mret tt
      else main_loop_body input;; main_loop inputs
  end.

(** [sizeof(sun_path)]. *)
Definition SUN_PATH_SIZE : Z := 108.

(** [unlink] on the socket's path; its result is ignored.  The node [bind]
    creates is not part of the modelled tree. *)
Definition unlink_path (path : bytes) : D unit :=
  e ← env;
  e_os <~env (sys_unlink path (e_os e)).2.

(** [unlink(state.ipc_socket_path)]: [start_ipc_server] has stored the path
    [chat_ipc_socket_path] gave it. *)
Definition unlink_socket : D unit :=
  match chat_ipc_socket_path getenv SUN_PATH_SIZE with
  | inr socket_path => unlink_path socket_path
  | inl _ => mret tt
  end.

(** [shutdown(fd, SHUT_RDWR)]: nothing but the use of the descriptor. *)
Definition sys_shutdown (fd : Z) : D unit :=
  e ← env;
  match e_fds e !! fd with
  | Some _ => mret tt
  | None => e_stale <~env true
  end.

(** What [main] does after the loop; the result is the exit status. *)
Definition main_shutdown : D Z :=
  st ← state;
  when (d_ipc_fd st >=? 0)
    (sys_shutdown (d_ipc_fd st);; sys_close (d_ipc_fd st);; unlink_socket);;
  when (d_pending_ipc_client_fd st >=? 0) (sys_close (d_pending_ipc_client_fd st));;
  close_lookup_client;;
  reset_ice_session;;
  st ← state;
  d_identity <~ default (d_identity st) (chat_identity_wipe (Some (d_identity st)));;
  d_ice_config <~ zero_config;;
  mret (if bool_decide (d_phase st = CHATD_PHASE_FAILED) then 1 else 0).

(** The state [main] has built when it enters the loop: zeros, the loaded
    identity and configuration and the listening socket. *)
Definition chatd_initial (identity : chat_identity_t) (config : chat_ice_config_t) (ipc_fd : Z)
    : chatd_state_t :=
  {| d_identity := identity;
     d_control_wsi := None;
     d_phase := CHATD_PHASE_REGISTER;
     d_session_state := CHATD_SESSION_IDLE;
     d_challenge := zeros CHATD_CHALLENGE_BYTES;
     d_has_challenge := false;
     d_connected := false;
     d_should_reconnect := false;
     d_next_reconnect_at := 0;
     d_ipc_fd := ipc_fd;
     d_pending_ipc_client_fd := -1;
     d_pending_ipc_deadline_at := 0;
     d_lookup_client_fd := -1;
     d_lookup_peer := [];
     d_chat_retry_count := 0;
     d_ice_peer := [];
     d_ice_session_id := [];
     d_ice_config := config;
     d_ice := ice_initial;
     d_ice_active := false;
     d_ice_controlling := false;
     d_ice_local_sdp_sent := false;
     d_ice_cli_notified := false;
     d_ice_selected_pair_is_relayed := false;
     d_ice_deadline_at := 0;
     d_pending_remote_ice_sdp := [];
     d_has_pending_remote_ice_sdp := false;
     d_remote_identity_pk := zeros crypto_sign_PUBLICKEYBYTES;
     d_has_remote_identity_pk := false;
     d_crypto_role := 0;
     d_crypto_handshake := zero_handshake;
     d_crypto_keys := zero_keys;
     d_crypto_stream := zero_stream;
     d_crypto_local_handshake_message := zeros CHAT_CRYPTO_KX_MESSAGE_BYTES;
     d_crypto_local_stream_header := zeros CHAT_CRYPTO_STREAM_HEADER_BYTES;
     d_crypto_deadline_at := 0;
     d_crypto_handshake_sent := false;
     d_crypto_next_handshake_at := 0;
     d_crypto_keys_ready := false;
     d_crypto_stream_header_sent := false;
     d_crypto_next_stream_header_at := 0;
     d_crypto_stream_header_received := false;
     d_encrypted_session_ready := false;
     d_pending := zeros CHATD_MAX_JSON_SIZE;
     d_pending_len := 0 |}.
End daemon.
