(* ===== verification/DaemonInv.v ===== *)
(** * Invariants of the daemon

    [chatd_weak] holds inside the operations, [chatd_inv] between them; both
    are conjunctions of the groups below.  [keep] walks through the body of
    an operation and closes every assignment to a field that an invariant
    does not mention by conversion, so that only the operations that touch
    an invariant need an argument. *)

From S2P Require Import Prelude CLib Protocol Sodium Base64 Json Identity FileSys Contacts Ipc.
From S2P Require Import Crypto Ice StateMonad DaemonState DaemonSession Daemon.

Section definitions.
Context `{Libs}.

(** ** Sizes *)

Definition sizes_inv (w : world) : Prop :=
  let st := w_st w in
  (chat_username_is_valid (Some (id_username (d_identity st))) = true
   ∧ len (id_public_key (d_identity st)) = crypto_sign_PUBLICKEYBYTES)
  ∧ (len (d_pending st) = CHATD_MAX_JSON_SIZE ∧ 0 ≤ d_pending_len st < CHATD_MAX_JSON_SIZE)
  ∧ len (d_lookup_peer st) ≤ CHAT_USERNAME_MAX_LEN
  ∧ len (d_ice_peer st) ≤ CHAT_USERNAME_MAX_LEN
  ∧ len (d_ice_session_id st) < CHATD_SESSION_ID_HEX_LEN
  ∧ 0 ≤ d_chat_retry_count st ≤ CHATD_ICE_RETRY_MAX.

(** ** Descriptors *)

Definition fd_set (fd : Z) : gset Z := if fd <? 0 then ∅ else {[fd]}.
Definition open_fds (w : world) : gset Z := dom (e_fds (w_env w)).

(** The open descriptors are those of the state and [X], each held once, and
    no call has named one that is not open. *)
Definition fd_inv (X : gset Z) (w : world) : Prop :=
  let st := w_st w in
  let ipc := fd_set (d_ipc_fd st) in
  let waiting := fd_set (d_pending_ipc_client_fd st) in
  let client := fd_set (d_lookup_client_fd st) in
  e_stale (w_env w) = false
  ∧ open_fds w = X ∪ (ipc ∪ (waiting ∪ client))
  ∧ X ## ipc ∪ (waiting ∪ client) ∧ ipc ## waiting ∪ client ∧ waiting ## client.

(** ** Keys and handshake *)

(** The peer signed the transcript of the handshake, for the session
    identifier the handshake holds, and the keys are derived from the exchange
    key it signed. *)
Definition handshake_evidence (hs : chat_crypto_handshake_t) (keys : chat_crypto_session_keys_t)
    : Prop :=
  ∃ message local_kx_sk transcript_hash,
    let remote_kx_pk := ztake crypto_kx_PUBLICKEYBYTES message in
    chat_crypto_transcript_hash (chat_crypto_opposite_role (hs_role hs))
      (Some (hs_remote_identity_pk hs)) (Some (hs_local_identity_pk hs))
      (Some (ztake (hs_session_id_len hs) (hs_session_id hs))) (Some remote_kx_pk)
      = inr transcript_hash
    ∧ crypto_sign_verify_detached
        (ztake crypto_sign_BYTES (zdrop crypto_kx_PUBLICKEYBYTES message)) transcript_hash
        (hs_remote_identity_pk hs) = 0
    ∧ (if hs_role hs =? CHAT_CRYPTO_ROLE_INITIATOR
       then crypto_kx_client_session_keys (hs_local_kx_pk hs) local_kx_sk remote_kx_pk
       else crypto_kx_server_session_keys (hs_local_kx_pk hs) local_kx_sk remote_kx_pk)
      = Some (keys_rx keys, keys_tx keys).

(** No key material and no progress of a handshake. *)
Definition crypto_clean (st : chatd_state_t) : Prop :=
  d_crypto_handshake st = zero_handshake
  ∧ d_crypto_keys st = zero_keys
  ∧ d_crypto_stream st = zero_stream
  ∧ d_crypto_local_handshake_message st = zeros CHAT_CRYPTO_KX_MESSAGE_BYTES
  ∧ d_crypto_local_stream_header st = zeros CHAT_CRYPTO_STREAM_HEADER_BYTES
  ∧ d_crypto_handshake_sent st = false
  ∧ d_crypto_keys_ready st = false
  ∧ d_crypto_stream_header_sent st = false
  ∧ d_crypto_stream_header_received st = false
  ∧ d_encrypted_session_ready st = false.

Definition crypto_inv (w : world) : Prop :=
  let st := w_st w in
  let hs := d_crypto_handshake st in
  (d_has_remote_identity_pk st = false → crypto_clean st)
  ∧ (hs_initialized hs = true →
       hs_remote_identity_pk hs = d_remote_identity_pk st
       ∧ hs_local_identity_pk hs = id_public_key (d_identity st))
  ∧ (d_crypto_keys_ready st = true →
       d_crypto_handshake_sent st = true ∧ hs_initialized hs = true ∧ hs_finished hs = true
       ∧ handshake_evidence hs (d_crypto_keys st))
  ∧ (d_crypto_stream_header_sent st = true →
       d_crypto_keys_ready st = true ∧ st_push_initialized (d_crypto_stream st) = true)
  ∧ (d_crypto_stream_header_received st = true →
       d_crypto_keys_ready st = true ∧ st_pull_initialized (d_crypto_stream st) = true)
  ∧ (d_encrypted_session_ready st = true →
       d_crypto_stream_header_sent st = true ∧ d_crypto_stream_header_received st = true).

(** ** Contacts and agents *)

(** The contacts file, if there is one, is text; the key of the session is
    the one pinned to the name of its peer. *)
Definition contacts_inv (w : world) : Prop :=
  let st := w_st w in
  let o := e_os (w_env w) in
  (∀ db, contacts_path getenv 1024 = inr db → text_file db o)
  ∧ (d_has_remote_identity_pk st = true →
       len (d_remote_identity_pk st) = crypto_sign_PUBLICKEYBYTES
       ∧ ∃ db, contacts_path getenv 1024 = inr db
               ∧ pinned db (d_ice_peer st) (d_remote_identity_pk st) o).

(** libnice holds the agent of the session and those of [A]. *)
Definition agents_inv (A : gset agent_t) (w : world) : Prop :=
  owns (d_ice (w_st w)) A (e_nice (w_env w)).

(** ** Between operations *)

(** Without a session there is no remote key and no agent; a handshake that
    exists has been sent. *)
Definition rest_inv (w : world) : Prop :=
  let st := w_st w in
  (d_ice_active st = false →
     d_has_remote_identity_pk st = false
     ∧ d_remote_identity_pk st = zeros crypto_sign_PUBLICKEYBYTES
     ∧ ice_agent (d_ice st) = None)
  ∧ (hs_initialized (d_crypto_handshake st) = true → d_crypto_handshake_sent st = true).

Definition chatd_weak (X : gset Z) (A : gset agent_t) (w : world) : Prop :=
  sizes_inv w ∧ fd_inv X w ∧ crypto_inv w ∧ contacts_inv w ∧ agents_inv A w.
Definition chatd_inv (X : gset Z) (A : gset agent_t) (w : world) : Prop :=
  chatd_weak X A w ∧ rest_inv w.
End definitions.

(** ** Automation *)

Create HintDb keep discriminated.

Section keep_rules.
Context `{Libs}.
Lemma keeps_modify (I : world → Prop) f : (∀ w, I w → I (f w)) → keeps I (modify f).
Proof. intros Hf w Hw. by apply Hf. Qed.
Lemma keeps_when (I : world → Prop) b (m : D unit) : (b = true → keeps I m) → keeps I (when b m).
Proof. unfold when. destruct b; [auto|]. intros _. apply keeps_ret. Qed.
(** The state that was read, with what the invariant says of it. *)
Lemma keeps_state {B} (I : world → Prop) (C : chatd_state_t → Prop) (k : chatd_state_t → D B) :
  (∀ w, I w → C (w_st w)) → (∀ st, C st → keeps I (k st)) → keeps I (state ≫= k).
Proof. intros HC Hk w Hw. apply (Hk (w_st w)); auto. Qed.
Lemma triple_state {B} (P : world → Prop) (C : chatd_state_t → world → Prop)
    (k : chatd_state_t → D B) Q :
  (∀ w, P w → C (w_st w) w) → (∀ st, triple (C st) (k st) Q) → triple P (state ≫= k) Q.
Proof. intros HC Hk w Hw. apply (Hk (w_st w)); auto. Qed.
Lemma triple_keeps {A} (I : world → Prop) (m : D A) : keeps I m → triple I m (λ _, I).
Proof. done. Qed.
(** An invariant and a condition that is kept on its own. *)
Lemma triple_frame {A} (P R : world → Prop) (m : D A) (Q : A → world → Prop) :
  triple P m Q → keeps R m → triple (λ w, P w ∧ R w) m (λ a w, Q a w ∧ R w).
Proof. intros Hm HR w [Hw Hr]. split; [by apply Hm|by apply HR]. Qed.
Lemma triple_time {A} (P : world → Prop) (k : Z → D A) Q :
  (∀ w f, P w → P (set_field w_env (set_field e_ticks f) w)) → (∀ now, triple P (k now) Q) →
  triple P (time_now ≫= k) Q.
Proof. intros HP Hk w Hw. apply (Hk (e_clock (w_env w) (e_ticks (w_env w)))). by apply HP. Qed.
End keep_rules.

Ltac keep_step :=
  lazymatch goal with
  | |- triple ?I ?m _ => change (keeps I m)
  | |- keeps _ (mret _) => apply keeps_ret
  | |- keeps _ (gets _) => apply keeps_gets
  | |- keeps _ state => apply keeps_gets
  | |- keeps _ env => apply keeps_gets
  | |- keeps _ (_ ≫= _) => apply keeps_bind; [|intros ?]
  | |- keeps _ (modify _) => apply keeps_modify; let Hw := fresh in intros ? Hw; exact Hw
  | |- keeps _ (when _ _) => apply keeps_when; intros ?
  | |- keeps _ (match ?x with _ => _ end) => destruct x
  | |- keeps _ _ => solve [auto with keep]
  end.
Ltac keep := repeat keep_step.
