(* ===== verification/DaemonKeep.v ===== *)
(** * The daemon's operations keep its invariants *)

From S2P Require Import Prelude CLib Protocol Sodium Base64 Json Identity FileSys Contacts Ipc.
From S2P Require Import Crypto Ice StateMonad DaemonState DaemonSession Daemon DaemonInv.

(** [sizes] re-establishes the bounds after an assignment. *)
Ltac sizes :=
  unfold sizes_inv, modify in *; cbn [fst snd] in *; fields; destruct_and?; split_and?;
  first [done | unfold CHAT_USERNAME_MAX_LEN, CHATD_SESSION_ID_HEX_LEN, CHATD_SESSION_ID_BYTES,
                  CHATD_MAX_JSON_SIZE, CHATD_ICE_RETRY_MAX in *; rewrite ?len_nil; lia].

Section keep.
Context `{LibsOk} (X : gset Z) (A : gset agent_t).
Abbreviation weak := (chatd_weak X A).
Abbreviation inv := (chatd_inv X A).

(** ** Descriptors *)

Lemma size_constants : CHAT_USERNAME_MAX_LEN = 32 ∧ CHATD_SESSION_ID_HEX_LEN = 33
  ∧ CHATD_MAX_JSON_SIZE = 4096 ∧ CHATD_ICE_RETRY_MAX = 3 ∧ crypto_sign_PUBLICKEYBYTES = 32
  ∧ CHAT_IPC_MAX_RESPONSE = 4096 ∧ CHATD_SESSION_ID_BYTES = 16 ∧ crypto_sign_BYTES = 64.
Proof. done. Qed.

(** The descriptor is open (or is none). *)
Definition holding (fd : Z) (w : world) : Prop := fd_set fd ⊆ open_fds w.

Lemma fd_set_nonneg fd : 0 ≤ fd → fd_set fd = {[fd]}.
Proof. intros. unfold fd_set. by rewrite (proj2 (Z.ltb_ge _ _)). Qed.
Lemma fd_set_none : fd_set (-1) = ∅.
Proof. done. Qed.

Lemma weak_client w : weak w → holding (d_lookup_client_fd (w_st w)) w.
Proof. intros (_ & (_ & Ho & _) & _). unfold holding. set_solver. Qed.
Lemma inv_client w : inv w → holding (d_lookup_client_fd (w_st w)) w.
Proof. intros [Hw _]. by apply weak_client. Qed.

(** Writing to an open descriptor changes neither which are open nor the
    state. *)
Lemma write_effect fd line w r w' :
  write_ipc_line fd line w = (r, w') → holding fd w →
  w_st w' = w_st w ∧ open_fds w' = open_fds w ∧ e_stale (w_env w') = e_stale (w_env w)
  ∧ e_os (w_env w') = e_os (w_env w) ∧ e_nice (w_env w') = e_nice (w_env w).
Proof.
  unfold write_ipc_line, holding. destruct line as [line|]; [|by intros [= <- <-]].
  destruct (fd <? 0) eqn:Hfd; [by intros [= <- <-]|]. bdec. rewrite fd_set_nonneg by done.
  unfold mbind, stateM_bind, env, gets, modify.
  destruct (e_fds (w_env w) !! fd) as [written|] eqn:Hl.
  - destruct (ipc_write_loop _ line) as [[res data] faults]. intros [= _ <-] _.
    unfold open_fds. fields. rewrite dom_insert_L. split_and!; try done.
    apply elem_of_dom_2 in Hl. set_solver.
  - apply not_elem_of_dom in Hl. unfold open_fds. set_solver.
Qed.

(** So it keeps every predicate that depends on those only. *)
Lemma write_keeps fd line : triple (λ w, weak w ∧ holding fd w) (write_ipc_line fd line)
  (λ _ w, weak w ∧ holding fd w).
Proof.
  intros w [Hw Hh]. destruct (write_ipc_line fd line w) as [r w'] eqn:E.
  destruct (write_effect _ _ _ _ _ E Hh) as (Hst & Ho & Hs & Hos & Hn). cbn [fst snd].
  revert Hw Hh. unfold chatd_weak, sizes_inv, fd_inv, crypto_inv, contacts_inv, agents_inv, holding.
  rewrite Hst, Ho, Hs, Hos, Hn. done.
Qed.

Lemma write_rest fd line : keeps rest_inv (write_ipc_line fd line).
Proof. unfold write_ipc_line. keep. Qed.
#[local] Hint Resolve write_rest : keep.

(** What keeps both groups keeps the invariant. *)
Lemma inv_of {B} (m : D B) : keeps weak m → keeps rest_inv m → keeps inv m.
Proof. intros Hw Hr. by apply triple_frame. Qed.

Lemma response_keeps fd text : triple (λ w, weak w ∧ holding fd w) (write_response fd text)
  (λ _ w, weak w ∧ holding fd w).
Proof.
  unfold write_response, when. destruct (_ && _); [|apply triple_ret; by intros].
  eapply triple_bind; [apply write_keeps|]. intros ?. apply triple_ret. by intros.
Qed.
Lemma response_rest fd text : keeps rest_inv (write_response fd text).
Proof. unfold write_response. keep. Qed.
#[local] Hint Resolve response_rest : keep.

Lemma close_client_weak : keeps weak close_lookup_client.
Proof.
  intros w (Hz & Hf & Hc & Ho & Ha). unfold close_lookup_client.
  unfold mbind, stateM_bind, state, gets, modify, when.
  destruct Hf as (Hst & Hop & Hd1 & Hd2 & Hd3).
  destruct (d_lookup_client_fd (w_st w) >=? 0) eqn:Hfd; bdec.
  - rewrite (fd_set_nonneg (d_lookup_client_fd (w_st w))) in Hop, Hd1, Hd2, Hd3 by lia.
    unfold sys_close, mbind, stateM_bind, env, gets, modify.
    destruct (e_fds (w_env w) !! d_lookup_client_fd (w_st w)) as [b|] eqn:Hl.
    + split_and!; [sizes| |exact Hc|exact Ho|exact Ha].
      unfold fd_inv, open_fds in *. cbn [snd]. fields. rewrite dom_delete_L, Hop, fd_set_none.
      split_and!; [done|set_solver..].
    + apply not_elem_of_dom in Hl. unfold open_fds in *. set_solver.
  - split_and!; [sizes| |exact Hc|exact Ho|exact Ha]. by split_and!.
Qed.
Lemma close_client_rest : keeps rest_inv close_lookup_client.
Proof. unfold close_lookup_client, sys_close. keep. Qed.
#[local] Hint Resolve close_client_weak close_client_rest : keep.

Lemma lookup_response_weak prefix username : keeps weak (write_lookup_response prefix username).
Proof.
  unfold write_lookup_response. eapply (triple_state _ (λ st w, weak w ∧ holding (d_lookup_client_fd st) w)).
  { intros w Hw. split; [done|by apply weak_client]. }
  intros st. case_if; [by apply triple_ret; intros w []|].
  eapply triple_bind; [apply response_keeps|]. intros ?.
  eapply triple_pre; [apply close_client_weak|]. by intros w [].
Qed.
Lemma lookup_response_rest prefix username : keeps rest_inv (write_lookup_response prefix username).
Proof. unfold write_lookup_response. keep. Qed.
#[local] Hint Resolve lookup_response_weak lookup_response_rest : keep.

(** ** Control messages *)

Lemma set_state_weak next : keeps weak (chatd_set_session_state next).
Proof. unfold chatd_set_session_state. keep. Qed.
Lemma set_state_rest next : keeps rest_inv (chatd_set_session_state next).
Proof. unfold chatd_set_session_state. keep. Qed.
#[local] Hint Resolve set_state_weak set_state_rest : keep.

(** An assignment that only needs the sizes to be checked. *)
Lemma weak_sizes (f : world → world) :
  (∀ w, fd_inv X (f w) ↔ fd_inv X w) → (∀ w, crypto_inv (f w) ↔ crypto_inv w) →
  (∀ w, contacts_inv (f w) ↔ contacts_inv w) → (∀ w, agents_inv A (f w) ↔ agents_inv A w) →
  (∀ w, sizes_inv w → sizes_inv (f w)) → keeps weak (modify f).
Proof.
  intros Hf Hc Ho Ha Hs. apply keeps_modify. intros w (? & ? & ? & ? & ?).
  unfold chatd_weak. rewrite Hf, Hc, Ho, Ha. auto.
Qed.

Lemma queue_json_weak json : keeps weak (queue_json json).
Proof.
  unfold queue_json. case_if; [keep|].
  apply (keeps_state _ (λ st, len (d_pending st) = CHATD_MAX_JSON_SIZE)).
  { by intros w ((_ & [? _] & _) & _). }
  intros st Hst. case_if; [keep|]. unfold strlen in *. pose proof (len_nonneg json).
  apply keeps_bind; [|intros _; apply keeps_bind; [|intros _; keep]].
  - apply weak_sizes; try done. intros w Hw.
    assert (len (blit (d_pending st) json) = CHATD_MAX_JSON_SIZE)
      by (rewrite len_blit; unfold CHATD_MAX_JSON_SIZE in *; lia). sizes.
  - apply weak_sizes; try done. intros w Hw. sizes.
Qed.
Lemma queue_json_rest json : keeps rest_inv (queue_json json).
Proof. unfold queue_json. keep. Qed.
#[local] Hint Resolve queue_json_weak queue_json_rest : keep.

Lemma queue_formatted_weak size text : keeps weak (queue_formatted size text).
Proof. unfold queue_formatted. keep. Qed.
Lemma queue_formatted_rest size text : keeps rest_inv (queue_formatted size text).
Proof. unfold queue_formatted. keep. Qed.
#[local] Hint Resolve queue_formatted_weak queue_formatted_rest : keep.

Lemma queue_chat_request_weak peer : keeps weak (queue_chat_request peer).
Proof.
  unfold queue_chat_request.
  apply (triple_bind _ (λ b w, weak w ∧ len b = CHATD_SESSION_ID_BYTES)).
  - intros w Hw. unfold random, mbind, stateM_bind, env, gets, modify.
    pose proof (randombytes_len CHATD_SESSION_ID_BYTES (e_rng (w_env w)) ltac:(done)) as Hl.
    destruct (randombytes_buf _ _) as [b g]. split; [exact Hw|exact Hl].
  - intros b. apply (triple_bind _ (λ _, weak)).
    + intros w [(Hz & Hw) Hb]. split; [|exact Hw].
      assert (len (sodium_bin2hex b) = 32) by (rewrite bin2hex_len, Hb; done). sizes.
    + intros _. change (keeps weak (state ≫= λ st, queue_formatted 512
        (chat_request_json (id_username (d_identity st)) peer (d_ice_session_id st)
          (sodium_bin2hex (id_public_key (d_identity st)))))). keep.
Qed.
Lemma random_rest n : keeps rest_inv (random n).
Proof. unfold random. keep. Qed.
#[local] Hint Resolve random_rest : keep.
Lemma queue_chat_request_rest peer : keeps rest_inv (queue_chat_request peer).
Proof. unfold queue_chat_request. keep. Qed.
#[local] Hint Resolve queue_chat_request_weak queue_chat_request_rest : keep.

(** ** Life of a session *)

(** After a reset nothing of the session is left. *)
Lemma reset_spec :
  triple weak reset_ice_session (λ _ w, inv w ∧ d_ice_active (w_st w) = false).
Proof.
  intros w (Hz & Hf & Hc & Ho & Ha). unfold reset_ice_session.
  unfold mbind, stateM_bind, state, env, gets, modify.
  destruct (chat_ice_session_close (Some (d_ice (w_st w))) (e_nice (w_env w))) as [ice n] eqn:E.
  destruct (close_owns _ _ _ _ _ Ha E) as (s1 & -> & _ & Hag & Hown).
  cbn [default from_option id snd]. split; [|reflexivity].
  split; [split_and!|].
  - sizes.
  - exact Hf.
  - unfold crypto_inv. fields. cbn [reset_fields d_has_remote_identity_pk].
    split_and!; try done; intros; by split_and!.
  - split; [exact (proj1 Ho)|done].
  - exact Hown.
  - unfold rest_inv. fields. split; [|done]. intros _. by split_and!.
Qed.
Lemma reset_inv : triple weak reset_ice_session (λ _, inv).
Proof. intros w Hw. by apply reset_spec. Qed.
Lemma reset_keeps : keeps inv reset_ice_session.
Proof. intros w [Hw _]. by apply reset_inv. Qed.

Lemma weak_of_inv {B} (m : D B) Q : triple weak m Q → triple inv m Q.
Proof. intros Hm w [Hw _]. by apply Hm. Qed.

(** Operations of the two groups keep the whole invariant. *)
Lemma set_state_keeps next : keeps inv (chatd_set_session_state next).
Proof. apply inv_of; keep. Qed.
Lemma lookup_response_keeps prefix username : keeps inv (write_lookup_response prefix username).
Proof. apply inv_of; keep. Qed.
Lemma close_client_keeps : keeps inv close_lookup_client.
Proof. apply inv_of; keep. Qed.
Lemma queue_chat_request_keeps peer : keeps inv (queue_chat_request peer).
Proof. apply inv_of; keep. Qed.
Lemma queue_json_keeps json : keeps inv (queue_json json).
Proof. apply inv_of; keep. Qed.
Lemma queue_formatted_keeps size text : keeps inv (queue_formatted size text).
Proof. apply inv_of; keep. Qed.
#[local] Hint Resolve reset_keeps set_state_keeps lookup_response_keeps close_client_keeps
  queue_chat_request_keeps queue_json_keeps queue_formatted_keeps : keep.

(** A retry re-establishes the invariant; otherwise nothing has changed. *)
Lemma retry_spec :
  triple weak retry_outgoing_chat_session (λ r w, if r =? 0 then inv w else weak w).
Proof.
  unfold retry_outgoing_chat_session.
  eapply (triple_state _ (λ st w, weak w ∧ 0 ≤ d_chat_retry_count st)).
  { intros w Hw. split; [done|]. destruct Hw as ((_ & _ & _ & _ & _ & ? & _) & _). done. }
  intros st. case_if; [apply triple_ret; by intros w []|].
  destruct (snprintf _ _) as [peer|]; [|apply triple_ret; by intros w []].
  apply (triple_bind _ (λ _, weak)).
  { intros w [[Hz Hw] Hr]. split; [|exact Hw].
    assert (d_chat_retry_count st < CHATD_ICE_RETRY_MAX) by lia. sizes. }
  intros _. eapply triple_bind; [apply reset_inv|]. intros ?.
  apply (triple_bind _ (λ _, inv)); [apply set_state_keeps|]. intros _.
  apply (triple_bind _ (λ _, inv)); [apply queue_chat_request_keeps|]. intros queued.
  case_if; [|by apply triple_ret].
  apply (triple_bind _ (λ _, inv)); [apply lookup_response_keeps|]. intros _. by apply triple_ret.
Qed.

(** The client is told and let go. *)
Lemma tell_and_close_weak fd line :
  triple (λ w, weak w ∧ holding fd w)
    (_ ← write_ipc_line fd line; close_lookup_client) (λ _, weak).
Proof.
  eapply triple_bind; [apply write_keeps|]. intros ?.
  eapply triple_pre; [apply close_client_weak|]. by intros w [].
Qed.

Lemma fail_spec : triple weak fail_chat_session (λ _, inv).
Proof.
  unfold fail_chat_session. eapply triple_bind; [apply retry_spec|]. intros retried. cbn beta.
  case_if; [by apply triple_ret|].
  apply (triple_bind _ (λ _, weak)); [apply set_state_weak|]. intros _.
  eapply (triple_state _ (λ st w, weak w ∧ holding (d_lookup_client_fd st) w)).
  { intros w Hw. split; [done|by apply weak_client]. }
  intros st. apply (triple_bind _ (λ _, weak)); [|intros _; apply reset_inv].
  unfold when. case_if; [|apply triple_ret; by intros w []].
  repeat case_if; first [apply tell_and_close_weak |
    eapply triple_pre; [apply lookup_response_weak|]; by intros w []].
Qed.
Lemma fail_keeps : keeps inv fail_chat_session.
Proof. apply weak_of_inv, fail_spec. Qed.
#[local] Hint Resolve fail_keeps : keep.

(** A session starts with a peer whose key is pinned. *)
Definition pinned_key (peer pk : bytes) (w : world) : Prop :=
  len pk = crypto_sign_PUBLICKEYBYTES
  ∧ ∃ db, contacts_path getenv 1024 = inr db ∧ pinned db peer pk (e_os (w_env w)).

(** Keys and handshake of a state without a remote key. *)
Lemma clean_started st (w : world) :
  crypto_clean st →
  d_crypto_handshake (w_st w) = d_crypto_handshake st →
  d_crypto_keys_ready (w_st w) = d_crypto_keys_ready st →
  d_crypto_stream_header_sent (w_st w) = d_crypto_stream_header_sent st →
  d_crypto_stream_header_received (w_st w) = d_crypto_stream_header_received st →
  d_encrypted_session_ready (w_st w) = d_encrypted_session_ready st →
  d_has_remote_identity_pk (w_st w) = true → crypto_inv w.
Proof.
  intros (H1 & _ & _ & _ & _ & _ & H2 & H3 & H4 & H5) E1 E2 E3 E4 E5 E6.
  unfold crypto_inv. rewrite E1, E2, E3, E4, E5, E6, H1, H2, H3, H4, H5. by split_and!.
Qed.

(** The state of a session that is being started. *)
Definition starting (w : world) : Prop :=
  weak w ∧ hs_initialized (d_crypto_handshake (w_st w)) = false.

Lemma prepare_spec controlling pk :
  triple (λ w, weak w ∧ d_has_remote_identity_pk (w_st w) = false
               ∧ pinned_key (d_ice_peer (w_st w)) pk w)
    (prepare_session controlling pk) (λ _, starting).
Proof.
  intros w ((Hz & Hf & Hc & Ho & Ha) & Hr & Hpk & Hpin).
  assert (Hclean : crypto_clean (w_st w)) by by apply Hc.
  unfold prepare_session, mbind, stateM_bind, modify, state, gets. cbn [snd].
  split; [split_and!; [exact Hz|exact Hf| | |exact Ha]|].
  - by eapply (clean_started (w_st w)).
  - split; [exact (proj1 Ho)|]. intros _. by split.
  - change (hs_initialized (d_crypto_handshake (w_st w)) = false). by rewrite (proj1 Hclean).
Qed.

Lemma ice_start_spec controlling : triple starting (ice_start controlling) (λ _, starting).
Proof.
  intros w ((Hz & Hf & Hc & Ho & Ha) & Hi).
  unfold ice_start, mbind, stateM_bind, modify, state, env, gets.
  pose proof (start_keeps_agents _ controlling (Some (d_ice_config (w_st w))) _ _ Ha) as Hs.
  destruct (chat_ice_session_start _ _ _ _) as [[res ice] n].
  destruct Hs as (s1 & Hs1 & _ & Hown & Hok). cbn [fst snd] in *. subst ice.
  split; [|exact Hi]. split_and!; [exact Hz|exact Hf|exact Hc|exact Ho|exact Hown].
Qed.

Lemma start_ice_spec controlling pk :
  triple (λ w, weak w ∧ d_has_remote_identity_pk (w_st w) = false
               ∧ pinned_key (d_ice_peer (w_st w)) pk w)
    (start_ice controlling pk) (λ _, inv).
Proof.
  eapply triple_bind; [apply prepare_spec|]. intros ?.
  eapply triple_bind; [apply ice_start_spec|]. intros result. case_if.
  - eapply triple_bind; [eapply triple_pre; [apply fail_spec|by intros w []]|].
    intros ?. apply triple_ret. by intros.
  - apply (triple_bind _ (λ _, inv)).
    + intros w [Hw Hi]. split; [exact Hw|]. split; [done|].
      intros Hi'. change (hs_initialized (d_crypto_handshake (w_st w)) = true) in Hi'. congruence.
    + intros _. unfold time_now. keep.
Qed.

(** After the reset and before the key is stored. *)
Definition fresh_for (peer pk : bytes) (w : world) : Prop :=
  weak w ∧ d_has_remote_identity_pk (w_st w) = false ∧ pinned_key peer pk w.

Lemma snprintf_buf_len size s : 0 < size → len (snprintf_buf size s) < size.
Proof. intros. unfold snprintf_buf. rewrite len_ztake; lia. Qed.
Lemma snprintf_buf_fits size s : snprintf_fails size s = false → snprintf_buf size s = s.
Proof.
  intros E. pose proof (snprintf_eq size s (snprintf_buf size s)) as Hs.
  unfold snprintf in Hs. rewrite E in Hs. by apply Hs.
Qed.

Lemma set_peer_spec peer pk :
  triple (fresh_for peer pk) (d_ice_peer <~ snprintf_buf (CHAT_USERNAME_MAX_LEN + 1) peer)
    (λ _ w, fresh_for peer pk w
            ∧ d_ice_peer (w_st w) = snprintf_buf (CHAT_USERNAME_MAX_LEN + 1) peer).
Proof.
  intros w ((Hz & Hf & Hc & Ho & Ha) & Hr & Hp). split; [|done].
  split; [|split; [exact Hr|exact Hp]].
  pose proof (snprintf_buf_len (CHAT_USERNAME_MAX_LEN + 1) peer ltac:(done)).
  split_and!; [sizes|exact Hf|exact Hc| |exact Ha].
  split; [exact (proj1 Ho)|]. intros Hr'. change (d_has_remote_identity_pk (w_st w) = true) in Hr'.
  congruence.
Qed.

Lemma set_session_id_weak sid :
  keeps weak (d_ice_session_id <~ snprintf_buf CHATD_SESSION_ID_HEX_LEN sid).
Proof.
  apply weak_sizes; try done. intros w Hw.
  pose proof (snprintf_buf_len CHATD_SESSION_ID_HEX_LEN sid ltac:(done)). sizes.
Qed.

Lemma reset_keeps_pin peer pk : keeps (pinned_key peer pk) reset_ice_session.
Proof. unfold reset_ice_session. keep. Qed.
Lemma set_state_keeps_pin peer pk next : keeps (pinned_key peer pk) (chatd_set_session_state next).
Proof. unfold chatd_set_session_state. keep. Qed.

Lemma begin_ice_spec peer sid controlling pk :
  triple (λ w, inv w ∧ pinned_key peer pk w) (begin_ice_session peer sid controlling (Some pk))
    (λ _, inv).
Proof.
  apply (triple_bind _ (λ _, fresh_for peer pk)).
  { intros w [[Hw _] Hp]. destruct (reset_spec w Hw) as [[Hw' [Hr _]] Ha].
    split; [done|]. split; [by apply Hr|by apply reset_keeps_pin]. }
  intros _. apply (triple_bind _ (λ _, fresh_for peer pk)).
  { intros w (Hw & Hr & Hp). split; [by apply set_state_weak|].
    split; [|by apply set_state_keeps_pin]. revert Hr.
    apply (ltac:(unfold chatd_set_session_state; keep) :
      keeps (λ w, d_has_remote_identity_pk (w_st w) = false)
        (chatd_set_session_state CHATD_SESSION_ICE_NEGOTIATING)). }
  intros _. eapply triple_bind; [apply set_peer_spec|]. intros ?. case_if.
  - eapply triple_bind; [eapply triple_pre; [apply fail_spec|by intros w [[]]]|].
    intros ?. apply triple_ret. by intros.
  - apply (triple_bind _ (λ _ w, fresh_for peer pk w ∧ d_ice_peer (w_st w) = peer)).
    { intros w [(Hw & Hr & Hp) He]. rewrite snprintf_buf_fits in He by done.
      split; [|exact He]. split; [by apply set_session_id_weak|]. split; [exact Hr|exact Hp]. }
    intros ?. case_if.
    + eapply triple_bind; [eapply triple_pre; [apply fail_spec|by intros w [[]]]|].
      intros ?. apply triple_ret. by intros.
    + eapply triple_pre; [apply start_ice_spec|]. intros w [(Hw & Hr & Hp) He].
      by rewrite He.
Qed.

(** ** Signalling and packets *)

(** The session and the library may change as long as the agents do not. *)
Lemma set_ice_weak w ice :
  ice_agent ice = ice_agent (d_ice (w_st w)) → weak w →
  weak (set_field w_st (set_field d_ice (λ _, ice)) w).
Proof.
  intros Hi (Hz & Hf & Hc & Ho & Ha). split_and!; [exact Hz|exact Hf|exact Hc|exact Ho|].
  revert Ha. unfold agents_inv, owns, session_agents. fields. by rewrite Hi.
Qed.
Lemma set_ice_rest w ice :
  ice_agent ice = ice_agent (d_ice (w_st w)) → rest_inv w →
  rest_inv (set_field w_st (set_field d_ice (λ _, ice)) w).
Proof. intros Hi. unfold rest_inv. fields. by rewrite Hi. Qed.
Lemma set_nice_weak w n :
  nice_agents n = nice_agents (e_nice (w_env w)) → weak w →
  weak (set_field w_env (set_field e_nice (λ _, n)) w).
Proof.
  intros Hn (Hz & Hf & Hc & Ho & Ha). split_and!; [exact Hz|exact Hf|exact Hc|exact Ho|].
  by eapply owns_agents.
Qed.
Lemma set_ice_inv w ice :
  ice_agent ice = ice_agent (d_ice (w_st w)) → inv w →
  inv (set_field w_st (set_field d_ice (λ _, ice)) w).
Proof. intros Hi [Hw Hr]. split; [by apply set_ice_weak|by apply set_ice_rest]. Qed.
Lemma set_nice_inv w n :
  nice_agents n = nice_agents (e_nice (w_env w)) → inv w →
  inv (set_field w_env (set_field e_nice (λ _, n)) w).
Proof. intros Hn [Hw Hr]. split; [by apply set_nice_weak|exact Hr]. Qed.

Lemma remote_sdp_agents s sdp n res ice n' :
  chat_ice_session_set_remote_sdp (Some s) (Some sdp) n = (res, ice, n') →
  ice_agent (default s ice) = ice_agent s ∧ nice_agents n' = nice_agents n.
Proof.
  cbn. destruct (ice_agent s) as [a|] eqn:Ea; [|intros [= <- <- <-]; done].
  pose proof (parse_sdp_agents n a sdp) as Hp.
  destruct (nice_agent_parse_remote_sdp a sdp n) as [added n1]. cbn [snd] in Hp.
  repeat case_if; intros [= <- <- <-]; done.
Qed.

Lemma apply_sdp_keeps sdp : keeps inv (apply_remote_ice_sdp sdp).
Proof.
  intros w Hw. unfold apply_remote_ice_sdp, mbind, stateM_bind, modify, state, env, gets.
  destruct (chat_ice_session_set_remote_sdp _ _ _) as [[res ice] n] eqn:E.
  destruct (remote_sdp_agents _ _ _ _ _ _ E) as [Hi Hn].
  assert (Hw2 : inv (set_field w_env (set_field e_nice (λ _, n))
    (set_field w_st (set_field d_ice (λ _, default (d_ice (w_st w)) ice)) w)))
    by (apply set_nice_inv; [done|]; by apply set_ice_inv).
  case_if; [|exact Hw2]. by apply set_ice_inv.
Qed.

Lemma send_packet_agents s data n res n' :
  chat_ice_send (Some s) data n = (res, n') → nice_agents n' = nice_agents n.
Proof.
  cbn. destruct data as [data|]; [|by intros [= <- <-]].
  destruct (ice_agent s) as [a|]; [|by intros [= <- <-]]. case_if; [by intros [= <- <-]|].
  pose proof (send_agents n a (ice_stream_id s) (ice_component_id s) data) as Hs.
  destruct (nice_agent_send _ _ _ _ _) as [sent n1]. cbn [snd] in Hs.
  case_if; by intros [= <- <-].
Qed.

Lemma send_packet_weak type payload n : keeps weak (send_ice_packet type payload n).
Proof.
  unfold send_ice_packet. case_if; [keep|]. case_if; [keep|].
  destruct (chat_packet_encode_header _ _ _) as [[] [packet|]]; try solve [keep].
  intros w Hw. unfold mbind, stateM_bind, modify, state, env, gets.
  destruct (chat_ice_send _ _ _) as [res n'] eqn:Es. apply send_packet_agents in Es.
  case_if; by apply set_nice_weak.
Qed.
Lemma send_packet_rest type payload n : keeps rest_inv (send_ice_packet type payload n).
Proof. unfold send_ice_packet. keep. Qed.
#[local] Hint Resolve apply_sdp_keeps send_packet_weak send_packet_rest : keep.
Lemma send_packet_keeps type payload n : keeps inv (send_ice_packet type payload n).
Proof. apply inv_of; keep. Qed.
#[local] Hint Resolve send_packet_keeps : keep.

Lemma local_sdp_keeps : keeps inv queue_local_ice_sdp.
Proof. unfold queue_local_ice_sdp. keep. Qed.

Lemma ice_credentials_keeps json : keeps inv (handle_ice_credentials json).
Proof.
  unfold handle_ice_credentials.
  apply (triple_state _ (λ st w, inv w ∧ w_st w = st)); [done|]. intros st.
  destruct (parse_ice_credentials st json) as [sdp|]; [|apply triple_ret; by intros w []].
  case_if; [|eapply triple_pre; [apply apply_sdp_keeps|by intros w []]].
  apply (triple_bind _ (λ _ w, inv w ∧ d_ice (w_st w) = d_ice st)).
  { intros w [Hw <-]. split; [exact Hw|reflexivity]. }
  intros ?. case_if.
  - apply (triple_bind _ (λ _, inv)); [|intros; keep].
    intros w [Hw <-]. by apply set_ice_inv.
  - eapply triple_pre; [|by intros w [Hw _]; exact Hw]. keep.
Qed.
#[local] Hint Resolve local_sdp_keeps ice_credentials_keeps : keep.
End keep.

#[export] Hint Resolve write_rest response_rest close_client_weak close_client_rest
  lookup_response_weak lookup_response_rest set_state_weak set_state_rest queue_json_weak
  queue_json_rest queue_formatted_weak queue_formatted_rest random_rest queue_chat_request_weak
  queue_chat_request_rest reset_keeps set_state_keeps lookup_response_keeps close_client_keeps
  queue_chat_request_keeps queue_json_keeps queue_formatted_keeps fail_keeps apply_sdp_keeps
  send_packet_weak send_packet_rest send_packet_keeps local_sdp_keeps ice_credentials_keeps : keep.
