(* ===== verification/DaemonKeepSession.v ===== *)
(** * The daemon's session keeps its invariants

    Handshake, encrypted packets and the service of the session. *)

From S2P Require Import Prelude CLib Protocol Sodium Base64 Json Identity FileSys Contacts Ipc.
From S2P Require Import Crypto Ice StateMonad DaemonState DaemonSession Daemon DaemonInv.
From S2P Require Import DaemonKeep.

Section keep.
Context `{LibsOk} (X : gset Z) (A : gset agent_t).
Abbreviation weak := (chatd_weak X A).
Abbreviation inv := (chatd_inv X A).

Lemma keeps_time (I : world → Prop) :
  (∀ w f, I w → I (set_field w_env (set_field e_ticks f) w)) → keeps I time_now.
Proof. intros HI w Hw. by apply HI. Qed.

(** ** Writing to the client *)

Lemma write_inv fd line :
  triple (λ w, inv w ∧ holding fd w) (write_ipc_line fd line) (λ _ w, inv w ∧ holding fd w).
Proof.
  intros w [[Hw Hr] Hh]. destruct (write_keeps X A fd line w (conj Hw Hh)) as [Hw' Hh'].
  split; [|done]. split; [done|]. by apply write_rest.
Qed.
Lemma response_inv fd text :
  triple (λ w, inv w ∧ holding fd w) (write_response fd text) (λ _ w, inv w ∧ holding fd w).
Proof.
  intros w [[Hw Hr] Hh]. destruct (response_keeps X A fd text w (conj Hw Hh)) as [Hw' Hh'].
  split; [|done]. split; [done|]. by apply response_rest.
Qed.

(** Reading the state to write to its client. *)
Lemma inv_state_client {B} (k : chatd_state_t → D B) Q :
  (∀ st, triple (λ w, inv w ∧ holding (d_lookup_client_fd st) w) (k st) Q) →
  triple inv (state ≫= k) Q.
Proof.
  intros Hk. apply (triple_state _ (λ st w, inv w ∧ holding (d_lookup_client_fd st) w)); [|done].
  intros w Hw. split; [done|by eapply inv_client].
Qed.
Lemma drop_holding {B} fd (m : D B) (Q : B → world → Prop) :
  triple inv m Q → triple (λ w, inv w ∧ holding fd w) m Q.
Proof. intros Hm w [Hw _]. by apply Hm. Qed.

Lemma write_message_keeps text : keeps inv (write_chat_message_to_cli text).
Proof.
  unfold write_chat_message_to_cli. apply inv_state_client. intros st.
  case_if; [apply triple_ret; by intros w []|]. case_if; [apply triple_ret; by intros w []|].
  destruct (snprintf _ _); [|apply triple_ret; by intros w []].
  eapply triple_conseq; [apply write_inv|done|]. by intros ? w [].
Qed.

Lemma peer_closed_keeps : keeps inv peer_closed.
Proof.
  unfold peer_closed. apply keeps_bind; [keep|intros _].
  apply inv_state_client. intros st. apply (triple_bind _ (λ _, inv)).
  - unfold when. case_if; [|apply triple_ret; by intros w []].
    eapply triple_bind; [apply response_inv|]. intros ?. apply drop_holding. keep.
  - intros _. keep.
Qed.

(** ** The encrypted stream *)

Lemma ready_has_key w :
  weak w → d_crypto_keys_ready (w_st w) = true → d_has_remote_identity_pk (w_st w) = true.
Proof.
  intros (_ & _ & (Hc & _) & _) Hk. destruct (d_has_remote_identity_pk (w_st w)); [done|].
  destruct (Hc eq_refl) as (_ & _ & _ & _ & _ & _ & Hk' & _). congruence.
Qed.
Lemma session_has_keys w :
  weak w → d_encrypted_session_ready (w_st w) = true → d_crypto_keys_ready (w_st w) = true.
Proof.
  intros (_ & _ & (_ & _ & _ & Hs & _ & Hr) & _) He. destruct (Hr He) as [Hsent _].
  by apply Hs.
Qed.

(** A new stream state with the same directions open. *)
Lemma set_stream_inv w stream :
  d_crypto_keys_ready (w_st w) = true →
  (st_push_initialized (d_crypto_stream (w_st w)) = true → st_push_initialized stream = true) →
  (st_pull_initialized (d_crypto_stream (w_st w)) = true → st_pull_initialized stream = true) →
  inv w → inv (set_field w_st (set_field d_crypto_stream (λ _, stream)) w).
Proof.
  intros Hk Hpush Hpull [Hweak Hr]. pose proof (ready_has_key w Hweak Hk) as Hkey.
  destruct Hweak as (Hz & Hf & (H1 & H2 & H3 & H4 & H5 & H6) & Ho & Ha).
  split; [|exact Hr]. split_and!; [exact Hz|exact Hf| |exact Ho|exact Ha].
  unfold crypto_inv. fields. split_and!; [by rewrite Hkey|exact H2|exact H3| | |exact H6].
  - intros Hs. destruct (H4 Hs). auto.
  - intros Hs. destruct (H5 Hs). auto.
Qed.

Lemma encrypt_flags s m n fin out l res s' c' l' :
  chat_crypto_secretstream_encrypt (Some s) m n fin out l = (res, s', c', l') →
  st_push_initialized (default s s') = st_push_initialized s
  ∧ st_pull_initialized (default s s') = st_pull_initialized s.
Proof.
  cbn. destruct out, l; try (intros [= <- <- <- <-]; done).
  repeat case_if; try (intros [= <- <- <- <-]; done).
  all: destruct (secretstream_push _ _ _) as [[? ?]|]; by intros [= <- <- <- <-].
Qed.
Lemma decrypt_flags s c out l t res s' m' l' t' :
  chat_crypto_secretstream_decrypt (Some s) c out l t = (res, s', m', l', t') →
  st_push_initialized (default s s') = st_push_initialized s
  ∧ st_pull_initialized (default s s') = st_pull_initialized s.
Proof.
  cbn. destruct c, out, l, t; try (intros [= <- <- <- <- <-]; done).
  repeat case_if; try (intros [= <- <- <- <- <-]; done).
  destruct (secretstream_pull _ _) as [[[? ?] ?]|]; by intros [= <- <- <- <- <-].
Qed.

Lemma send_payload_keeps type m n fin : keeps inv (send_encrypted_chat_payload type m n fin).
Proof.
  unfold send_encrypted_chat_payload.
  apply (triple_state _ (λ st w, inv w ∧ w_st w = st)); [done|]. intros st.
  case_if; [apply triple_ret; by intros w []|]. bdec.
  destruct (chat_crypto_secretstream_encrypt _ _ _ _ _ _) as [[[res s'] c'] l'] eqn:Ee.
  apply encrypt_flags in Ee as [E1 E2].
  apply (triple_bind _ (λ _, inv)); [|intros _; keep].
  intros w [Hw <-]. apply set_stream_inv; [|by rewrite E1|by rewrite E2|done].
  apply session_has_keys; [apply Hw|done].
Qed.

Lemma send_message_keeps text n : keeps inv (send_encrypted_chat_message text n).
Proof. unfold send_encrypted_chat_message. case_if; [keep|apply send_payload_keeps]. Qed.
Lemma send_close_keeps : keeps inv send_encrypted_chat_close.
Proof.
  unfold send_encrypted_chat_close. apply keeps_bind; [keep|intros _; apply send_payload_keeps].
Qed.
#[local] Hint Resolve write_message_keeps peer_closed_keeps : keep.

Lemma decrypt_keeps type payload :
  triple (λ w, inv w ∧ d_encrypted_session_ready (w_st w) = true)
    (decrypt_chat_payload type payload) (λ _, inv).
Proof.
  unfold decrypt_chat_payload.
  apply (triple_state _ (λ st w, (inv w ∧ d_encrypted_session_ready st = true) ∧ w_st w = st)).
  { intros w Hw. done. }
  intros st. destruct (chat_crypto_secretstream_decrypt _ _ _ _ _) as [[[[res s'] m'] l'] t'] eqn:Ed.
  apply decrypt_flags in Ed as [E1 E2].
  apply (triple_bind _ (λ _, inv)); [|intros _; keep].
  intros w [[Hw He] <-]. apply set_stream_inv; [|by rewrite E1|by rewrite E2|done].
  apply session_has_keys; [apply Hw|done].
Qed.

(** ** Handshake *)

(** The first half of [rest_inv]. *)
Definition idle_inv (w : world) : Prop :=
  d_ice_active (w_st w) = false →
  d_has_remote_identity_pk (w_st w) = false
  ∧ d_remote_identity_pk (w_st w) = zeros crypto_sign_PUBLICKEYBYTES
  ∧ ice_agent (d_ice (w_st w)) = None.

(** The handshake that a call of [chat_crypto_handshake_init] leaves. *)
Lemma handshake_init_result hs idn pk role sid msg g res hs' msg' g' :
  chat_crypto_handshake_init (Some hs) (Some idn) (Some pk) role (Some sid) (Some msg) g
    = (res, hs', msg', g') →
  default hs hs' = hs ∨ default hs hs' = zero_handshake
  ∨ (hs_remote_identity_pk (default hs hs') = pk
     ∧ hs_local_identity_pk (default hs hs') = id_public_key idn).
Proof.
  unfold chat_crypto_handshake_init. repeat case_if; try (intros [= <- <- <- <-]; by left).
  destruct (crypto_kx_keypair g) as [[[kpk ksk]|] g1];
    [|intros [= <- <- <- <-]; by right; left].
  destruct (chat_crypto_transcript_hash _ _ _ _ _); [intros [= <- <- <- <-]; by right; left|].
  destruct (crypto_sign_detached _ _); intros [= <- <- <- <-]; [by right; right|by right; left].
Qed.

(** A handshake may be created while there is a remote key. *)
Definition creating (w : world) : Prop :=
  weak w ∧ idle_inv w ∧ d_has_remote_identity_pk (w_st w) = true.

Lemma create_handshake_spec :
  triple (λ w, inv w ∧ d_has_remote_identity_pk (w_st w) = true) create_handshake
    (λ _, creating).
Proof.
  intros w [[Hweak [Hr1 Hr2]] Hkey]. unfold create_handshake, mbind, stateM_bind, state, gets.
  destruct (d_crypto_handshake_sent (w_st w)) eqn:Hs; [by split_and!|].
  unfold env, gets, modify.
  destruct (chat_crypto_handshake_init _ _ _ _ _ _ _) as [[[res hs'] msg'] g'] eqn:E.
  apply handshake_init_result in E. run.
  split; [|split; [exact Hr1|exact Hkey]].
  destruct Hweak as (Hz & Hf & (H1 & H2 & H3 & H4 & H5 & H6) & Ho & Ha).
  split_and!; [exact Hz|exact Hf| |exact Ho|exact Ha].
  unfold crypto_inv. fields. split_and!; [by rewrite Hkey| |intros Hk|exact H4|exact H5|exact H6].
  - destruct E as [->|[->|[-> ->]]]; [exact H2|done|done].
  - destruct (H3 Hk). congruence.
Qed.

Lemma handshake_marked_sent :
  triple creating (d_crypto_handshake_sent <~ true) (λ _, inv).
Proof.
  intros w ((Hz & Hf & (H1 & H2 & H3 & H4 & H5 & H6) & Ho & Ha) & Hi & Hkey).
  split; [|split; [exact Hi|done]]. split_and!; [exact Hz|exact Hf| |exact Ho|exact Ha].
  unfold crypto_inv. run. fields.
  split_and!; [by rewrite Hkey|exact H2| |exact H4|exact H5|exact H6].
  intros Hk. by destruct (H3 Hk) as [_ ?].
Qed.

Lemma send_packet_creating type payload n b :
  keeps (λ w, creating w ∧ d_crypto_handshake_sent (w_st w) = b) (send_ice_packet type payload n).
Proof.
  intros w [(Hw & Hi & Hk) Hb].
  assert (Hkeep : keeps (λ w, idle_inv w ∧ d_has_remote_identity_pk (w_st w) = true
      ∧ d_crypto_handshake_sent (w_st w) = b) (send_ice_packet type payload n))
    by (unfold send_ice_packet; keep).
  destruct (Hkeep w (conj Hi (conj Hk Hb))) as (Hi' & Hk' & Hb').
  split; [|done]. split; [by apply send_packet_weak|done].
Qed.

Lemma start_handshake_spec :
  triple (λ w, inv w ∧ d_has_remote_identity_pk (w_st w) = true) start_crypto_handshake
    (λ r w, if r =? 0 then inv w else weak w).
Proof.
  unfold start_crypto_handshake.
  apply (triple_bind _ (λ _ w, inv w ∧ d_has_remote_identity_pk (w_st w) = true)).
  { apply (triple_frame inv (λ w, d_has_remote_identity_pk (w_st w) = true)
      (chatd_set_session_state _) (λ _, inv)); [keep|].
    unfold chatd_set_session_state. keep. }
  intros _. eapply triple_bind; [apply create_handshake_spec|]. intros created. cbn beta.
  case_if; [apply triple_ret; by intros w []|].
  apply (triple_state _ (λ st w, creating w
           ∧ d_crypto_handshake_sent (w_st w) = d_crypto_handshake_sent st)); [done|].
  intros st. eapply triple_bind; [apply send_packet_creating|]. intros sent. cbn beta.
  case_if; [apply triple_ret; by intros w [[]]|].
  apply triple_time; [done|]. intros now.
  apply (triple_bind _ (λ _ w, creating w
           ∧ d_crypto_handshake_sent (w_st w) = d_crypto_handshake_sent st));
    [by intros w Hw; exact Hw|].
  intros _. destruct (d_crypto_handshake_sent st).
  - apply triple_ret. intros w [(Hw & Hi & _) Hs]. split; [done|]. by split.
  - apply (triple_bind _ (λ _, inv)); [|intros _; by apply triple_ret].
    eapply triple_pre; [apply handshake_marked_sent|]. by intros w [].
Qed.

(** What a call of [chat_crypto_handshake_finish] leaves. *)
Lemma handshake_finish_result hs message keys res hs' keys' :
  chat_crypto_handshake_finish (Some hs) (Some message) (Some keys) = (res, hs', keys') →
  (res ≠ CHAT_CRYPTO_OK ∧ default hs hs' = hs ∧ default keys keys' = keys)
  ∨ hs_initialized hs = true
    ∧ (res ≠ CHAT_CRYPTO_OK ∧ default hs hs' = handshake_spent hs (hs_finished hs)
       ∨ res = CHAT_CRYPTO_OK ∧ default hs hs' = handshake_spent hs true
         ∧ handshake_evidence (handshake_spent hs true) (default keys keys')).
Proof.
  unfold chat_crypto_handshake_finish. case_if; [intros [= <- <- <-]; by left|]. bdec.
  destruct (chat_crypto_transcript_hash _ _ _ _ _) as [e|hash] eqn:Eh.
  { intros [= <- <- <-]. left. split; [|done]. intros ->. by apply transcript_hash_inl in Eh. }
  case_if; [intros [= <- <- <-]; by left|].
  match goal with |- context [match ?x with Some _ => _ | None => _ end] =>
    destruct x as [[rx tx]|] eqn:Ek end; intros [= <- <- <-]; right; (split; [done|]); [right|by left].
  split; [done|]. split; [done|]. exists message, (hs_local_kx_sk hs), hash. by split_and!.
Qed.

Lemma finish_spec payload :
  triple (λ w, inv w ∧ d_crypto_keys_ready (w_st w) = false) (finish_crypto_handshake payload)
    (λ _, inv).
Proof.
  intros w [[Hweak [Hr1 Hr2]] Hnk].
  unfold finish_crypto_handshake, mbind, stateM_bind, state, gets, modify.
  destruct (chat_crypto_handshake_finish _ _ _) as [[res hs'] keys'] eqn:E.
  apply handshake_finish_result in E.
  destruct Hweak as (Hz & Hf & (H1 & H2 & H3 & H4 & H5 & H6) & Ho & Ha).
  destruct E as [(Hres & -> & ->)|(Hi & Hcase)].
  - rewrite bool_decide_false by done. cbn [negb]. split; [|by split]. by split_and!.
  - assert (Hkey : d_has_remote_identity_pk (w_st w) = true).
    { destruct (d_has_remote_identity_pk (w_st w)); [done|]. destruct (H1 eq_refl) as [Hz' _].
      by rewrite Hz' in Hi. }
    destruct Hcase as [(Hres & ->)|(-> & -> & Hev)].
    + rewrite bool_decide_false by done. cbn [negb]. split; [|split; [exact Hr1|exact Hr2]].
      split_and!; [exact Hz|exact Hf| |exact Ho|exact Ha].
      unfold crypto_inv. run. fields.
      split_and!; [by rewrite Hkey|exact H2|congruence|exact H4|exact H5|exact H6].
    + rewrite bool_decide_true by done. cbn [negb]. split; [|split; [exact Hr1|exact Hr2]].
      split_and!; [exact Hz|exact Hf| |exact Ho|exact Ha].
      unfold crypto_inv. run. fields.
      split_and!; [by rewrite Hkey|exact H2| | | |exact H6].
      * intros _. split_and!; [by apply Hr2|exact Hi|done|exact Hev].
      * intros Hs. destruct (H4 Hs). congruence.
      * intros Hs. destruct (H5 Hs). congruence.
Qed.

(** ** Stream headers *)

Lemma init_push_result s tx hdr g res s' hdr' g' :
  chat_crypto_secretstream_init_push (Some s) (Some tx) (Some hdr) g = (res, s', hdr', g') →
  st_pull_initialized (default s s') = st_pull_initialized s
  ∧ (st_push_initialized s = true → st_push_initialized (default s s') = true)
  ∧ (res = CHAT_CRYPTO_OK → st_push_initialized (default s s') = true).
Proof.
  cbn. destruct (secretstream_init_push tx g) as [[[? ?]|] ?]; by intros [= <- <- <- <-].
Qed.
Lemma init_pull_result s rx hdr res s' :
  chat_crypto_secretstream_init_pull (Some s) (Some rx) (Some hdr) = (res, s') →
  st_push_initialized (default s s') = st_push_initialized s
  ∧ (st_pull_initialized s = true → st_pull_initialized (default s s') = true)
  ∧ (res = CHAT_CRYPTO_OK → st_pull_initialized (default s s') = true).
Proof. cbn. destruct (secretstream_init_pull hdr rx); by intros [= <- <-]. Qed.

(** Keys are there, and the sending direction is open. *)
Definition keyed (w : world) : Prop := inv w ∧ d_crypto_keys_ready (w_st w) = true.
Definition pushing (w : world) : Prop :=
  keyed w ∧ st_push_initialized (d_crypto_stream (w_st w)) = true.

Lemma create_header_spec :
  triple keyed create_stream_header (λ r w, if (r : bool) then pushing w else inv w).
Proof.
  intros w [Hw Hk]. unfold create_stream_header. run.
  destruct (d_crypto_stream_header_sent (w_st w)) eqn:Hs.
  { split; [done|]. destruct Hw as [(_ & _ & (_ & _ & _ & H4 & _) & _) _]. by apply H4. }
  destruct (chat_crypto_secretstream_init_push _ _ _ _) as [[[res s'] hdr'] g'] eqn:E.
  destruct (init_push_result _ _ _ _ _ _ _ _ E) as (E1 & E2 & E3).
  assert (Hst : inv (set_field w_st (set_field d_crypto_stream
      (λ _, default (d_crypto_stream (w_st w)) s')) w)).
  { apply set_stream_inv; [done|done|by rewrite E1|done]. }
  assert (Hpush : ∀ w', inv w' → d_crypto_keys_ready (w_st w') = true →
    inv (set_field w_st (set_field d_crypto_local_stream_header
      (λ _, default (d_crypto_local_stream_header (w_st w)) hdr')) w')).
  { intros w' [Hweak Hr] Hk'. pose proof (ready_has_key w' Hweak Hk') as Hkey.
    destruct Hweak as (Hz & Hf & (H1 & Hc) & Ho & Ha). split; [|exact Hr].
    split_and!; [exact Hz|exact Hf| |exact Ho|exact Ha]. split; [|exact Hc].
    fields. by rewrite Hkey. }
  pose proof (Hpush _ Hst Hk) as Hfin.
  destruct (decide (res = CHAT_CRYPTO_OK)) as [->|Hres].
  - rewrite bool_decide_true by done. split; [split; [exact Hfin|exact Hk]|]. by apply E3.
  - rewrite bool_decide_false by done. exact Hfin.
Qed.

Lemma send_packet_pushing type payload n : keeps pushing (send_ice_packet type payload n).
Proof.
  intros w [[Hw Hk] Hp].
  assert (Hkeep : keeps (λ w, d_crypto_keys_ready (w_st w) = true
      ∧ st_push_initialized (d_crypto_stream (w_st w)) = true) (send_ice_packet type payload n))
    by (unfold send_ice_packet; keep).
  destruct (Hkeep w (conj Hk Hp)) as [Hk' Hp']. split; [split|]; [|done|done].
  by apply send_packet_keeps.
Qed.

Lemma header_marked_sent : triple pushing (d_crypto_stream_header_sent <~ true) (λ _, inv).
Proof.
  intros w [[[Hweak Hr] Hk] Hp]. pose proof (ready_has_key w Hweak Hk) as Hkey.
  destruct Hweak as (Hz & Hf & (H1 & H2 & H3 & H4 & H5 & H6) & Ho & Ha). run.
  split; [|exact Hr]. split_and!; [exact Hz|exact Hf| |exact Ho|exact Ha].
  unfold crypto_inv. fields. split_and!; [by rewrite Hkey|exact H2|exact H3|done|exact H5|].
  intros He. split; [done|]. by apply H6.
Qed.

Lemma send_header_spec : triple keyed send_stream_header (λ _, inv).
Proof.
  unfold send_stream_header. eapply triple_bind; [apply create_header_spec|].
  intros []; cbn [negb]; [|by apply triple_ret].
  apply (triple_state _ (λ _, pushing)); [done|]. intros st.
  apply (triple_bind _ (λ _, pushing)); [apply send_packet_pushing|]. intros sent.
  case_if; [apply triple_ret; by intros w [[]]|].
  apply triple_time; [done|]. intros now.
  apply (triple_bind _ (λ _, pushing)); [by intros w Hw; exact Hw|]. intros _.
  case_if; [apply triple_ret; by intros w [[]]|].
  eapply triple_bind; [apply header_marked_sent|]. intros ?. by apply triple_ret.
Qed.

Lemma receive_header_spec payload : triple keyed (receive_stream_header payload) (λ _, inv).
Proof.
  intros w [Hw Hk]. unfold receive_stream_header. run.
  destruct (chat_crypto_secretstream_init_pull _ _ _) as [res s'] eqn:E.
  destruct (init_pull_result _ _ _ _ _ E) as (E1 & E2 & E3).
  assert (Hst : inv (set_field w_st (set_field d_crypto_stream
      (λ _, default (d_crypto_stream (w_st w)) s')) w)).
  { apply set_stream_inv; [done|by rewrite E1|done|done]. }
  case_if; [exact Hst|]. subst res. specialize (E3 eq_refl).
  destruct Hst as [Hweak Hr].
  pose proof (ready_has_key _ Hweak Hk) as Hkey.
  destruct Hweak as (Hz & Hf & (H1 & H2 & H3 & H4 & H5 & H6) & Ho & Ha).
  split; [|exact Hr]. split_and!; [exact Hz|exact Hf| |exact Ho|exact Ha].
  unfold crypto_inv. run. fields.
  split_and!; [by rewrite Hkey|exact H2|exact H3|exact H4|done|].
  intros He. split; [by apply H6|done].
Qed.

(** ** Received packets *)

Lemma handshake_packet_keeps n payload : keeps inv (handle_handshake_packet n payload).
Proof.
  unfold handle_handshake_packet.
  apply (triple_state _ (λ st w, inv w ∧ d_crypto_keys_ready (w_st w) = d_crypto_keys_ready st));
    [done|]. intros st.
  case_if; [apply triple_ret; by intros w []|]. case_if; [apply triple_ret; by intros w []|].
  destruct (d_crypto_keys_ready st); [apply triple_ret; by intros w []|]. apply finish_spec.
Qed.

Lemma header_packet_keeps n payload : keeps inv (handle_stream_header_packet n payload).
Proof.
  unfold handle_stream_header_packet.
  apply (triple_state _ (λ st w, inv w ∧ d_crypto_keys_ready (w_st w) = d_crypto_keys_ready st));
    [done|]. intros st.
  case_if; [apply triple_ret; by intros w []|]. case_if; [apply triple_ret; by intros w []|].
  destruct (d_crypto_keys_ready st); cbn [negb]; [|apply triple_ret; by intros w []].
  case_if; [apply triple_ret; by intros w []|]. apply receive_header_spec.
Qed.

Lemma chat_packet_keeps type n payload : keeps inv (handle_chat_packet type n payload).
Proof.
  unfold handle_chat_packet.
  apply (triple_state _ (λ st w, inv w
           ∧ d_encrypted_session_ready (w_st w) = d_encrypted_session_ready st)); [done|].
  intros st. case_if; [apply triple_ret; by intros w []|]. bdec.
  eapply triple_pre; [apply decrypt_keeps|]. intros w [Hw He]. by rewrite He.
Qed.
#[local] Hint Resolve handshake_packet_keeps header_packet_keeps chat_packet_keeps : keep.

Lemma app_packet_keeps packet : keeps inv (handle_ice_app_packet packet).
Proof. unfold handle_ice_app_packet. keep. Qed.
#[local] Hint Resolve app_packet_keeps : keep.

Lemma take_received_agent s buf res ice out n :
  chat_ice_take_received (Some s) (Some buf) = (res, ice, out, n) →
  ice_agent (default s ice) = ice_agent s.
Proof. cbn. repeat case_if; by intros [= <- <- <- <-]. Qed.

Lemma process_packet_keeps : keeps inv process_received_ice_packet.
Proof.
  unfold process_received_ice_packet.
  apply (triple_state _ (λ st w, inv w ∧ w_st w = st)); [done|]. intros st.
  destruct (chat_ice_take_received _ _) as [[[res ice] out] n] eqn:E.
  apply take_received_agent in E.
  apply (triple_bind _ (λ _, inv)); [|intros _; keep].
  intros w [Hw <-]. by apply set_ice_inv.
Qed.
#[local] Hint Resolve process_packet_keeps : keep.

(** ** Service *)

Lemma drain_keeps n : keeps inv (crypto_drain n).
Proof. induction n as [|n IH]; cbn [crypto_drain]; keep. Qed.

Lemma establish_keeps : keeps inv establish_session.
Proof.
  unfold establish_session.
  apply (triple_state _ (λ st w, (inv w ∧ holding (d_lookup_client_fd st) w) ∧ w_st w = st)).
  { intros w Hw. split; [|done]. split; [done|by eapply inv_client]. }
  intros st. unfold when. case_if; [|apply triple_ret; by intros w [[]]]. bdec.
  apply (triple_bind _ (λ _ w, inv w ∧ holding (d_lookup_client_fd st) w)).
  { intros w [[[Hweak Hr] Hh] <-]. split; [|exact Hh]. run.
    pose proof (ready_has_key w Hweak ltac:(done)) as Hkey.
    destruct Hweak as (Hz & Hf & (C1 & C2 & C3 & C4 & C5 & C6) & Ho & Ha).
    split; [|exact Hr]. split_and!; [exact Hz|exact Hf| |exact Ho|exact Ha].
    unfold crypto_inv. fields.
    by split_and!; [rewrite Hkey|exact C2|exact C3|exact C4|exact C5|]. }
  intros _. apply (triple_bind _ (λ _ w, inv w ∧ holding (d_lookup_client_fd st) w)).
  { apply triple_frame; [apply set_state_keeps|]. unfold chatd_set_session_state. keep. }
  intros _. case_if; [|apply triple_ret; by intros w []].
  eapply triple_conseq; [apply response_inv|done|]. by intros ? w [].
Qed.

(** A step that can fail, then the rest. *)
Lemma or_fail_spec (P Q : world → Prop) step rest :
  triple P step (λ r w, if r =? 0 then Q w else weak w) → triple Q rest (λ _, inv) →
  triple P (or_fail step rest) (λ _, inv).
Proof.
  intros Hs Hr. unfold or_fail. eapply triple_bind; [exact Hs|]. intros r. cbn beta.
  destruct (r =? 0); cbn [negb]; [exact Hr|apply fail_spec].
Qed.
Lemma or_fail_keeps step rest :
  keeps inv step → keeps inv rest → keeps inv (or_fail step rest).
Proof.
  intros Hs Hr. eapply (or_fail_spec inv inv); [|done].
  eapply triple_conseq; [exact Hs|done|]. intros r w Hw. case_if; [done|apply Hw].
Qed.

Lemma crypto_session_keeps : keeps inv service_crypto_session.
Proof.
  unfold service_crypto_session.
  apply (triple_state _ (λ st w, inv w
    ∧ d_has_remote_identity_pk (w_st w) = d_has_remote_identity_pk st)); [done|]. intros st.
  case_if; [apply triple_ret; by intros w []|].
  case_if; [eapply triple_pre; [apply drain_keeps|by intros w []]|].
  apply triple_time; [done|]. intros now.
  destruct (d_has_remote_identity_pk st); cbn [negb];
    [|eapply triple_pre; [apply fail_keeps|by intros w []]].
  case_if; [eapply triple_pre; [apply fail_keeps|by intros w []]|].
  apply (or_fail_spec _ inv).
  { case_if; [apply start_handshake_spec|]. apply triple_ret. by intros w []. }
  apply or_fail_keeps; [apply process_packet_keeps|].
  apply (triple_state _ (λ st w, inv w
    ∧ d_crypto_keys_ready (w_st w) = d_crypto_keys_ready st)); [done|]. intros st'.
  apply (or_fail_spec _ inv).
  { case_if; [|apply triple_ret; by intros w []]. bdec.
    eapply triple_conseq; [apply send_header_spec| |].
    - intros w [Hw Hk]. split; [done|congruence].
    - intros r w Hw. case_if; [done|apply Hw]. }
  apply or_fail_keeps; [apply process_packet_keeps|apply establish_keeps].
Qed.

(** The library does not release agents on its own. *)
Definition ice_event_ok (ev : ice_event) : Prop :=
  match ev with
  | IceLibrary f => ∀ n, nice_agents (f n) = nice_agents n
  | _ => True
  end.

Lemma callback_agents ev s n :
  match ev with
  | IceGatheringDone stream_id =>
      ice_agent (default s (on_candidate_gathering_done stream_id (Some s))) = ice_agent s
  | IceStateChanged agent stream_id component_id q =>
      ice_agent (default s (on_component_state_changed agent stream_id component_id q (Some s) n))
        = ice_agent s
  | IceRecv buf => ice_agent (default s (on_recv buf (Some s))) = ice_agent s
  | IceLibrary _ => True
  end.
Proof.
  destruct ev as [stream_id|agent stream_id component_id []|[buf|]|f]; cbn; try done;
    repeat case_if; try done;
    by destruct (nice_agent_get_selected_pair _ _ _ _) as [[? ?]|].
Qed.

Lemma dispatch_keeps ev : ice_event_ok ev → keeps inv (ice_dispatch ev).
Proof.
  intros Hok w Hw. unfold ice_dispatch. run.
  pose proof (callback_agents ev (d_ice (w_st w)) (e_nice (w_env w))) as Hc.
  destruct ev; first [by apply set_ice_inv|by apply set_nice_inv].
Qed.
Lemma poll_keeps evs : Forall ice_event_ok evs → keeps inv (chat_ice_poll evs).
Proof.
  rewrite Forall_forall. intros Hok. apply keeps_mfor. intros ev Hev. by apply dispatch_keeps, Hok.
Qed.

Lemma pending_sdp_keeps : keeps inv apply_pending_sdp.
Proof. unfold apply_pending_sdp. keep. Qed.
Lemma send_sdp_keeps : keeps inv send_local_sdp.
Proof. unfold send_local_sdp. keep. Qed.
Lemma note_connected_keeps : keeps inv note_connected.
Proof. unfold note_connected, time_now. keep. Qed.
#[local] Hint Resolve pending_sdp_keeps send_sdp_keeps note_connected_keeps crypto_session_keeps
  : keep.

Lemma ice_session_keeps evs : Forall ice_event_ok evs → keeps inv (service_ice_session evs).
Proof. intros Hev%poll_keeps. unfold service_ice_session, time_now. keep. Qed.
End keep.

#[export] Hint Resolve write_message_keeps peer_closed_keeps send_message_keeps send_close_keeps
  : keep.
