(* ===== verification/DaemonKeepMain.v ===== *)
(** * The daemon's messages, commands and main loop keep its invariants *)

From S2P Require Import Prelude CLib Protocol Sodium Base64 Json Identity FileSys IdentityStore.
From S2P Require Import Contacts Ipc Crypto Ice StateMonad DaemonState DaemonSession Daemon.
From S2P Require Import DaemonInv DaemonKeep DaemonKeepSession.

Section messages.
Context `{LibsOk} (X : gset Z) (A : gset agent_t).
Abbreviation inv := (chatd_inv X A).

(** ** Contacts *)

Lemma verify_keeps_text p u k o r new o1 :
  contacts_path getenv 1024 = inr p → text_file p o →
  chat_contacts_verify_or_pin getenv (Some u) (Some k) o = (r, new, o1) → text_file p o1.
Proof.
  intros Hp Ht E. destruct (verify_inv getenv _ _ _ _ _ _ _ Hp E)
    as [[Hfc _]|(Hv & _ & o0 & Hfc & Ea)]; [by eapply file_content_text|].
  eapply append_keeps_text; [by eapply file_content_text|done..].
Qed.

Lemma verify_no_path u k o r new o1 e :
  contacts_path getenv 1024 = inl e →
  chat_contacts_verify_or_pin getenv (Some u) (Some k) o = (r, new, o1) →
  o1 = o ∧ r ≠ CHAT_CONTACTS_OK.
Proof.
  intros Hp. unfold chat_contacts_verify_or_pin.
  destruct (negb _); [by intros [= <- <- <-]|]. rewrite Hp. intros [= <- <- <-].
  split; [done|]. intros ->. revert Hp. unfold contacts_path.
  destruct (chat_identity_config_dir _ _); [done|]. by destruct (snprintf _ _).
Qed.

(** Accepting a key pins it, and keeps the key of the running session. *)
Lemma verify_or_pin_spec u k :
  len k = crypto_sign_PUBLICKEYBYTES →
  triple inv (verify_or_pin u k)
    (λ r w, inv w ∧ (r.1 = CHAT_CONTACTS_OK → pinned_key u k w)).
Proof.
  intros Hk w [(Hz & Hf & Hc & [Ht Hpin] & Ha) Hr]. unfold verify_or_pin. run.
  destruct (chat_contacts_verify_or_pin _ _ _ _) as [[r new] o1] eqn:E. cbn [fst snd].
  destruct (contacts_path getenv 1024) as [e|db] eqn:Hdb.
  - destruct (verify_no_path _ _ _ _ _ _ _ Hdb E) as [-> Hne]. split; [|done].
    split; [|exact Hr]. split_and!; [exact Hz|exact Hf|exact Hc| |exact Ha].
    split; [by intros db' Hdb'; rewrite Hdb in Hdb'|].
    intros Hkey. by destruct (Hpin Hkey) as (_ & ? & ? & _).
  - specialize (Ht db eq_refl). split.
    + split; [|exact Hr]. split_and!; [exact Hz|exact Hf|exact Hc| |exact Ha]. split.
      * intros db' Hdb'. rewrite Hdb in Hdb'. injection Hdb' as <-.
        by eapply verify_keeps_text.
      * intros Hkey. destruct (Hpin Hkey) as (Hl & db' & Hdb' & Hp). split; [exact Hl|].
        injection Hdb' as <-. exists db. split; [done|]. by eapply verify_keeps_pin.
    + intros ->. split; [done|]. exists db. split; [done|]. by eapply verify_pins.
Qed.

(** ** Messages of the server *)

Lemma hello_keeps : keeps inv queue_hello.
Proof. unfold queue_hello. keep. Qed.
Lemma register_keeps : keeps inv queue_register.
Proof. unfold queue_register. keep. Qed.
Lemma auth_response_keeps : keeps inv queue_auth_response.
Proof. unfold queue_auth_response. keep. Qed.
Lemma accept_keeps peer sid : keeps inv (queue_chat_accept peer sid).
Proof. unfold queue_chat_accept. keep. Qed.
Lemma cancel_keeps peer sid : keeps inv (queue_chat_cancel peer sid).
Proof. unfold queue_chat_cancel. keep. Qed.
#[local] Hint Resolve hello_keeps register_keeps auth_response_keeps accept_keeps cancel_keeps
  : keep.

Lemma accept_keeps_pin u k peer sid : keeps (pinned_key u k) (queue_chat_accept peer sid).
Proof. unfold queue_chat_accept, queue_formatted, queue_json. keep. Qed.

Lemma parse_request_key st json from sid pk :
  parse_chat_request st json = Some (from, sid, pk) → len pk = crypto_sign_PUBLICKEYBYTES.
Proof.
  unfold parse_chat_request. intros E. repeat case_match; simplify_eq.
  by eapply hex_to_bin_len.
Qed.
Lemma parse_accept_key st json from sid pk :
  parse_chat_accept st json = Some (from, sid, pk) → len pk = crypto_sign_PUBLICKEYBYTES.
Proof.
  unfold parse_chat_accept. cbv zeta. intros E. repeat case_match; simplify_eq.
  by eapply hex_to_bin_len.
Qed.

Lemma chat_request_keeps json : keeps inv (handle_chat_request json).
Proof.
  unfold handle_chat_request. apply keeps_bind; [keep|]. intros st.
  destruct (parse_chat_request st json) as [[[from sid] pk]|] eqn:Ep; [|keep].
  apply parse_request_key in Ep.
  eapply triple_bind; [by apply verify_or_pin_spec|]. intros [r new]. cbn [fst].
  case_if; [apply triple_ret; by intros w []|]. subst r.
  apply (triple_bind _ (λ _ w, inv w ∧ pinned_key from pk w)).
  { intros w [Hw Hp]. split; [by apply set_state_keeps|].
    apply set_state_keeps_pin. by apply Hp. }
  intros _. apply (triple_bind _ (λ _ w, inv w ∧ pinned_key from pk w)).
  { apply triple_frame; [apply accept_keeps|apply accept_keeps_pin]. }
  intros result. case_if; [apply triple_ret; by intros w []|].
  eapply triple_bind; [apply begin_ice_spec|]. intros ?. by apply triple_ret.
Qed.

Lemma chat_accept_keeps json : keeps inv (handle_chat_accept json).
Proof.
  unfold handle_chat_accept. apply keeps_bind; [keep|]. intros st.
  destruct (parse_chat_accept st json) as [[[from sid] pk]|] eqn:Ep; [|keep].
  apply parse_accept_key in Ep.
  eapply triple_bind; [by apply verify_or_pin_spec|]. intros [r new]. cbn [fst].
  case_if; [eapply triple_pre; [|by intros w [Hw _]; exact Hw]; keep|].
  case_if; [eapply triple_pre; [|by intros w [Hw _]; exact Hw]; keep|]. subst r.
  eapply triple_bind; [eapply triple_pre; [apply begin_ice_spec|]|].
  { intros w [Hw Hp]. split; [done|by apply Hp]. }
  intros started. cbn beta. keep.
Qed.

Lemma chat_cancel_keeps json : keeps inv (handle_chat_cancel json).
Proof. unfold handle_chat_cancel. keep. Qed.
Lemma user_status_keeps json : keeps inv (handle_user_status json).
Proof. unfold handle_user_status. keep. Qed.
Lemma error_keeps json : keeps inv (handle_error json).
Proof. unfold handle_error. cbv zeta. keep. Qed.
Lemma challenge_keeps json : keeps inv (handle_challenge json).
Proof. unfold handle_challenge. keep. Qed.
#[local] Hint Resolve chat_request_keeps chat_accept_keeps chat_cancel_keeps user_status_keeps
  error_keeps challenge_keeps : keep.

Lemma receive_keeps json : keeps inv (handle_receive json).
Proof. unfold handle_receive. keep. Qed.
#[local] Hint Resolve receive_keeps : keep.

(** Assigning a length of 0 to the queue. *)
Lemma sent_keeps : keeps inv (d_pending_len <~ 0).
Proof.
  intros w [(Hz & Hw) Hr]. split; [|exact Hr]. split; [sizes|exact Hw].
Qed.

Lemma control_lost_keeps why : keeps inv (control_lost why).
Proof. unfold control_lost, time_now. keep. Qed.
#[local] Hint Resolve control_lost_keeps : keep.

Lemma callback_keeps reason : keeps inv (callback_chatd_control reason).
Proof.
  destruct reason; cbn [callback_chatd_control]; try solve [keep].
  apply keeps_bind; [keep|intros st]. case_if; [keep|]. case_if; [keep|].
  apply keeps_bind; [keep|intros e]. apply keeps_bind; [keep|intros _].
  apply keeps_bind; [apply sent_keeps|intros _; keep].
Qed.
Lemma service_keeps reasons : keeps inv (lws_service reasons).
Proof.
  apply keeps_mfor. intros reason _. apply keeps_bind; [apply callback_keeps|intros ?; keep].
Qed.

(** ** The active client *)

Lemma end_chat_keeps final : keeps inv (end_chat final).
Proof. unfold end_chat. keep. Qed.
#[local] Hint Resolve end_chat_keeps : keep.

Lemma tell_client_keeps text (b : bool) :
  keeps inv (st ← state; _ ← write_ipc_line (d_lookup_client_fd st) text; mret b).
Proof.
  apply inv_state_client. intros st. eapply triple_bind; [apply write_inv|].
  intros ?. apply triple_ret. by intros w [].
Qed.
#[local] Hint Resolve tell_client_keeps : keep.

Lemma chat_command_keeps line : keeps inv (chat_command line).
Proof.
  unfold chat_command. case_if; [keep|]. case_if.
  - apply keeps_bind; [keep|]. intros sent. case_if; [auto with keep|keep].
  - case_if; [auto with keep|keep].
Qed.
#[local] Hint Resolve chat_command_keeps : keep.

Lemma chat_commands_keeps fuel cursor : keeps inv (chat_commands fuel cursor).
Proof. revert cursor. induction fuel as [|fuel IH]; intros cursor; cbn [chat_commands]; keep. Qed.
#[local] Hint Resolve chat_commands_keeps : keep.

Lemma read_spec fd n outcome :
  triple (λ w, inv w ∧ fd ∈ open_fds w) (sys_read fd n outcome) (λ _ w, inv w ∧ fd ∈ open_fds w).
Proof.
  intros w [Hw Ho]. unfold sys_read. run. unfold open_fds in Ho.
  apply elem_of_dom in Ho as [b Hb]. rewrite Hb. split; [exact Hw|].
  unfold open_fds. apply elem_of_dom. by eexists.
Qed.

Lemma active_client_keeps outcome : keeps inv (service_active_chat_client outcome).
Proof.
  unfold service_active_chat_client. apply inv_state_client. intros st.
  case_if; [apply triple_ret; by intros w []|]. bdec.
  eapply triple_bind; [eapply triple_pre; [apply read_spec|]|].
  - intros w [Hw Hh]. split; [exact Hw|]. unfold holding in Hh.
    rewrite fd_set_nonneg in Hh by done. set_solver.
  - intros read. cbn beta. eapply triple_pre; [|by intros w [Hw _]; exact Hw].
    destruct read as [[|c data]| |]; keep.
Qed.
End messages.

(** ** Waiting clients: descriptors change hands *)

Section clients.
Context `{LibsOk} (A : gset agent_t).

(** [fd] becomes the client of the state, the waiting client, or is handed
    out by the state. *)
Lemma adopt_client fd w :
  0 ≤ fd → d_lookup_client_fd (w_st w) < 0 → chatd_inv {[fd]} A w →
  chatd_inv ∅ A (set_field w_st (set_field d_lookup_client_fd (λ _, fd)) w).
Proof.
  intros Hfd Hl [(Hz & (Hs & Ho & Hd1 & Hd2 & Hd3) & Hrest) Hr].
  split; [|exact Hr]. split_and!; [exact Hz| |exact (proj1 Hrest)|exact (proj1 (proj2 Hrest))|
    exact (proj2 (proj2 Hrest))].
  unfold fd_set at 3 in Ho. unfold fd_set at 3 in Hd1. unfold fd_set at 3 in Hd2.
  unfold fd_set at 2 in Hd3. rewrite (proj2 (Z.ltb_lt _ _) Hl) in Ho, Hd1, Hd2, Hd3.
  unfold fd_inv. fields. rewrite (fd_set_nonneg fd) by done.
  change (open_fds _) with (open_fds w). split_and!; [exact Hs|set_solver..].
Qed.

Lemma release_waiting w :
  0 ≤ d_pending_ipc_client_fd (w_st w) → chatd_inv ∅ A w →
  chatd_inv {[d_pending_ipc_client_fd (w_st w)]} A
    (set_field w_st (set_field d_pending_ipc_client_fd (λ _, -1)) w).
Proof.
  intros Hfd [(Hz & (Hs & Ho & Hd1 & Hd2 & Hd3) & Hrest) Hr].
  split; [|exact Hr]. split_and!; [exact Hz| |exact (proj1 Hrest)|exact (proj1 (proj2 Hrest))|
    exact (proj2 (proj2 Hrest))].
  rewrite (fd_set_nonneg (d_pending_ipc_client_fd (w_st w))) in Ho, Hd1, Hd2, Hd3 by done.
  unfold fd_inv. fields. rewrite fd_set_none.
  change (open_fds _) with (open_fds w). split_and!; [exact Hs|set_solver..].
Qed.

Lemma close_spec fd : triple (chatd_inv {[fd]} A) (sys_close fd) (λ _, chatd_inv ∅ A).
Proof.
  intros w [(Hz & (Hs & Ho & Hd1 & Hd2 & Hd3) & Hrest) Hr]. unfold sys_close. run.
  unfold open_fds in Ho. destruct (e_fds (w_env w) !! fd) as [b|] eqn:Hl; run.
  - split; [|exact Hr]. split_and!; [exact Hz| |exact (proj1 Hrest)|exact (proj1 (proj2 Hrest))|
      exact (proj2 (proj2 Hrest))].
    unfold fd_inv, open_fds. fields. rewrite dom_delete_L, Ho. split_and!; [exact Hs|set_solver..].
  - apply not_elem_of_dom in Hl. set_solver.
Qed.

Lemma client_held fd w : chatd_inv {[fd]} A w → holding fd w.
Proof.
  intros [(_ & (_ & Ho & _) & _) _]. unfold holding, fd_set. rewrite Ho. case_if; set_solver.
Qed.

(** The client is answered and stays with the caller. *)
Lemma answer_keeps {B} fd text (r : B) :
  keeps (chatd_inv {[fd]} A) (_ ← write_ipc_line fd text; mret r).
Proof.
  apply (triple_bind _ (λ _ w, chatd_inv {[fd]} A w ∧ holding fd w)).
  - eapply triple_pre; [apply write_inv|]. intros w Hw. split; [done|by apply client_held].
  - intros ?. apply triple_ret. by intros w [].
Qed.
#[local] Hint Resolve answer_keeps : keep.

(** Who holds the descriptor after a command with result [r]. *)
Definition handed (fd r : Z) : world → Prop :=
  if r =? 0 then chatd_inv {[fd]} A else chatd_inv ∅ A.

Lemma answer_spec fd text :
  triple (chatd_inv {[fd]} A) (_ ← write_ipc_line fd text; mret 0) (handed fd).
Proof.
  apply (triple_bind _ (λ _ w, chatd_inv {[fd]} A w ∧ holding fd w)).
  - eapply triple_pre; [apply write_inv|]. intros w Hw. split; [done|by apply client_held].
  - intros ?. apply triple_ret. by intros w [].
Qed.
Lemma answer_response_spec fd text :
  triple (chatd_inv {[fd]} A) (write_response fd text;; mret 0) (handed fd).
Proof.
  apply (triple_bind _ (λ _ w, chatd_inv {[fd]} A w ∧ holding fd w)).
  - eapply triple_pre; [apply response_inv|]. intros w Hw. split; [done|by apply client_held].
  - intros ?. apply triple_ret. by intros w [].
Qed.

Lemma status_keeps fd : keeps (chatd_inv {[fd]} A) (write_ipc_status fd).
Proof.
  unfold write_ipc_status. cbv zeta. apply keeps_bind; [keep|intros st].
  destruct (snprintf _ _); [auto with keep|keep].
Qed.

(** A request for a valid name finds room: the queue is empty and the message
    fits, so that the descriptor is never handed back after it was closed. *)
Lemma name_len u : chat_username_is_valid (Some u) = true → len u ≤ CHAT_USERNAME_MAX_LEN.
Proof. intros Hu. apply username_valid_len in Hu. unfold CHAT_USERNAME_MAX_LEN. lia. Qed.

Lemma request_json_len from to sid hex :
  len (chat_request_json from to sid hex) = 73 + len from + len to + len sid + len hex.
Proof.
  unfold chat_request_json. rewrite !len_app.
  repeat match goal with |- context [len (qlit ?t)] =>
    let v := eval vm_compute in (len (qlit t)) in change (len (qlit t)) with v end. lia.
Qed.

Lemma queue_json_ok json w :
  len json < CHATD_MAX_JSON_SIZE → d_pending_len (w_st w) = 0 → (queue_json json w).1 = 0.
Proof.
  intros Hl Hp. unfold queue_json, strlen. rewrite Z.geb_leb, (proj2 (Z.leb_gt _ _) Hl). run.
  by rewrite Hp.
Qed.

Lemma request_succeeds X peer :
  chat_username_is_valid (Some peer) = true →
  triple (λ w, chatd_inv X A w ∧ d_pending_len (w_st w) = 0) (queue_chat_request peer)
    (λ r w, r = 0 ∧ chatd_inv X A w).
Proof.
  intros Hu%name_len w [Hw Hp]. split; [|by apply queue_chat_request_keeps].
  unfold queue_chat_request, random. run.
  pose proof (randombytes_len CHATD_SESSION_ID_BYTES (e_rng (w_env w)) ltac:(done)) as Hl.
  destruct (randombytes_buf _ _) as [b g]. cbn [fst] in Hl. fields.
  destruct Hw as [(((Hname & Hpk) & _) & _) _]. apply name_len in Hname.
  unfold queue_formatted. rewrite snprintf_ok; [apply queue_json_ok; [|exact Hp]|..];
    rewrite request_json_len, !bin2hex_len, Hl, Hpk;
    unfold CHAT_USERNAME_MAX_LEN, CHATD_SESSION_ID_BYTES, crypto_sign_PUBLICKEYBYTES,
      CHATD_MAX_JSON_SIZE, INT_MAX in *; lia.
Qed.

Lemma attach_spec fd :
  0 ≤ fd →
  triple (λ w, chatd_inv {[fd]} A w ∧ d_lookup_client_fd (w_st w) < 0) (attach_client fd)
    (λ r w, r = 1 ∧ chatd_inv ∅ A w).
Proof.
  intros Hfd. unfold attach_client.
  apply (triple_bind _ (λ _ w, chatd_inv ∅ A w ∧ holding fd w)).
  { intros w [Hw Hl]. pose proof (adopt_client fd w Hfd Hl Hw) as Ha. split; [exact Ha|].
    exact (inv_client ∅ A _ Ha). }
  intros _. apply (triple_state _ (λ _ w, chatd_inv ∅ A w ∧ holding fd w)); [done|]. intros st.
  eapply triple_bind; [apply response_inv|]. intros ?. apply triple_ret. by intros w [].
Qed.

(** The assignments that make the client wait for its peer. *)
Lemma requesting_spec fd :
  0 ≤ fd →
  triple (λ w, chatd_inv {[fd]} A w ∧ d_lookup_client_fd (w_st w) < 0 ∧ d_pending_len (w_st w) = 0)
    (d_lookup_client_fd <~ fd;; d_chat_retry_count <~ 0;;
     chatd_set_session_state CHATD_SESSION_REQUESTING)
    (λ _ w, chatd_inv ∅ A w ∧ d_pending_len (w_st w) = 0).
Proof.
  intros Hfd. apply (triple_bind _ (λ _ w, chatd_inv ∅ A w ∧ d_pending_len (w_st w) = 0)).
  { intros w (Hw & Hl & Hp). split; [by apply adopt_client|exact Hp]. }
  intros _. apply (triple_bind _ (λ _ w, chatd_inv ∅ A w ∧ d_pending_len (w_st w) = 0)).
  { intros w [[(Hz & Hw) Hr] Hp]. split; [|exact Hp]. split; [|exact Hr]. split; [sizes|exact Hw]. }
  intros _. apply triple_frame; [apply set_state_keeps|]. unfold chatd_set_session_state. keep.
Qed.

(** The descriptor goes to the state exactly when the result is not 0. *)
Lemma open_chat_spec fd peer :
  0 ≤ fd →
  triple (chatd_inv {[fd]} A) (handle_open_chat_command fd peer)
    (handed fd).
Proof.
  intros Hfd. unfold handle_open_chat_command.
  case_if; [apply answer_spec|].
  apply (triple_state _ (λ st w, chatd_inv {[fd]} A w ∧ w_st w = st)); [done|]. intros st.
  case_if; [eapply triple_pre; [apply answer_spec|by intros w []]|].
  case_if; [eapply triple_pre; [apply answer_response_spec|by intros w []]|].
  case_if.
  { eapply triple_conseq; [by apply attach_spec| |].
    - intros w [Hw <-]. by split.
    - by intros r w [-> Hw]. }
  case_if; [eapply triple_pre; [apply answer_spec|by intros w []]|]. bdec.
  assert (Hl : len (snprintf_buf (CHAT_USERNAME_MAX_LEN + 1) peer) < CHAT_USERNAME_MAX_LEN + 1)
    by by apply snprintf_buf_len.
  apply (triple_bind _ (λ _ w, chatd_inv {[fd]} A w ∧ d_lookup_client_fd (w_st w) < 0
           ∧ d_pending_len (w_st w) = 0)).
  { intros w [[(Hz & Hw) Hr] <-]. split; [|by split]. split; [|exact Hr]. split; [sizes|exact Hw]. }
  intros _. case_if; [eapply triple_pre; [apply answer_spec|by intros w []]|].
  assert (Hseq : triple (λ w, chatd_inv {[fd]} A w ∧ d_lookup_client_fd (w_st w) < 0
             ∧ d_pending_len (w_st w) = 0)
    ((d_lookup_client_fd <~ fd;; d_chat_retry_count <~ 0;;
      chatd_set_session_state CHATD_SESSION_REQUESTING);;
     queued ← queue_chat_request peer;
     if negb (queued =? 0) then
       write_lookup_response (lit "ERROR") (lit "chat_request_failed");; mret 0
     else mret 1) (handed fd)).
  { eapply triple_bind; [by apply requesting_spec|]. intros ?.
    eapply triple_bind; [by apply request_succeeds|]. intros queued w [-> Hw]. exact Hw. }
  exact Hseq.
Qed.

Lemma ipc_client_spec fd outcome :
  0 ≤ fd →
  triple (chatd_inv {[fd]} A) (handle_ipc_client fd outcome)
    (handed fd).
Proof.
  intros Hfd. unfold handle_ipc_client.
  eapply triple_bind; [eapply triple_pre; [apply read_spec|]|].
  - intros w Hw. split; [exact Hw|]. apply client_held in Hw. unfold holding in Hw.
    rewrite fd_set_nonneg in Hw by done. set_solver.
  - intros read. cbn beta. eapply triple_pre; [|by intros w [Hw _]; exact Hw].
    destruct read as [[|c data]| |]; try by apply triple_ret. cbv zeta. case_if.
    + eapply triple_bind; [apply status_keeps|]. intros ?. by apply triple_ret.
    + destruct (scan_open_chat _) as [peer|]; [by apply open_chat_spec|apply answer_spec].
Qed.

(** ** The main loop *)

Lemma accept_waiting fd w b :
  0 ≤ fd → e_fds (w_env w) !! fd = None → d_pending_ipc_client_fd (w_st w) < 0 →
  chatd_inv ∅ A w →
  chatd_inv ∅ A (set_field w_st (set_field d_pending_ipc_client_fd (λ _, fd))
                  (set_field w_env (set_field e_fds (λ _, <[fd := b]> (e_fds (w_env w)))) w)).
Proof.
  intros Hfd Hn%not_elem_of_dom Hp [(Hz & (Hs & Ho & Hd1 & Hd2 & Hd3) & Hrest) Hr].
  split; [|exact Hr]. split_and!; [exact Hz| |exact (proj1 Hrest)|exact (proj1 (proj2 Hrest))|
    exact (proj2 (proj2 Hrest))].
  unfold fd_set at 2 in Ho. unfold fd_set at 2 in Hd1. unfold fd_set at 2 in Hd2.
  unfold fd_set at 1 in Hd3. rewrite (proj2 (Z.ltb_lt _ _) Hp) in Ho, Hd1, Hd2, Hd3.
  unfold fd_inv, open_fds in *. fields. rewrite dom_insert_L, Ho, (fd_set_nonneg fd) by done.
  rewrite Ho in Hn. split_and!; [exact Hs|set_solver..].
Qed.

Lemma accept_spec input :
  triple (chatd_inv ∅ A) (accept_client input)
    (λ r w, chatd_inv ∅ A w ∧ (r = true → 0 ≤ d_pending_ipc_client_fd (w_st w))).
Proof.
  intros w Hw. unfold accept_client, sys_accept. run.
  destruct (d_pending_ipc_client_fd (w_st w) <? 0) eqn:Hp; bdec; cbn [negb]; [|by split].
  destruct (_ || _) eqn:E; bdec; [by split|].
  rewrite (proj2 (Z.ltb_ge (in_accept input) 0)) by done.
  unfold time_now. run. split; [|done].
  apply eq_None_not_Some in H2.
  exact (accept_waiting (in_accept input) w [] H1 H2 Hp Hw).
Qed.

Lemma expire_spec fd :
  triple (λ w, chatd_inv ∅ A w ∧ 0 ≤ fd ∧ d_pending_ipc_client_fd (w_st w) = fd)
    (sys_close fd;; d_pending_ipc_client_fd <~ -1;; d_pending_ipc_deadline_at <~ 0)
    (λ _, chatd_inv ∅ A).
Proof.
  intros w ([(Hz & (Hs & Ho & Hd1 & Hd2 & Hd3) & Hrest) Hr] & Hfd & <-). unfold sys_close. run.
  rewrite (fd_set_nonneg (d_pending_ipc_client_fd (w_st w))) in Ho, Hd1, Hd2, Hd3 by done.
  unfold open_fds in Ho.
  destruct (e_fds (w_env w) !! d_pending_ipc_client_fd (w_st w)) as [b|] eqn:Hl; run.
  - split; [|exact Hr]. split_and!; [exact Hz| |exact (proj1 Hrest)|exact (proj1 (proj2 Hrest))|
      exact (proj2 (proj2 Hrest))].
    unfold fd_inv, open_fds. fields. rewrite dom_delete_L, Ho, fd_set_none.
    split_and!; [exact Hs|set_solver..].
  - apply not_elem_of_dom in Hl. set_solver.
Qed.

Lemma service_ipc_keeps input : keeps (chatd_inv ∅ A) (service_ipc input).
Proof.
  unfold service_ipc. eapply triple_bind; [apply accept_spec|]. intros accepted. cbn beta.
  destruct accepted; cbn [negb]; [|apply triple_ret; by intros w []].
  apply (triple_state _ (λ st w, chatd_inv ∅ A w ∧ 0 ≤ d_pending_ipc_client_fd st
    ∧ d_pending_ipc_client_fd (w_st w) = d_pending_ipc_client_fd st)).
  { intros w [Hw Hp]. split_and!; [done|by apply Hp|done]. }
  intros st. cbv zeta. set (fd := d_pending_ipc_client_fd st).
  apply (triple_bind _ (λ _ w, chatd_inv ∅ A w ∧ 0 ≤ fd ∧ d_pending_ipc_client_fd (w_st w) = fd)).
  { case_if; [by apply triple_ret|]. apply triple_time; [done|]. intros. by apply triple_ret. }
  intros expired. destruct expired.
  - eapply triple_pre; [apply expire_spec|]. by intros w (? & ? & ?).
  - case_if; [apply triple_ret; by intros w []|].
    apply (triple_bind _ (λ _ w, chatd_inv {[fd]} A w ∧ 0 ≤ fd)).
    { intros w (Hw & Hfd & Hp). split; [|done]. rewrite <- Hp. apply release_waiting; [lia|done]. }
    intros _. apply (triple_bind _ (λ _ w, chatd_inv {[fd]} A w ∧ 0 ≤ fd)).
    { intros w Hw. exact Hw. }
    intros _ w [Hw Hfd]. revert w Hw. change (triple (chatd_inv {[fd]} A)
      (keep_open ← handle_ipc_client fd (in_command input);
       when (keep_open =? 0) (sys_close fd)) (λ _, chatd_inv ∅ A)).
    eapply triple_bind; [by apply ipc_client_spec|]. intros r. unfold handed, when.
    destruct (r =? 0); [apply close_spec|by apply triple_ret].
Qed.

Lemma reconnect_keeps connected reasons : keeps (chatd_inv ∅ A) (reconnect connected reasons).
Proof.
  pose proof (service_keeps ∅ A reasons).
  unfold reconnect, connect_control_server, time_now. keep.
Qed.

(** The environment keeps its side: libnice does not release agents. *)
Definition input_ok (input : loop_input) : Prop := Forall ice_event_ok (in_ice input).

Lemma loop_body_keeps input : input_ok input → keeps (chatd_inv ∅ A) (main_loop_body input).
Proof.
  intros Hok. unfold main_loop_body, has_pending_control_message.
  pose proof (service_ipc_keeps (in_ipc input)).
  pose proof (active_client_keeps ∅ A (in_chat input)).
  pose proof (ice_session_keeps ∅ A (in_ice input) Hok).
  pose proof (service_keeps ∅ A (in_flush input)).
  pose proof (service_keeps ∅ A (in_service input)).
  pose proof (reconnect_keeps (in_connect input) (in_connecting input)). keep.
Qed.
Lemma loop_keeps inputs : Forall input_ok inputs → keeps (chatd_inv ∅ A) (main_loop inputs).
Proof.
  induction 1 as [|input inputs Hi Hs IH]; cbn [main_loop]; [keep|].
  pose proof (loop_body_keeps input Hi). keep.
Qed.
End clients.
