(* ===== verification/DaemonDemo.v ===== *)
(** * A run of the daemon

    The libraries instantiated by the executable reference implementations,
    and a run in which alice's daemon logs in, accepts a chat from bob and
    establishes the encrypted session.  The theorems are applied to it. *)

From S2P Require Import Prelude CLib Protocol Sodium Base64 Json Identity FileSys IdentityStore.
From S2P Require Import Contacts Ipc Crypto Ice StateMonad DaemonState DaemonSession Daemon.
From S2P Require Import DaemonInv DaemonKeep DaemonKeepSession DaemonKeepMain.

#[export] Instance reference_libs : Libs := {|
  lib_init := Sodium.Reference.init;
  lib_codec := Sodium.Reference.codec;
  lib_base64 := Base64Reference.base64;
  lib_random := Sodium.Reference.random;
  lib_sign := Sodium.Reference.sign;
  lib_hash := Sodium.Reference.hash;
  lib_kx := Sodium.Reference.kx;
  lib_stream := Sodium.Reference.stream;
  lib_nice := Ice.Reference.nice_lib;
  getenv := demo_env;
|}.

#[export] Instance reference_libs_ok : LibsOk.
Proof.
  split; [exact Sodium.Reference.init_ok|exact Sodium.Reference.codec_ok
    |exact Base64Reference.base64_ok|exact Sodium.Reference.random_ok
    |exact Sodium.Reference.sign_ok|exact Sodium.Reference.hash_ok|exact Sodium.Reference.kx_ok
    |exact Sodium.Reference.stream_ok|exact Ice.Reference.nice_lib_ok].
Defined.

Module Demo.
Definition key (v : Z) : bytes := replicate 32 (byte_of v).
Definition alice : chat_identity_t :=
  {| id_username := lit "alice"; id_public_key := key 5; id_secret_key := key 5 ++ key 5 |}.
Definition bob : chat_identity_t :=
  {| id_username := lit "bob"; id_public_key := key 9; id_secret_key := key 9 ++ key 9 |}.
Definition sid : bytes := lit "0123456789abcdef".

(** Start: the listening socket is descriptor 3. *)
Definition env0 : chatd_env :=
  {| e_os := demo_contacts_os; e_rng := (40 : @rng (@lib_random reference_libs));
     e_nice := Ice.Reference.library0; e_clock := λ n, 100; e_ticks := 0;
     e_fds := {[3 := []]}; e_stale := false; e_faults := []; e_sent := []; e_packets := [] |}.
Definition world0 : world := {| w_st := chatd_initial alice zero_config 3; w_env := env0 |}.

(** ** Inputs *)

Definition no_client : ipc_input :=
  {| in_accept := -1; in_poll := 0; in_poll_error := false; in_poll_in := false;
     in_command := ReadAgain |}.
Definition turn (ice : list ice_event) (service : list chatd_reason) : loop_input :=
  {| in_ipc := no_client; in_chat := ReadAgain; in_ice := ice; in_flush := [];
     in_service := service; in_connect := true; in_connecting := [] |}.

Definition receive (json : bytes) : chatd_reason := LWS_CALLBACK_CLIENT_RECEIVE json 0 true.
Definition flush : chatd_reason := LWS_CALLBACK_CLIENT_WRITEABLE 4096.

Definition login : list chatd_reason :=
  [ LWS_CALLBACK_CLIENT_ESTABLISHED 1; flush;
    receive (qlit "{'type':'register_ok'}"); flush;
    receive (qlit "{'type':'auth_challenge','challenge':'" ++ sodium_bin2hex (key 7) ++ qlit "'}");
    flush;
    receive (qlit "{'type':'auth_ok'}") ].
Definition request : list chatd_reason :=
  [ receive (chat_request_json (lit "bob") (lit "alice") sid (sodium_bin2hex (key 9))); flush ].

Definition packet (type : Z) (payload : bytes) : bytes :=
  match chat_packet_encode_header type (len payload) (Some (zeros CHAT_PACKET_HEADER_SIZE)) with
  | (_, Some header) => header ++ payload
  | _ => []
  end.
Definition bob_message : bytes :=
  match chat_crypto_handshake_init (Some zero_handshake) (Some bob) (Some (key 5))
          CHAT_CRYPTO_ROLE_INITIATOR (Some sid) (Some []) (90 : @rng (@lib_random reference_libs)) with
  | (_, _, Some message, _) => message
  | _ => []
  end.

Definition session_inputs : list loop_input :=
  [ turn [] login; turn [] request;
    turn [IceGatheringDone 1] [flush];
    turn [IceStateChanged 1 1 1 NICE_READY; IceRecv (Some (packet CHAT_PKT_HANDSHAKE bob_message))] [];
    turn [IceRecv (Some (packet CHAT_PKT_STREAM_HEADER (zeros 24)))] [] ].
Abbreviation secure_world := ((main_loop session_inputs world0).2).
End Demo.
