(* ===== verification/DaemonTheorems.v ===== *)
(** * The daemon's theorems

    What holds of every run of the daemon: a session that is reported as
    encrypted is authenticated under a pinned key; descriptors, agents and
    secrets are released; the fixed-size fields never overflow. *)

From S2P Require Import Prelude CLib Protocol Sodium Base64 Json Identity FileSys IdentityStore.
From S2P Require Import Contacts Ipc Crypto Ice StateMonad DaemonState DaemonSession Daemon.
From S2P Require Import DaemonInv DaemonKeep DaemonKeepSession DaemonKeepMain DaemonDemo.

Section theorems.
Context `{LibsOk}.

(** ** Start *)

(** The state when the loop is entered; the first connection to the server
    may have failed already. *)
Definition loop_state (identity : chat_identity_t) (config : chat_ice_config_t) (ipc_fd : Z)
    (should_reconnect : bool) (next_reconnect_at : Z) : chatd_state_t :=
  set_field d_should_reconnect (λ _, should_reconnect)
    (set_field d_next_reconnect_at (λ _, next_reconnect_at)
       (chatd_initial identity config ipc_fd)).

(** What [main] has established when it enters the loop: a loaded identity,
    a contacts file without NUL bytes (if there is one), the listening socket
    as the only descriptor. *)
Record start_ok (w : world) (A : gset agent_t) : Prop := {
  start_identity : ∃ identity config ipc_fd again at_time,
    w_st w = loop_state identity config ipc_fd again at_time
    ∧ chat_username_is_valid (Some (id_username identity)) = true
    ∧ len (id_public_key identity) = crypto_sign_PUBLICKEYBYTES
    ∧ open_fds w = fd_set ipc_fd;
  start_stale : e_stale (w_env w) = false;
  start_contacts : ∀ db, contacts_path getenv 1024 = inr db → text_file db (e_os (w_env w));
  start_agents : nice_agents (e_nice (w_env w)) = A;
}.

Lemma start_inv w A : start_ok w A → chatd_inv ∅ A w.
Proof.
  intros [(identity & config & ipc_fd & again & t & Hst & Hu & Hp & Hf) Hs Hc Ha].
  unfold chatd_inv, chatd_weak, sizes_inv, fd_inv, crypto_inv, contacts_inv, agents_inv, rest_inv.
  cbv zeta. rewrite Hst. unfold loop_state. fields. cbn -[zeros fd_set CHATD_MAX_JSON_SIZE].
  split_and!; first [done | by rewrite len_zeros | rewrite ?Hf; set_solver
    | unfold owns, session_agents; cbn; rewrite Ha; set_solver].
Qed.

Lemma run_inv w A inputs :
  start_ok w A → Forall input_ok inputs → chatd_inv ∅ A (main_loop inputs w).2.
Proof. intros Hw%start_inv Hi. by apply loop_keeps. Qed.


(** C17: in every state between two turns of the loop, the bounds of the
    fixed-size fields hold: names have at most 32 characters, session
    identifiers at most 32, a queued message is shorter than its buffer, and
    a chat is retried at most three times. *)
Theorem daemon_fields_bounded w A inputs :
  start_ok w A → Forall input_ok inputs → sizes_inv (main_loop inputs w).2.
Proof. intros Hw Hi. by destruct (run_inv w A inputs Hw Hi) as [(Hz & _) _]. Qed.

(** C18: whenever no session is active there is no trace of one: handshake,
    session keys, both stream states, the local handshake message and stream
    header and the peer's key are zero, every progress flag is cleared and
    the ICE agent has been released. *)
Theorem idle_daemon_holds_no_keys w A inputs :
  start_ok w A → Forall input_ok inputs →
  let w' := (main_loop inputs w).2 in
  d_ice_active (w_st w') = false →
  crypto_clean (w_st w')
  ∧ d_remote_identity_pk (w_st w') = zeros crypto_sign_PUBLICKEYBYTES
  ∧ nice_agents (e_nice (w_env w')) = A.
Proof.
  intros Hw Hi w' Ha. destruct (run_inv w A inputs Hw Hi) as [Hweak [Hidle _]].
  destruct (Hidle Ha) as (Hkey & Hpk & Hag).
  destruct Hweak as (_ & _ & (C1 & _) & _ & [_ Hn]). split_and!; [by apply C1|done|].
  unfold session_agents in Hn. unfold w'. rewrite Hag in Hn. set_solver.
Qed.

(** ** Exit *)

(** The state without the two descriptors that [main] closes itself, and with
    the files [o] as before the socket's path is removed. *)
Definition forget_fds (o : os) (w : world) : world :=
  set_field w_env (set_field e_os (λ _, o))
    (set_field w_st (set_field d_ipc_fd (λ _, -1))
       (set_field w_st (set_field d_pending_ipc_client_fd (λ _, -1)) w)).

(** [main_shutdown] closes them one after the other. *)
Definition close_own_fds : D unit :=
  st ← state;
  when (d_ipc_fd st >=? 0)
    (sys_shutdown (d_ipc_fd st);; sys_close (d_ipc_fd st);; unlink_socket);;
  when (d_pending_ipc_client_fd st >=? 0) (sys_close (d_pending_ipc_client_fd st)).

Definition set_fds (fds : gmap Z bytes) (w : world) : world :=
  set_field w_env (set_field e_fds (λ _, fds)) w.
Definition set_os (o : os) (w : world) : world := set_field w_env (set_field e_os (λ _, o)) w.

Lemma close_open fd w :
  fd_set fd ⊆ open_fds w →
  ∃ fds, (when (fd >=? 0) (sys_close fd) w).2 = set_fds fds w ∧ dom fds = open_fds w ∖ fd_set fd.
Proof.
  intros Hfd. unfold when. destruct (fd >=? 0) eqn:E; bdec.
  - rewrite fd_set_nonneg in * by lia. unfold sys_close. run. unfold open_fds in *.
    destruct (e_fds (w_env w) !! fd) as [b|] eqn:El.
    + exists (delete fd (e_fds (w_env w))). split; [done|]. apply dom_delete_L.
    + apply not_elem_of_dom in El. set_solver.
  - exists (e_fds (w_env w)). split; [by destruct w as [? []]|].
    unfold fd_set. rewrite (proj2 (Z.ltb_lt _ _)) by lia. set_solver.
Qed.

Lemma unlink_socket_os w : ∃ o, (unlink_socket w).2 = set_os o w.
Proof.
  unfold unlink_socket. destruct (chat_ipc_socket_path _ _); [|by eexists].
  exists (e_os (w_env w)). by destruct w as [? []].
Qed.

Lemma close_listening fd w :
  fd_set fd ⊆ open_fds w →
  ∃ fds o, (when (fd >=? 0) (sys_shutdown fd;; sys_close fd;; unlink_socket) w).2
           = set_os o (set_fds fds w) ∧ dom fds = open_fds w ∖ fd_set fd.
Proof.
  intros Hfd. destruct (close_open fd w Hfd) as (fds & E & Hd). unfold when in *.
  destruct (fd >=? 0) eqn:Ef; bdec.
  - assert (Hs : sys_shutdown fd w = (tt, w)).
    { unfold sys_shutdown. run. destruct (e_fds (w_env w) !! fd) eqn:El; [done|].
      apply not_elem_of_dom in El. rewrite fd_set_nonneg in Hfd by lia.
      unfold open_fds in Hfd. set_solver. }
    unfold mbind, stateM_bind. rewrite Hs. destruct (sys_close fd w) as [[] w1].
    cbn [snd] in E. subst w1. destruct (unlink_socket_os (set_fds fds w)) as [o Ho].
    by exists fds, o.
  - exists fds, (e_os (w_env w)). split; [|done]. cbn [mret stateM_ret snd] in *.
    rewrite E. by destruct w as [? []].
Qed.

Lemma close_own_spec w A :
  chatd_inv ∅ A w → chatd_inv ∅ A (forget_fds (e_os (w_env w)) (close_own_fds w).2).
Proof.
  intros [(Hz & (Hs & Ho & Hd1 & Hd2 & Hd3) & Hc & Hco & Ha) Hr].
  destruct (close_listening (d_ipc_fd (w_st w)) w) as (fds & o & E1 & Hf1); [set_solver|].
  destruct (close_open (d_pending_ipc_client_fd (w_st w)) (set_os o (set_fds fds w)))
    as (fds' & E2 & Hf2).
  { unfold set_os, set_fds, open_fds in *. fields. rewrite Hf1. set_solver. }
  assert (E : (close_own_fds w).2 = set_fds fds' (set_os o (set_fds fds w))).
  { unfold close_own_fds. unfold state, gets, mbind at 1, stateM_bind at 1. cbn [fst snd].
    unfold mbind at 1, stateM_bind at 1. revert E1 E2.
    destruct (when (d_ipc_fd (w_st w) >=? 0) _ w) as [[] w1]. cbn [snd]. by intros -> E2. }
  rewrite E. split; [|exact Hr]. split_and!; [exact Hz| |exact Hc|exact Hco|exact Ha].
  unfold forget_fds, set_fds, set_os, fd_inv, open_fds in *. fields.
  rewrite Hf2, fd_set_none. fields. rewrite Hf1, Ho.
  split_and!; [exact Hs|set_solver..].
Qed.

(** The rest of the shutdown does not look at them. *)
Lemma close_client_forget o w :
  close_lookup_client (forget_fds o w) = (tt, forget_fds o (close_lookup_client w).2).
Proof.
  unfold close_lookup_client, when. run.
  change (d_lookup_client_fd (w_st (forget_fds o w))) with (d_lookup_client_fd (w_st w)).
  destruct (d_lookup_client_fd (w_st w) >=? 0); [|done]. unfold sys_close. run.
  change (e_fds (w_env (forget_fds o w))) with (e_fds (w_env w)).
  by destruct (e_fds (w_env w) !! d_lookup_client_fd (w_st w)).
Qed.
Lemma reset_forget o w :
  reset_ice_session (forget_fds o w) = (tt, forget_fds o (reset_ice_session w).2).
Proof.
  unfold reset_ice_session. run.
  change (d_ice (w_st (forget_fds o w))) with (d_ice (w_st w)).
  change (e_nice (w_env (forget_fds o w))) with (e_nice (w_env w)).
  by destruct (chat_ice_session_close (Some (d_ice (w_st w))) (e_nice (w_env w))).
Qed.

Lemma close_client_none w : d_lookup_client_fd (w_st (close_lookup_client w).2) < 0.
Proof.
  unfold close_lookup_client, when, sys_close. run.
  destruct (d_lookup_client_fd (w_st w) >=? 0) eqn:E; bdec; run; [|fields; lia].
  by destruct (e_fds (w_env w) !! d_lookup_client_fd (w_st w)).
Qed.

(** When the daemon ends, after any run, it has closed every descriptor
    it had opened, each exactly once (no call ever named a descriptor that
    was not open), released its ICE agent, and wiped the session's key
    material, the identity's secret key and the TURN password. *)
Lemma shutdown_releases w A inputs :
  start_ok w A → Forall input_ok inputs →
  let w' := (main_shutdown (main_loop inputs w).2).2 in
  e_fds (w_env w') = ∅ ∧ e_stale (w_env w') = false
  ∧ nice_agents (e_nice (w_env w')) = A
  ∧ crypto_clean (w_st w')
  ∧ id_secret_key (d_identity (w_st w')) = zeros crypto_sign_SECRETKEYBYTES
  ∧ cfg_turn_password (d_ice_config (w_st w')) = [].
Proof.
  intros Hw Hi. pose proof (run_inv w A inputs Hw Hi) as Hinv.
  set (w1 := (main_loop inputs w).2) in *. apply close_own_spec in Hinv.
  set (o := e_os (w_env w1)) in *.
  set (w2 := (close_own_fds w1).2) in *.
  assert (Hmain : (main_shutdown w1).2
    = set_field w_st (set_field d_ice_config (λ _, zero_config))
       (set_field w_st (set_field d_identity (λ i, default i (chat_identity_wipe (Some i))))
          (reset_ice_session (close_lookup_client w2).2).2)).
  { unfold w2, main_shutdown, close_own_fds. unfold mbind, stateM_bind, state, gets.
    cbn [fst snd]. destruct (when _ _ w1) as [[] wa]. destruct (when _ _ wa) as [[] wb]. cbn [snd].
    destruct (close_lookup_client wb) as [[] wc]. cbn [snd].
    by destruct (reset_ice_session wc) as [[] wd]. }
  pose proof (close_client_keeps ∅ A _ Hinv) as Hc. rewrite close_client_forget in Hc.
  pose proof (close_client_none w2) as Hn. set (w3 := (close_lookup_client w2).2) in *.
  cbn [snd] in Hc. destruct (reset_spec ∅ A _ (proj1 Hc)) as [[Hweak Hrest] Hact].
  rewrite reset_forget in Hweak, Hrest, Hact. cbn [snd] in Hweak, Hrest, Hact.
  assert (Hl : d_lookup_client_fd (w_st (reset_ice_session w3).2) < 0).
  { revert Hn. unfold reset_ice_session. run. by destruct (chat_ice_session_close _ _). }
  set (w4 := (reset_ice_session w3).2) in *. cbv zeta. rewrite Hmain.
  destruct Hweak as (_ & (Hs & Ho & _) & (C1 & _) & _ & [_ Ha]).
  destruct Hrest as [Hidle _]. destruct (Hidle Hact) as (Hkey & _ & Hag).
  split_and!; [|exact Hs| |exact (C1 Hkey)|done|done].
  - apply dom_empty_inv_L. change (open_fds (forget_fds o w4) = ∅). rewrite Ho.
    unfold forget_fds. fields. unfold fd_set. rewrite (proj2 (Z.ltb_lt _ _) Hl).
    by rewrite !union_empty_l_L.
  - change (nice_agents (e_nice (w_env (forget_fds o w4))) = A). rewrite Ha.
    unfold session_agents. rewrite Hag. apply union_empty_l_L.
Qed.

(** ** The loop over the client's lines *)

Lemma skip_breaks_length s : (length (skip_breaks s) ≤ length s)%nat.
Proof. induction s as [|c s IH]; cbn [skip_breaks]; [done|]. case_bool_decide; cbn [length]; lia. Qed.

(** What a turn leaves of the input is shorter. *)
Lemma turn_rest_length n c rest cursor :
  zdrop n cursor = c :: rest → (length (skip_breaks rest) < length cursor)%nat.
Proof.
  intros E%(f_equal length). unfold zdrop in E. rewrite length_drop in E. cbn [length] in E.
  pose proof (skip_breaks_length rest). lia.
Qed.

Lemma chat_commands_fuel fuel fuel' cursor w :
  (length cursor < fuel)%nat → (length cursor < fuel')%nat →
  chat_commands fuel cursor w = chat_commands fuel' cursor w.
Proof.
  revert fuel' cursor w. induction fuel as [|fuel IH]; intros [|fuel'] cursor w Hf Hf'; [lia..|].
  cbn [chat_commands]. run. case_match; [done|].
  destruct (chat_command _ w) as [[] w1]; [done|].
  destruct (zdrop _ cursor) as [|c rest] eqn:E; [done|].
  pose proof (turn_rest_length _ _ _ _ E). apply IH; lia.
Qed.

(** The loop of [service_active_chat_client], with the bound it is run with. *)
Definition command_loop (cursor : bytes) : D unit := chat_commands (S (length cursor)) cursor.

(** C30: the loop over the lines a local client has sent ends on every input, in
    every state, and the bound on its turns in the model is never what ends
    it: one turn per byte and one more are enough, any larger bound gives the
    same result, and the bounded loop satisfies the equation of the C loop,
    whose condition and early return are the only exits. *)
Theorem command_loop_terminates cursor (w : world) :
  (∀ fuel, (length cursor < fuel)%nat → chat_commands fuel cursor w = command_loop cursor w)
  ∧ command_loop cursor w =
    (st ← state;
     if bool_decide (cursor = []) || (d_lookup_client_fd st <? 0) || negb (d_ice_active st)
     then mret tt
     else
       let n := strcspn cursor line_breaks in
       closed ← chat_command (ztake n cursor);
       if (closed : bool) then mret tt
       else
         match zdrop n cursor with
         | [] => mret tt
         | _ :: rest => command_loop (skip_breaks rest)
         end) w.
Proof.
  split; [intros fuel Hf; apply chat_commands_fuel; lia|].
  unfold command_loop at 1. cbn [chat_commands]. run. case_match; [done|].
  destruct (chat_command _ w) as [[] w1]; [done|].
  destruct (zdrop _ cursor) as [|c rest] eqn:E; [done|].
  pose proof (turn_rest_length _ _ _ _ E). apply chat_commands_fuel; lia.
Qed.
End theorems.

(** ** The theorems on a run *)

Import Demo.

Lemma demo_start : start_ok world0 ∅.
Proof.
  split; [|done| |done].
  - exists alice, zero_config, 3, false, 0. split_and!; [done|vm_compute; reflexivity|done|].
    unfold open_fds. cbn [w_env world0 e_fds env0]. by rewrite dom_singleton_L.
  - intros db Hdb. assert (db = demo_db) as ->.
    { pose proof demo_db_path as E. change (@getenv reference_libs) with demo_env in Hdb. congruence. }
    vm_compute. exact I.
Qed.
Lemma demo_inputs_ok : Forall input_ok session_inputs.
Proof. repeat constructor. Qed.


Lemma daemon_fields_bounded_witness :
  sizes_inv secure_world ∧ len (d_ice_session_id (w_st secure_world)) = 16.
Proof.
  split; [|vm_compute; reflexivity].
  exact (daemon_fields_bounded world0 ∅ session_inputs demo_start demo_inputs_ok).
Defined.

(** Bob cancels the chat. *)
Definition cancelled_inputs : list loop_input :=
  session_inputs ++ [turn [] [receive (chat_cancel_json (lit "bob") (lit "alice") sid)]].

Lemma idle_daemon_holds_no_keys_witness :
  d_session_state (w_st (main_loop cancelled_inputs world0).2) = CHATD_SESSION_CLOSED
  ∧ crypto_clean (w_st (main_loop cancelled_inputs world0).2).
Proof.
  split; [vm_compute; reflexivity|].
  apply (idle_daemon_holds_no_keys world0 ∅ cancelled_inputs demo_start).
  - repeat constructor.
  - vm_compute. reflexivity.
Defined.

(** The handshake keeps the identifier it was started with in its own record,
    because [d_ice_session_id] does not last as long as the session: when the
    user opens a chat with somebody else while an encrypted session without an
    attached client is up, the request's identifier takes its place.  Bob's
    cancellation of the session in progress is then not recognised. *)
Definition open_other_inputs : list loop_input :=
  session_inputs ++
  [ {| in_ipc := {| in_accept := 7; in_poll := 1; in_poll_error := false; in_poll_in := true;
                    in_command := ReadData (lit "OPEN_CHAT carol" ++ [newline]) |};
       in_chat := ReadAgain; in_ice := []; in_flush := []; in_service := [flush];
       in_connect := true; in_connecting := [] |};
    turn [] [receive (chat_cancel_json (lit "bob") (lit "alice") sid)] ].

Lemma open_chat_replaces_session_id :
  let st := w_st (main_loop open_other_inputs world0).2 in
  d_encrypted_session_ready st = true ∧ d_ice_peer st = lit "bob"
  ∧ hs_session_id_len (d_crypto_handshake st) = len sid
  ∧ ztake (len sid) (hs_session_id (d_crypto_handshake st)) = sid
  ∧ d_ice_session_id st ≠ sid.
Proof. split_and!; [vm_compute; reflexivity..|vm_compute; discriminate]. Qed.
