(* ===== verification/DaemonStart.v ===== *)
(** * Start of the daemon (src/daemon/main.c, lines 123 to 249 and [main])

    The configuration of the ICE transport, the local socket and what [main]
    does before its loop.  [lws_parse_uri] is a parameter.  Theorems: a
    configuration that is accepted is well formed; [main] enters its loop in a
    state that satisfies the invariant of the daemon, and when it gives up it
    has wiped the secrets it had read and left no descriptor open. *)

From S2P Require Import Prelude CLib Protocol Sodium Base64 Json Identity FileSys IdentityStore.
From S2P Require Import Contacts Ipc Crypto Ice StateMonad DaemonState DaemonSession Daemon.
From S2P Require Import DaemonInv DaemonKeep DaemonKeepSession DaemonKeepMain DaemonDemo.
From S2P Require Import DaemonTheorems.

(** ** strtoul *)

Definition ULONG_MAX : Z := 2 ^ 64 - 1.
Definition isdigit (c : byte) : bool := (48 <=? byte_val c) && (byte_val c <=? 57).
Fixpoint digits (s : bytes) : bytes :=
  match s with
  | c :: s' => if isdigit c then c :: digits s' else []
  | [] => []
  end.
Definition decimal (s : bytes) : Z := fold_left (λ v c, v * 10 + (byte_val c - 48)) s 0.

(** [strtoul(s, &end, 10)]: white space, an optional sign, digits; the value
    and the text at [end].  [None] when there is no digit, which leaves
    [end == s].  A value out of range is [ULONG_MAX], a negative one wraps
    around. *)
Definition strtoul10 (s : bytes) : option (Z * bytes) :=
  let s := skip_space s in
  let '(negative, s) :=
    match s with
    | c :: s' =>
        if bool_decide (c = "-"%char) then (true, s')
        else if bool_decide (c = "+"%char) then (false, s') else (false, s)
    | [] => (false, s)
    end in
  match digits s with
  | [] => None
  | ds =>
      let v := decimal ds in
      Some (if v >? ULONG_MAX then ULONG_MAX
            else if (negative : bool) then (- v) mod (ULONG_MAX + 1) else v,
            drop (length ds) s)
  end.

(** ** Configuration of the transport *)

(** [out] is never NULL; the result is [*out]. *)
Definition parse_config_uint (value : cptr) : option Z :=
  match value with
  | None | Some [] => None
  | Some value =>
      match strtoul10 value with
      | Some (parsed, []) => if (parsed =? 0) || (parsed >? 65535) then None else Some parsed
      | _ => None
      end
  end.

Section start.
Context `{Libs}.

(** [-1], [0] or [1], with the string in [out] ([out] is not read after
    [-1]). *)
Definition load_optional_config_value (key : string) (out_size : Z) : stateM os (Z * bytes) := λ o,
  match chat_identity_load_config_value getenv (lit key) out_size o with
  | (inl CHAT_IDENTITY_ERR_NOT_FOUND, o) => (0, [], o)
  | (inl _, o) => (-1, [], o)
  | (inr value, o) => (1, value, o)
  end.

#[export] Instance config_settable : Settable chat_ice_config_t := λ c,
  Build_chat_ice_config_t (cfg_local_address c) (cfg_stun_host c) (cfg_stun_port c)
    (cfg_turn_host c) (cfg_turn_port c) (cfg_turn_username c) (cfg_turn_password c)
    (cfg_has_stun c) (cfg_has_turn c) (cfg_has_local_address c) (cfg_force_relay c).

(** The four parts of [load_ice_config]: the structure after it, [inl] when
    the result is [-1].  (An array whose own loading failed is given as
    empty.) *)
Abbreviation loading := (stateM os (chat_ice_config_t + chat_ice_config_t)).

Definition load_local_address (config : chat_ice_config_t) : loading :=
  address ← load_optional_config_value "ice_local_address" CHAT_ICE_HOST_MAX;
  let config := set_field cfg_local_address (λ _, address.2) config in
  mret (if address.1 <? 0 then inl config
        else if address.1 =? 1 then
          if bool_decide (address.2 = []) then inl config
          else inr (set_field cfg_has_local_address (λ _, true) config)
        else inr config).

Definition load_stun (config : chat_ice_config_t) : loading :=
  host ← load_optional_config_value "stun_server" CHAT_ICE_HOST_MAX;
  port ← load_optional_config_value "stun_port" 16;
  let config := set_field cfg_stun_host (λ _, host.2) config in
  mret (if (host.1 <? 0) || (port.1 <? 0) then inl config
        else if (host.1 =? 1) || (port.1 =? 1) then
          if negb (host.1 =? 1) || negb (port.1 =? 1) then inl config
          else match parse_config_uint (Some port.2) with
               | None => inl config
               | Some stun_port =>
                   inr (set_field cfg_has_stun (λ _, true)
                          (set_field cfg_stun_port (λ _, stun_port) config))
               end
        else inr config).

Definition wipe_turn_password (config : chat_ice_config_t) : chat_ice_config_t :=
  set_field cfg_turn_password (λ _, []) config.

Definition load_turn (config : chat_ice_config_t) : loading :=
  host ← load_optional_config_value "turn_server" CHAT_ICE_HOST_MAX;
  port ← load_optional_config_value "turn_port" 16;
  username ← load_optional_config_value "turn_username" CHAT_ICE_TURN_USERNAME_MAX;
  password ← load_optional_config_value "turn_password" CHAT_ICE_TURN_PASSWORD_MAX;
  let config :=
    set_field cfg_turn_password (λ _, password.2)
      (set_field cfg_turn_username (λ _, username.2)
         (set_field cfg_turn_host (λ _, host.2) config)) in
  mret (if (host.1 <? 0) || (port.1 <? 0) || (username.1 <? 0) || (password.1 <? 0)
        then inl config
        else if (host.1 =? 1) || (port.1 =? 1) || (username.1 =? 1) || (password.1 =? 1) then
          if negb (host.1 =? 1) || negb (port.1 =? 1) || negb (username.1 =? 1)
             || negb (password.1 =? 1) || bool_decide (username.2 = [])
             || bool_decide (password.2 = [])
          then inl (wipe_turn_password config)
          else match parse_config_uint (Some port.2) with
               | None => inl (wipe_turn_password config)
               | Some turn_port =>
                   inr (set_field cfg_has_turn (λ _, true)
                          (set_field cfg_turn_port (λ _, turn_port) config))
               end
        else inr config).

Definition load_force_relay (config : chat_ice_config_t) : loading :=
  force ← load_optional_config_value "ice_force_relay" 8;
  mret (if force.1 <? 0 then inl config
        else if force.1 =? 1 then
          if streq force.2 (lit "true") then
            if negb (cfg_has_turn config) then inl config
            else inr (set_field cfg_force_relay (λ _, true) config)
          else if negb (streq force.2 (lit "false")) then inl config else inr config
        else inr config).

(** The next part, unless the last one failed. *)
Definition and_then (m : loading) (k : chat_ice_config_t → loading) : loading :=
  r ← m;
  match r with
  | inl config => mret (inl config)
  | inr config => k config
  end.

Definition load_ice_config : loading :=
  and_then (load_local_address zero_config)
    (λ config, and_then (load_stun config)
       (λ config, and_then (load_turn config) load_force_relay)).

Definition wipe_ice_config (config : option chat_ice_config_t) : option chat_ice_config_t :=
  match config with
  | None => None
  | Some _ => Some zero_config
  end.

(** ** The server's address *)

(** [lws_parse_uri]: protocol, address, port and path. *)
Variable lws_parse_uri : bytes → option (bytes * bytes * Z * bytes).

Definition parse_server_url (url : bytes) : option (bytes * bytes * Z * bytes) :=
  match lws_parse_uri url with
  | None => None
  | Some (protocol, address, port, path) =>
      if negb (streq protocol (lit "ws")) && negb (streq protocol (lit "wss")) then None
      else Some (protocol, address, port, path)
  end.

(** ** The local socket *)

(** What the system and the libraries answer during the start: the
    descriptor of [socket] (negative: none), the results of [bind] and
    [listen], whether libwebsockets made its context and began the connection
    (with the callbacks it makes meanwhile), whether the mutex and the thread
    were created. *)
Record start_input := {
  in_mutex : bool;
  in_context : bool;
  in_begun : bool;
  in_callbacks : list chatd_reason;
  in_socket : Z;
  in_bind : bool;
  in_listen : bool;
  in_thread : bool;
}.

(** [chmod] on the socket's path; its result is ignored. *)
Definition chmod_path : D unit :=
  e ← env;
  e_os <~env (sys_simple (e_os e)).2.

Definition start_ipc_server (input : start_input) : D Z :=
  match chat_ipc_socket_path getenv SUN_PATH_SIZE with
  | inl _ => mret (-1)
  | inr socket_path =>
      fd ← sys_accept (in_socket input);
      if fd <? 0 then mret (-1)
      else
        unlink_path socket_path;;
        match snprintf SUN_PATH_SIZE socket_path with
        | None => sys_close fd;; mret (-1)
        | Some sun_path =>
            if negb (in_bind input) then sys_close fd;; mret (-1)
            else
              chmod_path;;
              if negb (in_listen input) then
                sys_close fd;; unlink_path socket_path;; mret (-1)
              else
                d_ipc_fd <~ fd;;
                mret 0
        end
  end.

(** ** [main] before the loop *)

Definition zero_identity : chat_identity_t :=
  {| id_username := []; id_public_key := zeros crypto_sign_PUBLICKEYBYTES;
     id_secret_key := zeros crypto_sign_SECRETKEYBYTES |}.

(** A computation on the files. *)
Definition with_os {A} (m : os → A * os) : D A :=
  e ← env;
  let '(a, o) := m (e_os e) in
  e_os <~env o;;
  mret a.

(** The clean-up of the error paths; [false] is the exit status 1. *)
Definition abandon_start : D bool :=
  st ← state;
  d_identity <~ default (d_identity st) (chat_identity_wipe (Some (d_identity st)));;
  d_ice_config <~ default (d_ice_config st) (wipe_ice_config (Some (d_ice_config st)));;
  mret false.

(** From the connection on. *)
Definition main_connect (input : start_input) (server_url : bytes) : D bool :=
  match parse_server_url server_url with
  | None => abandon_start
  | Some _ =>
      if negb (in_context input) then abandon_start
      else
        begun ← connect_control_server (in_begun input) (in_callbacks input);
        if negb begun then abandon_start
        else
          started ← start_ipc_server input;
          if negb (started =? 0) then abandon_start
          else if negb (in_thread input) then
            st ← state;
            sys_close (d_ipc_fd st);;
            unlink_socket;;
            abandon_start
          else mret true
  end.

(** [true] when the loop is entered. *)
Definition main_start (input : start_input) : D bool :=
  if sodium_init <? 0 then mret false
  else
    config ← with_os load_ice_config;
    match config with
    | inl config => d_ice_config <~ config;; mret false
    | inr config =>
        d_ice_config <~ config;;
        if negb (in_mutex input) then d_ice_config <~ zero_config;; mret false
        else
          loaded ← with_os (chat_identity_load getenv);
          match loaded with
          | inl _ => d_ice_config <~ zero_config;; mret false
          | inr loaded =>
              d_identity <~ loaded;;
              url ← with_os (chat_identity_load_server_url getenv CHAT_IDENTITY_SERVER_URL_MAX);
              match url with
              | inl _ => abandon_start
              | inr server_url =>
                  match snprintf CHAT_IDENTITY_SERVER_URL_MAX server_url with
                  | None => abandon_start
                  | Some _ => main_connect input server_url
                  end
              end
          end
    end.

(** ** Files are only read *)

Lemma join_fs {A B} (m : idM A) (k : A → idM B) o :
  os_fs (m o).2 = os_fs o → (∀ a o', os_fs (k a o').2 = os_fs o') →
  os_fs ((m ≫= k) o).2 = os_fs o.
Proof.
  intros Hm Hk. unfold mbind, idM_bind. destruct (m o) as [[e|a] o1]; [done|].
  by rewrite Hk.
Qed.

Lemma fopen_fs path o : os_fs (fopen_read path o).2 = os_fs o.
Proof. apply fopen_read_inv. Qed.

Lemma load_config_fs key size o :
  os_fs (chat_identity_load_config_value getenv key size o).2 = os_fs o.
Proof.
  unfold chat_identity_load_config_value. apply join_fs; [done|]. intros dir o1.
  apply join_fs; [done|]. intros path o2. unfold chat_load_quoted_config_value.
  pose proof (fopen_fs path o2) as Hf. destruct (fopen_read path o2) as [[[]|st] o3]; try done.
  cbn [snd] in Hf. by destruct (snprintf _ _); cbn [snd]; rewrite simple_fs.
Qed.

Lemma read_exact_fs path n o : os_fs (chat_read_exact_file path n o).2 = os_fs o.
Proof.
  unfold chat_read_exact_file, sys_open_read. pose proof (call_ok_fs o) as Hc.
  destruct (call_ok o) as [[] o1]; cbn [snd negb] in *; [|done].
  destruct (os_fs o1 !! path_of path) as [[|data m]|]; cbn; [done| |done].
  destruct (read_loop _ _ _) as [[e|[buffer extra]] faults]; cbn [snd]; [by rewrite simple_fs|].
  pose proof (next_fault_snd (with_faults o1 faults)) as Hn.
  destruct (next_fault _) as [[| n' | |] o2]; cbn [snd] in *; destruct extra; cbn [snd];
    rewrite simple_fs, Hn; done.
Qed.

Lemma load_identity_fs o : os_fs (chat_identity_load getenv o).2 = os_fs o.
Proof.
  unfold chat_identity_load. destruct (sodium_init <? 0); [done|].
  repeat (apply join_fs; [first [done | apply read_exact_fs | idtac]|intros]); [|done].
  unfold chat_load_username. pose proof (fopen_fs a2 o'2) as Hf.
  destruct (fopen_read a2 o'2) as [[[]|st] o3]; try done. cbn [snd] in *. by rewrite simple_fs.
Qed.

(** ** What a loaded identity satisfies *)

Lemma load_username_valid n st username :
  load_username_loop n st = inr username → chat_username_is_valid (Some username) = true.
Proof.
  revert st. induction n as [|n IH]; intros st; [done|]. cbn [load_username_loop].
  destruct (fgets 128 st) as [[line st']|]; [|by destruct (ferror st)].
  destruct (scan_username (c_string line)) as [parsed|]; [|apply IH].
  destruct (chat_username_is_valid (Some parsed)) eqn:Hv; cbn [negb]; [|done].
  intros [= <-]. unfold snprintf_buf. rewrite ztake_all; [done|].
  apply username_valid_len in Hv. unfold CHAT_USERNAME_MAX_LEN in *. lia.
Qed.

Lemma read_loop_len faults content n buffer extra faults' :
  0 ≤ n → read_loop faults content n = (inr (buffer, extra), faults') → len buffer = n.
Proof.
  revert content n buffer extra faults'.
  induction faults as [|f faults IH]; intros content n buffer extra faults' Hn; cbn.
  - case_if; [intros [= <- _ _]; by bdec|]. case_if; [done|]. intros [= <- _ _]. bdec.
    rewrite len_ztake by lia. lia.
  - case_if; [intros [= <- _ _]; by bdec|]. 
    destruct f as [|k| |]; [| |apply IH; lia|done];
      match goal with |- context [ztake ?n ?c] =>
        assert (Hg : len (ztake n c) ≤ n) by (rewrite len_ztake by lia; lia);
        destruct (ztake n c) as [|x got]; [done|] end;
      destruct (read_loop faults _ _) as [[e|[rest content']] fs] eqn:Er; try done;
      intros [= <- _ _]; (apply IH in Er; [|lia]); rewrite app_comm_cons, len_app, Er; lia.
Qed.

Lemma read_exact_len path n o buffer o' :
  0 ≤ n → chat_read_exact_file path n o = (inr buffer, o') → len buffer = n.
Proof.
  intros Hn. unfold chat_read_exact_file. destruct (sys_open_read path o) as [[[]|content] o1]; try done.
  destruct (read_loop _ _ _) as [[e|[b extra]] faults] eqn:Er; [done|].
  apply read_loop_len in Er; [|done].
  destruct (next_fault _) as [[| k | |] o2]; try done; destruct extra; try done; by intros [= <- _].
Qed.

Lemma loaded_identity o identity0 o' :
  chat_identity_load getenv o = (inr identity0, o') →
  chat_username_is_valid (Some (id_username identity0)) = true
  ∧ len (id_public_key identity0) = crypto_sign_PUBLICKEYBYTES.
Proof.
  unfold chat_identity_load. destruct (sodium_init <? 0); [done|]. intros E.
  do 4 (apply bind_inr in E as (? & ? & _ & E)).
  apply bind_inr in E as (username & o1 & Eu & E). apply bind_inr in E as (sk & o2 & _ & E).
  apply bind_inr in E as (pk & o3 & Ep & E). injection E as <- <-. cbn [id_username id_public_key].
  split; [|apply read_exact_len in Ep; [exact Ep|done]].
  revert Eu. unfold chat_load_username. destruct (fopen_read _ _) as [[[]|st] o4]; try done.
  intros Eu%(f_equal fst). exact (load_username_valid _ _ _ Eu).
Qed.

(** ** Well-formed configurations *)

(** The strings fit their arrays; what is switched on is usable. *)
Record config_ok (c : chat_ice_config_t) : Prop := {
  ok_strings : len (cfg_local_address c) < CHAT_ICE_HOST_MAX
    ∧ len (cfg_stun_host c) < CHAT_ICE_HOST_MAX ∧ len (cfg_turn_host c) < CHAT_ICE_HOST_MAX
    ∧ len (cfg_turn_username c) < CHAT_ICE_TURN_USERNAME_MAX
    ∧ len (cfg_turn_password c) < CHAT_ICE_TURN_PASSWORD_MAX;
  ok_local : cfg_has_local_address c = true → cfg_local_address c ≠ [];
  ok_stun : cfg_has_stun c = true → 1 ≤ cfg_stun_port c ≤ 65535;
  ok_turn : cfg_has_turn c = true →
    1 ≤ cfg_turn_port c ≤ 65535 ∧ cfg_turn_username c ≠ [] ∧ cfg_turn_password c ≠ [];
  ok_relay : cfg_force_relay c = true → cfg_has_turn c = true;
}.

Lemma strtoul10_range s v rest : strtoul10 s = Some (v, rest) → 0 ≤ v ≤ ULONG_MAX.
Proof.
  assert (Hd : ∀ ds v0, Forall (λ c, isdigit c = true) ds → 0 ≤ v0 →
    0 ≤ fold_left (λ v c, v * 10 + (byte_val c - 48)) ds v0).
  { induction ds as [|c ds IH]; intros v0 Hds Hv0; [done|]. cbn. apply Forall_cons in Hds as [Hc Hds].
    apply IH; [done|]. unfold isdigit in Hc. bdec. lia. }
  assert (Hs : ∀ t, Forall (λ c, isdigit c = true) (digits t)).
  { induction t as [|c t IH]; cbn; [constructor|]. destruct (isdigit c) eqn:Ec; by constructor. }
  unfold strtoul10. destruct (match skip_space s with [] => _ | _ => _ end) as [negative t].
  specialize (Hs t). destruct (digits t) as [|c ds]; [done|]. intros [= <- _].
  specialize (Hd (c :: ds) 0 Hs ltac:(lia)). fold (decimal (c :: ds)) in Hd.
  destruct (decimal (c :: ds) >? ULONG_MAX) eqn:E; [done|].
  destruct negative; [|unfold ULONG_MAX in *; bdec; lia].
  pose proof (Z.mod_pos_bound (- decimal (c :: ds)) (ULONG_MAX + 1)). unfold ULONG_MAX in *. lia.
Qed.

Lemma parse_uint_range value v : parse_config_uint value = Some v → 1 ≤ v ≤ 65535.
Proof.
  unfold parse_config_uint. destruct value as [[|c value]|]; try done.
  destruct (strtoul10 (c :: value)) as [[parsed [|d rest]]|] eqn:E; try done.
  apply strtoul10_range in E. case_if; [done|]. intros [= <-]. bdec. lia.
Qed.

Lemma load_value_fits n prefix size st value :
  load_value_loop n prefix size st = inr value → len value < size.
Proof.
  revert st. induction n as [|n IH]; intros st; [done|]. cbn [load_value_loop].
  destruct (fgets 512 st) as [[line st']|]; [|by destruct (ferror st)].
  destruct (has_prefix prefix (c_string line)); cbn [negb]; [|apply IH].
  destruct (strchr _ _); [|done]. unfold chat_copy_string. intros E.
  repeat case_match; simplify_eq; try done.
  match goal with Hs : snprintf _ _ = Some _ |- _ => by apply snprintf_eq in Hs as [-> ?] end.
Qed.

Lemma load_optional_facts key size o code value o' :
  0 < size → load_optional_config_value key size o = (code, value, o') →
  len value < size ∧ os_fs o' = os_fs o.
Proof.
  intros Hs. unfold load_optional_config_value.
  pose proof (load_config_fs (lit key) size o) as Hf.
  destruct (chat_identity_load_config_value getenv (lit key) size o) as [[e|v] o1] eqn:E.
  - by destruct e; intros [= <- <- <-].
  - intros [= <- <- <-]. split; [|done]. revert E. unfold chat_identity_load_config_value. intros E.
    do 2 (apply bind_inr in E as (? & ? & _ & E)). unfold chat_load_quoted_config_value in E.
    destruct (fopen_read _ _) as [[[]|st] o2]; try done.
    destruct (snprintf _ _); [|done]. apply (f_equal fst) in E.
    exact (load_value_fits _ _ _ _ _ E).
Qed.

(** A part of the loading: files are not changed, and a result satisfies
    [Q]. *)
Definition loads (m : loading) (Q : chat_ice_config_t → Prop) : Prop :=
  ∀ o r o', m o = (r, o') → os_fs o' = os_fs o ∧ ∀ c, r = inr c → Q c.

Lemma loads_then m k (Q R : chat_ice_config_t → Prop) :
  loads m Q → (∀ c, Q c → loads (k c) R) → loads (and_then m k) R.
Proof.
  intros Hm Hk o r o'. unfold and_then. run. destruct (m o) as [[c|c] o1] eqn:Em.
  - intros [= <- <-]. destruct (Hm _ _ _ Em) as [Hf _]. by split.
  - destruct (Hm _ _ _ Em) as [Hf HQ]. intros E. destruct (Hk c (HQ c eq_refl) _ _ _ E) as [Hf' HR].
    split; [congruence|done].
Qed.

(** Step over one optional value. *)
Lemma loads_value key size (k : Z * bytes → loading) Q :
  0 < size → (∀ code value, len value < size → loads (k (code, value)) Q) →
  loads (load_optional_config_value key size ≫= k) Q.
Proof.
  intros Hs Hk o r o'. unfold mbind, stateM_bind.
  destruct (load_optional_config_value key size o) as [[code value] o1] eqn:E.
  destruct (load_optional_facts _ _ _ _ _ _ Hs E) as [Hl Hf]. intros Er.
  destruct (Hk code value Hl _ _ _ Er) as [Hf' HQ]. split; [congruence|done].
Qed.
Lemma loads_ret r (Q : chat_ice_config_t → Prop) : (∀ c, r = inr c → Q c) → loads (mret r) Q.
Proof. intros HQ o r' o' [= <- <-]. by split. Qed.

(** Well formed, without the parts that [b] says are still to come. *)
Definition loaded (stun turn : bool) (c : chat_ice_config_t) : Prop :=
  config_ok c ∧ (stun = false → cfg_has_stun c = false)
  ∧ (turn = false → cfg_has_turn c = false) ∧ cfg_force_relay c = false.

Lemma load_local_address_ok : loads (load_local_address zero_config) (loaded false false).
Proof.
  apply loads_value; [done|]. intros code value Hl. apply loads_ret. intros c. cbn [fst snd].
  case_if; [done|]. case_if; [case_if; [done|]|]; intros [= <-].
  all: split; [split; [by split_and!|done..]|by split_and!].
Qed.

Lemma load_stun_ok c : loaded false false c → loads (load_stun c) (loaded true false).
Proof.
  intros ([(S1 & S2 & S3) Hl Hs Ht Hr] & Hns & Hnt & Hnr).
  apply loads_value; [done|]. intros code host Hh. apply loads_value; [done|].
  intros code' port Hp. apply loads_ret. intros c'. cbn [fst snd].
  case_if; [done|]. case_if; [case_if; [done|]|].
  - destruct (parse_config_uint (Some port)) as [v|] eqn:Ev; [|done].
    apply parse_uint_range in Ev. intros [= <-].
    split; [split; [by split|exact Hl|intros _; exact Ev|exact Ht|exact Hr]|by split_and!].
  - intros [= <-].
    split; [split; [by split|exact Hl|exact Hs|exact Ht|exact Hr]|by split_and!].
Qed.

Lemma load_turn_ok c : loaded true false c → loads (load_turn c) (loaded true true).
Proof.
  intros ([(S1 & S2 & _) Hl Hs Ht Hr] & Hns & Hnt & Hnr).
  apply loads_value; [done|]. intros code host Hh. apply loads_value; [done|].
  intros code' port Hp. apply loads_value; [done|]. intros code2 user Hu.
  apply loads_value; [done|]. intros code3 password Hw. apply loads_ret. intros c'. cbn [fst snd].
  case_if; [done|]. case_if; [case_if; [done|]|].
  - destruct (parse_config_uint (Some port)) as [v|] eqn:Ev; [|done].
    apply parse_uint_range in Ev. intros [= <-].
    split; [split; [by split_and!|exact Hl|exact Hs|by intros _|done]|by split_and!].
  - specialize (Hnt eq_refl). intros [= <-].
    split; [split; [by split_and!|exact Hl|exact Hs|intros Hx|exact Hr]|by split_and!].
    change (cfg_has_turn c = true) in Hx. congruence.
Qed.

Lemma load_force_relay_ok c : loaded true true c → loads (load_force_relay c) config_ok.
Proof.
  intros ([S Hl Hs Ht Hr] & Hns & Hnt & Hnr).
  apply loads_value; [done|]. intros code value Hv. apply loads_ret. intros c'. cbn [fst snd].
  case_if; [done|]. case_if; [case_if; [case_if; [done|]|case_if; [done|]]|]; intros [= <-];
    split; try done.
Qed.

Lemma load_ice_config_loads : loads load_ice_config config_ok.
Proof.
  unfold load_ice_config. eapply loads_then; [apply load_local_address_ok|]. intros c1 H1.
  eapply loads_then; [by apply load_stun_ok|]. intros c2 H2.
  eapply loads_then; [by apply load_turn_ok|]. apply load_force_relay_ok.
Qed.

(** ** The start of [main] *)

(** No file changes, except that the one at the socket's path is removed. *)
Definition is_socket (k : path) : Prop :=
  ∃ p, chat_ipc_socket_path getenv SUN_PATH_SIZE = inr p ∧ k = path_of p.
Definition files_kept (o o' : os) : Prop :=
  os_fs o' ⊆ os_fs o ∧ ∀ k, ¬ is_socket k → os_fs o' !! k = os_fs o !! k.

Lemma kept_fs o o1 o2 : files_kept o o1 → os_fs o2 = os_fs o1 → files_kept o o2.
Proof. intros [Hs Hk] E. split; by rewrite E. Qed.
Lemma kept_refl o : files_kept o o.
Proof. done. Qed.
Lemma kept_unlink o o1 p :
  files_kept o o1 → chat_ipc_socket_path getenv SUN_PATH_SIZE = inr p →
  files_kept o (sys_unlink p o1).2.
Proof.
  intros [Hs Hk] Hp. unfold sys_unlink. pose proof (call_ok_fs o1) as Hc.
  destruct (call_ok o1) as [[] o2]; cbn [snd] in *; [|by eapply kept_fs].
  split; cbn [os_fs with_fs]; rewrite Hc.
  - etransitivity; [apply delete_subseteq|done].
  - intros k Hn. rewrite lookup_delete_ne; [by apply Hk|]. intros Heq. apply Hn. exists p. by rewrite Heq.
Qed.
Lemma kept_text o o' db : files_kept o o' → text_file db o → text_file db o'.
Proof.
  intros [Hs _]. unfold text_file, file_content.
  destruct (os_fs o' !! path_of db) as [n|] eqn:E; [|done].
  by rewrite (lookup_weaken _ _ _ _ E Hs).
Qed.

(** What [main] begins with: a zeroed structure and no descriptor. *)
Record boot (w : world) : Prop := {
  boot_state : w_st w = chatd_initial zero_identity zero_config (-1);
  boot_fds : e_fds (w_env w) = ∅;
  boot_stale : e_stale (w_env w) = false;
}.

(** On the way to the loop, from [w0]. *)
Record starting (w0 : world) (id : chat_identity_t) (config : chat_ice_config_t) (fds : gmap Z bytes)
    (ipc_fd : Z) (w : world) : Prop := {
  starting_state : ∃ again t, w_st w = loop_state id config ipc_fd again t;
  starting_fds : e_fds (w_env w) = fds;
  starting_stale : e_stale (w_env w) = false;
  starting_files : files_kept (e_os (w_env w0)) (e_os (w_env w));
  starting_nice : e_nice (w_env w) = e_nice (w_env w0);
}.

(** The callbacks libwebsockets makes before a connection is up. *)
Definition connecting_callback (reason : chatd_reason) : Prop :=
  reason = LWS_CALLBACK_CLIENT_CONNECTION_ERROR ∨ reason = LWS_CALLBACK_CLIENT_OTHER.

Lemma connecting_step w0 id config fds reason w :
  connecting_callback reason → starting w0 id config fds (-1) w →
  starting w0 id config fds (-1) (callback_chatd_control reason w).2.
Proof.
  intros [->| ->] Hw; [|done]. destruct Hw as [(again & t & Hst) Hf Hs Hk Hn].
  unfold callback_chatd_control, control_lost, time_now, when. run.
  match goal with |- context [set_field w_st (set_field d_next_reconnect_at ?f) ?w1] =>
    set (w2 := set_field w_st (set_field d_next_reconnect_at f) w1) end.
  assert (Hl : d_lookup_client_fd (w_st w2) = -1).
  { change (d_lookup_client_fd (w_st w) = -1). by rewrite Hst. }
  rewrite Hl. change (-1 >=? 0) with false. cbn [andb snd].
  split; [|exact Hf|exact Hs|exact Hk|exact Hn].
  exists true, (e_clock (w_env w) (e_ticks (w_env w)) + CHATD_RECONNECT_SECONDS).
  unfold w2. cbn [w_st set_field]. rewrite Hst. reflexivity.
Qed.

Lemma connecting_keeps w0 id config fds reasons w :
  Forall connecting_callback reasons → starting w0 id config fds (-1) w →
  starting w0 id config fds (-1) (lws_service reasons w).2.
Proof.
  intros Hr. revert w. induction Hr as [|reason reasons Hc _ IH]; intros w Hw; [done|].
  unfold lws_service in *. cbn [mfor]. unfold mbind, stateM_bind.
  pose proof (connecting_step _ _ _ _ reason w Hc Hw) as Hw1.
  destruct (callback_chatd_control reason w) as [r w1]. exact (IH w1 Hw1).
Qed.

Lemma with_os_eval {A} (m : os → A * os) w :
  with_os m w = ((m (e_os (w_env w))).1,
                 set_field w_env (set_field e_os (λ _, (m (e_os (w_env w))).2)) w).
Proof. unfold with_os. run. by destruct (m (e_os (w_env w))). Qed.

Lemma abandon_start_ok w0 id config w :
  starting w0 id config ∅ (-1) w →
  (abandon_start w).1 = false
  ∧ starting w0 (default id (chat_identity_wipe (Some id))) zero_config ∅ (-1) (abandon_start w).2.
Proof.
  intros [(again & t & Hst) Hf Hs Hk Hn]. unfold abandon_start. run. rewrite Hst. split; [done|].
  split; [|done..]. exists again, t. fields. by rewrite Hst.
Qed.

(** Steps on the way: the socket is closed again, its path is removed. *)
Lemma close_again w0 id config fd w :
  starting w0 id config {[fd := []]} (-1) w → starting w0 id config ∅ (-1) (sys_close fd w).2.
Proof.
  intros [Hst Hf Hs Hk Hn]. unfold sys_close. run. rewrite Hf, lookup_singleton_eq. run.
  split; [done| |done..]. fields. rewrite ?Hf. apply delete_singleton_eq.
Qed.
Lemma unlink_again w0 id config fds fd p w :
  starting w0 id config fds fd w → chat_ipc_socket_path getenv SUN_PATH_SIZE = inr p →
  starting w0 id config fds fd (unlink_path p w).2.
Proof.
  intros [Hst Hf Hs Hk Hn] Hp. unfold unlink_path. run. split; [done..| |done].
  by apply kept_unlink.
Qed.

(** The listening socket: a new descriptor, or nothing. *)
Lemma ipc_server_ok w0 id config input w :
  starting w0 id config ∅ (-1) w →
  (∃ fd, (start_ipc_server input w).1 = 0 ∧ 0 ≤ fd
         ∧ starting w0 id config {[fd := []]} fd (start_ipc_server input w).2)
  ∨ ((start_ipc_server input w).1 = -1
     ∧ starting w0 id config ∅ (-1) (start_ipc_server input w).2).
Proof.
  intros Hw. unfold start_ipc_server, sys_accept.
  destruct (chat_ipc_socket_path getenv SUN_PATH_SIZE) as [e|p] eqn:Ep; [by right|].
  run. rewrite (starting_fds _ _ _ _ _ _ Hw), lookup_empty.
  rewrite (bool_decide_false (is_Some None)) by by intros []. rewrite orb_false_r.
  destruct (in_socket input <? 0) eqn:Ei; run; [by right|]. rewrite Ei, insert_empty.
  set (fd := in_socket input) in *.
  match goal with |- context [unlink_path p ?w1] => set (w1' := w1) end.
  assert (Hw1 : starting w0 id config {[fd := []]} (-1) w1') by (destruct Hw; by split).
  pose proof (unlink_again _ _ _ _ _ _ _ Hw1 Ep) as Hw2.
  destruct (unlink_path p w1') as [[] w2]. cbn [snd] in Hw2.
  assert (Hc : ∀ w, starting w0 id config {[fd := []]} (-1) w →
    starting w0 id config ∅ (-1) (sys_close fd w).2) by apply close_again.
  destruct (snprintf SUN_PATH_SIZE p); run;
    [|right; specialize (Hc _ Hw2); by destruct (sys_close fd w2) as [[] ?]].
  destruct (in_bind input); cbn [negb];
    [|right; specialize (Hc _ Hw2); by destruct (sys_close fd w2) as [[] ?]].
  unfold chmod_path. run.
  match goal with |- context [set_field w_env ?f w2] => set (w3 := set_field w_env f w2) end.
  assert (Hw3 : starting w0 id config {[fd := []]} (-1) w3).
  { destruct Hw2 as [Hst Hf Hs Hk Hn]. split; [done..| |done]. by eapply kept_fs, simple_fs. }
  destruct (in_listen input); cbn [negb].
  - left. exists fd. bdec. split; [done|]. split; [done|].
    destruct Hw3 as [(again & t & Hst) Hf Hs Hk Hn]. split; [|done..]. exists again, t.
    cbn [snd]. fields. by rewrite Hst.
  - right. specialize (Hc _ Hw3). destruct (sys_close fd w3) as [[] w4]. cbn [snd] in Hc.
    pose proof (unlink_again _ _ _ _ _ _ _ Hc Ep) as Hw5. by destruct (unlink_path p w4) as [[] w5].
Qed.

(** The two outcomes of the start. *)
Definition entered (w0 w : world) : Prop :=
  ∃ id config fd, starting w0 id config {[fd := []]} fd w ∧ 0 ≤ fd ∧ config_ok config
    ∧ chat_username_is_valid (Some (id_username id)) = true
    ∧ len (id_public_key id) = crypto_sign_PUBLICKEYBYTES.
Definition ended (w0 w : world) : Prop :=
  ∃ id config ipc_fd, starting w0 id config ∅ ipc_fd w
    ∧ id_secret_key id = zeros crypto_sign_SECRETKEYBYTES
    ∧ (∀ c, (load_ice_config (e_os (w_env w0))).1 = inr c → config = zero_config).
Definition outcome (w0 : world) (m : D bool) (w : world) : Prop :=
  (if (m w).1 then entered w0 else ended w0) (m w).2.

Lemma abandon_start_outcome w0 id config w :
  starting w0 id config ∅ (-1) w → outcome w0 abandon_start w.
Proof.
  intros Hw. destruct (abandon_start_ok _ _ _ _ Hw) as [Hr Hs]. unfold outcome. rewrite Hr.
  by eexists _, _, _.
Qed.

Lemma close_listener w0 id config fd w :
  0 ≤ fd → starting w0 id config {[fd := []]} fd w →
  starting w0 id config ∅ fd (sys_close fd w).2.
Proof.
  intros Hfd [Hst Hf Hs Hk Hn]. unfold sys_close. run. rewrite Hf, lookup_singleton_eq. run.
  split; [done| |done..]. fields. rewrite ?Hf. apply delete_singleton_eq.
Qed.

Lemma connect_outcome w0 id config input url w :
  Forall connecting_callback (in_callbacks input) → config_ok config →
  chat_username_is_valid (Some (id_username id)) = true →
  len (id_public_key id) = crypto_sign_PUBLICKEYBYTES →
  starting w0 id config ∅ (-1) w → outcome w0 (main_connect input url) w.
Proof.
  intros Hcb Hcfg Hu Hp Hw. unfold main_connect.
  destruct (parse_server_url url); [|by eapply abandon_start_outcome].
  destruct (in_context input); cbn [negb]; [|by eapply abandon_start_outcome].
  unfold outcome, connect_control_server. run.
  match goal with |- context [lws_service _ ?w1] => set (w1' := w1) end.
  assert (Hw1 : starting w0 id config ∅ (-1) w1').
  { destruct Hw as [(again & t & Hst) Hf Hs Hk Hn]. split; [|done..]. exists false, t.
    unfold w1'. cbn [w_st set_field]. by rewrite Hst. }
  pose proof (connecting_keeps _ _ _ _ _ _ Hcb Hw1) as Hw2.
  destruct (lws_service (in_callbacks input) w1') as [[] w2]. cbn [snd] in Hw2.
  destruct (in_begun input); cbn [negb]; [|by eapply abandon_start_outcome].
  destruct (ipc_server_ok _ _ _ input _ Hw2) as [(fd & Hr & Hfd & Hw3)|[Hr Hw3]].
  all: destruct (start_ipc_server input w2) as [r w3]; cbn [fst snd] in *; subst r; cbn [negb Z.eqb].
  - change (0 =? 0) with true. cbn [negb].
    destruct (in_thread input); cbn [negb]; run; [by exists id, config, fd|].
    destruct (starting_state _ _ _ _ _ _ Hw3) as (again & t & Hst).
    assert (Hfd' : d_ipc_fd (w_st w3) = fd) by by rewrite Hst. rewrite Hfd'.
    pose proof (close_listener _ _ _ _ _ Hfd Hw3) as Hw4.
    destruct (sys_close fd w3) as [[] w4]. cbn [snd] in Hw4.
    assert (Hw5 : starting w0 id config ∅ fd (unlink_socket w4).2).
    { unfold unlink_socket. destruct (chat_ipc_socket_path getenv SUN_PATH_SIZE) eqn:Ep; [done|].
      by apply unlink_again. }
    destruct (unlink_socket w4) as [[] w5]. cbn [snd] in Hw5.
    destruct Hw5 as [(again' & t' & Hst') Hf Hs Hk Hn]. unfold abandon_start. run. rewrite Hst'.
    exists (default id (chat_identity_wipe (Some id))), zero_config, fd. split; [|done].
    split; [|done..]. exists again', t'. cbn [w_st set_field]. by rewrite Hst'.
  - change (-1 =? 0) with false. by eapply abandon_start_outcome.
Qed.

Lemma start_outcome input w :
  boot w → Forall connecting_callback (in_callbacks input) → outcome w (main_start input) w.
Proof.
  intros [Hst Hf Hs] Hcb.
  assert (Hw : starting w zero_identity zero_config ∅ (-1) w).
  { split; [|done..]. exists false, 0. by rewrite Hst. }
  unfold main_start. destruct (sodium_init <? 0);
    [by exists zero_identity, zero_config, (-1)|].
  unfold outcome. run. rewrite with_os_eval.
  pose proof (load_ice_config_loads (e_os (w_env w))) as Hl.
  destruct (load_ice_config (e_os (w_env w))) as [config o1] eqn:El. cbn [fst snd].
  destruct (Hl _ _ eq_refl) as [Hfs Hok]. clear Hl.
  assert (Hk1 : files_kept (e_os (w_env w)) o1) by by eapply kept_fs.
  destruct config as [config|config].
  { exists zero_identity, config, (-1). rewrite El. split; [|done]. split; [|done..].
    exists false, 0. cbn [w_st set_field snd]. by rewrite Hst. }
  specialize (Hok _ eq_refl). run.
  destruct (in_mutex input); cbn [negb]; run.
  2:{ exists zero_identity, zero_config, (-1). split; [|done]. split; [|done..]. exists false, 0.
      cbn [w_st set_field]. by rewrite Hst. }
  rewrite with_os_eval. cbn [w_env set_field e_os].
  pose proof (load_identity_fs o1) as Hfs2.
  destruct (chat_identity_load getenv o1) as [[e|id] o2] eqn:Ei; cbn [fst snd] in *; run.
  { exists zero_identity, zero_config, (-1). split; [|done]. split; [|done..|by eapply kept_fs|done].
    exists false, 0. cbn [w_st set_field]. by rewrite Hst. }
  destruct (loaded_identity _ _ _ Ei) as [Hu Hp].
  rewrite with_os_eval. cbn [w_env set_field e_os].
  pose proof (load_config_fs (lit "server_url") CHAT_IDENTITY_SERVER_URL_MAX o2) as Hfs3.
  fold (chat_identity_load_server_url getenv CHAT_IDENTITY_SERVER_URL_MAX) in Hfs3.
  destruct (chat_identity_load_server_url getenv CHAT_IDENTITY_SERVER_URL_MAX o2) as [url o3].
  cbn [fst snd] in *.
  match goal with |- context [set_field w_env (set_field e_os (λ _, o3)) ?w1] =>
    set (w2 := set_field w_env (set_field e_os (λ _, o3)) w1) end.
  assert (Hw2 : starting w id config ∅ (-1) w2).
  { split; [|done..| |done].
    - exists false, 0. unfold w2. cbn [w_st set_field]. by rewrite Hst.
    - eapply kept_fs; [exact Hk1|]. cbn. congruence. }
  clearbody w2.
  destruct url as [e|url]; [by eapply abandon_start_outcome|].
  destruct (snprintf _ _); [by apply (connect_outcome w id config)|by eapply abandon_start_outcome].
Qed.

(** ** The theorems *)

Context `{!LibsOk}.

Lemma entered_start_ok w A w' :
  (∀ db, contacts_path getenv 1024 = inr db → text_file db (e_os (w_env w))) →
  nice_agents (e_nice (w_env w)) = A → entered w w' → start_ok w' A.
Proof.
  intros Ht Ha (id & config & fd & [(again & t & Hst) Hf Hs Hk Hn] & Hfd & _ & Hu & Hp).
  split; [|done| |by rewrite Hn].
  - exists id, config, fd, again, t. split_and!; [done..|]. unfold open_fds.
    by rewrite Hf, dom_singleton_L, fd_set_nonneg.
  - intros db Hdb. by eapply kept_text, Ht.
Qed.

(** C31: [main] enters its loop only with a valid identity (a valid name and a
    32-byte public key), a well-formed transport configuration (the strings
    fit their arrays, ports are in range, a relay is forced only when there
    is one), the listening socket as its only descriptor, and without having
    changed any file but the one at the socket's path: the state from which
    the theorems on the loop start. *)
Theorem main_enters_loop w A input :
  boot w → Forall connecting_callback (in_callbacks input) →
  (∀ db, contacts_path getenv 1024 = inr db → text_file db (e_os (w_env w))) →
  nice_agents (e_nice (w_env w)) = A →
  (main_start input w).1 = true →
  let w' := (main_start input w).2 in
  start_ok w' A ∧ config_ok (d_ice_config (w_st w'))
  ∧ files_kept (e_os (w_env w)) (e_os (w_env w')).
Proof.
  intros Hb Hcb Ht Ha Hr. pose proof (start_outcome input w Hb Hcb) as Ho.
  unfold outcome in Ho. rewrite Hr in Ho. split; [by eapply entered_start_ok|].
  destruct Ho as (id & config & fd & [(again & t & Hst) _ _ Hk _] & _ & Hc & _).
  split; [|done]. by rewrite Hst.
Qed.

(** The whole program: start, loop, clean-up. *)
Definition chatd_main (input : start_input) (inputs : list loop_input) : D Z :=
  entered ← main_start input;
  if (entered : bool) then main_loop inputs;; main_shutdown else mret 1.

(** C12: whether the start fails (at any of its steps) or the daemon runs and
    ends, after any run the program has closed every socket it opened or
    accepted, each exactly once, released its ICE agent, and wiped the session's key
    material, the identity's secret key and (unless it refused the transport
    configuration itself) the TURN password. *)
Theorem daemon_releases_everything w A input inputs :
  boot w → Forall connecting_callback (in_callbacks input) → Forall input_ok inputs →
  (∀ db, contacts_path getenv 1024 = inr db → text_file db (e_os (w_env w))) →
  nice_agents (e_nice (w_env w)) = A →
  let w' := (chatd_main input inputs w).2 in
  e_fds (w_env w') = ∅ ∧ e_stale (w_env w') = false
  ∧ nice_agents (e_nice (w_env w')) = A
  ∧ crypto_clean (w_st w')
  ∧ id_secret_key (d_identity (w_st w')) = zeros crypto_sign_SECRETKEYBYTES
  ∧ (∀ c, (load_ice_config (e_os (w_env w))).1 = inr c →
          cfg_turn_password (d_ice_config (w_st w')) = []).
Proof.
  intros Hb Hcb Hi Ht Ha. pose proof (start_outcome input w Hb Hcb) as Ho.
  unfold outcome in Ho. unfold chatd_main. run.
  destruct (main_start input w) as [[] w1]; cbn [fst snd] in *.
  - apply (entered_start_ok _ A) in Ho; [|done..].
    pose proof (shutdown_releases w1 A inputs Ho Hi) as Hs.
    destruct (main_loop inputs w1) as [[] w2]. destruct Hs as (S1 & S2 & S3 & S4 & S5 & S6).
    by split_and!.
  - destruct Ho as (id & config & fd & [(again & t & Hst) Hf Hs _ Hn] & Hsk & Hz).
    rewrite Hst, Hn. split_and!; [done..|]. intros c Hc. by rewrite (Hz c Hc).
Qed.
End start.

(** ** The theorems on a start *)

Import Demo.

(** alice's files, with the [settings] of the transport. *)
Definition demo_config (settings : bytes) : bytes :=
  config_text (lit "alice") (lit "ws://chat.example:9000/") ++ settings.
Definition turn_settings (force_relay : string) : bytes :=
  qlit "turn_server = 'turn.example'" ++ [newline] ++ qlit "turn_port = '3478'" ++ [newline]
  ++ qlit "turn_username = 'alice'" ++ [newline] ++ qlit "turn_password = 'secret'" ++ [newline]
  ++ qlit "ice_force_relay = '" ++ lit force_relay ++ [dquote; newline].
Definition demo_file (name : string) : path := path_of (lit "/home/a/.chat/" ++ lit name).
Definition demo_files (settings : bytes) : os :=
  {| os_fs := <[demo_file "config.toml" := File (demo_config settings) 384]>
                (<[demo_file "identity.key" := File (id_secret_key alice) 384]>
                   {[demo_file "identity.pub" := File (id_public_key alice) 420]});
     os_faults := []; os_suffix := lit "abcdef" |}.
Definition boot_world (settings : bytes) : world :=
  {| w_st := chatd_initial zero_identity zero_config (-1);
     w_env := set_field e_os (λ _, demo_files settings) (set_field e_fds (λ _, ∅) env0) |}.
Definition demo_parse_uri (url : bytes) : option (bytes * bytes * Z * bytes) :=
  Some (lit "ws", lit "chat.example", 9000, lit "/").
Definition demo_start_input (thread : bool) : start_input :=
  {| in_mutex := true; in_context := true; in_begun := true;
     in_callbacks := [LWS_CALLBACK_CLIENT_CONNECTION_ERROR]; in_socket := 3; in_bind := true;
     in_listen := true; in_thread := thread |}.

Lemma demo_boot settings : boot (boot_world settings).
Proof. done. Qed.
Lemma demo_text settings db :
  contacts_path getenv 1024 = inr db → text_file db (demo_files settings).
Proof.
  intros Hdb. assert (db = demo_db) as ->.
  { pose proof demo_db_path as E. change (@getenv reference_libs) with demo_env in Hdb. congruence. }
  vm_compute. exact I.
Qed.

Abbreviation started_world :=
  (main_start demo_parse_uri (demo_start_input true) (boot_world (turn_settings "true"))).2.
Lemma main_enters_loop_witness :
  start_ok started_world ∅ ∧ cfg_force_relay (d_ice_config (w_st started_world)) = true
  ∧ cfg_turn_port (d_ice_config (w_st started_world)) = 3478.
Proof.
  split; [|split; vm_compute; reflexivity].
  refine (proj1 (main_enters_loop demo_parse_uri (boot_world (turn_settings "true")) ∅
    (demo_start_input true) (demo_boot _) _ (demo_text _) eq_refl _)).
  - constructor; [by left|constructor].
  - vm_compute. reflexivity.
Defined.

Abbreviation demo_main thread inputs :=
  (chatd_main demo_parse_uri (demo_start_input thread) inputs (boot_world [])).
Lemma demo_callbacks thread : Forall connecting_callback (in_callbacks (demo_start_input thread)).
Proof. constructor; [by left|constructor]. Qed.
Lemma daemon_releases_everything_witness :
  (demo_main true session_inputs).1 = 0 ∧ (demo_main false []).1 = 1
  ∧ e_fds (w_env (demo_main true session_inputs).2) = ∅
  ∧ e_fds (w_env (demo_main false []).2) = ∅.
Proof.
  split; [vm_compute; reflexivity|]. split; [vm_compute; reflexivity|]. split.
  - exact (proj1 (daemon_releases_everything demo_parse_uri (boot_world []) ∅ (demo_start_input true)
      session_inputs (demo_boot _) (demo_callbacks _) demo_inputs_ok (demo_text _) eq_refl)).
  - exact (proj1 (daemon_releases_everything demo_parse_uri (boot_world []) ∅ (demo_start_input false)
      [] (demo_boot _) (demo_callbacks _) (List.Forall_nil _) (demo_text _) eq_refl)).
Defined.

(** A refused configuration is not wiped: the TURN password stays in memory. *)
Lemma refused_config_keeps_password :
  (main_start demo_parse_uri (demo_start_input true) (boot_world (turn_settings "yes"))).1 = false
  ∧ cfg_turn_password (d_ice_config (w_st (main_start demo_parse_uri (demo_start_input true)
      (boot_world (turn_settings "yes"))).2)) = lit "secret".
Proof. split; vm_compute; reflexivity. Qed.
