(* ===== verification/DaemonDelivery.v ===== *)
(** * Messages from one daemon to the other

    Two daemons with an established session: what one sends with
    [send_encrypted_chat_message] is what the other writes to its client.
    Also what happens to messages that are too long for a packet or for a
    line of the client. *)

From S2P Require Import Prelude CLib Protocol Sodium Base64 Json Identity FileSys IdentityStore.
From S2P Require Import Contacts Ipc Crypto Ice StateMonad DaemonState DaemonSession Daemon.

Section delivery.
Context `{LibsOk}.

(** ** Sending *)

(** An established session. *)
Definition established (w : world) : Prop :=
  d_encrypted_session_ready (w_st w) = true ∧ d_session_state (w_st w) = CHATD_SESSION_SECURE.

(** The stream after a message was encrypted or decrypted. *)
Definition with_push (s : chat_crypto_secretstream_t) (p : secretstream_state) :=
  {| st_push := p; st_pull := st_pull s; st_push_initialized := st_push_initialized s;
     st_pull_initialized := st_pull_initialized s |}.
Definition with_pull (s : chat_crypto_secretstream_t) (p : secretstream_state) :=
  {| st_push := st_push s; st_pull := p; st_push_initialized := st_push_initialized s;
     st_pull_initialized := st_pull_initialized s |}.

Definition set_stream (s : chat_crypto_secretstream_t) (w : world) : world :=
  set_field w_st (set_field d_crypto_stream (λ _, s)) w.

Lemma encrypt_eval s m c p :
  st_push_initialized s = true → len m + CHAT_CRYPTO_STREAM_ABYTES ≤ CHAT_MAX_MESSAGE_SIZE →
  secretstream_push (st_push s) m TAG_MESSAGE = Some (c, p) →
  chat_crypto_secretstream_encrypt (Some s) (Some m) (len m) false
    (Some (scratch CHAT_MAX_MESSAGE_SIZE)) (Some 0)
  = (CHAT_CRYPTO_OK, Some (with_push s p), Some (blit (scratch CHAT_MAX_MESSAGE_SIZE) c),
     Some (len c)).
Proof.
  intros Hi Hl Hp. pose proof (len_nonneg m). unfold chat_crypto_secretstream_encrypt. rewrite Hi.
  cbn [negb orb]. rewrite bool_decide_false by done. cbn [andb].
  unfold CHAT_CRYPTO_STREAM_ABYTES, crypto_secretstream_ABYTES, CHAT_MAX_MESSAGE_SIZE, scratch in *.
  rewrite Z.gtb_ltb, (proj2 (Z.ltb_ge _ (len m))) by lia.
  rewrite len_zeros, (proj2 (Z.ltb_ge _ (len m + 17))) by lia.
  cbn [default from_option id]. rewrite ztake_all by lia.
  unfold with_push. by rewrite Hp, Hi.
Qed.

Lemma decrypt_eval s m c p tag :
  st_pull_initialized s = true →
  CHAT_CRYPTO_STREAM_ABYTES ≤ len c ≤ CHAT_MAX_MESSAGE_SIZE + CHAT_CRYPTO_STREAM_ABYTES →
  secretstream_pull (st_pull s) c = Some (m, tag, p) →
  chat_crypto_secretstream_decrypt (Some s) (Some c) (Some (scratch CHAT_MAX_MESSAGE_SIZE))
    (Some 0) (Some 0)
  = (CHAT_CRYPTO_OK, Some (with_pull s p), Some (blit (scratch CHAT_MAX_MESSAGE_SIZE) m),
     Some (len m), Some tag).
Proof.
  intros Hi Hl Hp. unfold chat_crypto_secretstream_decrypt. rewrite Hi. cbn [negb orb].
  unfold CHAT_CRYPTO_STREAM_ABYTES, crypto_secretstream_ABYTES, CHAT_MAX_MESSAGE_SIZE, scratch in *.
  rewrite (proj2 (Z.ltb_ge (len c) _)) by lia.
  rewrite len_zeros, (proj2 (Z.ltb_ge _ (len c - _))) by lia.
  unfold with_pull. by rewrite Hp, Hi.
Qed.

(** A payload that fits a packet is handed to libnice behind its header. *)
Lemma send_packet_eval type payload buf w :
  1 ≤ type ≤ 6 → CHAT_PACKET_HEADER_SIZE + len payload ≤ CHATD_ICE_PACKET_MAX →
  ∃ n r, send_ice_packet type (Some (blit buf payload)) (len payload) w
  = (if bool_decide (r = CHAT_ICE_OK) then 0 else -1,
     set_field w_env (set_field e_packets (λ l,
         if bool_decide (r = CHAT_ICE_OK) then l ++ [header_bytes type (len payload) ++ payload]
         else l))
       (set_field w_env (set_field e_nice (λ _, n)) w)).
Proof.
  intros Ht Hl. pose proof (len_nonneg payload). unfold send_ice_packet.
  unfold CHAT_PACKET_HEADER_SIZE, CHATD_ICE_PACKET_MAX, CHAT_ICE_RECV_MAX in Hl.
  rewrite bool_decide_false by done. cbn [andb].
  rewrite !Z.gtb_ltb, (proj2 (Z.ltb_ge CHAT_MAX_MESSAGE_SIZE _)) by
    (unfold CHAT_MAX_MESSAGE_SIZE; lia).
  rewrite (proj2 (Z.ltb_ge CHATD_ICE_PACKET_MAX _)) by
    (unfold CHATD_ICE_PACKET_MAX, CHAT_ICE_RECV_MAX, CHAT_PACKET_HEADER_SIZE; lia).
  cbn [orb]. rewrite encode_header_ok by (unfold CHAT_MAX_MESSAGE_SIZE; lia).
  cbn [default from_option id]. rewrite (ztake_blit (len payload)) by done.
  rewrite (ztake_blit CHAT_PACKET_HEADER_SIZE) by apply len_header_bytes.
  run. destruct (chat_ice_send _ _ _) as [r n]. exists n, r.
  destruct (decide (r = CHAT_ICE_OK)) as [->|Hr].
  - by rewrite !bool_decide_true by done.
  - by rewrite !bool_decide_false by done.
Qed.

Lemma text_valid_cases text :
  chat_text_is_valid (Some text) (len text) = true →
  0 < len text ≤ CHATD_CHAT_TEXT_MAX ∧ Forall (λ c, line_breaking c = false) text.
Proof.
  unfold chat_text_is_valid. case_if; [done|]. intros Hf. bdec. pose proof (len_nonneg text).
  split; [lia|]. rewrite ztake_all in Hf by done.
  apply Forall_forall. intros c Hc. rewrite forallb_forall in Hf.
  apply list_elem_of_In, Hf in Hc. by apply negb_true_iff in Hc.
Qed.

(** The effect of [send_encrypted_chat_message] on an established session: the
    stream advances, and the packet goes out when the call succeeds. *)
Lemma send_message_eval text w c p :
  established w → st_push_initialized (d_crypto_stream (w_st w)) = true →
  chat_text_is_valid (Some text) (len text) = true →
  secretstream_push (st_push (d_crypto_stream (w_st w))) text TAG_MESSAGE = Some (c, p) →
  send_encrypted_chat_message (Some text) (len text) w
  = send_ice_packet CHAT_PKT_MESSAGE (Some (blit (scratch CHAT_MAX_MESSAGE_SIZE) c)) (len c)
      (set_stream (with_push (d_crypto_stream (w_st w)) p) w).
Proof.
  intros [Hr Hs] Hi Hv Hp. unfold send_encrypted_chat_message. rewrite Hv. cbn [negb].
  apply text_valid_cases in Hv as [Hl _].
  unfold send_encrypted_chat_payload. run. rewrite Hr, Hs.
  rewrite !bool_decide_true by done. rewrite bool_decide_false by done. cbn [negb andb orb].
  assert (Hm : len text + CHAT_CRYPTO_STREAM_ABYTES ≤ CHAT_MAX_MESSAGE_SIZE).
  { unfold CHATD_CHAT_TEXT_MAX, CHAT_IPC_MAX_COMMAND, CHAT_CRYPTO_STREAM_ABYTES,
      crypto_secretstream_ABYTES, CHAT_MAX_MESSAGE_SIZE in *. lia. }
  rewrite Z.gtb_ltb, (proj2 (Z.ltb_ge _ _)) by done.
  by rewrite (encrypt_eval _ _ _ _ Hi Hm Hp).
Qed.

(** ** Receiving *)

(** What has been written to the local client. *)
Definition client_output (w : world) : option bytes :=
  e_fds (w_env w) !! d_lookup_client_fd (w_st w).

(** The line of a message, as the client gets it. *)
Definition message_line (peer text : bytes) : bytes :=
  lit "MESSAGE " ++ peer ++ [space] ++ text ++ [newline].

Lemma one_line_id text : Forall (λ c, line_breaking c = false) text → one_line text = text.
Proof. unfold one_line. induction 1 as [|c text Hc _ IH]; [done|]. cbn. by rewrite Hc, IH. Qed.

Lemma len_prefix peer : len (lit "MESSAGE " ++ peer ++ [space]) = 9 + len peer.
Proof. rewrite !len_app. change (len (lit "MESSAGE ")) with 8. change (len [space]) with 1. lia. Qed.

Lemma write_line_eval fd line out w :
  0 ≤ fd → e_faults (w_env w) = [] → e_fds (w_env w) !! fd = Some out →
  write_ipc_line fd (Some line) w
  = (0, set_field w_env (set_field e_faults (λ _, []))
          (set_field w_env (set_field e_fds (λ _, <[fd := out ++ line]> (e_fds (w_env w)))) w)).
Proof.
  intros Hfd Hf Ho. unfold write_ipc_line. rewrite (proj2 (Z.ltb_ge _ _)) by done. run.
  rewrite Ho, Hf. assert (ipc_write_loop [] line = (true, line, [])) as -> by by destruct line.
  done.
Qed.

Lemma write_message_eval text out w :
  0 ≤ d_lookup_client_fd (w_st w) → e_faults (w_env w) = [] → client_output w = Some out →
  Forall (λ c, line_breaking c = false) text →
  len text + len (d_ice_peer (w_st w)) + 11 ≤ CHAT_IPC_MAX_RESPONSE →
  write_chat_message_to_cli text w
  = write_ipc_line (d_lookup_client_fd (w_st w))
      (Some (message_line (d_ice_peer (w_st w)) text)) w.
Proof.
  intros Hfd Hf Ho Ht Hl. unfold write_chat_message_to_cli. run.
  rewrite (proj2 (Z.ltb_ge _ _)) by done. pose proof (len_nonneg text).
  rewrite len_prefix, Z.gtb_ltb, (proj2 (Z.ltb_ge _ _)) by lia.
  rewrite snprintf_ok; rewrite ?len_prefix; unfold CHAT_IPC_MAX_RESPONSE, INT_MAX in *; [|lia..].
  rewrite one_line_id by done. unfold message_line. by rewrite <- !app_assoc.
Qed.

Lemma handle_message_eval c m p w :
  established w → st_pull_initialized (d_crypto_stream (w_st w)) = true →
  CHAT_CRYPTO_STREAM_ABYTES ≤ len c ≤ CHAT_MAX_MESSAGE_SIZE →
  secretstream_pull (st_pull (d_crypto_stream (w_st w))) c = Some (m, TAG_MESSAGE, p) →
  handle_ice_app_packet (header_bytes CHAT_PKT_MESSAGE (len c) ++ c) w
  = write_chat_message_to_cli m (set_stream (with_pull (d_crypto_stream (w_st w)) p) w).
Proof.
  intros [Hr Hs] Hi Hl Hp. pose proof (len_nonneg c).
  assert (Ha : CHAT_CRYPTO_STREAM_ABYTES = 17) by done.
  unfold handle_ice_app_packet. rewrite decode_header_ok; [|by unfold CHAT_PKT_MESSAGE|lia|by right].
  cbn [hdr_type hdr_length]. rewrite len_app, len_header_bytes, Z.eqb_refl. cbn [negb].
  rewrite (zdrop_app_len _ (header_bytes _ _)) by apply len_header_bytes.
  change (CHAT_PKT_MESSAGE =? CHAT_PKT_HANDSHAKE) with false.
  change (CHAT_PKT_MESSAGE =? CHAT_PKT_STREAM_HEADER) with false.
  change (CHAT_PKT_MESSAGE =? CHAT_PKT_MESSAGE) with true. cbn [orb].
  unfold handle_chat_packet, decrypt_chat_payload. run. rewrite Hr, Hs, bool_decide_true by done.
  cbn [negb orb]. rewrite (proj2 (Z.ltb_ge _ _)) by lia.
  rewrite (decrypt_eval _ _ _ _ _ Hi) by first [exact Hp | lia].
  change (CHAT_PKT_MESSAGE =? CHAT_PKT_MESSAGE) with true. cbn [default from_option id].
  change (TAG_MESSAGE =? TAG_MESSAGE) with true. rewrite bool_decide_true by done. cbn [negb].
  by rewrite ztake_blit.
Qed.

(** ** Delivery *)

(** [w] and [w'] have a session with each other; what [w] sends is in step
    with what [w'] receives, and a client is attached to [w'] and reads. *)
Record linked (w w' : world) : Prop := {
  linked_sender : established w;
  linked_receiver : established w';
  linked_streams : streams_linked (d_crypto_stream (w_st w)) (d_crypto_stream (w_st w'));
  linked_client : 0 ≤ d_lookup_client_fd (w_st w');
  linked_output : is_Some (client_output w');
  linked_faults : e_faults (w_env w') = [];
}.

(** The longest message that fits a packet, header and tag included. *)
Definition packet_text_max : Z :=
  CHATD_ICE_PACKET_MAX - CHAT_PACKET_HEADER_SIZE - CHAT_CRYPTO_STREAM_ABYTES.

(** A message that fits a packet, and the line of a client whose peer is
    called [peer]. *)
Record deliverable (peer text : bytes) : Prop := {
  deliverable_valid : chat_text_is_valid (Some text) (len text) = true;
  deliverable_packet : len text ≤ packet_text_max;
  deliverable_line : len text + len peer + 11 ≤ CHAT_IPC_MAX_RESPONSE;
}.

Definition send_message (text : bytes) : D Z := send_encrypted_chat_message (Some text) (len text).

(** A send that succeeds: the packet, the stream and the session after it. *)
Lemma sent_packet text w c p :
  established w → st_push_initialized (d_crypto_stream (w_st w)) = true →
  chat_text_is_valid (Some text) (len text) = true →
  secretstream_push (st_push (d_crypto_stream (w_st w))) text TAG_MESSAGE = Some (c, p) →
  len c ≤ packet_text_max + CHAT_CRYPTO_STREAM_ABYTES → (send_message text w).1 = 0 →
  e_packets (w_env (send_message text w).2)
    = e_packets (w_env w) ++ [header_bytes CHAT_PKT_MESSAGE (len c) ++ c]
  ∧ d_crypto_stream (w_st (send_message text w).2) = with_push (d_crypto_stream (w_st w)) p
  ∧ established (send_message text w).2.
Proof.
  intros Hw Hsi Hv Hp Hc Hsent.
  unfold send_message in *. rewrite (send_message_eval _ _ _ _ Hw Hsi Hv Hp) in Hsent |- *.
  set (ws := set_stream (with_push (d_crypto_stream (w_st w)) p) w) in *.
  destruct (send_packet_eval CHAT_PKT_MESSAGE c (scratch CHAT_MAX_MESSAGE_SIZE) ws) as (n & r & Es).
  { by unfold CHAT_PKT_MESSAGE. }
  { unfold packet_text_max in Hc. lia. }
  rewrite Es in Hsent |- *. cbn [fst snd] in Hsent |- *.
  destruct (decide (r = CHAT_ICE_OK)) as [->|Hr];
    [|rewrite bool_decide_false in Hsent by done; done].
  by rewrite bool_decide_true by done.
Qed.

Lemma deliver_one w w' text :
  linked w w' → deliverable (d_ice_peer (w_st w')) text → (send_message text w).1 = 0 →
  ∃ packet,
    e_packets (w_env (send_message text w).2) = e_packets (w_env w) ++ [packet]
    ∧ (handle_ice_app_packet packet w').1 = 0
    ∧ client_output (handle_ice_app_packet packet w').2
      = (λ out, out ++ message_line (d_ice_peer (w_st w')) text) <$> client_output w'
    ∧ d_ice_peer (w_st (handle_ice_app_packet packet w').2) = d_ice_peer (w_st w')
    ∧ linked (send_message text w).2 (handle_ice_app_packet packet w').2.
Proof.
  intros [Hw Hw' (Hsi & Hri & Hsync) Hfd [out Hout] Hf] [Hv Hpk Hli] Hsent.
  destruct (text_valid_cases _ Hv) as [Hl Ht].
  assert (Hpm : packet_text_max = 4073) by done.
  assert (Ha : CHAT_CRYPTO_STREAM_ABYTES = 17) by done.
  assert (Hb : crypto_secretstream_ABYTES = 17) by done.
  destruct (stream_push_succeeds (st_push (d_crypto_stream (w_st w))) text TAG_MESSAGE)
    as [[c p] Hp]; [done|lia|].
  destruct (stream_push_pull _ _ _ _ _ _ Hsync Hp) as (Hc & q & Hq & Hsync').
  destruct (sent_packet text w c p Hw Hsi Hv Hp) as (Hpackets & Hstream & Hest); [lia|done|].
  exists (header_bytes CHAT_PKT_MESSAGE (len c) ++ c). split; [done|].
  rewrite (handle_message_eval c text q w' Hw' Hri);
    [|unfold CHAT_MAX_MESSAGE_SIZE; lia|exact Hq].
  set (wr := set_stream (with_pull (d_crypto_stream (w_st w')) q) w').
  rewrite (write_message_eval text out wr Hfd Hf Hout Ht Hli).
  rewrite (write_line_eval _ _ out wr Hfd Hf Hout). cbn [fst snd].
  assert (Ho : client_output (set_field w_env (set_field e_faults (λ _, []))
      (set_field w_env (set_field e_fds (λ _, <[d_lookup_client_fd (w_st wr)
          := out ++ message_line (d_ice_peer (w_st wr)) text]> (e_fds (w_env wr)))) wr))
    = Some (out ++ message_line (d_ice_peer (w_st w')) text)).
  { unfold client_output. fields. apply lookup_insert_eq. }
  split; [done|]. split; [rewrite Hout; exact Ho|]. split; [done|].
  split; [exact Hest|exact Hw'|by rewrite Hstream|exact Hfd|eexists; exact Ho|done].
Qed.

(** C3: what one daemon sends, the other delivers: when two daemons share a
    session and the calls that send a list of messages all succeed, the
    packets handed to the network are accepted by the other daemon one after
    the other and its client gets the messages, in order and unchanged, each
    as one line with the name of the peer. *)
Theorem messages_delivered w w' texts :
  linked w w' → Forall (deliverable (d_ice_peer (w_st w'))) texts →
  (all_ok send_message texts w).1 = true →
  ∃ packets,
    e_packets (w_env (all_ok send_message texts w).2) = e_packets (w_env w) ++ packets
    ∧ (all_ok handle_ice_app_packet packets w').1 = true
    ∧ client_output (all_ok handle_ice_app_packet packets w').2
      = (λ out, out ++ concat (message_line (d_ice_peer (w_st w')) <$> texts))
        <$> client_output w'.
Proof.
  revert w w'. induction texts as [|text texts IH]; intros w w' Hl Ht Hs.
  - exists []. split_and!; [by rewrite app_nil_r|done|].
    cbn. destruct (linked_output _ _ Hl) as [out Ho]. rewrite Ho. cbn. by rewrite app_nil_r.
  - apply Forall_cons in Ht as [Ht Hts]. revert Hs. cbn [all_ok]. run.
    destruct (send_message text w) as [r ws] eqn:Es. destruct (r =? 0) eqn:Er; [|done].
    intros Hs. destruct (deliver_one w w' text Hl Ht) as (packet & Ep & Hh & Hc & Hp & Hl').
    { rewrite Es. cbn. lia. }
    rewrite Es in Ep, Hl'. cbn [snd] in Ep, Hl'.
    destruct (IH ws (handle_ice_app_packet packet w').2) as (packets & Ep' & Hh' & Hc');
      [exact Hl'|by rewrite Hp|exact Hs|].
    exists (packet :: packets). cbn [all_ok]. run.
    destruct (handle_ice_app_packet packet w') as [rh wr]. cbn [fst snd] in *. subst rh.
    change (0 =? 0) with true. cbv iota. rewrite Ep', Ep, Hc', Hc, Hp.
    split_and!; [by rewrite <- app_assoc|done|].
    destruct (client_output w'); [|done]. cbn. by rewrite <- app_assoc.
Qed.

(** ** Messages that are too long *)

(** C36: a message of more than 4073 bytes (up to 4081 bytes pass the check of
    the text) is lost and breaks the session: the call fails and no packet is
    sent, but the sending stream has moved on, to where the receiver gets
    only by decrypting the ciphertext [c] that was never sent. *)
Theorem oversized_message_desynchronises w w' text :
  linked w w' → chat_text_is_valid (Some text) (len text) = true → packet_text_max < len text →
  let w1 := (send_message text w).2 in
  (send_message text w).1 = -1
  ∧ e_packets (w_env w1) = e_packets (w_env w)
  ∧ ∃ c p q,
      secretstream_push (st_push (d_crypto_stream (w_st w))) text TAG_MESSAGE = Some (c, p)
      ∧ st_push (d_crypto_stream (w_st w1)) = p
      ∧ secretstream_pull (st_pull (d_crypto_stream (w_st w'))) c = Some (text, TAG_MESSAGE, q)
      ∧ stream_sync p q.
Proof.
  intros [Hw _ (Hi & _ & Hsync) _ _ _] Hv Hl. pose proof (proj1 (text_valid_cases _ Hv)) as Hlt.
  unfold CHATD_CHAT_TEXT_MAX, CHAT_IPC_MAX_COMMAND in Hlt.
  assert (Hpm : packet_text_max = 4073) by done.
  destruct (stream_push_succeeds (st_push (d_crypto_stream (w_st w))) text TAG_MESSAGE)
    as [[c p] Hp]; [done|lia|].
  destruct (stream_push_pull _ _ _ _ _ _ Hsync Hp) as (Hc & q & Hq & Hsync').
  unfold send_message. rewrite (send_message_eval _ _ _ _ Hw Hi Hv Hp).
  unfold send_ice_packet. rewrite bool_decide_false by done. cbn [andb].
  rewrite !Z.gtb_ltb, (proj2 (Z.ltb_lt CHATD_ICE_PACKET_MAX _)), orb_true_r.
  - split; [done|]. split; [done|]. by exists c, p, q.
  - change CHATD_ICE_PACKET_MAX with 4096. change CHAT_PACKET_HEADER_SIZE with 6.
    change crypto_secretstream_ABYTES with 17 in Hc. lia.
Qed.

(** A message that fits a packet but not the line of the client (possible
    when the name of the peer is longer than 12 characters) is an error of the
    receiver: the packet was authentic and decrypted, nothing is written to
    the client, and the result is the one that makes the daemon give up the
    session. *)
Theorem long_line_is_an_error w w' text :
  linked w w' → chat_text_is_valid (Some text) (len text) = true → len text ≤ packet_text_max →
  CHAT_IPC_MAX_RESPONSE < len text + len (d_ice_peer (w_st w')) + 11 →
  (send_message text w).1 = 0 →
  ∃ packet,
    e_packets (w_env (send_message text w).2) = e_packets (w_env w) ++ [packet]
    ∧ (handle_ice_app_packet packet w').1 = -1
    ∧ client_output (handle_ice_app_packet packet w').2 = client_output w'.
Proof.
  intros [Hw Hw' (Hsi & Hri & Hsync) Hfd [out Hout] Hf] Hv Hpk Hli Hsent.
  destruct (text_valid_cases _ Hv) as [Hl Ht].
  assert (Hpm : packet_text_max = 4073) by done.
  assert (Ha : CHAT_CRYPTO_STREAM_ABYTES = 17) by done.
  assert (Hb : crypto_secretstream_ABYTES = 17) by done.
  destruct (stream_push_succeeds (st_push (d_crypto_stream (w_st w))) text TAG_MESSAGE)
    as [[c p] Hp]; [done|lia|].
  destruct (stream_push_pull _ _ _ _ _ _ Hsync Hp) as (Hc & q & Hq & Hsync').
  destruct (sent_packet text w c p Hw Hsi Hv Hp) as [Hpackets _]; [lia|done|].
  exists (header_bytes CHAT_PKT_MESSAGE (len c) ++ c). split; [done|].
  rewrite (handle_message_eval c text q w' Hw' Hri);
    [|unfold CHAT_MAX_MESSAGE_SIZE; lia|exact Hq].
  unfold write_chat_message_to_cli. run. fields. rewrite (proj2 (Z.ltb_ge _ _)) by exact Hfd.
  change (d_ice_peer (w_st (set_stream _ w'))) with (d_ice_peer (w_st w')).
  rewrite len_prefix, Z.gtb_ltb, (proj2 (Z.ltb_lt _ _)) by lia. done.
Qed.
End delivery.
