(* ===== verification/DaemonLive.v ===== *)
(** * Two daemons establish a session

    When ICE has connected two daemons that hold each other's identity keys
    and the same session identifier, exchanging the packets they send makes
    both report the session as encrypted, with streams that are in step in
    both directions: the hypothesis of the theorems on the delivery of
    messages. *)

From S2P Require Import Prelude CLib Protocol Sodium Base64 Json Identity FileSys IdentityStore.
From S2P Require Import Contacts Ipc Crypto Ice StateMonad DaemonState DaemonSession Daemon.
From S2P Require Import DaemonDelivery.

Section live.
Context `{LibsOk}.

(** The network is up: what libnice is given is sent, now and later. *)
Class NetworkUp := {
  network_up : nice → Prop;
  network_sends n agent stream component data :
    network_up n → (nice_agent_send agent stream component data n).1 = len data;
  network_stays_up n agent stream component data :
    network_up n → network_up (nice_agent_send agent stream component data n).2;
}.
Context `{!NetworkUp}.

(** ** One side of the exchange *)

Record party := {
  p_identity : chat_identity_t;
  p_peer_pk : bytes;
  p_role : chat_crypto_role_t;
  p_sid : bytes;
  p_start : Z;   (** the clock stays in the 30 seconds from here on *)
}.

(** The part of the state the exchange does not change, and the packets that
    wait in the receive ring. *)
Record side (q : party) (ps : list bytes) (w : world) : Prop := {
  side_identity : d_identity (w_st w) = p_identity q;
  side_peer_pk : d_remote_identity_pk (w_st w) = p_peer_pk q;
  side_has_pk : d_has_remote_identity_pk (w_st w) = true;
  side_role : d_crypto_role (w_st w) = p_role q;
  side_sid : d_ice_session_id (w_st w) = p_sid q;
  side_active : d_ice_active (w_st w) = true;
  side_sdp_sent : d_ice_local_sdp_sent (w_st w) = true;
  side_no_pending : d_has_pending_remote_ice_sdp (w_st w) = false;
  side_ready : ice_ready (d_ice (w_st w)) = true;
  side_failed : ice_failed (d_ice (w_st w)) = false;
  side_agent : is_Some (ice_agent (d_ice (w_st w)));
  side_ring : ring_repr (d_ice (w_st w)) ps;
  side_network : network_up (e_nice (w_env w));
  side_clock : ∀ n, p_start q ≤ e_clock (w_env w) n < p_start q + CHATD_CRYPTO_TIMEOUT_SECONDS;
  side_deadline : d_crypto_deadline_at (w_st w) = 0
    ∨ p_start q + CHATD_CRYPTO_TIMEOUT_SECONDS ≤ d_crypto_deadline_at (w_st w);
  side_not_ready : d_encrypted_session_ready (w_st w) = false;
}.

(** How far the exchange has come. *)
Record crypto_progress := {
  g_state : chatd_session_state_t;
  g_notified : bool;
  g_sent : bool;
  g_handshake : chat_crypto_handshake_t;
  g_message : bytes;
  g_keys_ready : bool;
  g_keys : chat_crypto_session_keys_t;
  g_header_sent : bool;
  g_stream : chat_crypto_secretstream_t;
  g_header : bytes;
  g_received : bool;
}.
Definition progress (w : world) : crypto_progress :=
  let st := w_st w in
  {| g_state := d_session_state st;
     g_notified := d_ice_cli_notified st;
     g_sent := d_crypto_handshake_sent st;
     g_handshake := d_crypto_handshake st;
     g_message := d_crypto_local_handshake_message st;
     g_keys_ready := d_crypto_keys_ready st;
     g_keys := d_crypto_keys st;
     g_header_sent := d_crypto_stream_header_sent st;
     g_stream := d_crypto_stream st;
     g_header := d_crypto_local_stream_header st;
     g_received := d_crypto_stream_header_received st |}.

(** The call succeeds and its final state satisfies [Q]. *)
Definition succeeds (m : D Z) (w : world) (Q : world → Prop) : Prop :=
  (m w).1 = 0 ∧ Q (m w).2.

Lemma or_fail_ok m rest w (Q : world → Prop) :
  succeeds m w (λ w', Q (rest w').2) → Q (or_fail m rest w).2.
Proof.
  unfold succeeds, or_fail. run. destruct (m w) as [r w']. cbn [fst snd]. by intros [-> HQ].
Qed.

(** Step over the first call of [or_fail]. *)
Ltac step_over :=
  cbv beta zeta;
  match goal with
  | |- context [(or_fail ?m ?rest ?w).2] =>
      pattern ((or_fail m rest w).2); apply or_fail_ok; unfold succeeds
  end.

(** Sending a packet: the progress is the same and the packet is out. *)
Definition sends (q : party) (ps : list bytes) (w : world) (packet : bytes) (w' : world) : Prop :=
  side q ps w' ∧ progress w' = progress w
  ∧ e_packets (w_env w') = e_packets (w_env w) ++ [packet].

Definition framed (type : Z) (payload : bytes) : bytes :=
  header_bytes type (len payload) ++ payload.

Lemma send_ok q ps w type payload n :
  side q ps w → 1 ≤ type ≤ 6 → n = len payload → 0 < n ≤ 4000 →
  succeeds (send_ice_packet type (Some payload) n) w (sends q ps w (framed type payload)).
Proof.
  intros Hs Ht -> Hl. unfold succeeds, send_ice_packet.
  rewrite bool_decide_false by done. cbn [andb].
  rewrite !Z.gtb_ltb, (proj2 (Z.ltb_ge CHAT_MAX_MESSAGE_SIZE _)) by
    (unfold CHAT_MAX_MESSAGE_SIZE; lia).
  rewrite (proj2 (Z.ltb_ge CHATD_ICE_PACKET_MAX _)) by
    (unfold CHATD_ICE_PACKET_MAX, CHAT_ICE_RECV_MAX, CHAT_PACKET_HEADER_SIZE; lia).
  cbn [orb]. rewrite encode_header_ok by (unfold CHAT_MAX_MESSAGE_SIZE; lia).
  cbn [default from_option id]. rewrite (ztake_all (len payload)) by done.
  rewrite (ztake_blit CHAT_PACKET_HEADER_SIZE) by apply len_header_bytes.
  fold (framed type payload). run. unfold chat_ice_send.
  destruct (side_agent _ _ _ Hs) as [agent Ha]. rewrite Ha, (side_ready _ _ _ Hs).
  assert (Hf : len (framed type payload) = 6 + len payload).
  { unfold framed. by rewrite len_app, len_header_bytes. }
  rewrite (proj2 (Z.eqb_neq _ 0)), Z.gtb_ltb, (proj2 (Z.ltb_ge _ _)) by
    (unfold CHAT_ICE_RECV_MAX; lia). cbn [negb orb].
  pose proof (network_sends (e_nice (w_env w)) agent (ice_stream_id (d_ice (w_st w)))
    (ice_component_id (d_ice (w_st w))) (framed type payload) (side_network _ _ _ Hs)) as Hn.
  pose proof (network_stays_up (e_nice (w_env w)) agent (ice_stream_id (d_ice (w_st w)))
    (ice_component_id (d_ice (w_st w))) (framed type payload) (side_network _ _ _ Hs)) as Hn'.
  destruct (nice_agent_send _ _ _ _ _) as [sent n']. cbn [fst snd] in Hn, Hn'. subst sent.
  rewrite Z.eqb_refl. cbn [negb fst snd]. rewrite bool_decide_true by done. cbn [negb fst snd].
  split; [done|]. split; [|done]. destruct Hs. by split.
Qed.

(** ** The handshake message *)

(** Repeating the handshake message. *)
Lemma handshake_again q ps w :
  side q ps w → d_session_state (w_st w) = CHATD_SESSION_CRYPTO_HANDSHAKE →
  d_crypto_handshake_sent (w_st w) = true →
  len (d_crypto_local_handshake_message (w_st w)) = CHAT_CRYPTO_KX_MESSAGE_BYTES →
  succeeds start_crypto_handshake w (λ w', side q ps w' ∧ progress w' = progress w
    ∧ e_packets (w_env w) ⊆ e_packets (w_env w')).
Proof.
  intros Hs Hst Hsent Hl. unfold succeeds, start_crypto_handshake, chatd_set_session_state,
    create_handshake. run. rewrite bool_decide_true, Hsent by done. cbn [negb].
  destruct (send_ok q ps w CHAT_PKT_HANDSHAKE (d_crypto_local_handshake_message (w_st w))
    CHAT_CRYPTO_KX_MESSAGE_BYTES Hs) as [Hr (Hs' & Hp & He)]; [done..|].
  destruct (send_ice_packet _ _ _ w) as [r w']. cbn [fst snd] in *. subst r.
  cbn [negb Z.eqb]. unfold time_now. run. rewrite Hsent.
  split; [done|]. cbn [snd]. split; [destruct Hs'; by split|]. split; [exact Hp|].
  change (e_packets (w_env w) ⊆ e_packets (w_env w')). rewrite He. set_solver.
Qed.

(** The first one. *)
Definition shaking (hs : chat_crypto_handshake_t) (msg : bytes) (g : crypto_progress) : crypto_progress :=
  {| g_state := CHATD_SESSION_CRYPTO_HANDSHAKE; g_notified := g_notified g; g_sent := true;
     g_handshake := hs; g_message := msg; g_keys_ready := g_keys_ready g; g_keys := g_keys g;
     g_header_sent := g_header_sent g; g_stream := g_stream g; g_header := g_header g;
     g_received := g_received g |}.

Lemma handshake_first q ps w hs msg g :
  side q ps w → d_crypto_handshake_sent (w_st w) = false →
  d_crypto_handshake (w_st w) = zero_handshake →
  chat_crypto_handshake_init (Some zero_handshake) (Some (p_identity q)) (Some (p_peer_pk q))
    (p_role q) (Some (p_sid q)) (Some (d_crypto_local_handshake_message (w_st w)))
    (e_rng (w_env w)) = (CHAT_CRYPTO_OK, Some hs, Some msg, g) →
  len msg = CHAT_CRYPTO_KX_MESSAGE_BYTES →
  succeeds start_crypto_handshake w (λ w', side q ps w' ∧ progress w' = shaking hs msg (progress w)
    ∧ framed CHAT_PKT_HANDSHAKE msg ∈ e_packets (w_env w')).
Proof.
  intros Hs Hsent Hz Hi Hl. unfold succeeds, start_crypto_handshake.
  set (w1 := (chatd_set_session_state CHATD_SESSION_CRYPTO_HANDSHAKE w).2).
  assert (E1 : chatd_set_session_state CHATD_SESSION_CRYPTO_HANDSHAKE w = (tt, w1)).
  { unfold w1, chatd_set_session_state. run. by destruct (bool_decide _). }
  assert (Hw1 : w1 = set_field w_st (set_field d_session_state
    (λ _, CHATD_SESSION_CRYPTO_HANDSHAKE)) w).
  { unfold w1, chatd_set_session_state. run. destruct (bool_decide _) eqn:Eb; [|done].
    apply bool_decide_eq_true in Eb. destruct w as [[] ?]. cbn in *. by subst. }
  unfold create_handshake. run. rewrite E1. clear E1. clearbody w1. subst w1. fields. rewrite Hsent.
  rewrite Hz, (side_identity _ _ _ Hs), (side_peer_pk _ _ _ Hs), (side_role _ _ _ Hs),
    (side_sid _ _ _ Hs). fields. rewrite Hi. cbn [default from_option id].
  rewrite bool_decide_true by done. cbn [negb].
  match goal with |- context [send_ice_packet _ _ _ ?w2] => set (w2' := w2) end.
  assert (Hs2 : side q ps w2') by (destruct Hs; by split).
  destruct (send_ok q ps w2' CHAT_PKT_HANDSHAKE msg CHAT_CRYPTO_KX_MESSAGE_BYTES Hs2)
    as [Hr (Hs' & Hp & He)]; [done..|].
  change (d_crypto_local_handshake_message (w_st w2')) with msg.
  destruct (send_ice_packet _ _ _ w2') as [r w3]. cbn [fst snd] in *. subst r.
  cbn [negb Z.eqb]. unfold time_now. run.
  change (d_crypto_handshake_sent (w_st w2')) with (d_crypto_handshake_sent (w_st w)).
  rewrite Hsent. split; [done|]. cbn [snd]. split; [destruct Hs'; by split|]. split.
  - unfold progress, shaking in *. fields. injection Hp as -> -> _ -> -> -> -> -> -> -> ->. done.
  - change (framed CHAT_PKT_HANDSHAKE msg ∈ e_packets (w_env w3)). rewrite He. set_solver.
Qed.

(** ** Received packets *)

(** What a step that sends nothing leaves alone. *)
Definition same_env (w w' : world) : Prop :=
  e_packets (w_env w') = e_packets (w_env w) ∧ e_rng (w_env w') = e_rng (w_env w).

Lemma process_none q w :
  side q [] w →
  succeeds process_received_ice_packet w
    (λ w', side q [] w' ∧ progress w' = progress w ∧ same_env w w').
Proof.
  intros Hs. unfold succeeds, process_received_ice_packet. run. unfold chat_ice_take_received.
  rewrite (rr_count _ _ (side_ring _ _ _ Hs)). cbn [length Nat.eqb default from_option id].
  rewrite bool_decide_true by done. change (0 =? 0) with true. cbn [negb fst snd].
  split; [done|]. split; [destruct Hs; by split|done].
Qed.

Lemma process_one q p ps w :
  side q (p :: ps) w → 0 < len p →
  ∃ w1, process_received_ice_packet w = handle_ice_app_packet p w1
        ∧ side q ps w1 ∧ progress w1 = progress w ∧ same_env w w1.
Proof.
  intros Hs Hl. pose proof (side_ring _ _ _ Hs) as Hr.
  destruct (repr_head _ _ _ Hr) as [El Es].
  assert (Hm : len p ≤ CHAT_ICE_RECV_MAX).
  { pose proof (rr_fit _ _ Hr) as Hf. by apply Forall_cons in Hf as [? _]. }
  unfold process_received_ice_packet. run. unfold chat_ice_take_received.
  rewrite (rr_count _ _ Hr). cbn [length Nat.eqb].
  unfold scratch. rewrite El, Es, len_zeros, (proj2 (Z.ltb_ge _ _)) by done.
  rewrite (proj1 (proj2 (pad_facts p Hm))). cbn [default from_option id].
  rewrite bool_decide_true, (proj2 (Z.eqb_neq _ 0)), ztake_blit by (done || lia). cbn [negb].
  eexists. split; [done|]. split; [|done].
  apply release_repr in Hr. destruct Hs. by split.
Qed.

(** The handshake message of the peer gives the session keys. *)
Definition keyed (hs : chat_crypto_handshake_t) (keys : chat_crypto_session_keys_t)
    (g : crypto_progress) : crypto_progress :=
  {| g_state := g_state g; g_notified := g_notified g; g_sent := g_sent g;
     g_handshake := hs; g_message := g_message g; g_keys_ready := true; g_keys := keys;
     g_header_sent := g_header_sent g; g_stream := g_stream g; g_header := g_header g;
     g_received := g_received g |}.

Lemma framed_decoded type payload :
  1 ≤ type ≤ 6 → len payload ≤ CHAT_MAX_MESSAGE_SIZE →
  chat_packet_decode_header (Some (framed type payload))
    (Some {| hdr_version := 0; hdr_type := 0; hdr_length := 0 |})
  = (CHAT_PROTOCOL_OK,
     Some {| hdr_version := CHAT_PROTOCOL_VERSION; hdr_type := type; hdr_length := len payload |})
  ∧ len (framed type payload) = CHAT_PACKET_HEADER_SIZE + len payload
  ∧ zdrop CHAT_PACKET_HEADER_SIZE (framed type payload) = payload.
Proof.
  intros Ht Hl. pose proof (len_nonneg payload). unfold framed. split_and!.
  - apply decode_header_ok; [done|lia|by right].
  - by rewrite len_app, len_header_bytes.
  - by apply zdrop_app_len, len_header_bytes.
Qed.

Lemma handle_handshake_ok q ps w msg hs keys :
  side q ps w → d_session_state (w_st w) = CHATD_SESSION_CRYPTO_HANDSHAKE →
  d_crypto_keys_ready (w_st w) = false → len msg = CHAT_CRYPTO_KX_MESSAGE_BYTES →
  chat_crypto_handshake_finish (Some (d_crypto_handshake (w_st w))) (Some msg)
    (Some (d_crypto_keys (w_st w))) = (CHAT_CRYPTO_OK, Some hs, Some keys) →
  succeeds (handle_ice_app_packet (framed CHAT_PKT_HANDSHAKE msg)) w
    (λ w', side q ps w' ∧ progress w' = keyed hs keys (progress w) ∧ same_env w w').
Proof.
  intros Hs Hst Hk Hl Hf. unfold succeeds, handle_ice_app_packet.
  destruct (framed_decoded CHAT_PKT_HANDSHAKE msg) as (-> & -> & ->); [done|by rewrite Hl|].
  cbn [hdr_length hdr_type]. rewrite Z.eqb_refl, Z.eqb_refl. cbn [negb].
  unfold handle_handshake_packet, finish_crypto_handshake. run.
  rewrite Hst, Hk, Hl, Z.eqb_refl, bool_decide_false by done.
  rewrite (bool_decide_true (CHATD_SESSION_CRYPTO_HANDSHAKE = CHATD_SESSION_CRYPTO_HANDSHAKE)) by done.
  cbn [negb andb]. rewrite Hf. cbn [default from_option id].
  rewrite bool_decide_true by done. cbn [negb fst snd].
  split; [done|]. split; [destruct Hs; by split|done].
Qed.

(** The header of the peer's stream opens the receiving stream. *)
Definition received (pull : secretstream_state) (g : crypto_progress) : crypto_progress :=
  {| g_state := g_state g; g_notified := g_notified g; g_sent := g_sent g;
     g_handshake := g_handshake g; g_message := g_message g; g_keys_ready := g_keys_ready g;
     g_keys := g_keys g; g_header_sent := g_header_sent g;
     g_stream := {| st_push := st_push (g_stream g); st_pull := pull;
                    st_push_initialized := st_push_initialized (g_stream g);
                    st_pull_initialized := true |};
     g_header := g_header g; g_received := true |}.

Lemma handle_header_ok q ps w hdr pull :
  side q ps w → d_session_state (w_st w) = CHATD_SESSION_CRYPTO_HANDSHAKE →
  d_crypto_keys_ready (w_st w) = true → d_crypto_stream_header_received (w_st w) = false →
  len hdr = CHAT_CRYPTO_STREAM_HEADER_BYTES →
  secretstream_init_pull hdr (keys_rx (d_crypto_keys (w_st w))) = Some pull →
  succeeds (handle_ice_app_packet (framed CHAT_PKT_STREAM_HEADER hdr)) w
    (λ w', side q ps w' ∧ progress w' = received pull (progress w) ∧ same_env w w').
Proof.
  intros Hs Hst Hk Hr Hl Hp. unfold succeeds, handle_ice_app_packet.
  destruct (framed_decoded CHAT_PKT_STREAM_HEADER hdr) as (-> & -> & ->); [done|by rewrite Hl|].
  cbn [hdr_length hdr_type]. rewrite Z.eqb_refl.
  change (CHAT_PKT_STREAM_HEADER =? CHAT_PKT_HANDSHAKE) with false. rewrite Z.eqb_refl. cbn [negb].
  unfold handle_stream_header_packet, receive_stream_header. run.
  rewrite Hst, Hk, Hr, Hl, Z.eqb_refl, bool_decide_true by done. cbn [negb andb].
  unfold chat_crypto_secretstream_init_pull. rewrite Hp. cbn [default from_option id].
  rewrite bool_decide_true by done. cbn [negb fst snd].
  split; [done|]. split; [destruct Hs; by split|done].
Qed.

(** ** The stream header *)

Definition opened (push : secretstream_state) (hdr : bytes) (g : crypto_progress) : crypto_progress :=
  {| g_state := g_state g; g_notified := g_notified g; g_sent := g_sent g;
     g_handshake := g_handshake g; g_message := g_message g; g_keys_ready := g_keys_ready g;
     g_keys := g_keys g; g_header_sent := true;
     g_stream := {| st_push := push; st_pull := st_pull (g_stream g);
                    st_push_initialized := true;
                    st_pull_initialized := st_pull_initialized (g_stream g) |};
     g_header := hdr; g_received := g_received g |}.

Lemma header_first q ps w push hdr g :
  side q ps w → d_crypto_stream_header_sent (w_st w) = false →
  secretstream_init_push (keys_tx (d_crypto_keys (w_st w))) (e_rng (w_env w))
    = (Some (push, hdr), g) →
  len hdr = CHAT_CRYPTO_STREAM_HEADER_BYTES →
  succeeds send_stream_header w (λ w', side q ps w' ∧ progress w' = opened push hdr (progress w)
    ∧ framed CHAT_PKT_STREAM_HEADER hdr ∈ e_packets (w_env w')).
Proof.
  intros Hs Hsent Hi Hl. unfold succeeds, send_stream_header, create_stream_header. run.
  rewrite Hsent. unfold chat_crypto_secretstream_init_push. rewrite Hi.
  cbn [default from_option id]. rewrite bool_decide_true by done. cbn [negb].
  match goal with |- context [send_ice_packet _ _ _ ?w2] => set (w2' := w2) end.
  assert (Hs2 : side q ps w2') by (destruct Hs; by split).
  destruct (send_ok q ps w2' CHAT_PKT_STREAM_HEADER hdr CHAT_CRYPTO_STREAM_HEADER_BYTES Hs2)
    as [Hr (Hs' & Hp & He)]; [done..|].
  change (d_crypto_local_stream_header (w_st w2')) with hdr.
  destruct (send_ice_packet _ _ _ w2') as [r w3]. cbn [fst snd] in *. subst r.
  cbn [negb Z.eqb]. unfold time_now. run.
  change (d_crypto_stream_header_sent (w_st w2')) with (d_crypto_stream_header_sent (w_st w)).
  rewrite Hsent. split; [done|]. cbn [snd]. split; [destruct Hs'; by split|]. split.
  - unfold progress, opened in *. fields. injection Hp as -> -> -> -> -> -> -> _ -> -> ->. done.
  - change (framed CHAT_PKT_STREAM_HEADER hdr ∈ e_packets (w_env w3)). rewrite He. set_solver.
Qed.

Lemma header_again q ps w :
  side q ps w → d_crypto_stream_header_sent (w_st w) = true →
  len (d_crypto_local_stream_header (w_st w)) = CHAT_CRYPTO_STREAM_HEADER_BYTES →
  succeeds send_stream_header w (λ w', side q ps w' ∧ progress w' = progress w
    ∧ e_packets (w_env w) ⊆ e_packets (w_env w')).
Proof.
  intros Hs Hsent Hl. unfold succeeds, send_stream_header, create_stream_header. run.
  rewrite Hsent. cbn [negb].
  destruct (send_ok q ps w CHAT_PKT_STREAM_HEADER (d_crypto_local_stream_header (w_st w))
    CHAT_CRYPTO_STREAM_HEADER_BYTES Hs) as [Hr (Hs' & Hp & He)]; [done..|].
  destruct (send_ice_packet _ _ _ w) as [r w']. cbn [fst snd] in *. subst r.
  cbn [negb Z.eqb]. unfold time_now. run. rewrite Hsent.
  split; [done|]. cbn [snd]. split; [destruct Hs'; by split|]. split; [exact Hp|].
  change (e_packets (w_env w) ⊆ e_packets (w_env w')). rewrite He. set_solver.
Qed.

(** ** Turns of the loop *)

(** A packet from the network. *)
Definition from_network (p : option bytes) : list ice_event :=
  match p with Some p => [IceRecv (Some p)] | None => [] end.

Definition connected (g : crypto_progress) : crypto_progress :=
  if g_notified g then g
  else {| g_state := CHATD_SESSION_ICE_CONNECTED; g_notified := true; g_sent := g_sent g;
          g_handshake := g_handshake g; g_message := g_message g;
          g_keys_ready := g_keys_ready g; g_keys := g_keys g; g_header_sent := g_header_sent g;
          g_stream := g_stream g; g_header := g_header g; g_received := g_received g |}.

Lemma poll_ok q p w :
  side q [] w → Forall (λ m, len m ≤ CHAT_ICE_RECV_MAX) (option_list p) →
  side q (option_list p) (chat_ice_poll (from_network p) w).2
  ∧ progress (chat_ice_poll (from_network p) w).2 = progress w
  ∧ same_env w (chat_ice_poll (from_network p) w).2.
Proof.
  intros Hs Hp. destruct p as [p|]; cbn [from_network option_list]; [|done].
  apply Forall_cons in Hp as [Hp _]. unfold chat_ice_poll. cbn [mfor]. unfold ice_dispatch. run.
  pose proof (recv_repr _ _ p (side_ring _ _ _ Hs)) as Hr.
  cbn [ring_exec queue_exec on_recv snd default from_option id] in *.
  rewrite Z.gtb_ltb, (proj2 (Z.ltb_ge _ _)) in * by done.
  cbn [length from_option id] in *. rewrite (rr_count _ _ (side_ring _ _ _ Hs)) in *.
  cbn [length] in *. split; [|done]. destruct Hs. by split.
Qed.

Lemma in_time q ps w n b :
  side q ps w →
  negb (d_crypto_deadline_at (w_st w) =? 0) && b && (e_clock (w_env w) n >=? d_crypto_deadline_at (w_st w))
  = false.
Proof.
  intros Hs. pose proof (side_clock _ _ _ Hs n). destruct (side_deadline _ _ _ Hs) as [->|Hd]; [done|].
  rewrite Z.geb_leb, (proj2 (Z.leb_gt _ _)) by lia. apply andb_false_r.
Qed.

Lemma note_connected_ok q ps w :
  side q ps w →
  side q ps (note_connected w).2 ∧ progress (note_connected w).2 = connected (progress w)
  ∧ same_env w (note_connected w).2.
Proof.
  intros Hs. unfold note_connected, when, connected, time_now, chatd_set_session_state. run.
  change (g_notified (progress w)) with (d_ice_cli_notified (w_st w)).
  destruct (d_ice_cli_notified (w_st w)) eqn:En; cbn [negb]; [done|].
  pose proof (side_clock _ _ _ Hs (e_ticks (w_env w))) as Ht.
  destruct (chat_ice_selected_pair_is_relayed _) as [rel|]; cbn [fst snd].
  all: match goal with |- context [bool_decide (?a = ?b)] =>
    destruct (decide (a = b)) as [Ea|]; [rewrite bool_decide_true by done
      |rewrite bool_decide_false by done] end.
  all: cbn [fst snd]; split; [destruct Hs; split; try done; right; fields; lia|split; [|done]].
  all: unfold progress; fields; try done.
  all: change (d_session_state (w_st w) = CHATD_SESSION_ICE_CONNECTED) in Ea; by rewrite Ea.
Qed.

Lemma service_ice_ok q p w :
  side q [] w → Forall (λ m, len m ≤ CHAT_ICE_RECV_MAX) (option_list p) →
  ∃ w1, service_ice_session (from_network p) w = service_crypto_session w1
        ∧ side q (option_list p) w1 ∧ progress w1 = connected (progress w) ∧ same_env w w1.
Proof.
  intros Hs Hp. destruct (poll_ok q p w Hs Hp) as (Hs1 & Hp1 & He1).
  unfold service_ice_session. run. rewrite (side_active _ _ _ Hs). cbn [negb].
  destruct (chat_ice_poll (from_network p) w) as [[] w1]. cbn [fst snd] in *.
  unfold time_now at 1. run. fields. rewrite (in_time q (option_list p)) by done.
  set (w2 := set_field w_env (set_field e_ticks (λ _, S (e_ticks (w_env w1)))) w1).
  assert (Hs2 : side q (option_list p) w2) by (destruct Hs1; by split).
  unfold apply_pending_sdp, send_local_sdp. run.
  rewrite (side_no_pending _ _ _ Hs2), andb_false_r. cbn [negb].
  rewrite (side_sdp_sent _ _ _ Hs2), andb_false_r. cbn [andb negb]. rewrite (side_failed _ _ _ Hs2), (side_ready _ _ _ Hs2).
  destruct (note_connected_ok _ _ _ Hs2) as (Hs3 & Hp3 & He3).
  destruct (note_connected w2) as [[] w3]. cbn [snd] in *. exists w3. split; [done|].
  split; [done|]. split; [rewrite Hp3; change (progress w2) with (progress w1); by rewrite Hp1|].
  destruct He1, He3. split; etransitivity; eassumption || done.
Qed.

(** The steps of [service_crypto_session] before the session is established. *)
Definition repeat_handshake (now : Z) (st : chatd_state_t) : D Z :=
  if negb (d_crypto_handshake_sent st)
     || (negb (d_crypto_stream_header_received st) && (now >=? d_crypto_next_handshake_at st))
  then start_crypto_handshake else mret 0.
Definition repeat_header (now : Z) (st : chatd_state_t) : D Z :=
  if d_crypto_keys_ready st
     && (negb (d_crypto_stream_header_sent st)
         || (negb (d_encrypted_session_ready st) && (now >=? d_crypto_next_stream_header_at st)))
  then send_stream_header else mret 0.
Definition after_handshake (now : Z) : D unit :=
  or_fail process_received_ice_packet
    (st ← state;
     or_fail (repeat_header now st) (or_fail process_received_ice_packet establish_session)).

Lemma service_crypto_ok q ps w :
  side q ps w →
  ∃ now w1, service_crypto_session w
            = or_fail (repeat_handshake now (w_st w1)) (after_handshake now) w1
    ∧ side q ps w1 ∧ progress w1 = progress w ∧ same_env w w1.
Proof.
  intros Hs. unfold service_crypto_session, time_now. run.
  rewrite (side_ready _ _ _ Hs), (side_not_ready _ _ _ Hs), (side_has_pk _ _ _ Hs). cbn [negb].
  pose proof (in_time q ps w (e_ticks (w_env w)) true Hs) as Ht. rewrite andb_true_r in Ht.
  rewrite Ht. 
  exists (e_clock (w_env w) (e_ticks (w_env w))),
    (set_field w_env (set_field e_ticks (λ _, S (e_ticks (w_env w)))) w).
  split; [fields; reflexivity|].
  split; [destruct Hs; by split|done].
Qed.

(** A call that may send again what it sent before. *)
Abbreviation resends q ps w := (λ w', side q ps w' ∧ progress w' = progress w
  ∧ e_packets (w_env w) ⊆ e_packets (w_env w')).

Lemma repeat_handshake_ok q ps w now :
  side q ps w → d_session_state (w_st w) = CHATD_SESSION_CRYPTO_HANDSHAKE →
  d_crypto_handshake_sent (w_st w) = true →
  len (d_crypto_local_handshake_message (w_st w)) = CHAT_CRYPTO_KX_MESSAGE_BYTES →
  succeeds (repeat_handshake now (w_st w)) w (resends q ps w).
Proof.
  intros Hs Hst Hsent Hl. unfold repeat_handshake. case_if; [by apply handshake_again|].
  split; [done|]. cbn. by split_and!.
Qed.

Lemma repeat_header_ok q ps w now :
  side q ps w →
  (d_crypto_keys_ready (w_st w) = true →
   d_crypto_stream_header_sent (w_st w) = true
   ∧ len (d_crypto_local_stream_header (w_st w)) = CHAT_CRYPTO_STREAM_HEADER_BYTES) →
  succeeds (repeat_header now (w_st w)) w (resends q ps w).
Proof.
  intros Hs Hk. unfold repeat_header. case_if.
  - destruct Hk; [assumption|]. by apply header_again.
  - split; [done|]. cbn. by split_and!.
Qed.

(** The end of a turn in which the session is not yet established. *)
Lemma finish_turn q w :
  side q [] w →
  d_crypto_keys_ready (w_st w) && d_crypto_stream_header_received (w_st w) = false →
  resends q [] w ((or_fail process_received_ice_packet establish_session) w).2.
Proof.
  intros Hs Hk. step_over. destruct (process_none q w Hs) as [Hz (Hs1 & Hp1 & He1 & _)].
  split; [done|]. set (w1 := (process_received_ice_packet w).2) in *.
  unfold establish_session, when. run.
  assert (Ek : d_crypto_keys_ready (w_st w1) = d_crypto_keys_ready (w_st w)
    ∧ d_crypto_stream_header_received (w_st w1) = d_crypto_stream_header_received (w_st w)).
  { by injection Hp1. }
  destruct Ek as [-> ->]. rewrite <- andb_assoc, (andb_comm (d_crypto_stream_header_sent _)),
    andb_assoc, Hk. cbn [andb snd]. by rewrite He1.
Qed.

(** First turn: the handshake message goes out. *)
Lemma turn_handshake q w hs msg g :
  side q [] w → d_crypto_handshake_sent (w_st w) = false →
  d_crypto_handshake (w_st w) = zero_handshake → d_crypto_keys_ready (w_st w) = false →
  chat_crypto_handshake_init (Some zero_handshake) (Some (p_identity q)) (Some (p_peer_pk q))
    (p_role q) (Some (p_sid q)) (Some (d_crypto_local_handshake_message (w_st w)))
    (e_rng (w_env w)) = (CHAT_CRYPTO_OK, Some hs, Some msg, g) →
  len msg = CHAT_CRYPTO_KX_MESSAGE_BYTES →
  let w' := (service_crypto_session w).2 in
  side q [] w' ∧ progress w' = shaking hs msg (progress w)
  ∧ framed CHAT_PKT_HANDSHAKE msg ∈ e_packets (w_env w').
Proof.
  intros Hs Hsent Hz Hk Hi Hl.
  destruct (service_crypto_ok q [] w Hs) as (now & w1 & -> & Hs1 & Hp1 & He1 & Hg1).
  pose proof Hp1 as Hw1. injection Hw1 as _ _ E1 E2 E4 E3 _ _ _ _ _. step_over.
  assert (repeat_handshake now (w_st w1) = start_crypto_handshake) as ->.
  { unfold repeat_handshake. by rewrite E1, Hsent. }
  destruct (handshake_first q [] w1 hs msg g) as [Hr (Hs2 & Hp2 & He2)]; [done|congruence..| |done|].
  { by rewrite Hg1, E4. }
  split; [done|]. set (w2 := (start_crypto_handshake w1).2) in *. rewrite Hp1 in Hp2.
  unfold after_handshake. step_over. destruct (process_none q w2 Hs2) as [Hz3 (Hs3 & Hp3 & He3 & _)].
  split; [done|]. set (w3 := (process_received_ice_packet w2).2) in *. rewrite Hp2 in Hp3.
  assert (Hk3 : d_crypto_keys_ready (w_st w3) = false).
  { change (g_keys_ready (progress w3) = false). by rewrite Hp3. }
  unfold mbind, stateM_bind, state, gets. cbn [fst snd]. step_over.
  destruct (repeat_header_ok q [] w3 now Hs3) as [Hz4 (Hs4 & Hp4 & He4)]; [congruence|].
  split; [done|]. set (w4 := (repeat_header now (w_st w3) w3).2) in *. rewrite Hp3 in Hp4.
  destruct (finish_turn q w4 Hs4) as (Hs5 & Hp5 & He5).
  { assert (d_crypto_keys_ready (w_st w4) = false) as ->; [|done].
    change (g_keys_ready (progress w4) = false). by rewrite Hp4. }
  split; [done|]. split; [congruence|]. apply He5, He4. by rewrite He3.
Qed.

(** Second turn: the peer's handshake message comes in, the stream header
    goes out. *)
Lemma turn_keys q w msg hs keys :
  side q [framed CHAT_PKT_HANDSHAKE msg] w →
  d_session_state (w_st w) = CHATD_SESSION_CRYPTO_HANDSHAKE →
  d_crypto_handshake_sent (w_st w) = true →
  len (d_crypto_local_handshake_message (w_st w)) = CHAT_CRYPTO_KX_MESSAGE_BYTES →
  d_crypto_keys_ready (w_st w) = false → d_crypto_stream_header_sent (w_st w) = false →
  d_crypto_stream_header_received (w_st w) = false →
  len msg = CHAT_CRYPTO_KX_MESSAGE_BYTES →
  chat_crypto_handshake_finish (Some (d_crypto_handshake (w_st w))) (Some msg)
    (Some (d_crypto_keys (w_st w))) = (CHAT_CRYPTO_OK, Some hs, Some keys) →
  (∀ key g, is_Some (secretstream_init_push key g).1) →
  let w' := (service_crypto_session w).2 in
  ∃ push hdr g g', secretstream_init_push (keys_tx keys) g = (Some (push, hdr), g')
    ∧ side q [] w' ∧ progress w' = opened push hdr (keyed hs keys (progress w))
    ∧ framed CHAT_PKT_STREAM_HEADER hdr ∈ e_packets (w_env w').
Proof.
  intros Hs Hst Hsent Hm Hk Hhs Hrec Hl Hf Hinit.
  destruct (service_crypto_ok q _ w Hs) as (now & w1 & E & Hs1 & Hp1 & _). cbv zeta. rewrite E.
  pose proof Hp1 as Hw1. injection Hw1 as E0 _ E1 E2 E3 E4 E5 E6 _ _ E7.
  destruct (repeat_handshake_ok q _ w1 now Hs1) as [Hz2 (Hs2 & Hp2 & _)]; [congruence..|].
  set (w2 := (repeat_handshake now (w_st w1) w1).2) in *. rewrite Hp1 in Hp2.
  destruct (process_one q _ _ w2 Hs2) as (w3 & E8 & Hs3 & Hp3 & _).
  { unfold framed. by rewrite len_app, Hl. }
  rewrite Hp2 in Hp3. pose proof Hp3 as Hw3. injection Hw3 as F0 _ F1 F2 F3 F4 F5 F6 _ _ F7.
  destruct (handle_handshake_ok q [] w3 msg hs keys Hs3) as [Hz4 (Hs4 & Hp4 & _)]; [congruence..|].
  set (w4 := (handle_ice_app_packet (framed CHAT_PKT_HANDSHAKE msg) w3).2) in *.
  rewrite Hp3 in Hp4. pose proof Hp4 as Hw4. injection Hw4 as G0 _ G1 G2 G3 G4 G5 G6 _ _ G7.
  destruct (secretstream_init_push (keys_tx keys) (e_rng (w_env w4))) as [[[push hdr]|] g'] eqn:Ei;
    [|by destruct (Hinit (keys_tx keys) (e_rng (w_env w4))) as [? Hsome]; rewrite Ei in Hsome].
  exists push, hdr, (e_rng (w_env w4)), g'. split; [done|].
  destruct (header_first q [] w4 push hdr g' Hs4) as [Hz5 (Hs5 & Hp5 & He5)];
    [congruence|by rewrite G5|exact (proj1 (stream_init _ _ _ _ _ Ei))|].
  set (w5 := (send_stream_header w4).2) in *. rewrite Hp4 in Hp5.
  step_over. split; [done|]. fold w2. unfold after_handshake. step_over. rewrite E8.
  split; [done|]. fold w4. unfold mbind, stateM_bind, state, gets. cbn [fst snd].
  step_over. 
  assert (repeat_header now (w_st w4) = send_stream_header) as ->.
  { unfold repeat_header. by rewrite G4, G6, Hhs. }
  split; [done|]. fold w5. destruct (finish_turn q w5 Hs5) as (Hs6 & Hp6 & He6).
  { apply andb_false_iff. right. change (g_received (progress w5) = false). by rewrite Hp5. }
  split; [done|]. split; [congruence|]. by apply He6.
Qed.

(** Third turn: the peer's stream header comes in, the session is
    established. *)
Lemma write_response_state fd line w : w_st (write_response fd line w).2 = w_st w.
Proof.
  unfold write_response, when, write_ipc_line. case_if; [|done]. run. case_if; [done|]. run.
  destruct (e_fds (w_env w) !! fd).
  - by destruct (ipc_write_loop _ _) as [[? ?] ?].
  - by case_if.
Qed.

Lemma establish_ok w :
  d_crypto_keys_ready (w_st w) = true → d_crypto_stream_header_sent (w_st w) = true →
  d_crypto_stream_header_received (w_st w) = true →
  established (establish_session w).2
  ∧ d_crypto_stream (w_st (establish_session w).2) = d_crypto_stream (w_st w).
Proof.
  intros Hk Hs Hr. unfold establish_session, chatd_set_session_state, when. run.
  rewrite Hk, Hs, Hr. cbn [andb]. run. fields.
  match goal with |- context [bool_decide ?P] => destruct (decide P) as [Ed|Ed];
    [rewrite bool_decide_true by done|rewrite bool_decide_false by done] end.
  all: destruct (d_lookup_client_fd (w_st w) >=? 0); unfold established;
    rewrite ?write_response_state; by fields.
Qed.

Lemma turn_header q w hdr pull :
  side q [framed CHAT_PKT_STREAM_HEADER hdr] w →
  d_session_state (w_st w) = CHATD_SESSION_CRYPTO_HANDSHAKE →
  d_crypto_handshake_sent (w_st w) = true →
  len (d_crypto_local_handshake_message (w_st w)) = CHAT_CRYPTO_KX_MESSAGE_BYTES →
  d_crypto_keys_ready (w_st w) = true → d_crypto_stream_header_sent (w_st w) = true →
  len (d_crypto_local_stream_header (w_st w)) = CHAT_CRYPTO_STREAM_HEADER_BYTES →
  d_crypto_stream_header_received (w_st w) = false →
  len hdr = CHAT_CRYPTO_STREAM_HEADER_BYTES →
  secretstream_init_pull hdr (keys_rx (d_crypto_keys (w_st w))) = Some pull →
  let w' := (service_crypto_session w).2 in
  established w' ∧ d_crypto_stream (w_st w') = g_stream (received pull (progress w)).
Proof.
  intros Hs Hst Hsent Hm Hk Hhs Hlh Hrec Hl Hp.
  destruct (service_crypto_ok q _ w Hs) as (now & w1 & E & Hs1 & Hp1 & _). cbv zeta. rewrite E.
  pose proof Hp1 as Hw1. injection Hw1 as E0 _ E1 E2 E3 E4 E5 E6 _ _ E7.
  destruct (repeat_handshake_ok q _ w1 now Hs1) as [Hz2 (Hs2 & Hp2 & _)]; [congruence..|].
  set (w2 := (repeat_handshake now (w_st w1) w1).2) in *. rewrite Hp1 in Hp2.
  destruct (process_one q _ _ w2 Hs2) as (w3 & E8 & Hs3 & Hp3 & _).
  { unfold framed. by rewrite len_app, Hl. }
  rewrite Hp2 in Hp3. pose proof Hp3 as Hw3. injection Hw3 as F0 _ F1 F2 F3 F4 F5 F6 _ _ F7.
  destruct (handle_header_ok q [] w3 hdr pull Hs3) as [Hz4 (Hs4 & Hp4 & _)]; [congruence..|].
  set (w4 := (handle_ice_app_packet (framed CHAT_PKT_STREAM_HEADER hdr) w3).2) in *.
  rewrite Hp3 in Hp4. pose proof Hp4 as Hw4. injection Hw4 as G0 _ G1 G2 G3 G4 G5 G6 G8 G9 G7.
  destruct (repeat_header_ok q [] w4 now Hs4) as [Hz5 (Hs5 & Hp5 & _)]; [split; congruence|].
  set (w5 := (repeat_header now (w_st w4) w4).2) in *. rewrite Hp4 in Hp5.
  destruct (process_none q w5 Hs5) as [Hz6 (Hs6 & Hp6 & _)].
  set (w6 := (process_received_ice_packet w5).2) in *. rewrite Hp5 in Hp6.
  assert (K4 : g_keys_ready (progress w6) = true) by (rewrite Hp6; exact Hk).
  assert (K6 : g_header_sent (progress w6) = true) by (rewrite Hp6; exact Hhs).
  assert (K7 : g_received (progress w6) = true) by by rewrite Hp6.
  step_over. split; [done|]. fold w2. unfold after_handshake. step_over. rewrite E8.
  split; [done|]. fold w4. unfold mbind, stateM_bind, state, gets. cbn [fst snd].
  step_over. split; [done|]. fold w5. step_over. split; [done|]. fold w6.
  destruct (establish_ok w6 K4 K6 K7) as [He Est]. split; [exact He|]. rewrite Est.
  exact (f_equal g_stream Hp6).
Qed.

(** ** Both sides *)

(** One service of the session, with what came from the network. *)
Definition session_turn (p : option bytes) : D unit := service_ice_session (from_network p).

(** ICE has connected the sides and the exchange has not begun. *)
Record ready_side (q : party) (w : world) : Prop := {
  rs_side : side q [] w;
  rs_sent : d_crypto_handshake_sent (w_st w) = false;
  rs_handshake : d_crypto_handshake (w_st w) = zero_handshake;
  rs_keys : d_crypto_keys_ready (w_st w) = false;
  rs_header : d_crypto_stream_header_sent (w_st w) = false;
  rs_received : d_crypto_stream_header_received (w_st w) = false;
}.

Lemma connected_fields g :
  g_notified (connected g) = true ∧ g_sent (connected g) = g_sent g
  ∧ g_handshake (connected g) = g_handshake g ∧ g_message (connected g) = g_message g
  ∧ g_keys_ready (connected g) = g_keys_ready g ∧ g_keys (connected g) = g_keys g
  ∧ g_header_sent (connected g) = g_header_sent g ∧ g_received (connected g) = g_received g.
Proof. unfold connected. destruct (g_notified g) eqn:E; by split_and!. Qed.

Lemma first_turn q w hs msg g :
  ready_side q w →
  chat_crypto_handshake_init (Some zero_handshake) (Some (p_identity q)) (Some (p_peer_pk q))
    (p_role q) (Some (p_sid q)) (Some (d_crypto_local_handshake_message (w_st w)))
    (e_rng (w_env w)) = (CHAT_CRYPTO_OK, Some hs, Some msg, g) →
  len msg = CHAT_CRYPTO_KX_MESSAGE_BYTES →
  let w' := (session_turn None w).2 in
  side q [] w' ∧ progress w' = shaking hs msg (connected (progress w))
  ∧ framed CHAT_PKT_HANDSHAKE msg ∈ e_packets (w_env w').
Proof.
  intros [Hs Hsent Hz Hk Hh Hr] Hi Hl. unfold session_turn.
  destruct (service_ice_ok q None w Hs) as (w1 & -> & Hs1 & Hp1 & _ & Hg1); [constructor|].
  destruct (connected_fields (progress w)) as (_ & C1 & C2 & C3 & C4 & _).
  rewrite <- Hp1 in *. cbv zeta. eapply turn_handshake; [done|..].
  - exact (eq_trans C1 Hsent).
  - exact (eq_trans C2 Hz).
  - exact (eq_trans C4 Hk).
  - rewrite Hg1. change (d_crypto_local_handshake_message (w_st w1)) with (g_message (progress w1)).
    rewrite C3. exact Hi.
  - done.
Qed.

Lemma len_framed type payload : len (framed type payload) = 6 + len payload.
Proof. unfold framed. by rewrite len_app, len_header_bytes. Qed.

Lemma second_turn q w g0 hs0 msg0 msg hs keys :
  side q [] w → progress w = shaking hs0 msg0 g0 → g_notified g0 = true →
  g_keys_ready g0 = false → g_header_sent g0 = false → g_received g0 = false →
  len msg0 = CHAT_CRYPTO_KX_MESSAGE_BYTES → len msg = CHAT_CRYPTO_KX_MESSAGE_BYTES →
  chat_crypto_handshake_finish (Some hs0) (Some msg) (Some (g_keys g0))
    = (CHAT_CRYPTO_OK, Some hs, Some keys) →
  (∀ key g, is_Some (secretstream_init_push key g).1) →
  let w' := (session_turn (Some (framed CHAT_PKT_HANDSHAKE msg)) w).2 in
  ∃ push hdr g g', secretstream_init_push (keys_tx keys) g = (Some (push, hdr), g')
    ∧ side q [] w' ∧ progress w' = opened push hdr (keyed hs keys (shaking hs0 msg0 g0))
    ∧ framed CHAT_PKT_STREAM_HEADER hdr ∈ e_packets (w_env w').
Proof.
  intros Hs Hp Hn Hk Hh Hr Hl0 Hl Hf Hinit. unfold session_turn.
  destruct (service_ice_ok q (Some (framed CHAT_PKT_HANDSHAKE msg)) w Hs)
    as (w1 & -> & Hs1 & Hp1 & _ & Hg1).
  { constructor; [|constructor]. by rewrite len_framed, Hl. }
  unfold connected in Hp1. rewrite Hp in Hp1. cbn [shaking g_notified] in Hp1. rewrite Hn in Hp1.
  rewrite <- Hp1. pose proof Hp1 as Hw1. injection Hw1 as E0 _ E1 E2 E3 E4 E5 E6 _ _ E7.
  eapply turn_keys; [done|congruence..|done].
Qed.

Lemma third_turn q w push hdr0 hs keys hs0 msg0 g0 hdr pull :
  side q [] w → progress w = opened push hdr0 (keyed hs keys (shaking hs0 msg0 g0)) →
  g_notified g0 = true → g_received g0 = false →
  len msg0 = CHAT_CRYPTO_KX_MESSAGE_BYTES → len hdr0 = CHAT_CRYPTO_STREAM_HEADER_BYTES →
  len hdr = CHAT_CRYPTO_STREAM_HEADER_BYTES →
  secretstream_init_pull hdr (keys_rx keys) = Some pull →
  let w' := (session_turn (Some (framed CHAT_PKT_STREAM_HEADER hdr)) w).2 in
  established w'
  ∧ d_crypto_stream (w_st w') = {| st_push := push; st_pull := pull;
                                   st_push_initialized := true; st_pull_initialized := true |}.
Proof.
  intros Hs Hp Hn Hr Hlm Hl0 Hl Hpull. unfold session_turn.
  destruct (service_ice_ok q (Some (framed CHAT_PKT_STREAM_HEADER hdr)) w Hs)
    as (w1 & -> & Hs1 & Hp1 & _ & Hg1).
  { constructor; [|constructor]. by rewrite len_framed, Hl. }
  unfold connected in Hp1. rewrite Hp in Hp1. cbn [shaking opened keyed g_notified] in Hp1.
  rewrite Hn in Hp1. pose proof Hp1 as Hw1. injection Hw1 as E0 _ E1 E2 E3 E4 E5 E6 _ E8 E7.
  destruct (turn_header q w1 hdr pull) as [He Hst]; [done|congruence..|].
  split; [done|]. rewrite Hst, Hp1. done.
Qed.

(** C8: two daemons that ICE has connected, that hold each other's identity
    keys and the same session identifier, one as initiator and one as
    responder, establish the session: in three services of the session each,
    in which each gets the handshake message and the stream header the other
    has sent, both report it as encrypted and both directions are in step.
    (The exchange happens within the 30 seconds of the deadline on both
    clocks and libnice sends what it is given; a daemon may repeat packets
    meanwhile.) *)
Theorem session_establishes ida idb sid ta tb wa wb :
  session_id_ok sid →
  sign_key_pair (id_public_key ida) (id_secret_key ida) →
  sign_key_pair (id_public_key idb) (id_secret_key idb) →
  (∀ g, is_Some (crypto_kx_keypair g).1) →
  (∀ key g, is_Some (secretstream_init_push key g).1) →
  ready_side {| p_identity := ida; p_peer_pk := id_public_key idb;
                p_role := CHAT_CRYPTO_ROLE_INITIATOR; p_sid := sid; p_start := ta |} wa →
  ready_side {| p_identity := idb; p_peer_pk := id_public_key ida;
                p_role := CHAT_CRYPTO_ROLE_RESPONDER; p_sid := sid; p_start := tb |} wb →
  let a1 := (session_turn None wa).2 in
  let b1 := (session_turn None wb).2 in
  ∃ pa pb, pa ∈ e_packets (w_env a1) ∧ pb ∈ e_packets (w_env b1) ∧
  let a2 := (session_turn (Some pb) a1).2 in
  let b2 := (session_turn (Some pa) b1).2 in
  ∃ qa qb, qa ∈ e_packets (w_env a2) ∧ qb ∈ e_packets (w_env b2) ∧
  let a3 := (session_turn (Some qb) a2).2 in
  let b3 := (session_turn (Some qa) b2).2 in
  established a3 ∧ established b3
  ∧ streams_linked (d_crypto_stream (w_st a3)) (d_crypto_stream (w_st b3))
  ∧ streams_linked (d_crypto_stream (w_st b3)) (d_crypto_stream (w_st a3)).
Proof.
  intros Hsid Hka Hkb Hkx Hinit Ha Hb.
  destruct (handshake_exchange ida idb sid (d_crypto_local_handshake_message (w_st wa))
    (d_crypto_local_handshake_message (w_st wb)) (e_rng (w_env wa)) (e_rng (w_env wb))
    Hsid Hka Hkb (Hkx _) (Hkx _))
    as (hsa & ma & ga & hsb & mb & gb & k1 & k2 & Ia & Ib & La & Lb & Fa & Fb).
  destruct (first_turn _ wa hsa ma ga Ha Ia La) as (Sa1 & Pa1 & Ka1).
  destruct (first_turn _ wb hsb mb gb Hb Ib Lb) as (Sb1 & Pb1 & Kb1).
  set (a1 := (session_turn None wa).2) in *. set (b1 := (session_turn None wb).2) in *. clearbody a1 b1.
  exists (framed CHAT_PKT_HANDSHAKE ma), (framed CHAT_PKT_HANDSHAKE mb).
  split; [done|]. split; [done|].
  destruct (connected_fields (progress wa)) as (Na & _ & _ & _ & Fa1 & Fa2 & Fa3 & Fa4).
  destruct (connected_fields (progress wb)) as (Nb & _ & _ & _ & Fb1 & Fb2 & Fb3 & Fb4).
  destruct (second_turn _ a1 _ hsa ma mb _ _ Sa1 Pa1 Na (eq_trans Fa1 (rs_keys _ _ Ha))
    (eq_trans Fa3 (rs_header _ _ Ha)) (eq_trans Fa4 (rs_received _ _ Ha)) La Lb (Fa _) Hinit)
    as (sa & hdra & g1 & g2 & Ja & Sa2 & Pa2 & Ka2).
  destruct (second_turn _ b1 _ hsb mb ma _ _ Sb1 Pb1 Nb (eq_trans Fb1 (rs_keys _ _ Hb))
    (eq_trans Fb3 (rs_header _ _ Hb)) (eq_trans Fb4 (rs_received _ _ Hb)) Lb La (Fb _) Hinit)
    as (sb & hdrb & g3 & g4 & Jb & Sb2 & Pb2 & Kb2).
  destruct (stream_init _ _ _ _ _ Ja) as (Lha & ra & Era & Sya).
  destruct (stream_init _ _ _ _ _ Jb) as (Lhb & rb & Erb & Syb).
  exists (framed CHAT_PKT_STREAM_HEADER hdra), (framed CHAT_PKT_STREAM_HEADER hdrb).
  split; [done|]. split; [done|].
  destruct (third_turn _ _ _ _ _ _ _ _ _ hdrb rb Sa2 Pa2 Na
    (eq_trans Fa4 (rs_received _ _ Ha)) La Lha Lhb Erb) as [Ta Sta].
  destruct (third_turn _ _ _ _ _ _ _ _ _ hdra ra Sb2 Pb2 Nb
    (eq_trans Fb4 (rs_received _ _ Hb)) Lb Lhb Lha Era) as [Tb Stb].
  split; [exact Ta|]. split; [exact Tb|]. rewrite Sta, Stb. done.
Qed.
End live.
