(* ===== verification/DaemonPair.v ===== *)
(** * Two daemons side by side

    A run in which bob's client opens a chat with alice: the two daemons are
    given each other's control messages and packets.  The theorems on the
    establishment of sessions and the delivery of messages are applied to it. *)

From S2P Require Import Prelude CLib Protocol Sodium Base64 Json Identity FileSys IdentityStore.
From S2P Require Import Contacts Ipc Crypto Ice StateMonad DaemonState DaemonSession Daemon.
From S2P Require Import DaemonDemo DaemonDelivery DaemonLive.

Import Demo.

Definition bob0 : world :=
  {| w_st := chatd_initial bob zero_config 3;
     w_env := set_field e_rng (λ _, (90 : @rng (@lib_random reference_libs))) env0 |}.

(** Bob's client connects on descriptor 4 and asks for alice. *)
Definition bob_opens : loop_input :=
  {| in_ipc := {| in_accept := 4; in_poll := 1; in_poll_error := false; in_poll_in := true;
                  in_command := ReadData (lit "OPEN_CHAT alice" ++ [newline]) |};
     in_chat := ReadAgain; in_ice := []; in_flush := []; in_service := [flush];
     in_connect := true; in_connecting := [] |}.
Abbreviation bob1 := (main_loop [Demo.turn [] login; bob_opens] bob0).2.
Definition last_sent (w : world) : bytes := List.last (e_sent (w_env w)) [].

(** The server forwards bob's request to alice and her answer to him; both
    gather candidates, send their descriptions, and ICE connects. *)
Definition negotiated : list loop_input := [Demo.turn [IceGatheringDone 1] [flush]].
Definition ice_up : list ice_event := [IceStateChanged 1 1 1 NICE_READY].
Definition alice_gets : list chatd_reason := [receive (last_sent bob1); flush].
Abbreviation alice1 := (main_loop [Demo.turn [] login; Demo.turn [] alice_gets] world0).2.
Definition bob_gets : list chatd_reason := [receive (last_sent alice1)].
Abbreviation alice_world :=
  (chat_ice_poll ice_up
     (main_loop ([Demo.turn [] login; Demo.turn [] alice_gets] ++ negotiated) world0).2).2.
Abbreviation bob_world :=
  (chat_ice_poll ice_up
     (main_loop ([Demo.turn [] login; bob_opens; Demo.turn [] bob_gets] ++ negotiated) bob0).2).2.

#[export] Instance reference_network : NetworkUp := {
  network_up _ := True;
  network_sends _ _ _ _ _ _ := eq_refl;
  network_stays_up _ _ _ _ _ _ := I;
}.

(** ** The session is established *)

Abbreviation sid_pair := (d_ice_session_id (w_st bob_world)).
Abbreviation bob_party :=
  {| p_identity := bob; p_peer_pk := id_public_key alice; p_role := CHAT_CRYPTO_ROLE_INITIATOR;
     p_sid := sid_pair; p_start := 100 |}.
Abbreviation alice_party :=
  {| p_identity := alice; p_peer_pk := id_public_key bob; p_role := CHAT_CRYPTO_ROLE_RESPONDER;
     p_sid := sid_pair; p_start := 100 |}.

Ltac concrete_side :=
  split; [split|..]; try (vm_compute; reflexivity);
  [ by eexists; vm_compute
  | split; try (vm_compute; reflexivity); [vm_compute; lia|vm_compute; lia|constructor]
  | intros n; split; [vm_compute; congruence|vm_compute; reflexivity]
  | left; vm_compute; reflexivity ].

Lemma bob_ready : ready_side bob_party bob_world.
Proof. concrete_side. Qed.
Lemma alice_ready : ready_side alice_party alice_world.
Proof. concrete_side. Qed.

Lemma session_establishes_witness :
  d_session_state (w_st bob_world) = CHATD_SESSION_ICE_NEGOTIATING
  ∧ ∃ pa pb qa qb,
      established (session_turn (Some qb) (session_turn (Some pb) (session_turn None bob_world).2).2).2
      ∧ established (session_turn (Some qa) (session_turn (Some pa) (session_turn None alice_world).2).2).2.
Proof.
  split; [vm_compute; reflexivity|].
  destruct (session_establishes bob alice sid_pair 100 100 bob_world alice_world)
    as (pa & pb & _ & _ & qa & qb & _ & _ & Ha & Hb & _).
  - by vm_compute.
  - by vm_compute.
  - by vm_compute.
  - intros g. by eexists.
  - intros key g. by eexists.
  - exact bob_ready.
  - exact alice_ready.
  - exists pa, pb, qa, qb. split; [exact Ha|exact Hb].
Defined.

(** ** Messages from alice to bob's client *)

(** The packets of the run, as each side sent them. *)
Definition newest (w : world) : option bytes := Some (List.last (e_packets (w_env w)) []).
Abbreviation bob_turn1 := (session_turn None bob_world).2.
Abbreviation alice_turn1 := (session_turn None alice_world).2.
Abbreviation bob_turn2 := (session_turn (newest alice_turn1) bob_turn1).2.
Abbreviation alice_turn2 := (session_turn (newest bob_turn1) alice_turn1).2.
Abbreviation bob_secure := (session_turn (newest alice_turn2) bob_turn2).2.
Abbreviation alice_secure := (session_turn (newest bob_turn2) alice_turn2).2.

Lemma demo_linked : linked alice_secure bob_secure.
Proof.
  split.
  - split; vm_compute; reflexivity.
  - split; vm_compute; reflexivity.
  - split; [|split]; vm_compute; reflexivity.
  - vm_compute. congruence.
  - exists (lit "ENCRYPTED_SESSION alice direct" ++ [newline]). vm_compute. reflexivity.
  - vm_compute. reflexivity.
Qed.

Lemma messages_delivered_witness :
  ∃ packets, length packets = 2%nat
    ∧ client_output (all_ok handle_ice_app_packet packets bob_secure).2
      = Some (lit "ENCRYPTED_SESSION alice direct" ++ [newline]
              ++ lit "MESSAGE alice hello" ++ [newline]
              ++ lit "MESSAGE alice how are you?" ++ [newline]).
Proof.
  destruct (messages_delivered alice_secure bob_secure [lit "hello"; lit "how are you?"])
    as (packets & Hp & _ & Ho).
  - exact demo_linked.
  - repeat constructor; vm_compute; congruence.
  - vm_compute. reflexivity.
  - exists packets. split; [|rewrite Ho; vm_compute; reflexivity].
    apply (f_equal length) in Hp. rewrite length_app in Hp. revert Hp. vm_compute. lia.
Defined.

(** 4074 letters: the message is lost, and so is the next one. *)
Definition letters (n : nat) : bytes := replicate n (byte_of 97).
Lemma oversized_message_desynchronises_witness :
  (send_message (letters 4074) alice_secure).1 = -1
  ∧ (handle_ice_app_packet
       (default [] (newest (send_message (lit "hello") (send_message (letters 4074) alice_secure).2).2))
       bob_secure).1 = -1.
Proof.
  split; [|vm_compute; reflexivity].
  destruct (oversized_message_desynchronises alice_secure bob_secure (letters 4074)) as [Hr _].
  - exact demo_linked.
  - vm_compute. reflexivity.
  - vm_compute. reflexivity.
  - exact Hr.
Defined.

(** The peer has a name of 32 characters. *)
Definition rename_peer (name : bytes) (w : world) : world :=
  set_field w_st (set_field d_ice_peer (λ _, name)) w.
Lemma linked_rename w w' name : linked w w' → linked w (rename_peer name w').
Proof. intros [Ha Hb Hs Hc Hf He]. split; [exact Ha|exact Hb|exact Hs|exact Hc|exact Hf|exact He]. Qed.
Abbreviation bob_long := (rename_peer (letters 32) bob_secure).
Lemma long_line_is_an_error_witness :
  ∃ packet, (handle_ice_app_packet packet bob_long).1 = -1
            ∧ client_output (handle_ice_app_packet packet bob_long).2 = client_output bob_long.
Proof.
  destruct (long_line_is_an_error alice_secure bob_long (letters 4073)) as (packet & _ & Hr & Ho).
  - apply linked_rename. exact demo_linked.
  - vm_compute. reflexivity.
  - vm_compute. congruence.
  - vm_compute. reflexivity.
  - vm_compute. reflexivity.
  - exists packet. split; [exact Hr|exact Ho].
Defined.
