(* ===== verification/Client.v ===== *)
(** * The command line client (src/client/main.c)

    Every command and the chat loop, in a state monad over what the client
    acts on: the files, the generator, its open sockets with what was written
    to them, the two output streams and its standard input.  What the daemon
    and the user do is the argument of the commands: the results of [socket],
    [connect], [poll] and [read], and one event per turn of the chat loop. *)

From S2P Require Import Prelude CLib Protocol Sodium Base64 Json Identity FileSys IdentityStore.
From S2P Require Import Contacts Ipc Crypto Ice StateMonad DaemonState DaemonSession.

(** Exit statuses (protocole.h). *)
Definition CHAT_EXIT_SUCCESS : Z := 0.
Definition CHAT_EXIT_GENERIC_ERROR : Z := 1.
Definition CHAT_EXIT_USER_OFFLINE : Z := 2.
Definition CHAT_EXIT_CONNECTION_FAILED : Z := 3.
Definition CHAT_EXIT_IDENTITY_MISMATCH : Z := 4.
Definition CHAT_EXIT_DAEMON_UNAVAILABLE : Z := 5.
Definition CHAT_EXIT_AUTHENTICATION_FAILED : Z := 6.

Section client.
Context `{Libs}.

Record client := {
  c_os : os;
  c_rng : rng;
  c_fds : gmap Z bytes;
  c_stale : bool;
  c_faults : list fault;
  c_wire : bytes;   (** everything written to the daemon *)
  c_stdin : istream;
  c_stdout : bytes;
  c_stderr : bytes;
}.
#[export] Instance client_settable : Settable client := λ c,
  Build_client (c_os c) (c_rng c) (c_fds c) (c_stale c) (c_faults c) (c_wire c) (c_stdin c)
    (c_stdout c) (c_stderr c).

Definition C (A : Type) : Type := stateM client A.

(** ** Output and system calls *)

Definition printf (text : bytes) : C unit := modify (set_field c_stdout (λ out, out ++ text)).
Definition eprintf (text : bytes) : C unit := modify (set_field c_stderr (λ out, out ++ text)).
Definition line (s : string) : bytes := lit s ++ [newline].

Definition cli_close (fd : Z) : C unit := λ c,
  match c_fds c !! fd with
  | Some _ => (tt, set_field c_fds (delete fd) c)
  | None => (tt, set_field c_stale (λ _, true) c)
  end.

(** [socket]: a descriptor that is not open, or none. *)
Definition cli_socket (fd : Z) : C Z := λ c,
  if (fd <? 0) || bool_decide (is_Some (c_fds c !! fd)) then (-1, c)
  else (fd, set_field c_fds (<[fd := []]>) c).

(** One [write] of [data]: how many bytes, or -1. *)
Definition cli_write (fd : Z) (data : bytes) : C Z := λ c,
  match c_fds c !! fd with
  | None => (-1, set_field c_stale (λ _, true) c)
  | Some written =>
      let '(n, faults) :=
        match c_faults c with
        | [] => (len data, [])
        | FNone :: faults => (len data, faults)
        | FShort n :: faults => (Z.min (Z.of_nat n) (len data), faults)
        | FEintr :: faults | FError :: faults => (-1, faults)
        end in
      let part := ztake n data in
      (n, set_field c_faults (λ _, faults)
            (set_field c_wire (λ wire, wire ++ part)
               (set_field c_fds (<[fd := written ++ part]>) c)))
  end.

(** The result of a [read] of at most [count] bytes. *)
Definition cli_read (fd count : Z) (outcome : read_result) : C (option bytes) := λ c,
  match c_fds c !! fd with
  | None => (None, set_field c_stale (λ _, true) c)
  | Some _ =>
      (match outcome with
       | ReadData [] | ReadAgain | ReadError => None
       | ReadData data => Some (c_string (ztake count data))
       end, c)
  end.

(** The loop of [write_all]: every turn writes at least one byte, so
    [length data] turns are enough. *)
Fixpoint write_all_loop (fuel : nat) (fd : Z) (data : bytes) : C Z :=
  match data, fuel with
  | [], _ => mret 0
  | _, O => mret (-1)
  | _, S fuel =>
      written ← cli_write fd data;
      if written <=? 0 then mret (-1) else write_all_loop fuel fd (zdrop written data)
  end.
Definition write_all (fd : Z) (data : bytes) : C Z := write_all_loop (length data) fd data.

(** ** Commands on the files *)

Definition print_usage (stream : bytes → C unit) : C unit :=
  stream (line "Usage:");;
  stream (line "  chat init <username>");;
  stream (line "  chat config server <ws:// or wss:// URL>");;
  stream (line "  chat status");;
  stream (line "  chat fingerprint <username>");;
  stream (line "  chat <username>").

Definition invalid_username : bytes :=
  line "Invalid username. Use 3..32 characters: [a-zA-Z0-9_-].".

Definition command_init (username : bytes) : C Z :=
  c ← gets id;
  let '(created, o, g) :=
    chat_identity_create getenv (Some username) (Some CHAT_IDENTITY_FINGERPRINT_LEN) (c_rng c)
      (c_os c) in
  modify (set_field c_os (λ _, o));;
  modify (set_field c_rng (λ _, g));;
  match created with
  | inl CHAT_IDENTITY_ERR_INVALID_USERNAME =>
      eprintf invalid_username;; mret CHAT_EXIT_GENERIC_ERROR
  | inl CHAT_IDENTITY_ERR_ALREADY_EXISTS =>
      eprintf (line "Identity already exists.");; mret CHAT_EXIT_GENERIC_ERROR
  | inl result =>
      eprintf (lit "Could not create identity: " ++ lit (chat_identity_result_name result)
               ++ line ".");;
      mret CHAT_EXIT_GENERIC_ERROR
  | inr (_, fingerprint) =>
      printf (lit "Created identity: " ++ username ++ [newline]);;
      printf (lit "Fingerprint: " ++ default [] fingerprint ++ [newline]);;
      mret CHAT_EXIT_SUCCESS
  end.

Definition command_config_server (server_url : bytes) : C Z :=
  c ← gets id;
  let '(result, o) := chat_identity_set_server_url getenv (Some server_url) (c_os c) in
  modify (set_field c_os (λ _, o));;
  match result with
  | inl CHAT_IDENTITY_ERR_NOT_FOUND =>
      eprintf (line "Identity not initialized. Run chat init <username> first.");;
      mret CHAT_EXIT_GENERIC_ERROR
  | inl CHAT_IDENTITY_ERR_INVALID_SERVER_URL =>
      eprintf (line "Invalid server URL. Use ws:// or wss:// followed by a host.");;
      mret CHAT_EXIT_GENERIC_ERROR
  | inl result =>
      eprintf (lit "Could not update server URL: " ++ lit (chat_identity_result_name result)
               ++ line ".");;
      mret CHAT_EXIT_GENERIC_ERROR
  | inr _ =>
      printf (lit "Server URL updated: " ++ server_url ++ [newline]);;
      printf (line "Restart chatd to apply the change.");;
      mret CHAT_EXIT_SUCCESS
  end.

Definition command_fingerprint (username : bytes) : C Z :=
  c ← gets id;
  let '(found, o) := chat_contacts_load_public_key getenv (Some username) (c_os c) in
  modify (set_field c_os (λ _, o));;
  match found with
  | inl CHAT_CONTACTS_ERR_INVALID =>
      eprintf invalid_username;; mret CHAT_EXIT_GENERIC_ERROR
  | inl CHAT_CONTACTS_ERR_NOT_FOUND =>
      eprintf (lit "Unknown contact: " ++ username ++ line ".");;
      mret CHAT_EXIT_GENERIC_ERROR
  | inl result =>
      eprintf (lit "Could not read contact: " ++ lit (chat_contacts_result_name result)
               ++ line ".");;
      mret CHAT_EXIT_GENERIC_ERROR
  | inr identity_pk =>
      match chat_identity_fingerprint (Some identity_pk) CHAT_IDENTITY_FINGERPRINT_LEN with
      | inl result =>
          eprintf (lit "Could not compute fingerprint: " ++ lit (chat_identity_result_name result)
                   ++ line ".");;
          mret CHAT_EXIT_GENERIC_ERROR
      | inr fingerprint =>
          printf (username ++ [newline]);;
          printf (lit "Fingerprint: " ++ fingerprint ++ [newline]);;
          mret CHAT_EXIT_SUCCESS
      end
  end.

(** ** The connection to the daemon *)

(** What [socket], [connect], [poll] and the first [read] give; [i_errno] is
    the text of [strerror(errno)]. *)
Record ipc_side := {
  i_socket : Z;
  i_connect : bool;
  i_poll : Z;
  i_read : read_result;
  i_errno : bytes;
}.

Definition SOCKET_PATH_SIZE : Z := 108.

Definition open_ipc_socket (input : ipc_side) : C Z :=
  match chat_ipc_socket_path getenv SOCKET_PATH_SIZE with
  | inl _ =>
      eprintf (line "Could not resolve chatd socket path.");;
      mret (-1)
  | inr socket_path =>
      fd ← cli_socket (i_socket input);
      if fd <? 0 then
        eprintf (lit "Could not create IPC socket: " ++ i_errno input ++ line ".");;
        mret (-1)
      else if snprintf_fails SOCKET_PATH_SIZE socket_path then
        eprintf (line "chatd socket path is too long.");;
        cli_close fd;;
        mret (-1)
      else if negb (i_connect input) then
        eprintf (line "chatd unavailable.");;
        cli_close fd;;
        mret (-1)
      else mret fd
  end.

(** [command_status] has its own copy of the code of [open_ipc_socket]; every
    failure there is the exit status below. *)
Definition command_status (input : ipc_side) : C Z :=
  fd ← open_ipc_socket input;
  if fd <? 0 then mret CHAT_EXIT_DAEMON_UNAVAILABLE
  else
    let command := line "STATUS" in
    written ← cli_write fd command;
    if negb (written =? len command) then
      eprintf (line "Could not write to chatd.");;
      cli_close fd;;
      mret CHAT_EXIT_DAEMON_UNAVAILABLE
    else if i_poll input <=? 0 then
      eprintf (line "chatd did not respond.");;
      cli_close fd;;
      mret CHAT_EXIT_DAEMON_UNAVAILABLE
    else
      response ← cli_read fd (CHAT_IPC_MAX_RESPONSE - 1) (i_read input);
      match response with
      | None =>
          eprintf (line "Could not read from chatd.");;
          cli_close fd;;
          mret CHAT_EXIT_DAEMON_UNAVAILABLE
      | Some response =>
          printf response;;
          cli_close fd;;
          mret CHAT_EXIT_SUCCESS
      end.

Definition read_ipc_response (fd : Z) (input : ipc_side) : C (option bytes) :=
  if i_poll input <=? 0 then mret None
  else cli_read fd (CHAT_IPC_MAX_RESPONSE - 1) (i_read input).

(** ** The chat *)

Definition send_command (text : bytes) : bytes := lit "SEND_MESSAGE " ++ text ++ [newline].

Definition send_cli_chat_message (fd : Z) (text : bytes) : C Z :=
  match snprintf CHAT_IPC_MAX_COMMAND (send_command text) with
  | None =>
      eprintf (line "Message too long.");;
      mret (-1)
  | Some command => write_all fd command
  end.

(** [sscanf(response, "%31s %32s %15s", ...) == 3]. *)
Definition network_mode_label (response : bytes) : bytes :=
  match scan_word 31 response with
  | Some (_, rest) =>
      match scan_word 32 rest with
      | Some (_, rest) =>
          match scan_word 15 rest with
          | Some (mode, _) =>
              if streq mode (lit "relay") then lit "TURN relay" else lit "direct P2P"
          | None => lit "direct P2P"
          end
      | None => lit "direct P2P"
      end
  | None => lit "direct P2P"
  end.

(** [%-6s]. *)
Definition pad_name (name : bytes) : bytes := name ++ replicate (6 - length name) space.

Definition close_command : bytes := line "CLOSE_CHAT".

(** The result of [poll]: an error, or which of the two are ready, with what
    the [read] of the socket gives. *)
Inductive poll_outcome :=
  | PollFailed (eintr interrupted : bool) (errno_text : bytes)
  | PollReady (stdin_ready socket_ready : bool) (outcome : read_result).

(** One turn: whether the signal has come, and the [poll]. *)
Record chat_event := { ev_interrupted : bool; ev_poll : poll_outcome }.

(** What to do after the part on the socket: return, next turn, or go on to
    the standard input. *)
Inductive next_step := Return (status : Z) | Continue | FallThrough.

Definition cut_line (text : bytes) : bytes := ztake (strcspn text [byte_of 13; newline]) text.

Definition show_response (peer response : bytes) : C next_step :=
  if has_prefix (lit "MESSAGE ") response then
    let rest := zdrop 8 response in
    match strchr rest space with
    | None => mret Continue
    | Some text =>
        let name := take (length rest - length text) rest in
        printf (pad_name name ++ lit " > " ++ cut_line (drop 1 text) ++ [newline]);;
        mret Continue
    end
  else if has_prefix (lit "CHAT_CLOSED ") response then
    printf (lit "Chat closed by " ++ peer ++ line ".");;
    mret (Return CHAT_EXIT_SUCCESS)
  else if has_prefix (lit "ERROR ") response then
    eprintf response;;
    mret (Return CHAT_EXIT_GENERIC_ERROR)
  else mret FallThrough.

Definition chat_socket_input (fd : Z) (peer : bytes) (outcome : read_result) : C next_step :=
  response ← cli_read fd (CHAT_IPC_MAX_RESPONSE - 1) outcome;
  match response with
  | None =>
      printf (line "Chat closed.");;
      mret (Return CHAT_EXIT_SUCCESS)
  | Some response => show_response peer response
  end.

Definition close_chat (fd : Z) : C next_step :=
  _ ← write_all fd close_command;
  mret (Return CHAT_EXIT_SUCCESS).

Definition chat_stdin_input (fd : Z) : C next_step :=
  c ← gets id;
  match fgets CHAT_IPC_MAX_COMMAND (c_stdin c) with
  | None => close_chat fd
  | Some (input, st) =>
      modify (set_field c_stdin (λ _, st));;
      let text := cut_line (c_string input) in
      if strlen text =? 0 then mret Continue
      else
        sent ← send_cli_chat_message fd text;
        if negb (sent =? 0) then
          eprintf (line "Could not send message.");;
          mret (Return CHAT_EXIT_GENERIC_ERROR)
        else
          printf (lit "you    > " ++ text ++ [newline]);;
          mret Continue
  end.

Definition chat_turn (fd : Z) (peer : bytes) (ev : chat_event) : C next_step :=
  if ev_interrupted ev then close_chat fd
  else
    match ev_poll ev with
    | PollFailed eintr interrupted errno_text =>
        if (eintr : bool) then if (interrupted : bool) then close_chat fd else mret Continue
        else
          eprintf (lit "Chat interrupted: " ++ errno_text ++ line ".");;
          mret (Return CHAT_EXIT_GENERIC_ERROR)
    | PollReady stdin_ready socket_ready outcome =>
        step ← (if (socket_ready : bool) then chat_socket_input fd peer outcome
                else mret FallThrough);
        match step with
        | FallThrough => if (stdin_ready : bool) then chat_stdin_input fd else mret Continue
        | step => mret step
        end
    end.

(** [None]: the events are exhausted and the loop is still running. *)
Fixpoint run_chat_loop (fd : Z) (peer : bytes) (events : list chat_event) : C (option Z) :=
  match events with
  | [] => mret None
  | ev :: events =>
      step ← chat_turn fd peer ev;
      match step with
      | Return status => mret (Some status)
      | _ => run_chat_loop fd peer events
      end
  end.

(** The response of the daemon to [OPEN_CHAT]. *)
Definition connection_failed (fd : Z) (peer : bytes) : C (option Z) :=
  cli_close fd;;
  printf (peer ++ line " is online, but the connection could not be established.");;
  mret (Some CHAT_EXIT_CONNECTION_FAILED).

Definition open_chat_response (fd : Z) (peer response : bytes) (events : list chat_event)
    : C (option Z) :=
  if has_prefix (lit "USER_OFFLINE ") response then
    cli_close fd;;
    printf (peer ++ line " is offline.");;
    mret (Some CHAT_EXIT_USER_OFFLINE)
  else if has_prefix (lit "USER_ONLINE ") response then connection_failed fd peer
  else if has_prefix (lit "ENCRYPTED_SESSION ") response then
    printf (lit "Connected to " ++ peer ++ lit " [" ++ network_mode_label response ++ line "]");;
    printf (line "Encrypted session established.");;
    result ← run_chat_loop fd peer events;
    match result with
    | None => mret None
    | Some result => cli_close fd;; mret (Some result)
    end
  else if has_prefix (lit "ICE_CONNECTED ") response then
    cli_close fd;;
    printf (lit "Connected to " ++ peer ++ line " [direct P2P]");;
    printf (line "Encrypted session is not fully established.");;
    mret (Some CHAT_EXIT_CONNECTION_FAILED)
  else if has_prefix (lit "ICE_FAILED ") response then connection_failed fd peer
  else if has_prefix (lit "IDENTITY_MISMATCH ") response then
    cli_close fd;;
    eprintf (line "SECURITY ERROR:");;
    eprintf (peer ++ line "'s identity key changed.");;
    eprintf (line "Connection refused.");;
    mret (Some CHAT_EXIT_IDENTITY_MISMATCH)
  else if has_prefix (lit "ERROR ") response then
    cli_close fd;;
    eprintf response;;
    mret (Some CHAT_EXIT_GENERIC_ERROR)
  else
    cli_close fd;;
    eprintf (line "Unexpected response from chatd.");;
    mret (Some CHAT_EXIT_GENERIC_ERROR).

Definition open_command (peer : bytes) : bytes := lit "OPEN_CHAT " ++ peer ++ [newline].

Definition command_open_chat (peer : bytes) (input : ipc_side) (events : list chat_event)
    : C (option Z) :=
  if negb (chat_username_is_valid (Some peer)) then
    eprintf invalid_username;;
    mret (Some CHAT_EXIT_GENERIC_ERROR)
  else
    printf (lit "Connecting to " ++ peer ++ line "...");;
    match snprintf CHAT_IPC_MAX_COMMAND (open_command peer) with
    | None => mret (Some CHAT_EXIT_GENERIC_ERROR)
    | Some command =>
        fd ← open_ipc_socket input;
        if fd <? 0 then mret (Some CHAT_EXIT_DAEMON_UNAVAILABLE)
        else
          sent ← write_all fd command;
          if negb (sent =? 0) then
            eprintf (line "Could not write to chatd.");;
            cli_close fd;;
            mret (Some CHAT_EXIT_DAEMON_UNAVAILABLE)
          else
            response ← read_ipc_response fd input;
            match response with
            | None =>
                eprintf (line "chatd did not respond.");;
                cli_close fd;;
                mret (Some CHAT_EXIT_DAEMON_UNAVAILABLE)
            | Some response => open_chat_response fd peer response events
            end
    end.

(** [args] is [argv] without the name of the program. *)
Definition main (args : list bytes) (input : ipc_side) (events : list chat_event) : C (option Z) :=
  let usage := print_usage eprintf;; mret (Some CHAT_EXIT_GENERIC_ERROR) in
  let exit (m : C Z) : C (option Z) := status ← m; mret (Some status) in
  match args with
  | [] => usage
  | arg :: rest =>
      if streq arg (lit "init") then
        match rest with [username] => exit (command_init username) | _ => usage end
      else if streq arg (lit "status") then
        match rest with [] => exit (command_status input) | _ => usage end
      else if streq arg (lit "config") then
        match rest with
        | [what; server_url] =>
            if negb (streq what (lit "server")) then usage
            else exit (command_config_server server_url)
        | _ => usage
        end
      else if streq arg (lit "fingerprint") then
        match rest with [username] => exit (command_fingerprint username) | _ => usage end
      else match rest with [] => command_open_chat arg input events | _ => usage end
  end.
End client.
