(* ===== verification/ClientTheorems.v ===== *)
(** * The client's theorems

    What the client writes for the lines of its user is what the daemon
    encrypts and sends; what it shows of the daemon's lines; and that it
    leaves no socket open. *)

From S2P Require Import Prelude CLib Protocol Sodium Base64 Json Identity FileSys IdentityStore.
From S2P Require Import Contacts Ipc Crypto Ice StateMonad DaemonState DaemonSession Daemon.
From S2P Require Import DaemonDemo DaemonDelivery DaemonLive DaemonPair Client.

Section commands.
Context `{Libs}.

(** ** Writing *)

(** A call on the socket [fd], which is open next to the descriptors [F]. *)
Definition has_socket (F : gmap Z bytes) (fd : Z) (c : client) : Prop :=
  c_stale c = false ∧ F !! fd = None ∧ ∃ b, c_fds c = <[fd := b]> F.

Lemma cli_write_ok F fd data c :
  has_socket F fd c →
  ∃ n, (cli_write fd data c).1 = n ∧ n ≤ len data
    ∧ has_socket F fd (cli_write fd data c).2
    ∧ c_wire (cli_write fd data c).2 = c_wire c ++ ztake n data.
Proof.
  intros (Hs & HF & b & Hb). unfold cli_write. rewrite Hb, lookup_insert_eq.
  pose proof (len_nonneg data).
  destruct (match c_faults c with [] => _ | _ => _ end) as [n faults] eqn:E.
  exists n. split; [done|]. split; [|split; [|done]].
  - destruct (c_faults c) as [|[|k| |] fs]; simplify_eq; lia.
  - split; [done|]. split; [done|]. eexists. cbn. by rewrite Hb, insert_insert_eq.
Qed.

Lemma write_all_loop_ok F n fd data c :
  (length data ≤ n)%nat → has_socket F fd c →
  has_socket F fd (write_all_loop n fd data c).2
  ∧ ((write_all_loop n fd data c).1 = 0 →
     c_wire (write_all_loop n fd data c).2 = c_wire c ++ data).
Proof.
  revert data c. induction n as [|n IH]; intros data c Hn Hc.
  - destruct data; [|cbn in Hn; lia]. split; [done|]. intros _. cbn. by rewrite app_nil_r.
  - destruct data as [|x data]; [split; [done|]; intros _; cbn; by rewrite app_nil_r|].
    cbn [write_all_loop]. unfold mbind, stateM_bind.
    destruct (cli_write_ok F fd (x :: data) c Hc) as (k & Hk & Hle & Hc1 & Hw).
    destruct (cli_write fd (x :: data) c) as [k' c1]. cbn [fst snd] in *. subst k'.
    destruct (k <=? 0) eqn:Ek; [done|]. bdec.
    destruct (IH (zdrop k (x :: data)) c1) as [Hc2 Hw2]; [|done|].
    { unfold zdrop. rewrite length_drop. cbn [length] in *. lia. }
    split; [done|]. intros Hz. rewrite (Hw2 Hz), Hw, <- app_assoc. by rewrite ztake_zdrop.
Qed.

Lemma write_all_ok F fd data c :
  has_socket F fd c →
  has_socket F fd (write_all fd data c).2
  ∧ ((write_all fd data c).1 = 0 → c_wire (write_all fd data c).2 = c_wire c ++ data).
Proof. by apply write_all_loop_ok. Qed.

(** Any larger bound on the turns gives the same result. *)
Lemma write_all_fuel n fd data c :
  (length data ≤ n)%nat → write_all_loop n fd data c = write_all fd data c.
Proof.
  unfold write_all. generalize (le_n (length data)). generalize (length data) at 2 4 as m.
  intros m. revert n data c. induction m as [|m IH]; intros n data c Hm Hn.
  - destruct data; [by destruct n|cbn in Hm; lia].
  - destruct data as [|x data]; [by destruct n|]. destruct n as [|n]; [cbn in *; lia|].
    cbn [write_all_loop]. unfold mbind, stateM_bind.
    destruct (cli_write fd (x :: data) c) as [k c1]. case_if; [done|].
    apply IH; unfold zdrop; rewrite length_drop; cbn [length] in *; lia.
Qed.

(** ** Reading the commands *)

(** A line the client sends: what is left of a line of its input, not empty,
    short enough for a command. *)
Definition sendable (text : bytes) : Prop :=
  text ≠ [] ∧ Forall (λ c, line_breaking c = false) text
  ∧ len (send_command text) < CHAT_IPC_MAX_COMMAND.

Lemma sendable_valid text : sendable text → chat_text_is_valid (Some text) (len text) = true.
Proof.
  intros (Hne & Hb & Hl). unfold chat_text_is_valid. unfold send_command in Hl.
  rewrite !len_app in Hl. change (len (lit "SEND_MESSAGE ")) with 13 in Hl.
  change (len [newline]) with 1 in Hl. unfold CHAT_IPC_MAX_COMMAND in Hl.
  assert (0 < len text) by (destruct text; [done|rewrite len_cons; pose proof (len_nonneg text); lia]).
  rewrite (proj2 (Z.eqb_neq _ 0)), Z.gtb_ltb, (proj2 (Z.ltb_ge _ _)) by
    (unfold CHATD_CHAT_TEXT_MAX, CHAT_IPC_MAX_COMMAND; lia).
  cbn [orb]. rewrite ztake_all by done. apply forallb_forall. intros c Hc%list_elem_of_In.
  rewrite Forall_forall in Hb. by rewrite Hb.
Qed.

(** The daemon's side of a list of lines. *)
Definition send_line (text : bytes) : D unit :=
  sent ← send_message text;
  when (negb (sent =? 0))
    (st ← state;
     _ ← write_ipc_line (d_lookup_client_fd st) (Some (ipc_error "send_failed"));
     mret tt).

Lemma strcspn_app a b set :
  Forall (λ c, c ∉ set) a → strcspn (a ++ b) set = len a + strcspn b set.
Proof.
  induction 1 as [|c a Hc _ IH]; [done|]. cbn [app strcspn].
  rewrite bool_decide_false, IH, len_cons by done. lia.
Qed.

Lemma not_breaking text :
  Forall (λ c, line_breaking c = false) text → Forall (λ c, c ∉ line_breaks) text.
Proof.
  intros Ht. eapply Forall_impl; [exact Ht|]. intros c Hc. cbn beta in Hc.
  unfold line_breaking in Hc. bdec. unfold line_breaks. set_solver.
Qed.

(** One command is one message. *)
Lemma command_is_message text w :
  sendable text → chat_command (lit "SEND_MESSAGE " ++ text) w = (false, (send_line text w).2).
Proof.
  intros Hs. unfold chat_command.
  assert (Hc : streq (lit "SEND_MESSAGE " ++ text) (lit "CLOSE_CHAT") = false) by by apply streq_false.
  rewrite Hc. unfold send_prefix. rewrite has_prefix_app, zdrop_app_len by done.
  unfold send_line, send_message, strlen, when. run.
  destruct (send_encrypted_chat_message (Some text) (len text) w) as [r w1]. cbn [fst snd].
  destruct (negb (r =? 0)); [|done]. run. by destruct (write_ipc_line _ _ w1).
Qed.

(** A message changes neither the client nor the session. *)
Definition attached (w : world) : Prop :=
  0 ≤ d_lookup_client_fd (w_st w) ∧ d_ice_active (w_st w) = true.

Lemma send_packet_state type payload n w : w_st (send_ice_packet type payload n w).2 = w_st w.
Proof.
  unfold send_ice_packet. case_if; [done|]. case_if; [done|].
  destruct (chat_packet_encode_header _ _ _) as [[] [?|]]; try done. run.
  destruct (chat_ice_send _ _ _). run. by case_if.
Qed.
Lemma write_line_state fd text w : w_st (write_ipc_line fd text w).2 = w_st w.
Proof.
  unfold write_ipc_line. destruct text as [text|]; [|done]. case_if; [done|]. run.
  destruct (e_fds (w_env w) !! fd); [by destruct (ipc_write_loop _ _) as [[? ?] ?]|by case_if].
Qed.
Lemma send_message_attached text w : attached w → attached (send_message text w).2.
Proof.
  intros Ha. unfold send_message, send_encrypted_chat_message, send_encrypted_chat_payload.
  destruct (negb (chat_text_is_valid _ _)); [exact Ha|]. run.
  destruct (_ || _); [exact Ha|].
  destruct (chat_crypto_secretstream_encrypt _ _ _ _ _ _) as [[[? ?] ?] ?]. run.
  destruct (negb _); [exact Ha|]. unfold attached. rewrite send_packet_state. exact Ha.
Qed.
Lemma send_line_attached text w : attached w → attached (send_line text w).2.
Proof.
  intros Ha%(send_message_attached text). unfold send_line, when. run.
  destruct (send_message text w) as [r w1]. cbn [snd] in Ha.
  destruct (negb (r =? 0)); [|exact Ha]. run.
  pose proof (write_line_state (d_lookup_client_fd (w_st w1)) (Some (ipc_error "send_failed")) w1)
    as Hw. destruct (write_ipc_line _ _ w1) as [? w2]. cbn [snd] in *. unfold attached. by rewrite Hw.
Qed.

(** ** The commands of one read *)

Definition commands_of (texts : list bytes) : bytes := concat (send_command <$> texts).

Lemma skip_commands texts : skip_breaks (commands_of texts) = commands_of texts.
Proof. by destruct texts. Qed.

Lemma send_command_shape text rest :
  Forall (λ c, line_breaking c = false) text →
  let n := strcspn (send_command text ++ rest) line_breaks in
  ztake n (send_command text ++ rest) = lit "SEND_MESSAGE " ++ text
  ∧ zdrop n (send_command text ++ rest) = newline :: rest.
Proof.
  intros Ht%not_breaking n.
  assert (Hp : Forall (λ c, c ∉ line_breaks) (lit "SEND_MESSAGE " ++ text)).
  { apply Forall_app. split; [|done]. apply (bool_decide_unpack _). by vm_compute. }
  assert (En : send_command text ++ rest = (lit "SEND_MESSAGE " ++ text) ++ newline :: rest).
  { unfold send_command. by rewrite <- !app_assoc. }
  assert (Hn : n = len (lit "SEND_MESSAGE " ++ text)).
  { unfold n. rewrite En, strcspn_app by done. cbn [strcspn].
    rewrite bool_decide_true; [lia|]. unfold line_breaks. set_solver. }
  rewrite En, Hn. by rewrite ztake_app_len, zdrop_app_len.
Qed.

Lemma commands_are_messages fuel texts w :
  (length (commands_of texts) < fuel)%nat → Forall sendable texts → attached w →
  chat_commands fuel (commands_of texts) w = mfor send_line texts w.
Proof.
  revert texts w. induction fuel as [|fuel IH]; intros texts w Hf Ht Ha; [lia|].
  destruct texts as [|text texts].
  { cbn [commands_of fmap list_fmap concat]. cbn [chat_commands mfor]. by run. }
  apply Forall_cons in Ht as [Hs Ht]. pose proof Hs as (_ & Hb & _).
  change (commands_of (text :: texts)) with (send_command text ++ commands_of texts) in *.
  destruct (send_command_shape text (commands_of texts) Hb) as [Etake Edrop].
  cbn [chat_commands mfor]. unfold mbind at 1, stateM_bind at 1, state, gets.
  destruct Ha as [Hfd Hact]. rewrite bool_decide_false by by unfold send_command.
  rewrite (proj2 (Z.ltb_ge _ _)), Hact by done. cbn [negb orb]. rewrite Etake, Edrop.
  unfold mbind, stateM_bind. rewrite command_is_message by done.
  destruct (send_line text w) as [[] w1] eqn:Es. cbn [fst snd]. rewrite skip_commands.
  apply IH; [|done|].
  - rewrite length_app in Hf. unfold send_command in Hf. rewrite length_app in Hf. cbn in Hf. lia.
  - pose proof (send_line_attached text w (conj Hfd Hact)) as Ha. by rewrite Es in Ha.
Qed.

(** A chat whose client is connected. *)
Record chatting (w : world) : Prop := {
  chatting_attached : attached w;
  chatting_ready : d_encrypted_session_ready (w_st w) = true;
  chatting_open : is_Some (client_output w);
}.

Lemma service_reads data w :
  chatting w → data ≠ [] → len data < CHAT_IPC_MAX_COMMAND → is_cstr data →
  service_active_chat_client (ReadData data) w = chat_commands (S (length data)) data w.
Proof.
  intros [[Hfd Hact] Hr [out Ho]] Hne Hl Hc. unfold service_active_chat_client, sys_read. run.
  rewrite (proj2 (Z.ltb_ge _ _)), Hr by done. cbn [negb orb].
  unfold client_output in Ho. rewrite Ho. run. rewrite ztake_all by lia.
  rewrite c_string_id by done. by destruct data.
Qed.

Lemma send_command_cstr text :
  Forall (λ c, line_breaking c = false) text → is_cstr (lit "SEND_MESSAGE " ++ text).
Proof.
  intros Ht. apply is_cstr_app. split; [apply (bool_decide_unpack _); by vm_compute|].
  eapply Forall_impl; [exact Ht|]. intros c Hc. cbn beta in Hc. unfold line_breaking in Hc. by bdec.
Qed.
Lemma commands_cstr texts : Forall sendable texts → is_cstr (commands_of texts).
Proof.
  induction 1 as [|text texts (_ & Hb & _) _ IH]; [constructor|].
  change (commands_of (text :: texts)) with (send_command text ++ commands_of texts).
  apply is_cstr_app. split; [|done]. unfold send_command. rewrite app_assoc.
  apply is_cstr_app. split; [by apply send_command_cstr|]. apply (bool_decide_unpack _). by vm_compute.
Qed.

(** C16: the lines a user types reach the encrypted stream unchanged: when the
    client has written its commands for a list of lines (however the socket
    split the writes), it has written exactly those commands, and a daemon
    that reads them in one piece sends exactly those messages, in order. *)
Theorem client_lines_are_sent F fd c w texts :
  has_socket F fd c → Forall sendable texts →
  (all_ok (send_cli_chat_message fd) texts c).1 = true →
  c_wire (all_ok (send_cli_chat_message fd) texts c).2 = c_wire c ++ commands_of texts
  ∧ (chatting w → texts ≠ [] → len (commands_of texts) < CHAT_IPC_MAX_COMMAND →
     service_active_chat_client (ReadData (commands_of texts)) w = mfor send_line texts w).
Proof.
  intros Hc Ht Hr. split.
  - revert c Hc Hr. induction Ht as [|text texts (_ & _ & Hl) _ IH]; intros c Hc; cbn [all_ok].
    { intros _. cbn. by rewrite app_nil_r. }
    unfold mbind, stateM_bind. unfold send_cli_chat_message at 1 3.
    rewrite snprintf_ok by (done || (unfold INT_MAX, CHAT_IPC_MAX_COMMAND in *; lia)).
    destruct (write_all_ok F fd (send_command text) c Hc) as [Hc1 Hw].
    destruct (write_all fd (send_command text) c) as [r c1]. cbn [fst snd] in *.
    destruct (r =? 0) eqn:Er; [|done]. apply Z.eqb_eq in Er. intros Hr.
    rewrite (IH c1 Hc1 Hr), (Hw Er). by rewrite <- app_assoc.
  - intros Hw Hne Hl. rewrite service_reads; [|done| |done|by apply commands_cstr].
    + apply commands_are_messages; [lia|done|apply Hw].
    + by destruct texts.
Qed.

(** C40: the daemon does not put together a command that reaches it in two
    reads: the first part is sent as a message of its own, and the rest of
    the line is answered with an error, on which the client gives up. *)
Theorem split_command_breaks_chat w a b :
  chatting w → sendable a → b ≠ [] → Forall (λ c, line_breaking c = false) b →
  len b < 4000 → b ≠ lit "CLOSE_CHAT" → has_prefix (lit "SEND_MESSAGE ") b = false →
  service_active_chat_client (ReadData (lit "SEND_MESSAGE " ++ a)) w = send_line a w
  ∧ service_active_chat_client (ReadData (b ++ [newline])) w
    = (tt, (write_ipc_line (d_lookup_client_fd (w_st w)) (Some (ipc_error "unknown_command")) w).2).
Proof.
  intros Hw Ha Hb Hbb Hlb Hclose Hp. pose proof Ha as (_ & Hab & Hla).
  destruct (chatting_attached _ Hw) as [Hfd Hact]. split.
  - rewrite service_reads; [|done|done| |by apply send_command_cstr].
    2:{ revert Hla. unfold send_command. rewrite !len_app. pose proof (len_nonneg [newline]). lia. }
    cbn [chat_commands]. unfold mbind at 1, stateM_bind at 1, state, gets.
    rewrite bool_decide_false, (proj2 (Z.ltb_ge _ _)), Hact by done. cbn [negb orb].
    assert (En : strcspn (lit "SEND_MESSAGE " ++ a) line_breaks = len (lit "SEND_MESSAGE " ++ a)).
    { rewrite <- (app_nil_r (_ ++ _)) at 1. rewrite strcspn_app; [cbn; lia|].
      apply Forall_app. split; [apply (bool_decide_unpack _); by vm_compute|by apply not_breaking]. }
    rewrite En, ztake_all by done.
    assert (Ed : ∀ l : bytes, zdrop (len l) l = []).
    { intros l. rewrite <- (app_nil_r l) at 2. by apply zdrop_app_len. }
    rewrite Ed.
    unfold mbind, stateM_bind. rewrite command_is_message by done.
    by destruct (send_line a w) as [[] ?].
  - rewrite service_reads; [|done|by destruct b| |].
    2:{ rewrite len_app. change (len [newline]) with 1. unfold CHAT_IPC_MAX_COMMAND. lia. }
    2:{ apply is_cstr_app. split; [|apply (bool_decide_unpack _); by vm_compute].
        eapply Forall_impl; [exact Hbb|]. intros c Hc. cbn beta in Hc. unfold line_breaking in Hc.
        by bdec. }
    cbn [chat_commands]. unfold mbind at 1, stateM_bind at 1, state, gets.
    rewrite bool_decide_false, (proj2 (Z.ltb_ge _ _)), Hact by (done || by destruct b).
    cbn [negb orb]. rewrite strcspn_app by by apply not_breaking. cbn [strcspn].
    rewrite bool_decide_true, Z.add_0_r by (unfold line_breaks; set_solver).
    rewrite ztake_app_len, zdrop_app_len by done. unfold chat_command, send_prefix.
    rewrite (proj2 (streq_false _ _) Hclose), Hp, (bool_decide_false (b = [])) by done. cbn [negb].
    run. destruct (write_ipc_line _ _ w) as [r w1]. cbn [snd]. by destruct (length _).
Qed.
End commands.

(** ** What the client shows *)

Section display.
Context `{Libs}.

Lemma strchr_app a b c : c ∉ a → strchr (a ++ c :: b) c = Some (c :: b).
Proof.
  induction a as [|x a IH]; intros Hc; cbn [app strchr]; [by rewrite bool_decide_true|].
  rewrite bool_decide_false by set_solver. apply IH. set_solver.
Qed.

Lemma c_string_app s t : is_cstr s → c_string (s ++ t) = s ++ c_string t.
Proof.
  induction 1 as [|c s Hc _ IH]; [done|]. cbn. by rewrite bool_decide_false, IH.
Qed.

(** One read of the daemon's socket shows one message: the name and the
    text of the first line, as the daemon wrote them; whatever else the same
    read brought (more messages, or the end of the chat) is lost. *)
Theorem one_message_per_read F fd peer c name text rest stdin_ready :
  has_socket F fd c → space ∉ name → is_cstr name →
  Forall (λ c, line_breaking c = false) text →
  len (message_line name text ++ rest) < CHAT_IPC_MAX_RESPONSE →
  chat_turn fd peer {| ev_interrupted := false;
    ev_poll := PollReady stdin_ready true (ReadData (message_line name text ++ rest)) |} c
  = (Continue, set_field c_stdout
       (λ out, out ++ (pad_name name ++ lit " > " ++ text ++ [newline])) c).
Proof.
  intros (_ & HF & b & Hb) Hn Hcn Ht Hl. unfold chat_turn, chat_socket_input, cli_read.
  cbn [ev_interrupted ev_poll]. unfold mbind, stateM_bind. rewrite Hb, lookup_insert_eq.
  assert (Hc : c_string (message_line name text ++ rest)
    = lit "MESSAGE " ++ (name ++ space :: (text ++ newline :: c_string rest))).
  { assert (Hm : is_cstr (message_line name text)).
    { unfold message_line. rewrite !is_cstr_app. split_and!; [|done|..].
      1,2,4: apply (bool_decide_unpack _); by vm_compute.
      eapply Forall_impl; [exact Ht|]. intros x Hx. cbn beta in Hx. unfold line_breaking in Hx.
      by bdec. }
    rewrite c_string_app by done. unfold message_line. by rewrite <- !app_assoc. }
  destruct (message_line name text ++ rest) as [|x data] eqn:Em; [done|].
  rewrite ?Em in *. rewrite (ztake_all (CHAT_IPC_MAX_RESPONSE - 1)), Hc by lia. unfold show_response. rewrite has_prefix_app, zdrop_app_len by done.
  rewrite strchr_app by done. cbn [drop].
  assert (E1 : ∀ tail : bytes,
    take (length (name ++ space :: tail) - length (space :: tail)) (name ++ space :: tail) = name).
  { intros tail. rewrite length_app, Nat.add_sub. apply take_app_length. }
  assert (E2 : ∀ tail : bytes, cut_line (text ++ newline :: tail) = text).
  { intros tail. unfold cut_line. rewrite strcspn_app by by apply not_breaking.
    cbn [strcspn]. rewrite bool_decide_true, Z.add_0_r by set_solver. by apply ztake_app_len. }
  by rewrite drop_0, E1, E2.
Qed.
End display.

(** ** Sockets *)

Create HintDb sock discriminated.
Section sockets.
Context `{Libs} (F : gmap Z bytes).

(** No socket of the client is open. *)
Definition no_socket (c : client) : Prop := c_stale c = false ∧ c_fds c = F.

(** An output, a change of the files, of the input. *)
Lemma sock_modify (I : client → Prop) f :
  (∀ c, c_fds (f c) = c_fds c ∧ c_stale (f c) = c_stale c) →
  (∀ c c', c_fds c' = c_fds c → c_stale c' = c_stale c → I c → I c') → keeps I (modify f).
Proof. intros Hf HI c Hc. destruct (Hf c) as [E1 E2]. by apply (HI c). Qed.

Lemma has_socket_ext fd c c' :
  c_fds c' = c_fds c → c_stale c' = c_stale c → has_socket F fd c → has_socket F fd c'.
Proof. unfold has_socket. by intros -> ->. Qed.
Lemma no_socket_ext c c' :
  c_fds c' = c_fds c → c_stale c' = c_stale c → no_socket c → no_socket c'.
Proof. unfold no_socket. by intros -> ->. Qed.

Lemma close_ok fd : triple (has_socket F fd) (cli_close fd) (λ _, no_socket).
Proof.
  intros c (Hs & HF & b & Hb). unfold cli_close. rewrite Hb, lookup_insert_eq.
  split; [done|]. cbn. rewrite Hb. by apply delete_insert_id.
Qed.
Lemma write_all_keeps fd data : keeps (has_socket F fd) (write_all fd data).
Proof. intros c Hc. by apply write_all_ok. Qed.
Lemma cli_write_keeps fd data : keeps (has_socket F fd) (cli_write fd data).
Proof. intros c Hc. by destruct (cli_write_ok F fd data c Hc) as (n & _ & _ & Hc1 & _). Qed.
Lemma cli_read_keeps fd count outcome : keeps (has_socket F fd) (cli_read fd count outcome).
Proof.
  intros c Hc. pose proof Hc as (_ & _ & b & Hb). unfold cli_read.
  by rewrite Hb, lookup_insert_eq.
Qed.

Lemma open_ok input :
  triple no_socket (open_ipc_socket input)
    (λ fd c, if fd <? 0 then no_socket c else has_socket F fd c).
Proof.
  intros c [Hs Hf]. unfold open_ipc_socket.
  destruct (chat_ipc_socket_path getenv SOCKET_PATH_SIZE) as [e|p]; [by split|].
  unfold cli_socket. unfold mbind, stateM_bind. rewrite Hf.
  destruct (_ || _) eqn:E; [by split|]. bdec. rewrite (proj2 (Z.ltb_ge (i_socket input) 0)) by done.
  apply eq_None_not_Some in H1.
  assert (Hc1 : has_socket F (i_socket input) (set_field c_fds (<[i_socket input:=[]]>) c)).
  { split; [done|]. split; [done|]. exists []. cbn. by rewrite Hf. }
  set (c1 := set_field c_fds (<[i_socket input:=[]]>) c) in *.
  assert (Hclose : ∀ text, no_socket (cli_close (i_socket input) (eprintf text c1).2).2).
  { intros text. apply close_ok. by eapply has_socket_ext. }
  destruct (snprintf_fails _ _); [|destruct (negb (i_connect input))].
  - specialize (Hclose (line "chatd socket path is too long.")). revert Hclose.
    destruct (eprintf _ c1) as [[] c2]. cbn [snd].
    by destruct (cli_close (i_socket input) c2) as [[] c3].
  - specialize (Hclose (line "chatd unavailable.")). revert Hclose.
    destruct (eprintf _ c1) as [[] c2]. cbn [snd].
    by destruct (cli_close (i_socket input) c2) as [[] c3].
  - cbn [fst snd mret stateM_ret]. by rewrite (proj2 (Z.ltb_ge _ _)).
Qed.

(** Walk through the body of a command whose socket stays open. *)
#[local] Hint Resolve write_all_keeps cli_write_keeps cli_read_keeps : sock.
Ltac sock_step :=
  lazymatch goal with
  | |- triple ?I ?m _ => change (keeps I m)
  | |- keeps _ (mret _) => apply keeps_ret
  | |- keeps _ (gets _) => apply keeps_gets
  | |- keeps _ (_ ≫= _) => apply keeps_bind; [|intros ?]
  | |- keeps _ (printf _) =>
      apply sock_modify; [done|first [apply has_socket_ext|apply no_socket_ext]]
  | |- keeps _ (eprintf _) =>
      apply sock_modify; [done|first [apply has_socket_ext|apply no_socket_ext]]
  | |- keeps _ (modify _) =>
      apply sock_modify; [done|first [apply has_socket_ext|apply no_socket_ext]]
  | |- keeps _ (match ?x with _ => _ end) => destruct x
  | |- keeps _ _ => solve [auto with sock]
  end.
Ltac sock := repeat sock_step.

Lemma show_keeps fd peer response : keeps (has_socket F fd) (show_response peer response).
Proof. unfold show_response. sock. Qed.
Lemma send_keeps fd text : keeps (has_socket F fd) (send_cli_chat_message fd text).
Proof. unfold send_cli_chat_message. sock. Qed.
#[local] Hint Resolve show_keeps send_keeps : sock.
Lemma turn_keeps fd peer ev : keeps (has_socket F fd) (chat_turn fd peer ev).
Proof. unfold chat_turn, close_chat, chat_socket_input, chat_stdin_input. sock. all: unfold close_chat; sock. Qed.
#[local] Hint Resolve turn_keeps : sock.
Lemma chat_loop_keeps fd peer events : keeps (has_socket F fd) (run_chat_loop fd peer events).
Proof. induction events as [|ev events IH]; cbn [run_chat_loop]; sock; exact IH. Qed.

(** The socket is closed, or the chat goes on. *)
Definition finished (status : option Z) (c : client) : Prop := is_Some status → no_socket c.

Lemma close_then {A} fd (m : C A) (Q : A → client → Prop) :
  triple no_socket m Q → triple (has_socket F fd) (cli_close fd;; m) Q.
Proof. intros Hm. eapply triple_bind; [apply close_ok|]. by intros ?. Qed.
Lemma keeps_then {A B} I (m : C A) (k : A → C B) (Q : B → client → Prop) :
  keeps I m → (∀ a, triple I (k a) Q) → triple I (m ≫= k) Q.
Proof. intros Hm Hk. eapply triple_bind; [exact Hm|exact Hk]. Qed.
Lemma keeps_finished (m : C (option Z)) : keeps no_socket m → triple no_socket m finished.
Proof. intros Hm c Hc _. by apply Hm. Qed.

Lemma response_closes fd peer response events :
  triple (has_socket F fd) (open_chat_response fd peer response events) finished.
Proof.
  unfold open_chat_response, connection_failed.
  repeat match goal with |- triple _ (if ?b then _ else _) _ => destruct b end.
  all: try (apply close_then, keeps_finished; sock; fail).
  apply keeps_then; [sock|]. intros ?. apply keeps_then; [sock|]. intros ?.
  apply keeps_then; [apply chat_loop_keeps|]. intros [status|]; [|by intros c Hc [? ?]].
  apply close_then, keeps_finished. sock.
Qed.

Lemma status_closes input : triple no_socket (command_status input) (λ _, no_socket).
Proof.
  unfold command_status. eapply triple_bind; [apply open_ok|]. intros fd. cbn beta.
  destruct (fd <? 0); [by apply triple_ret|].
  apply keeps_then; [sock|]. intros n. case_if; [|case_if].
  1,2: apply keeps_then; [sock|]; intros ?; apply close_then; by apply triple_ret.
  apply keeps_then; [sock|]. intros [response|].
  all: apply keeps_then; [sock|]; intros ?; apply close_then; by apply triple_ret.
Qed.

Lemma open_chat_closes peer input events :
  triple no_socket (command_open_chat peer input events) finished.
Proof.
  unfold command_open_chat. case_if; [apply keeps_finished; sock|].
  apply keeps_then; [sock|]. intros ?. destruct (snprintf _ _); [|apply keeps_finished; sock].
  eapply triple_bind; [apply open_ok|]. intros fd. cbn beta.
  destruct (fd <? 0); [apply keeps_finished; sock|].
  apply keeps_then; [sock|]. intros sent. case_if.
  { apply keeps_then; [sock|]. intros ?. apply close_then, keeps_finished. sock. }
  apply keeps_then; [unfold read_ipc_response; sock|]. intros [response|]; [apply response_closes|].
  apply keeps_then; [sock|]. intros ?. apply close_then, keeps_finished. sock.
Qed.

(** C33: whatever the arguments, the daemon, the files and the user do, a
    client that ends has closed every socket it opened, each exactly once,
    and never used one that was not open. *)
Theorem client_closes_sockets args input events c :
  c_fds c = F → c_stale c = false → is_Some (main args input events c).1 →
  c_fds (main args input events c).2 = F ∧ c_stale (main args input events c).2 = false.
Proof.
  intros Hf Hs Hr.
  assert (Hm : triple no_socket (main args input events) finished).
  { unfold main.
    assert (Hu : triple no_socket (print_usage eprintf;; mret (Some CHAT_EXIT_GENERIC_ERROR))
      finished) by (apply keeps_finished; unfold print_usage; sock).
    destruct args as [|arg rest]; [exact Hu|].
    assert (Hx : ∀ m : C Z, triple no_socket m (λ _, no_socket) →
      triple no_socket (status ← m; mret (Some status)) finished).
    { intros m Hm. apply keeps_then; [exact Hm|]. intros status. apply triple_ret.
      by intros c' Hc' _. }
    repeat match goal with |- triple _ (if streq ?a ?b then _ else _) _ => destruct (streq a b) end.
    - destruct rest as [|username [|]]; try exact Hu. apply Hx. unfold command_init. sock.
    - destruct rest; try exact Hu. apply Hx, status_closes.
    - destruct rest as [|what [|url [|]]]; try exact Hu. destruct (negb _); [exact Hu|].
      apply Hx. unfold command_config_server. sock.
    - destruct rest as [|username [|]]; try exact Hu. apply Hx. unfold command_fingerprint. sock.
    - destruct rest; [apply open_chat_closes|exact Hu]. }
  destruct (Hm c (conj Hs Hf) Hr) as [Hs' Hf']. done.
Qed.
End sockets.

(** ** The theorems on a chat of bob's client *)

Import Demo.

Definition bob_client (faults : list fault) (fds : gmap Z bytes) (input : bytes) : client :=
  {| c_os := demo_contacts_os; c_rng := (40 : @rng (@lib_random reference_libs)); c_fds := fds;
     c_stale := false; c_faults := faults; c_wire := [];
     c_stdin := {| is_data := input; is_error := false |}; c_stdout := []; c_stderr := [] |}.

Lemma bob_chatting : chatting bob_secure.
Proof.
  split; [split|..].
  - vm_compute. congruence.
  - vm_compute. reflexivity.
  - vm_compute. reflexivity.
  - exact (linked_output _ _ demo_linked).
Qed.

Lemma hello_sendable : sendable (lit "hello").
Proof. split_and!; [done|apply (bool_decide_unpack _); by vm_compute|by vm_compute]. Qed.

(** The socket takes the first command in two pieces. *)
Lemma client_lines_are_sent_witness :
  let c := bob_client [FShort 5; FNone] {[4 := []]} [] in
  c_wire (all_ok (send_cli_chat_message 4) [lit "hello"; lit "hello"] c).2
    = send_command (lit "hello") ++ send_command (lit "hello")
  ∧ service_active_chat_client (ReadData (commands_of [lit "hello"; lit "hello"])) bob_secure
    = mfor send_line [lit "hello"; lit "hello"] bob_secure.
Proof.
  intros c. destruct (client_lines_are_sent ∅ 4 c bob_secure [lit "hello"; lit "hello"]) as [Hw Hs].
  - split; [done|]. split; [done|]. by exists [].
  - repeat constructor; apply hello_sendable.
  - vm_compute. reflexivity.
  - split; [rewrite Hw; vm_compute; reflexivity|]. apply Hs; [exact bob_chatting|done|by vm_compute].
Defined.

Lemma split_command_breaks_chat_witness :
  service_active_chat_client (ReadData (lit "SEND_MESSAGE " ++ lit "hello")) bob_secure
  = send_line (lit "hello") bob_secure.
Proof.
  refine (proj1 (split_command_breaks_chat bob_secure (lit "hello") (lit " bob") bob_chatting
    hello_sendable _ _ _ _ _)).
  - done.
  - apply (bool_decide_unpack _). by vm_compute.
  - by vm_compute.
  - done.
  - by vm_compute.
Defined.

Lemma one_message_per_read_witness :
  c_stdout (chat_turn 4 (lit "alice") {| ev_interrupted := false;
      ev_poll := PollReady false true (ReadData (message_line (lit "alice") (lit "one")
        ++ message_line (lit "alice") (lit "two"))) |} (bob_client [] {[4 := []]} [])).2
  = lit "alice  > one" ++ [newline].
Proof.
  rewrite (one_message_per_read ∅ 4 (lit "alice") (bob_client [] {[4 := []]} []) (lit "alice")
    (lit "one") (message_line (lit "alice") (lit "two")) false).
  - vm_compute. reflexivity.
  - split; [done|]. split; [done|]. by exists [].
  - apply (bool_decide_unpack _). by vm_compute.
  - apply (bool_decide_unpack _). by vm_compute.
  - apply (bool_decide_unpack _). by vm_compute.
  - by vm_compute.
Defined.

(** The user types a line and ends the input. *)
Definition session_input : ipc_side :=
  {| i_socket := 4; i_connect := true; i_poll := 1;
     i_read := ReadData (lit "ENCRYPTED_SESSION alice relay" ++ [newline]); i_errno := [] |}.
Definition typing : chat_event :=
  {| ev_interrupted := false; ev_poll := PollReady true false ReadAgain |}.
Abbreviation bob_chats :=
  (main [lit "alice"] session_input [typing; typing]
     (bob_client [] ∅ (lit "hello" ++ [newline]))).

Lemma client_closes_sockets_witness :
  bob_chats.1 = Some CHAT_EXIT_SUCCESS
  ∧ c_wire bob_chats.2
    = lit "OPEN_CHAT alice" ++ [newline] ++ lit "SEND_MESSAGE hello" ++ [newline]
      ++ lit "CLOSE_CHAT" ++ [newline]
  ∧ c_fds bob_chats.2 = ∅.
Proof.
  split; [vm_compute; reflexivity|]. split; [vm_compute; reflexivity|].
  refine (proj1 (client_closes_sockets ∅ [lit "alice"] session_input [typing; typing]
    (bob_client [] ∅ (lit "hello" ++ [newline])) eq_refl eq_refl _)).
  exists CHAT_EXIT_SUCCESS. vm_compute. reflexivity.
Defined.
