(* ===== verification/System.v ===== *)
(** * The daemon and the control server

    A daemon connected to the server: the messages it queues are what the
    server's callback receives, and the replies the server queues are what
    the daemon's callback receives.  Theorems: an honest daemon gets online,
    whether its name is new or registered with its key already; and two ways
    in which it does not. *)

From S2P Require Import Prelude CLib Protocol Sodium Base64 Json JsonText Identity FileSys IdentityStore.
From S2P Require Import Contacts Ipc Crypto Ice Users Server ServerSpec StateMonad DaemonState DaemonSession.
From S2P Require Import Daemon DaemonDemo.

Section system.
Context `{LibsOk} (wsi : wsi_t) (p : session_ptr).

(** ** One round *)

(** The server gets [json] and sends what it has queued. *)
Definition deliver (json : bytes) : M bytes :=
  _ ← callback_chat_control wsi (LWS_CALLBACK_RECEIVE json 0 true) p;
  ses ← load p;
  _ ← callback_chat_control wsi (LWS_CALLBACK_SERVER_WRITEABLE (ses_pending_len ses)) p;
  mret (ztake (ses_pending_len ses) (ses_pending ses)).

(** The daemon sends what it has queued and gets the reply. *)
Definition round (x : world * server) : option (world * server) :=
  let w1 := (callback_chatd_control (LWS_CALLBACK_CLIENT_WRITEABLE (d_pending_len (w_st x.1))) x.1).2 in
  match deliver (List.last (e_sent (w_env w1)) []) x.2 with
  | None => None
  | Some (reply, s) =>
      Some ((callback_chatd_control (LWS_CALLBACK_CLIENT_RECEIVE reply 0 true) w1).2, s)
  end.

Fixpoint rounds (n : nat) (x : world * server) : option (world * server) :=
  match n with
  | O => Some x
  | S n' =>
      match round x with
      | Some x' => rounds n' x'
      | None => None
      end
  end.

(** ** The messages as JSON objects *)

Definition register_object (u hex : bytes) : list (bytes * bytes) :=
  [(lit "type", lit "register"); (lit "username", u); (lit "public_key", hex)].
Definition hello_object (u : bytes) : list (bytes * bytes) :=
  [(lit "type", lit "hello"); (lit "username", u)].
Definition response_object (hex : bytes) : list (bytes * bytes) :=
  [(lit "type", lit "auth_response"); (lit "signature", hex)].
Definition challenge_object (hex : bytes) : list (bytes * bytes) :=
  [(lit "type", lit "auth_challenge"); (lit "challenge", hex)].

(** The formatted texts are these objects. *)
Abbreviation text_of o := (jobject_text (strings_object o)).
Lemma register_text u hex : register_json u hex = text_of (register_object u hex).
Proof. unfold register_json, register_object. text_eq. Qed.
Lemma hello_text u : hello_json u = text_of (hello_object u).
Proof. unfold hello_json, hello_object. text_eq. Qed.
Lemma response_text hex : auth_response_json hex = text_of (response_object hex).
Proof. unfold auth_response_json, response_object. text_eq. Qed.
Lemma challenge_text hex : challenge_json hex = text_of (challenge_object hex).
Proof. unfold challenge_json, challenge_object. text_eq. Qed.

Lemma objects_wf u b :
  chat_username_is_valid (Some u) = true →
  strings_wf (register_object u (sodium_bin2hex b)) ∧ strings_wf (hello_object u)
  ∧ strings_wf (response_object (sodium_bin2hex b))
  ∧ strings_wf (challenge_object (sodium_bin2hex b)).
Proof.
  intros Hu%username_ident%ident_json. pose proof (hex_json b) as Hb.
  assert (Hl : ∀ s, bool_decide (ident s) = true → Forall json_char s)
    by (intros s ?%bool_decide_eq_true; by apply ident_json).
  split_and!; repeat (constructor; [split; [by apply Hl|first [exact Hu|exact Hb|
    apply Hl; by vm_compute]]|]); constructor.
Qed.

(** Reading a member of an object with one literal key. *)
Ltac read_member Hwf :=
  rewrite json_get_string_object;
    [|exact Hwf|apply (bool_decide_eq_true_1 (ident _)); by vm_compute|by vm_compute|done];
  cbn [strings_lookup register_object hello_object response_object challenge_object];
  repeat first [ rewrite decide_True by done
               | rewrite decide_False by
                   first [ by apply (bool_decide_eq_false_1 _); vm_compute | congruence ] ].

Lemma register_fields u b :
  chat_username_is_valid (Some u) = true → u ≠ lit "public_key" →
  len b = crypto_sign_PUBLICKEYBYTES →
  let json := register_json u (sodium_bin2hex b) in
  json_get_string (Some json) (Some (lit "type")) 32 = Some (lit "register")
  ∧ parse_register json = Some (u, b).
Proof.
  intros Hu Hn Hb json. destruct (objects_wf u b Hu) as (Hwf & _). unfold json.
  pose proof (username_valid_len _ Hu) as Hl.
  assert (Hx : len (sodium_bin2hex b) = 64) by (rewrite bin2hex_len, Hb; done).
  rewrite register_text. split; [by read_member Hwf|].
  unfold parse_register. read_member Hwf. read_member Hwf.
  unfold CHAT_USERNAME_MAX_LEN, CHAT_SERVER_HEX_PUBLIC_KEY_LEN, crypto_sign_PUBLICKEYBYTES in *.
  rewrite !(proj2 (Z.ltb_lt _ _)) by lia. rewrite Hu. cbn [negb].
  by rewrite hex_to_bin_bin2hex.
Qed.

Lemma hello_fields u :
  chat_username_is_valid (Some u) = true →
  json_get_string (Some (hello_json u)) (Some (lit "type")) 32 = Some (lit "hello")
  ∧ json_get_string (Some (hello_json u)) (Some (lit "username")) (CHAT_USERNAME_MAX_LEN + 1)
    = Some u.
Proof.
  intros Hu. destruct (objects_wf u [] Hu) as (_ & Hwf & _). pose proof (username_valid_len _ Hu).
  rewrite hello_text. split; [by read_member Hwf|]. read_member Hwf.
  unfold CHAT_USERNAME_MAX_LEN. by rewrite (proj2 (Z.ltb_lt _ _)) by lia.
Qed.

Lemma response_fields u b :
  chat_username_is_valid (Some u) = true → len b = crypto_sign_BYTES →
  let json := auth_response_json (sodium_bin2hex b) in
  json_get_string (Some json) (Some (lit "type")) 32 = Some (lit "auth_response")
  ∧ parse_signature json = Some b.
Proof.
  intros Hu Hb json. destruct (objects_wf u b Hu) as (_ & _ & Hwf & _). unfold json.
  assert (Hx : len (sodium_bin2hex b) = 128) by (rewrite bin2hex_len, Hb; done).
  rewrite response_text. split; [by read_member Hwf|]. unfold parse_signature. read_member Hwf.
  unfold CHAT_SERVER_HEX_SIGNATURE_LEN, crypto_sign_BYTES in *.
  rewrite (proj2 (Z.ltb_lt _ _)) by lia. by rewrite hex_to_bin_bin2hex.
Qed.

Lemma challenge_fields u b :
  chat_username_is_valid (Some u) = true → len b = CHATD_CHALLENGE_BYTES →
  let json := challenge_json (sodium_bin2hex b) in
  json_get_string (Some json) (Some (lit "type")) 32 = Some (lit "auth_challenge")
  ∧ parse_challenge json = Some b.
Proof.
  intros Hu Hb json. destruct (objects_wf u b Hu) as (_ & _ & _ & Hwf). unfold json.
  assert (Hx : len (sodium_bin2hex b) = 64) by (rewrite bin2hex_len, Hb; done).
  rewrite challenge_text. split; [by read_member Hwf|]. unfold parse_challenge. read_member Hwf.
  unfold CHATD_HEX_CHALLENGE_LEN, CHATD_CHALLENGE_BYTES in *.
  rewrite (proj2 (Z.ltb_lt _ _)) by lia. by rewrite hex_to_bin_bin2hex.
Qed.

(** They are C strings. *)
Lemma text_cstr o : strings_wf o → is_cstr (text_of o).
Proof. intros Ho. by apply object_cstr, strings_object_wf. Qed.

(** ** The daemon's side *)

Record idle (me : chat_identity_t) (phase : chatd_phase_t) (w : world) : Prop := {
  idle_identity : d_identity (w_st w) = me;
  idle_phase : d_phase (w_st w) = phase;
  idle_len : d_pending_len (w_st w) = 0;
}.
Record queued (me : chat_identity_t) (phase : chatd_phase_t) (json : bytes) (w : world) : Prop := {
  queued_identity : d_identity (w_st w) = me;
  queued_phase : d_phase (w_st w) = phase;
  queued_len : d_pending_len (w_st w) = len json;
  queued_text : ztake (len json) (d_pending (w_st w)) = json;
}.

Lemma queue_ok me phase size text w :
  idle me phase w → len text < size → size ≤ CHATD_MAX_JSON_SIZE →
  queued me phase text (queue_formatted size text w).2.
Proof.
  intros [Hid Hph Hp] Hl Hs. unfold queue_formatted.
  rewrite snprintf_ok by (done || (unfold INT_MAX, CHATD_MAX_JSON_SIZE in *; lia)).
  unfold queue_json, strlen. rewrite Z.geb_leb, (proj2 (Z.leb_gt _ _)) by lia. run.
  rewrite Hp. change (0 =? 0) with true. cbn [negb snd]. split; [done..|].
  fields. by apply ztake_blit.
Qed.

(** The flush: the message is sent and the queue is empty. *)
Lemma flush_ok me phase json w :
  queued me phase json w → 0 < len json →
  let w1 := (callback_chatd_control (LWS_CALLBACK_CLIENT_WRITEABLE (d_pending_len (w_st w))) w).2 in
  idle me phase w1 ∧ List.last (e_sent (w_env w1)) [] = json.
Proof.
  intros [Hid Hph Hp Ht] Hl. unfold callback_chatd_control. run.
  rewrite Hp, (proj2 (Z.eqb_neq _ 0)), Z.ltb_irrefl by lia. run. split; [done|].
  fields. rewrite Ht. apply List.last_last.
Qed.

(** What the daemon does with the three replies. *)
Lemma receive_eval json w :
  is_cstr json → len json < CHATD_MAX_JSON_SIZE →
  callback_chatd_control (LWS_CALLBACK_CLIENT_RECEIVE json 0 true) w = handle_receive json w.
Proof.
  intros Hc Hl. unfold callback_chatd_control.
  rewrite Z.geb_leb, (proj2 (Z.leb_gt _ _)) by done. cbn [orb negb Z.eqb].
  by rewrite c_string_id.
Qed.

Definition register_ok_json : bytes := qlit "{'type':'register_ok'}".
Definition auth_ok_json : bytes := qlit "{'type':'auth_ok'}".
Definition exists_json : bytes := error_json (lit "user already exists").

Lemma concrete_cstr s : bool_decide (is_cstr s) = true → is_cstr s.
Proof. apply bool_decide_eq_true. Qed.

Lemma hello_len u : chat_username_is_valid (Some u) = true → 0 < len (hello_json u) < 128.
Proof.
  intros Hl%username_valid_len. unfold hello_json. rewrite !len_app.
  assert (len (qlit "{'type':'hello','username':'") = 28) as -> by done.
  assert (len (qlit "'}") = 2) as -> by done. lia.
Qed.

Lemma daemon_registered me json w :
  idle me CHATD_PHASE_REGISTER w → chat_username_is_valid (Some (id_username me)) = true →
  json = register_ok_json ∨ json = exists_json →
  queued me CHATD_PHASE_HELLO (hello_json (id_username me))
    (callback_chatd_control (LWS_CALLBACK_CLIENT_RECEIVE json 0 true) w).2.
Proof.
  intros [Hid Hph Hp] Hu Hj. pose proof (hello_len _ Hu) as Hl.
  rewrite receive_eval by (destruct Hj as [->| ->]; first [by apply concrete_cstr; vm_compute
    | by vm_compute]).
  assert (Hw : idle me CHATD_PHASE_HELLO (set_field w_st (set_field d_phase
    (λ _, CHATD_PHASE_HELLO)) w)) by by split.
  pose proof (queue_ok _ _ 128 (hello_json (id_username me)) _ Hw ltac:(lia) ltac:(done)) as Hq.
  unfold handle_receive. destruct Hj as [->| ->].
  - assert (json_get_string (Some register_ok_json) (Some (lit "type")) 32
      = Some (lit "register_ok")) as -> by (vm_compute; reflexivity).
    run. rewrite Hph, bool_decide_true by done.
    change (streq (lit "register_ok") (lit "error")) with false.
    change (streq (lit "register_ok") (lit "register_ok")) with true. cbn [andb].
    unfold queue_hello. run. fields. by rewrite Hid.
  - assert (json_get_string (Some exists_json) (Some (lit "type")) 32
      = Some (lit "error")) as -> by (vm_compute; reflexivity).
    change (streq (lit "error") (lit "error")) with true. unfold handle_error.
    assert (json_get_string (Some exists_json) (Some (lit "code")) 128
      = Some (lit "user already exists")) as -> by (vm_compute; reflexivity).
    run. rewrite Hph, bool_decide_true by done. cbn [default from_option id andb].
    rewrite streq_refl. unfold queue_hello. run. fields. by rewrite Hid.
Qed.

Lemma daemon_challenged me b sig w :
  idle me CHATD_PHASE_HELLO w → chat_username_is_valid (Some (id_username me)) = true →
  len b = CHATD_CHALLENGE_BYTES → crypto_sign_detached b (id_secret_key me) = Some sig →
  len sig = crypto_sign_BYTES →
  queued me CHATD_PHASE_AUTH_RESPONSE (auth_response_json (sodium_bin2hex sig))
    (callback_chatd_control (LWS_CALLBACK_CLIENT_RECEIVE
       (challenge_json (sodium_bin2hex b)) 0 true) w).2.
Proof.
  intros [Hid Hph Hp] Hu Hb Hsig Hls.
  destruct (challenge_fields (id_username me) b Hu Hb) as [Ht Hc].
  destruct (objects_wf (id_username me) b Hu) as (_ & _ & _ & Hwf).
  assert (Hx : len (sodium_bin2hex b) = 64) by (rewrite bin2hex_len, Hb; done).
  assert (Hxs : len (sodium_bin2hex sig) = 128) by (rewrite bin2hex_len, Hls; done).
  rewrite receive_eval.
  2:{ rewrite challenge_text. by apply text_cstr. }
  2:{ unfold challenge_json. rewrite !len_app, Hx. by vm_compute. }
  set (w3 := set_field w_st (set_field d_phase (λ _, CHATD_PHASE_AUTH_RESPONSE))
    (set_field w_st (set_field d_has_challenge (λ _, true))
      (set_field w_st (set_field d_challenge (λ _, b)) w))).
  assert (Hw : idle me CHATD_PHASE_AUTH_RESPONSE w3) by by split.
  pose proof (queue_ok _ _ 256 (auth_response_json (sodium_bin2hex sig)) _ Hw) as Hq.
  unfold handle_receive. rewrite Ht. run. rewrite Hph.
  change (streq (lit "auth_challenge") (lit "error")) with false.
  rewrite bool_decide_false, bool_decide_true by done. cbn [andb].
  change (streq (lit "auth_challenge") (lit "auth_challenge")) with true. cbv iota.
  unfold handle_challenge. rewrite Hc. run. fold w3. unfold queue_auth_response. run.
  change (d_challenge (w_st w3)) with b. change (d_identity (w_st w3)) with (d_identity (w_st w)).
  rewrite Hid, Hsig. apply Hq; [|done].
  unfold auth_response_json. rewrite !len_app, Hxs. by vm_compute.
Qed.

Lemma daemon_online me w :
  idle me CHATD_PHASE_AUTH_RESPONSE w →
  d_phase (w_st (callback_chatd_control (LWS_CALLBACK_CLIENT_RECEIVE auth_ok_json 0 true) w).2)
  = CHATD_PHASE_ONLINE.
Proof.
  intros [Hid Hph Hp]. rewrite receive_eval by first [by apply concrete_cstr; vm_compute | by vm_compute].
  unfold handle_receive.
  assert (json_get_string (Some auth_ok_json) (Some (lit "type")) 32
    = Some (lit "auth_ok")) as -> by (vm_compute; reflexivity).
  run. rewrite Hph. change (streq (lit "auth_ok") (lit "error")) with false.
  rewrite !(bool_decide_false (CHATD_PHASE_AUTH_RESPONSE = _)) by done. cbn [andb].
  rewrite bool_decide_true by done. change (streq (lit "auth_ok") (lit "auth_ok")) with true.
  reflexivity.
Qed.

(** ** The server's side *)

Definition session_sent (ses : chat_server_session_t) : chat_server_session_t :=
  {| ses_username := ses_username ses;
     ses_challenge := ses_challenge ses;
     ses_has_challenge := ses_has_challenge ses;
     ses_authenticated := ses_authenticated ses;
     ses_pending := ses_pending ses;
     ses_pending_len := 0 |}.

(** The connection is open, and its session is [ses]. *)
Record serves (s : server) (ses : chat_server_session_t) : Prop := {
  serves_wf : users_wf (srv_users s);
  serves_open : opened wsi p s ses;
}.

Lemma queue_error s ses code :
  opened wsi p s ses → len (error_json code) < 256 →
  outcome (send_error wsi p code) s
    (λ s', s' = put_session s p (session_queue ses (error_json code))) False.
Proof using H.
  intros Ho Hl. unfold send_error. rewrite snprintf_ok by (done || (unfold INT_MAX; lia)).
  apply send_json_eval; [done|]. unfold CHAT_SERVER_MAX_JSON_SIZE. lia.
Qed.

(** The queued reply goes out. *)
Lemma deliver_eval json s s1 ses reply :
  is_cstr json → len json < CHAT_SERVER_MAX_JSON_SIZE → 0 < len reply →
  outcome (handle_message wsi p json) s
    (λ s', s' = put_session s1 p (session_queue ses reply)) False →
  deliver json s = Some (reply, put_session s1 p (session_sent (session_queue ses reply))).
Proof using H.
  intros Hc Hl Hr Ho. unfold deliver, callback_chat_control.
  rewrite Z.geb_leb, (proj2 (Z.leb_gt _ _)) by done. cbn [orb negb Z.eqb].
  rewrite c_string_id by done. unfold outcome in Ho. unfold mbind, M_bind.
  destruct (handle_message wsi p json s) as [[z s2]|]; [|done]. subst s2.
  assert (Hq : srv_mem (put_session s1 p (session_queue ses reply)) !! p
    = Some (session_queue ses reply)) by apply lookup_insert_eq.
  unfold load, store, mret, M_ret. rewrite Hq. cbn [ses_pending_len session_queue].
  rewrite Hq. change (ses_pending_len (session_queue ses reply)) with (len reply).
  rewrite (proj2 (Z.eqb_neq _ 0)), Z.ltb_irrefl by lia. rewrite Hq.
  change (ses_pending (session_queue ses reply)) with (blit (ses_pending ses) reply).
  rewrite ztake_blit by done.
  do 2 f_equal. unfold put_session, with_mem. cbn [srv_users srv_mem srv_conns srv_rng].
  by rewrite insert_insert_eq.
Qed.

(** The reply to a message whose handling is known. *)
Lemma answered json s s1 ses reply :
  is_cstr json → len json < CHAT_SERVER_MAX_JSON_SIZE → 0 < len reply → serves s1 ses →
  outcome (handle_message wsi p json) s
    (λ s', s' = put_session s1 p (session_queue ses reply)) False →
  ∃ s', deliver json s = Some (reply, s') ∧ serves s' (session_sent (session_queue ses reply))
    ∧ directory s' = directory s1.
Proof using H.
  intros Hc Hl Hr [Hwf [Hw _]] Ho. eexists. split; [by apply deliver_eval|].
  split; [|done]. split; [done|]. split; [done|apply lookup_insert_eq].
Qed.

(** A message of the daemon is short. *)
Lemma login_len u b n :
  chat_username_is_valid (Some u) = true → len b = n → 0 ≤ n ≤ 64 →
  len (register_json u (sodium_bin2hex b)) < 320 ∧ len (auth_response_json (sodium_bin2hex b)) < 256.
Proof.
  intros Hl%username_valid_len Hb Hn. unfold register_json, auth_response_json.
  rewrite !len_app, bin2hex_len, Hb.
  change (len (qlit "{'type':'register','username':'")) with 31.
  change (len (qlit "','public_key':'")) with 16. change (len (qlit "'}")) with 2.
  change (len (qlit "{'type':'auth_response','signature':'")) with 37. lia.
Qed.

(** [who] is registered with [key], or not at all, and there is room. *)
Definition claimable (s : server) (who key : bytes) : Prop :=
  (size (directory s) < CHAT_SERVER_MAX_USERS)%nat
  ∧ ∀ e, directory s !! who = Some e → entry_key e = key.

(** The three messages of a login at the server. *)

Definition register_reply (result : chat_server_users_result_t) : bytes :=
  if bool_decide (result = CHAT_SERVER_USERS_OK) then register_ok_json
  else error_json (lit (chat_server_users_result_name result)).

Lemma register_answer s ses who key result users :
  serves s ses → chat_username_is_valid (Some who) = true → who ≠ lit "public_key" →
  len key = crypto_sign_PUBLICKEYBYTES →
  chat_server_users_register (srv_users s) (Some who) (Some key) = (result, users) →
  users_wf users →
  ∃ s' ses', deliver (register_json who (sodium_bin2hex key)) s = Some (register_reply result, s')
    ∧ serves s' ses' ∧ directory s' = users_abs users.
Proof.
  intros [Hwf Ho] Hu Hn Hk E Hwf'. destruct (register_fields who key Hu Hn Hk) as [Ht Hp].
  destruct (objects_wf who key Hu) as (Ho1 & _).
  destruct (login_len who key _ Hu Hk ltac:(done)) as [Hl _].
  destruct (answered (register_json who (sodium_bin2hex key)) s (with_users s users) ses
    (register_reply result) ltac:(rewrite register_text; by apply text_cstr)
    ltac:(unfold CHAT_SERVER_MAX_JSON_SIZE; lia) ltac:(by destruct result) ltac:(by split))
    as (s' & Hd & Hs' & Hdir); [|by eexists s', _].
  unfold handle_message. rewrite Ht.
  change (streq (lit "register") (lit "register")) with true. cbv iota.
  unfold handle_register. rewrite Hp.
  apply outcome_get_users. rewrite E. apply outcome_set_users. unfold register_reply.
  destruct result; [by apply send_json_eval|by apply queue_error..].
Qed.

Lemma full_register users who key :
  users_wf users → chat_username_is_valid (Some who) = true →
  size (users_abs users) = CHAT_SERVER_MAX_USERS →
  chat_server_users_register users (Some who) (Some key) = (CHAT_SERVER_USERS_ERR_FULL, users).
Proof using.
  intros Hwf Hu Hs. rewrite abs_size in Hs by done. unfold chat_server_users_register.
  rewrite Hu, Hs. by rewrite Nat.leb_refl.
Qed.

Lemma server_registers s ses who key :
  serves s ses → chat_username_is_valid (Some who) = true → who ≠ lit "public_key" →
  len key = crypto_sign_PUBLICKEYBYTES → claimable s who key →
  ∃ reply s' ses', deliver (register_json who (sodium_bin2hex key)) s = Some (reply, s')
    ∧ (reply = register_ok_json ∨ reply = exists_json) ∧ serves s' ses'
    ∧ ∃ conn, directory s' = <[who := {| entry_key := key; entry_conn := conn |}]> (directory s).
Proof.
  intros Hs Hu Hn Hk [Hsz Hkey]. pose proof (serves_wf _ _ Hs) as Hwf.
  pose proof (register_refines (srv_users s) who key Hwf Hk) as Hr.
  pose proof (register_answer s ses who key) as Ha.
  destruct (chat_server_users_register (srv_users s) (Some who) (Some key)) as [res users].
  destruct res; [| |exfalso; lia| |done].
  - destruct Hr as (Hwf' & _ & _ & Hd & Hins).
    destruct (Ha _ _ Hs Hu Hn Hk eq_refl Hwf') as (s' & ses' & Hd' & Hs' & Hdir).
    eexists _, s', ses'. split_and!; [done|by left|done|]. exists None. by rewrite Hdir.
  - destruct Hr as [-> Hv]. congruence.
  - destruct Hr as [-> [e He]].
    destruct (Ha _ _ Hs Hu Hn Hk eq_refl Hwf) as (s' & ses' & Hd' & Hs' & Hdir).
    eexists _, s', ses'. split_and!; [done|by right|done|].
    exists (entry_conn e). rewrite Hdir, insert_id; [done|].
    rewrite He. f_equal. rewrite <- (Hkey _ He). by destruct e.
Qed.

Lemma server_challenges s ses who e :
  serves s ses → chat_username_is_valid (Some who) = true → directory s !! who = Some e →
  ∃ c s' ses', deliver (hello_json who) s = Some (challenge_json (sodium_bin2hex c), s')
    ∧ len c = CHATD_CHALLENGE_BYTES ∧ serves s' ses' ∧ ses_username ses' = who
    ∧ ses_challenge ses' = c ∧ ses_has_challenge ses' = true ∧ directory s' = directory s.
Proof.
  intros [Hwf Ho] Hu He. destruct (hello_fields who Hu) as [Ht Hp].
  destruct (objects_wf who [] Hu) as (_ & Ho1 & _). pose proof (hello_len who Hu) as Hl.
  destruct (randombytes_buf CHAT_SERVER_CHALLENGE_BYTES (srv_rng s)) as [c g] eqn:Er.
  assert (Hc : len c = 32) by (pose proof (randombytes_len CHAT_SERVER_CHALLENGE_BYTES (srv_rng s)
    ltac:(done)) as Hc; rewrite Er in Hc; exact Hc).
  set (s1 := put_session (with_rng s g) p (session_challenged ses who c)).
  assert (Hs1 : serves s1 (session_challenged ses who c)).
  { split; [done|]. split; [apply Ho|apply lookup_insert_eq]. }
  destruct (answered (hello_json who) s s1 _ (challenge_json (sodium_bin2hex c))
    ltac:(rewrite hello_text; by apply text_cstr) ltac:(unfold CHAT_SERVER_MAX_JSON_SIZE; lia)
    ltac:(unfold challenge_json; rewrite !len_app, bin2hex_len, Hc; done) Hs1)
    as (s' & Hd & Hs' & Hdir); [|by eexists c, s', _; split_and!].
  unfold handle_message. rewrite Ht.
  change (streq (lit "hello") (lit "register")) with false.
  change (streq (lit "hello") (lit "hello")) with true. cbv iota.
  by apply handle_hello_eval.
Qed.

Lemma server_authenticates s ses who e signature :
  serves s ses → chat_username_is_valid (Some who) = true → directory s !! who = Some e →
  ses_username ses = who → ses_has_challenge ses = true →
  len signature = crypto_sign_BYTES →
  crypto_sign_verify_detached signature (ses_challenge ses) (entry_key e) = 0 →
  ∃ s' ses', deliver (auth_response_json (sodium_bin2hex signature)) s = Some (auth_ok_json, s')
    ∧ serves s' ses' ∧ ses_username ses' = who ∧ ses_authenticated ses' = true
    ∧ directory s' = <[who := {| entry_key := entry_key e; entry_conn := Some (wsi, p) |}]>
                       (directory s).
Proof.
  intros [Hwf Ho] Hu He Hn Hch Hsl Hver. destruct (response_fields who signature Hu Hsl) as [Ht Hp].
  destruct (objects_wf who signature Hu) as (_ & _ & Ho1 & _).
  destruct (login_len who signature _ Hu Hsl ltac:(done)) as [_ Hl].
  pose proof (set_online_refines (srv_users s) who wsi p Hwf) as Hr.
  destruct (chat_server_users_set_online (srv_users s) (Some who) (Some wsi) (Some p))
    as [res r'] eqn:E.
  destruct res; try done; [|exfalso; destruct Hr; congruence].
  destruct Hr as (Hwf' & e' & He' & Hdir). assert (e' = e) as -> by congruence.
  set (s1 := with_users (put_session s p (session_verified ses true)) r').
  assert (Hs1 : serves s1 (session_verified ses true)).
  { split; [done|]. split; [apply Ho|apply lookup_insert_eq]. }
  destruct (answered (auth_response_json (sodium_bin2hex signature)) s s1 _ auth_ok_json
    ltac:(rewrite response_text; by apply text_cstr) ltac:(unfold CHAT_SERVER_MAX_JSON_SIZE; lia)
    ltac:(done) Hs1) as (s' & Hd & Hs' & Hdir').
  - unfold handle_message. rewrite Ht.
    change (streq (lit "auth_response") (lit "register")) with false.
    change (streq (lit "auth_response") (lit "hello")) with false.
    change (streq (lit "auth_response") (lit "auth_response")) with true. cbv iota.
    unfold handle_auth_response. eapply outcome_load; [apply Ho|].
    rewrite Hch, Hn, bool_decide_false by (intros ->; done). cbn [negb orb]. rewrite Hp.
    apply outcome_get_users. pose proof (find_refines _ Hwf who) as Hf.
    destruct (chat_server_users_find (srv_users s) (Some who)) as [i|]; [|congruence].
    destruct Hf as (u & Hi & _ & Hu'). assert (user_entry u = e) as <- by congruence.
    eapply outcome_user_at; [by apply live_lookup in Hi as [? _]|].
    change (entry_key (user_entry u)) with (user_identity_pk u) in Hver. rewrite Hver.
    cbn [negb Z.eqb]. eapply outcome_store; [apply Ho|].
    rewrite E. apply outcome_set_users. rewrite bool_decide_true by done. cbn [negb].
    by apply send_json_eval; [apply Hs1|].
  - eexists s', _. split_and!; [done|done|done|done|]. by rewrite Hdir'.
Qed.

(** ** Logging in *)

Lemma register_len u hex : 0 < len (register_json u hex).
Proof using.
  unfold register_json. rewrite len_app.
  pose proof (len_nonneg (u ++ qlit "','public_key':'" ++ hex ++ qlit "'}")).
  change (len (qlit "{'type':'register','username':'")) with 31. lia.
Qed.

Lemma round_eval me phase json reply w s s' :
  queued me phase json w → 0 < len json → deliver json s = Some (reply, s') →
  ∃ w1, idle me phase w1 ∧ round (w, s)
    = Some ((callback_chatd_control (LWS_CALLBACK_CLIENT_RECEIVE reply 0 true) w1).2, s').
Proof.
  intros Hq Hl Hd. destruct (flush_ok _ _ _ _ Hq Hl) as [Hi Hs]. eexists. split; [exact Hi|].
  unfold round. cbn [fst snd]. by rewrite Hs, Hd.
Qed.

Lemma daemon_connects me dwsi w :
  d_identity (w_st w) = me → d_pending_len (w_st w) = 0 →
  chat_username_is_valid (Some (id_username me)) = true →
  len (id_public_key me) = crypto_sign_PUBLICKEYBYTES →
  queued me CHATD_PHASE_REGISTER
    (register_json (id_username me) (sodium_bin2hex (id_public_key me)))
    (callback_chatd_control (LWS_CALLBACK_CLIENT_ESTABLISHED dwsi) w).2.
Proof.
  intros Hid Hp Hu Hk. destruct (login_len _ _ _ Hu Hk ltac:(done)) as [Hl _].
  unfold callback_chatd_control, queue_register. run. fields. rewrite Hid.
  by apply queue_ok; [split|lia|].
Qed.

(** C4: a daemon whose control connection is established gets online in three
    exchanges of messages, if the server has room for a user and does not have
    the daemon's name with another key: the daemon is then in the phase
    [CHATD_PHASE_ONLINE], the server has authenticated the connection as the
    daemon's user, and its directory records the daemon's key and this
    connection for that name and is unchanged for every other name.  The
    libraries are assumed to behave as documented, and both ends deliver what
    the other has queued. *)
Theorem login_succeeds dwsi (w : world) (s : server) ses :
  let me := d_identity (w_st w) in
  let who := id_username me in
  chat_username_is_valid (Some who) = true → who ≠ lit "public_key" →
  sign_key_pair (id_public_key me) (id_secret_key me) → d_pending_len (w_st w) = 0 →
  serves s ses → claimable s who (id_public_key me) →
  let w0 := (callback_chatd_control (LWS_CALLBACK_CLIENT_ESTABLISHED dwsi) w).2 in
  ∃ w' s' ses', rounds 3 (w0, s) = Some (w', s')
    ∧ d_phase (w_st w') = CHATD_PHASE_ONLINE
    ∧ serves s' ses' ∧ ses_username ses' = who ∧ ses_authenticated ses' = true
    ∧ directory s' = <[who := {| entry_key := id_public_key me; entry_conn := Some (wsi, p) |}]>
                       (directory s).
Proof.
  intros me who Hu Hn Hkeys Hp Hs Hclaim w0.
  destruct (sign_key_pair_len _ _ Hkeys) as [Hk _].
  pose proof (daemon_connects me dwsi w eq_refl Hp Hu Hk) as Hq. fold w0 in Hq.
  destruct (server_registers s ses who _ Hs Hu Hn Hk Hclaim)
    as (reply & s1 & ses1 & Hd1 & Hreply & Hs1 & conn & Hdir1).
  destruct (round_eval _ _ _ _ _ _ _ Hq ltac:(apply register_len) Hd1)
    as (w1 & Hi1 & Hr1).
  pose proof (daemon_registered _ _ _ Hi1 Hu Hreply) as Hq1.
  destruct (server_challenges s1 ses1 who _ Hs1 Hu ltac:(rewrite Hdir1; apply lookup_insert_eq))
    as (c & s2 & ses2 & Hd2 & Hc & Hs2 & Hn2 & Hch2 & Hhas2 & Hdir2).
  destruct (round_eval _ _ _ _ _ _ _ Hq1 (proj1 (hello_len _ Hu)) Hd2) as (w2 & Hi2 & Hr2).
  destruct (sign_verify _ _ c Hkeys) as (sig & Hsig & Hsl & Hver).
  pose proof (daemon_challenged _ _ _ _ Hi2 Hu Hc Hsig Hsl) as Hq2.
  destruct (server_authenticates s2 ses2 who _ sig Hs2 Hu
    ltac:(rewrite Hdir2, Hdir1; apply lookup_insert_eq) Hn2 Hhas2 Hsl ltac:(by rewrite Hch2))
    as (s3 & ses3 & Hd3 & Hs3 & Hn3 & Ha3 & Hdir3).
  destruct (round_eval _ _ _ _ _ _ _ Hq2 ltac:(unfold auth_response_json; rewrite !len_app,
    bin2hex_len, Hsl; done) Hd3) as (w3 & Hi3 & Hr3).
  eexists _, s3, ses3. split; [cbn [rounds]; by rewrite Hr1, Hr2, Hr3|].
  split_and!; [by eapply daemon_online|done..|].
  by rewrite Hdir3, Hdir2, Hdir1, insert_insert_eq.
Qed.

(** ** Lockouts *)

(** An error message ends the daemon (its loop stops in the phase
    [CHATD_PHASE_FAILED]) unless it is one of the two the daemon expects: so
    does [peer_busy], with which the server answers a message to a user whose
    queue is not empty. *)
Lemma server_error_is_fatal w (json code : bytes) :
  is_cstr json → len json < CHATD_MAX_JSON_SIZE →
  json_get_string (Some json) (Some (lit "type")) 32 = Some (lit "error") →
  json_get_string (Some json) (Some (lit "code")) 128 = Some code →
  d_phase (w_st w) ≠ CHATD_PHASE_REGISTER ∨ code ≠ lit "user already exists" →
  d_lookup_client_fd (w_st w) < 0 ∨ code ≠ lit "peer_offline" →
  d_phase (w_st (callback_chatd_control (LWS_CALLBACK_CLIENT_RECEIVE json 0 true) w).2)
  = CHATD_PHASE_FAILED.
Proof.
  intros Hc Hl Ht Hcode H1 H2. rewrite receive_eval by done.
  unfold handle_receive. rewrite Ht. change (streq (lit "error") (lit "error")) with true.
  unfold handle_error. rewrite Hcode. cbn [default from_option]. run.
  replace (bool_decide (d_phase (w_st w) = CHATD_PHASE_REGISTER)
           && streq (id code) (lit "user already exists")) with false; cycle 1.
  { symmetry. apply andb_false_iff. destruct H1; [left; by apply bool_decide_eq_false|].
    right. by apply streq_false. }
  replace ((d_lookup_client_fd (w_st w) >=? 0) && streq (id code) (lit "peer_offline")) with false;
    cycle 1.
  { symmetry. apply andb_false_iff. destruct H2; [left; lia|]. right. by apply streq_false. }
  run. by destruct (when _ _ w).
Qed.

Lemma busy_peer_ends_daemon w :
  d_phase (w_st w) = CHATD_PHASE_ONLINE →
  d_phase (w_st (callback_chatd_control
    (LWS_CALLBACK_CLIENT_RECEIVE (error_json (lit "peer_busy")) 0 true) w).2)
  = CHATD_PHASE_FAILED.
Proof.
  intros Hph. apply (server_error_is_fatal _ _ (lit "peer_busy"));
    first [by apply concrete_cstr; vm_compute | by vm_compute | left; congruence
      | right; by apply (bool_decide_eq_false_1 _); vm_compute].
Qed.

(** C37: once the registry is full, a daemon whose user registered before is
    locked out: the server answers its registration, which every daemon sends
    first, with the full registry and not with the existing user, so the daemon
    gives up in the phase [CHATD_PHASE_FAILED] instead of going on to
    authenticate with its registered key. *)
Theorem full_registry_locks_out dwsi (w : world) (s : server) ses e :
  let me := d_identity (w_st w) in
  let who := id_username me in
  chat_username_is_valid (Some who) = true → who ≠ lit "public_key" →
  len (id_public_key me) = crypto_sign_PUBLICKEYBYTES → d_pending_len (w_st w) = 0 →
  serves s ses → size (directory s) = CHAT_SERVER_MAX_USERS →
  directory s !! who = Some e → entry_key e = id_public_key me →
  let w0 := (callback_chatd_control (LWS_CALLBACK_CLIENT_ESTABLISHED dwsi) w).2 in
  ∃ w' s', rounds 1 (w0, s) = Some (w', s')
    ∧ d_phase (w_st w') = CHATD_PHASE_FAILED ∧ directory s' = directory s.
Proof.
  intros me who Hu Hn Hk Hp Hs Hfull He Hkey w0.
  pose proof (daemon_connects me dwsi w eq_refl Hp Hu Hk) as Hq. fold w0 in Hq.
  pose proof (full_register (srv_users s) who (id_public_key me) (serves_wf _ _ Hs) Hu Hfull) as E.
  destruct (register_answer s ses who _ _ _ Hs Hu Hn Hk E (serves_wf _ _ Hs))
    as (s' & ses' & Hd & Hs' & Hdir).
  destruct (round_eval _ _ _ _ _ _ _ Hq (register_len _ _) Hd) as (w1 & Hi & Hr).
  eexists _, s'. split; [cbn [rounds]; by rewrite Hr|]. split; [|done].
  apply (server_error_is_fatal w1 _ (lit "user registry full"));
    first [by apply concrete_cstr; vm_compute | by vm_compute
      | right; by apply (bool_decide_eq_false_1 _); vm_compute].
Qed.

(** ** Reconnection *)

(** One attempt: libwebsockets reports the connection, closes it when the
    callback returns a negative number, and reports that.  The result is the
    callback's. *)
Definition attempt (dwsi : positive) : D Z :=
  r ← callback_chatd_control (LWS_CALLBACK_CLIENT_ESTABLISHED dwsi);
  when (r <? 0) (_ ← callback_chatd_control LWS_CALLBACK_CLIENT_CLOSED; mret tt);;
  mret r.
Fixpoint attempts_run (attempts : list positive) : D (list Z) :=
  match attempts with
  | [] => mret []
  | dwsi :: attempts => r ← attempt dwsi; rs ← attempts_run attempts; mret (r :: rs)
  end.

(** The message [json] waits. *)
Definition waits (json : bytes) (w : world) : Prop :=
  d_pending_len (w_st w) = len json ∧ ztake (len json) (d_pending (w_st w)) = json.

Ltac keep_steps :=
  repeat first
    [ apply keeps_ret | apply keeps_gets
    | apply keeps_bind; [|intros ?]
    | apply triple_modify; intros ? ?; exact (conj (proj1 ltac:(eassumption)) (proj2 ltac:(eassumption)))
    | progress unfold when, state, env
    | case_match ].

Lemma closed_waits json : keeps (waits json) (callback_chatd_control LWS_CALLBACK_CLIENT_CLOSED).
Proof.
  unfold callback_chatd_control, control_lost, write_lookup_response, write_response,
    write_ipc_line, close_lookup_client, sys_close, time_now.
  keep_steps.
Qed.

Lemma established_waits json dwsi w :
  0 < len json → waits json w →
  let r := callback_chatd_control (LWS_CALLBACK_CLIENT_ESTABLISHED dwsi) w in
  r.1 = -1 ∧ waits json r.2.
Proof.
  intros Hl [Hp Hj]. unfold callback_chatd_control, queue_register, queue_formatted. run. fields.
  destruct (snprintf _ _) as [text|]; [|done].
  unfold queue_json. destruct (_ >=? _); [done|]. run. fields. rewrite Hp.
  rewrite (proj2 (Z.eqb_neq _ 0)) by lia. done.
Qed.

(** C38: a message that is queued when the control connection closes keeps the
    daemon off the server for good: it stays queued, so every later attempt
    to connect fails to queue the registration and is closed again. *)
Theorem unsent_message_blocks_reconnection json attempts (w : world) :
  0 < len json → waits json w →
  let lost := (callback_chatd_control LWS_CALLBACK_CLIENT_CLOSED w).2 in
  let '(results, w') := attempts_run attempts lost in
  results = replicate (length attempts) (-1) ∧ waits json w'.
Proof.
  intros Hl Hw lost. assert (Hlost : waits json lost) by by apply closed_waits.
  clearbody lost. clear Hw. revert lost Hlost.
  induction attempts as [|dwsi attempts IH]; intros lost Hlost; [done|].
  cbn [attempts_run length replicate]. unfold attempt. run.
  destruct (established_waits json dwsi lost Hl Hlost) as [Hr Hw].
  destruct (callback_chatd_control (LWS_CALLBACK_CLIENT_ESTABLISHED dwsi) lost) as [r w1].
  cbn [fst snd] in *. subst r. change (-1 <? 0) with true. unfold when.
  pose proof (closed_waits json w1 Hw) as Hw2. unfold mbind, stateM_bind, mret, stateM_ret.
  destruct (callback_chatd_control LWS_CALLBACK_CLIENT_CLOSED w1) as [r w2]. cbn [fst snd] in *.
  specialize (IH w2 Hw2). destruct (attempts_run attempts w2) as [rs w3].
  destruct IH as [-> Hw3]. done.
Qed.
End system.

(** ** Witnesses *)

Module SystemDemo.
(** A server that has done [ops], and has just opened connection 1. *)
Definition server_after (ops : list users_op) : server :=
  {| srv_users := (run_ops users_exec ops (chat_server_users_init garbage_registry)).2;
     srv_mem := {[2%positive := zero_session]}; srv_conns := {[1%positive := 2%positive]};
     srv_rng := (7 : @rng (@lib_random reference_libs)) |}.

Lemma server_after_serves ops :
  Forall op_ok ops → serves 1%positive 2%positive (server_after ops) zero_session.
Proof.
  intros Hops. split; [|split; apply lookup_insert_eq].
  by apply run_refines; [apply init_wf; vm_compute|].
Qed.

(** Decimal names. *)
Definition digit (n : nat) : ascii := ascii_of_nat (48 + n mod 10).
Definition user_name (n : nat) : bytes :=
  ["u"%char; digit (n / 100); digit (n / 10); digit n].
Definition full_ops : list users_op :=
  OpRegister (lit "alice") (Demo.key 5)
  :: ((λ n, OpRegister (user_name n) (zeros 32)) <$> seq 1 (CHAT_SERVER_MAX_USERS - 1)).

Lemma full_ops_ok : Forall op_ok full_ops.
Proof.
  constructor; [done|]. apply Forall_forall. intros op (n & -> & _)%list_elem_of_fmap. done.
Qed.
End SystemDemo.

Lemma login_succeeds_witness :
  ∃ w' s' ses',
    rounds 1 2 3 ((callback_chatd_control (LWS_CALLBACK_CLIENT_ESTABLISHED 1) Demo.world0).2,
                  SystemDemo.server_after []) = Some (w', s')
    ∧ d_phase (w_st w') = CHATD_PHASE_ONLINE
    ∧ serves 1 2 s' ses' ∧ ses_username ses' = lit "alice" ∧ ses_authenticated ses' = true
    ∧ directory s' = <[lit "alice" := {| entry_key := Demo.key 5; entry_conn := Some (1%positive, 2%positive) |}]>
                       (directory (SystemDemo.server_after [])).
Proof.
  exact (login_succeeds 1 2 1 Demo.world0 (SystemDemo.server_after []) zero_session
    ltac:(vm_compute; reflexivity) ltac:(apply (bool_decide_eq_false_1 _); vm_compute; reflexivity)
    ltac:(split; vm_compute; reflexivity) ltac:(vm_compute; reflexivity)
    (SystemDemo.server_after_serves [] (Forall_nil_2 _))
    ltac:(split; [rewrite abs_size by (exact (serves_wf _ _ _ _ (SystemDemo.server_after_serves [] (Forall_nil_2 _)))); vm_compute; lia
      | intros e He; vm_compute in He; discriminate He])).
Defined.

Lemma full_registry_locks_out_witness :
  ∃ w' s',
    rounds 1 2 1 ((callback_chatd_control (LWS_CALLBACK_CLIENT_ESTABLISHED 1) Demo.world0).2,
                  SystemDemo.server_after SystemDemo.full_ops) = Some (w', s')
    ∧ d_phase (w_st w') = CHATD_PHASE_FAILED
    ∧ directory s' = directory (SystemDemo.server_after SystemDemo.full_ops).
Proof.
  pose proof (SystemDemo.server_after_serves _ SystemDemo.full_ops_ok) as Hs.
  exact (full_registry_locks_out 1 2 1 Demo.world0 (SystemDemo.server_after SystemDemo.full_ops)
    zero_session {| entry_key := Demo.key 5; entry_conn := None |}
    ltac:(vm_compute; reflexivity) ltac:(apply (bool_decide_eq_false_1 _); vm_compute; reflexivity)
    ltac:(vm_compute; reflexivity) ltac:(vm_compute; reflexivity) Hs
    ltac:(rewrite (abs_size _ (serves_wf _ _ _ _ Hs)); vm_compute; reflexivity)
    ltac:(vm_compute; reflexivity) ltac:(vm_compute; reflexivity)).
Defined.

Lemma unsent_message_blocks_reconnection_witness :
  let w := (queue_hello Demo.world0).2 in
  let lost := (callback_chatd_control LWS_CALLBACK_CLIENT_CLOSED w).2 in
  let '(results, w') := attempts_run [7%positive; 8%positive] lost in
  results = [-1; -1] ∧ waits (hello_json (lit "alice")) w'.
Proof.
  exact (unsent_message_blocks_reconnection (hello_json (lit "alice")) [7%positive; 8%positive]
    (queue_hello Demo.world0).2 ltac:(vm_compute; reflexivity)
    ltac:(split; vm_compute; reflexivity)).
Defined.

(** The registration of a user named [public_key] is refused: the server reads
    the member [public_key] at the first occurrence of the quoted word, which
    is the value of [username]. *)
Lemma public_key_name_refused key :
  chat_username_is_valid (Some (lit "public_key")) = true
  ∧ parse_register (register_json (lit "public_key") (sodium_bin2hex (Demo.key key))) = None.
Proof.
  split; [vm_compute; reflexivity|]. set (hex := sodium_bin2hex (Demo.key key)).
  assert (Hk : json_get_string (Some (register_json (lit "public_key") hex))
    (Some (lit "public_key")) CHAT_SERVER_HEX_PUBLIC_KEY_LEN = None) by (vm_compute; reflexivity).
  unfold parse_register. rewrite Hk. by case_match.
Qed.
